(** * Submission validation and voucher issuance of the achievements API

    A shallow embedding of the TypeScript worker: the achievement catalog,
    the task-code conversions of [utils/contract], the interactive-element
    graders, the quiz, secret and transaction validators, and the
    [POST /submit] handler with its completion store.

    Conventions of the embedding.
    - A JavaScript [number] is a rational ([Q]); [NaN] is [None] where the
      code can produce it.  Point values, counts, and the sums and products
      of the graders are exact; the percentage that decides a quiz is
      computed as the code computes it, in double precision ([Double]).
    - A JavaScript string is a [string] of 8-bit characters; case mapping and
      trimming act on the ASCII range.
    - A value that arrives as JSON (request body, stored answers, RPC
      replies) is a [jsval] and is inspected dynamically, as the code does;
      a [TypeError] is an explicit [Throw].
    - The question bank and the secret table are typed as [types.ts]
      declares them.
    - Everything outside the worker (clock, HTTP fetch, D1, the signer) is
      an event answered by an oracle. *)

From Stdlib Require Import QArith Qround Qabs ZArith List String Ascii Bool Lia Lqa.
From stdpp Require Import gmap strings list fin_maps.

Local Open Scope string_scope.
Local Open Scope Z_scope.
Set Warnings "-register-all".

(** ** JavaScript strings *)

Module JsString.

Definition code (c : ascii) : Z := Z.of_nat (nat_of_ascii c).

Definition upper_ascii (c : ascii) : ascii :=
  if (97 <=? code c) && (code c <=? 122)
  then ascii_of_nat (nat_of_ascii c - 32) else c.

Definition lower_ascii (c : ascii) : ascii :=
  if (65 <=? code c) && (code c <=? 90)
  then ascii_of_nat (nat_of_ascii c + 32) else c.

Fixpoint map_string (f : ascii -> ascii) (s : string) : string :=
  match s with
  | EmptyString => EmptyString
  | String c s' => String (f c) (map_string f s')
  end.

Definition toUpperCase : string -> string := map_string upper_ascii.
Definition toLowerCase : string -> string := map_string lower_ascii.

(** White space of the ASCII range: TAB, LF, VT, FF, CR, SP. *)
Definition is_space (c : ascii) : bool :=
  ((9 <=? code c) && (code c <=? 13)) || (code c =? 32).

Fixpoint trimStart (s : string) : string :=
  match s with
  | String c s' => if is_space c then trimStart s' else s
  | EmptyString => EmptyString
  end.

Fixpoint trimEnd (s : string) : string :=
  match s with
  | EmptyString => EmptyString
  | String c s' =>
      match trimEnd s' with
      | EmptyString => if is_space c then EmptyString else String c EmptyString
      | t => String c t
      end
  end.

Definition trim (s : string) : string := trimEnd (trimStart s).

Definition startsWith (s p : string) : bool := String.prefix p s.

Fixpoint drop (n : nat) (s : string) : string :=
  match n, s with
  | O, _ => s
  | S n', String _ s' => drop n' s'
  | S _, EmptyString => EmptyString
  end.

Definition endsWith (s p : string) : bool :=
  (String.length p <=? String.length s)%nat
  && String.eqb (drop (String.length s - String.length p) s) p.

(** [s.slice(n)] for a non-negative [n]. *)
Definition slice_from (n : nat) (s : string) : string := drop n s.

(** [s.slice(a, b)] for [0 <= a <= b]. *)
Definition slice (a b : nat) (s : string) : string :=
  String.substring a (b - a) (* clipped at the end of [s] *) s.

Fixpoint repeat_char (c : ascii) (n : nat) : string :=
  match n with
  | O => EmptyString
  | S n' => String c (repeat_char c n')
  end.

(** [s.padStart(n, c)] for a one-character filler. *)
Definition padStart (n : nat) (c : ascii) (s : string) : string :=
  repeat_char c (n - String.length s) ++ s.

Fixpoint forallb_string (f : ascii -> bool) (s : string) : bool :=
  match s with
  | EmptyString => true
  | String c s' => f c && forallb_string f s'
  end.

Definition is_digit (c : ascii) : bool := (48 <=? code c) && (code c <=? 57).

Definition is_hex (c : ascii) : bool :=
  is_digit c
  || ((97 <=? code c) && (code c <=? 102))
  || ((65 <=? code c) && (code c <=? 70)).

(** Value of a character as a digit in a radix up to 36. *)
Definition digit_value (radix : Z) (c : ascii) : option Z :=
  let d :=
    if is_digit c then Some (code c - 48)
    else if (97 <=? code c) && (code c <=? 122) then Some (code c - 87)
    else if (65 <=? code c) && (code c <=? 90) then Some (code c - 55)
    else None in
  match d with
  | Some v => if v <? radix then Some v else None
  | None => None
  end.

(** The longest prefix of digits, read in the radix; [acc] is [None] until
    a digit has been seen. *)
Fixpoint parse_digits (radix : Z) (acc : option Z) (s : string) : option Z :=
  match s with
  | EmptyString => acc
  | String c s' =>
      match digit_value radix c with
      | Some d => parse_digits radix (Some (default 0 acc * radix + d)) s'
      | None => acc
      end
  end.

Definition strip_hex_prefix (s : string) : string :=
  match s with
  | String "0" (String "x" s') => s'
  | String "0" (String "X" s') => s'
  | _ => s
  end.

(** [parseInt(s, radix)] for radix 10 or 16; [None] is [NaN].  Leading white
    space and a sign are skipped, radix 16 accepts a [0x] prefix, and
    reading stops at the first character that is not a digit. *)
Definition parseInt (s : string) (radix : Z) : option Z :=
  let s1 := trimStart s in
  let '(sign, s2) :=
    match s1 with
    | String "-" r => (-1, r)
    | String "+" r => (1, r)
    | _ => (1, s1)
    end in
  let s3 := if radix =? 16 then strip_hex_prefix s2 else s2 in
  Z.mul sign <$> parse_digits radix None s3.

(** [s.includes(pattern)] *)
Definition includes (s pattern : string) : bool :=
  bool_decide (is_Some (String.index 0 pattern s)).

(** [s.replace(pattern, replacement)] with a string pattern: the first
    occurrence only. *)
Definition replace (pattern replacement s : string) : string :=
  match String.index 0 pattern s with
  | Some i =>
      String.substring 0 i s ++ replacement ++ drop (i + String.length pattern) s
  | None => s
  end.

(** [parseInt(s)] without a radix: 16 when the digits start with [0x],
    10 otherwise. *)
Definition parseInt_default (s : string) : option Z :=
  let s1 := trimStart s in
  let s2 :=
    match s1 with
    | String "-" r => r
    | String "+" r => r
    | _ => s1
    end in
  if String.eqb (strip_hex_prefix s2) s2 then parseInt s 10 else parseInt s 16.

Definition digit_char (d : Z) : ascii := ascii_of_nat (Z.to_nat (48 + d)).

Fixpoint digits_of_pos (fuel : nat) (n : Z) (acc : string) : string :=
  match fuel with
  | O => acc
  | S fuel' =>
      let acc' := String (digit_char (n mod 10)) acc in
      if n / 10 =? 0 then acc' else digits_of_pos fuel' (n / 10) acc'
  end.

(** [n.toString()] for an integer [n] (decimal, no exponent form). *)
Definition Z_toString (n : Z) : string :=
  if n <? 0
  then String "-" (digits_of_pos (S (Z.to_nat (Z.log2 (- n)))) (- n) EmptyString)
  else digits_of_pos (S (Z.to_nat (Z.log2 n))) n EmptyString.

End JsString.

(** ** JavaScript values

    What [JSON.parse] and [response.json()] produce, plus [undefined].  An
    object is its list of own properties; members inherited from
    [Object.prototype] are not modelled. *)

Inductive jsval : Type :=
| JUndefined
| JNull
| JBool (b : bool)
| JNum (q : Q)
| JStr (s : string)
| JArr (elems : list jsval)
| JObj (fields : list (string * jsval)).

(** The built-ins of the JavaScript runtime that the worker calls and whose
    full definition (number formatting, coercions, the JSON grammar) is not
    part of the repository.  The laws are the cases the code relies on. *)
Class JsRuntime : Type := {
  (** [JSON.parse]; [None] when it throws a [SyntaxError]. *)
  JSON_parse : string -> option jsval;
  JSON_stringify : jsval -> string;
  (** [String(v)], as in template literals and string concatenation. *)
  ToString : jsval -> string;
  ToString_str : forall s, ToString (JStr s) = s;
  (** [Number(v)]; [None] is [NaN]. *)
  ToNumber : jsval -> option Q;
  ToNumber_num : forall q, ToNumber (JNum q) = Some q;
  ToNumber_undefined : ToNumber JUndefined = None;
  (** [q.toString()] and [q.toFixed(1)]. *)
  Number_toString : Q -> string;
  Number_toFixed1 : Q -> string
}.

Module Js.

Definition of_nat (n : nat) : Q := inject_Z (Z.of_nat n).

(** [!!v] *)
Definition truthy (v : jsval) : bool :=
  match v with
  | JUndefined | JNull => false
  | JBool b => b
  | JNum q => negb (Qeq_bool q 0)
  | JStr s => negb (String.eqb s EmptyString)
  | JArr _ | JObj _ => true
  end.

(** [a || b] *)
Definition or_else (a b : jsval) : jsval := if truthy a then a else b.

Definition is_nullish (v : jsval) : bool :=
  match v with JUndefined | JNull => true | _ => false end.

Definition is_string (v : jsval) : bool :=
  match v with JStr _ => true | _ => false end.

(** [v === s] for a string [s] *)
Definition eq_string (v : jsval) (s : string) : bool :=
  match v with JStr t => String.eqb t s | _ => false end.

(** [v === b] for a boolean [b] *)
Definition eq_bool (v : jsval) (b : bool) : bool :=
  match v with JBool c => Bool.eqb c b | _ => false end.

(** [v === q] for a number [q] *)
Definition eq_number (v : jsval) (q : Q) : bool :=
  match v with JNum r => Qeq_bool r q | _ => false end.

Fixpoint assoc (k : string) (fields : list (string * jsval)) : option jsval :=
  match fields with
  | [] => None
  | (k', v) :: rest => if String.eqb k k' then Some v else assoc k rest
  end.

(** An array index written canonically ("0", "1", "12"; not "01"). *)
Definition index_of_key (k : string) : option nat :=
  match JsString.parse_digits 10 None k with
  | Some n =>
      if String.eqb (JsString.Z_toString n) k then Some (Z.to_nat n) else None
  | None => None
  end.

Definition char_at (s : string) (i : nat) : jsval :=
  match String.get i s with
  | Some c => JStr (String c EmptyString)
  | None => JUndefined
  end.

(** [v.k] and [v[k]]: [None] is the [TypeError] of reading a property of
    [null] or [undefined]. *)
Definition prop (v : jsval) (k : string) : option jsval :=
  match v with
  | JUndefined | JNull => None
  | JBool _ | JNum _ => Some JUndefined
  | JStr s =>
      if String.eqb k "length" then Some (JNum (of_nat (String.length s)))
      else match index_of_key k with
           | Some i => Some (char_at s i)
           | None => Some JUndefined
           end
  | JArr l =>
      if String.eqb k "length" then Some (JNum (of_nat (List.length l)))
      else match index_of_key k with
           | Some i => Some (nth i l JUndefined)
           | None => Some JUndefined
           end
  | JObj fields => Some (default JUndefined (assoc k fields))
  end.

(** [v?.k] *)
Definition opt_prop (v : jsval) (k : string) : jsval :=
  default JUndefined (prop v k).

(** [v[i]] for a loop counter [i]: an element of an array, a character of
    a string, the property named by the decimal form of [i] otherwise. *)
Definition at_index (v : jsval) (i : nat) : option jsval :=
  match v with
  | JArr l => Some (nth i l JUndefined)
  | JStr s => Some (char_at s i)
  | _ => prop v (JsString.Z_toString (Z.of_nat i))
  end.

Fixpoint chars (s : string) : list jsval :=
  match s with
  | EmptyString => []
  | String c s' => JStr (String c EmptyString) :: chars s'
  end.

(** The items visited by [for (const x of v)]; [None] when [v] is not
    iterable. *)
Definition iterate (v : jsval) : option (list jsval) :=
  match v with
  | JArr l => Some l
  | JStr s => Some (chars s)
  | _ => None
  end.

(** [v.toUpperCase()], [v.toLowerCase()], [v.trim()]: a [TypeError] unless
    [v] is a string. *)
Definition toUpperCase (v : jsval) : option string :=
  match v with JStr s => Some (JsString.toUpperCase s) | _ => None end.

Definition toLowerCase (v : jsval) : option string :=
  match v with JStr s => Some (JsString.toLowerCase s) | _ => None end.

(** [v.slice(n)]: strings and arrays have it. *)
Definition slice_from (n : nat) (v : jsval) : option jsval :=
  match v with
  | JStr s => Some (JStr (JsString.slice_from n s))
  | JArr l => Some (JArr (List.skipn n l))
  | _ => None
  end.

(** Number of iterations of [for (let i = 0; i < bound; i++)]; a [NaN]
    bound runs the body zero times. *)
Definition iterations (bound : option Q) : nat :=
  match bound with
  | Some q => Z.to_nat (Qceiling q)
  | None => 0%nat
  end.

(** [Math.min(a, n)] where [a] has been coerced to a number. *)
Definition min_with (a : option Q) (n : nat) : option Q :=
  (fun q => if Qle_bool q (of_nat n) then q else of_nat n) <$> a.

End Js.

(** ** The achievement catalog and the task-code conversions *)

Inductive SubmissionKind : Type := Quiz | Transaction | Contract | Custom | Secret.

Definition kind_eqb (a b : SubmissionKind) : bool :=
  match a, b with
  | Quiz, Quiz | Transaction, Transaction | Contract, Contract
  | Custom, Custom | Secret, Secret => true
  | _, _ => false
  end.

(** The string that names a kind in a request and in the catalog. *)
Definition kind_name (k : SubmissionKind) : string :=
  match k with
  | Quiz => "quiz"
  | Transaction => "transaction"
  | Contract => "contract"
  | Custom => "custom"
  | Secret => "secret"
  end.

(** The members of ['quiz', 'transaction', 'contract', 'custom', 'secret']. *)
Definition kind_of_name (s : string) : option SubmissionKind :=
  if String.eqb s "quiz" then Some Quiz
  else if String.eqb s "transaction" then Some Transaction
  else if String.eqb s "contract" then Some Contract
  else if String.eqb s "custom" then Some Custom
  else if String.eqb s "secret" then Some Secret
  else None.

Definition ACHIEVEMENT_TYPES_entries : list (string * SubmissionKind) :=
  [ ("0001", Quiz); ("0002", Quiz); ("0003", Quiz); ("0004", Quiz);
    ("0005", Transaction);
    ("0021", Quiz); ("0022", Quiz); ("0023", Quiz); ("0024", Quiz);
    ("0025", Transaction);
    ("0031", Quiz); ("0032", Quiz);
    ("0033", Transaction);
    ("0041", Quiz); ("0042", Quiz);
    ("0043", Transaction);
    ("0044", Quiz); ("0045", Quiz);
    ("0046", Contract);
    ("0051", Quiz); ("0052", Quiz); ("0053", Quiz); ("0054", Quiz);
    ("1001", Secret); ("1002", Secret); ("1003", Secret); ("1004", Secret);
    ("1005", Secret);
    ("1101", Secret) ].

(** The catalog as a finite map over its own keys (the names that a
    JavaScript object inherits from [Object.prototype] are not keys). *)
Definition ACHIEVEMENT_TYPES : gmap string SubmissionKind :=
  list_to_map ACHIEVEMENT_TYPES_entries.

(** [utils/contract]: a task code is a [number]; [None] is [NaN]. *)
Definition achievementNumberToTaskCode (achievementNumber : string) : option Z :=
  JsString.parseInt achievementNumber 10.

Definition taskCode_toString (taskCode : option Z) : string :=
  match taskCode with
  | Some n => JsString.Z_toString n
  | None => "NaN"
  end.

Definition taskCodeToAchievementNumber (taskCode : option Z) (padding : nat) : string :=
  JsString.padStart padding "0" (taskCode_toString taskCode).

(** The default value of the [padding] parameter. *)
Definition default_padding : nat := 4.

(** ** The question bank, as [types.ts] declares it *)

Inductive ElementType : Type :=
| WordJumble | ConceptMatching | TimelineBuilder | TrueFalseStatements | DragDropPuzzle.

Record ConceptPair : Type := {
  conceptId : string;
  definitionId : string
}.

Record Classification : Type := {
  statement_id : string;
  answer : bool
}.

(** The union [WordJumbleAnswer | ConceptMatchingAnswer | ...].  The two
    positional shapes both carry a [sequence]. *)
Inductive ElementData : Type :=
| WordJumbleAnswer (word : string)
| ConceptMatchingAnswer (pairs : list ConceptPair)
| TimelineBuilderAnswer (sequence : list string)
| TrueFalseAnswer (classifications : list Classification)
| DragDropPuzzleAnswer (sequence : list string).

(** [type] and [data] are independent fields: nothing ties the tag to the
    shape of the data. *)
Record InteractiveElementCorrectAnswer : Type := {
  element_type : ElementType;
  data : ElementData
}.

Inductive CorrectAnswer : Type :=
| Traditional (option_text : string)
| Interactive (element : InteractiveElementCorrectAnswer).

Record QuizQuestion : Type := {
  question_id : string;
  question : string;
  options : list string;
  correctAnswer : CorrectAnswer;
  points : Q;
  explanation : option string
}.

Record QuizData : Type := {
  questions : list QuizQuestion;
  passingScore : Q
}.

(** [data.word], [data.pairs], [data.sequence], [data.classifications]:
    [None] is [undefined], whose use then throws. *)
Definition data_word (d : ElementData) : option string :=
  match d with WordJumbleAnswer w => Some w | _ => None end.

Definition data_pairs (d : ElementData) : option (list ConceptPair) :=
  match d with ConceptMatchingAnswer ps => Some ps | _ => None end.

Definition data_sequence (d : ElementData) : option (list string) :=
  match d with
  | TimelineBuilderAnswer s | DragDropPuzzleAnswer s => Some s
  | _ => None
  end.

Definition data_classifications (d : ElementData) : option (list Classification) :=
  match d with TrueFalseAnswer cs => Some cs | _ => None end.

(** ** Interactive-element graders

    Each grader runs in a [try] block whose [catch] returns 0: the body is
    written in the option monad and [None] is a thrown exception. *)

Section Graders.
Context `{JsRuntime}.

Local Open Scope Q_scope.

(** Detects an interactive answer: a string that, trimmed, begins with an
    opening brace and ends with a closing one. *)
Definition isInteractiveAnswer (answer : jsval) : bool :=
  match answer with
  | JStr s =>
      if negb (Js.truthy answer) then false
      else
        let trimmed := JsString.trim s in
        JsString.startsWith trimmed "{" && JsString.endsWith trimmed "}"
  | _ => false
  end.

Definition gradeWordJumble (userAnswer : string)
    (correctAnswer : InteractiveElementCorrectAnswer) (points : Q) : Q :=
  default 0 (
    parsed ← JSON_parse userAnswer;
    type ← Js.prop parsed "type";
    if negb (Js.eq_string type "word-jumble") then Some 0 else
    userResponse ← Js.prop parsed "userResponse";
    let word := Js.opt_prop userResponse "word" in
    upper ← (if Js.is_nullish word then Some JUndefined
             else JStr <$> Js.toUpperCase word);
    let userWord := Js.or_else upper (JStr EmptyString) in
    correctWord ← JsString.toUpperCase <$> data_word (data correctAnswer);
    Some (if Js.eq_string userWord correctWord then points else 0)).

(** [correctPairs.some(cp => cp.conceptId === userPair.conceptId &&
    cp.definitionId === userPair.definitionId)] *)
Definition pairIsCorrect (correctPairs : list ConceptPair) (userPair : jsval)
    : option bool :=
  userConcept ← Js.prop userPair "conceptId";
  userDefinition ← Js.prop userPair "definitionId";
  Some (existsb (fun cp =>
          Js.eq_string userConcept (conceptId cp)
          && Js.eq_string userDefinition (definitionId cp)) correctPairs).

(** The [for (const userPair of userPairs)] loop. *)
Fixpoint countCorrectPairs (correctPairs : list ConceptPair)
    (userPairs : list jsval) (correctCount : nat) : option nat :=
  match userPairs with
  | [] => Some correctCount
  | userPair :: rest =>
      isCorrect ← pairIsCorrect correctPairs userPair;
      countCorrectPairs correctPairs rest
        (if isCorrect : bool then S correctCount else correctCount)
  end.

Definition gradeConceptMatching (userAnswer : string)
    (correctAnswer : InteractiveElementCorrectAnswer) (points : Q) : Q :=
  default 0 (
    parsed ← JSON_parse userAnswer;
    type ← Js.prop parsed "type";
    if negb (Js.eq_string type "concept-matching") then Some 0 else
    userResponse ← Js.prop parsed "userResponse";
    let userPairs := Js.or_else (Js.opt_prop userResponse "pairs") (JArr []) in
    correctPairs ← data_pairs (data correctAnswer);
    if (List.length correctPairs =? 0)%nat then Some 0 else
    items ← Js.iterate userPairs;
    correctCount ← countCorrectPairs correctPairs items 0;
    Some ((Js.of_nat correctCount / Js.of_nat (List.length correctPairs)) * points)).

(** [userSequence[i] === correctSequence[i]] *)
Definition positionMatches (userSequence : jsval) (correctSequence : list string)
    (i : nat) : bool :=
  match Js.at_index userSequence i, correctSequence !! i with
  | Some u, Some c => Js.eq_string u c
  | _, _ => false
  end.

(** [Math.min(userSequence.length, correctSequence.length)] as the number
    of times the loop body runs. *)
Definition sequenceBound (userSequence : jsval) (correctSequence : list string)
    : nat :=
  Js.iterations
    (Js.min_with (ToNumber (Js.opt_prop userSequence "length"))
                 (List.length correctSequence)).

(** The loop of the timeline grader: [remaining] iterations from index [i]. *)
Fixpoint timelinePositions (userSequence : jsval) (correctSequence : list string)
    (remaining i correctPositions : nat) : nat :=
  match remaining with
  | O => correctPositions
  | S remaining' =>
      timelinePositions userSequence correctSequence remaining' (S i)
        (if positionMatches userSequence correctSequence i
         then S correctPositions else correctPositions)
  end.

Definition gradeTimelineBuilder (userAnswer : string)
    (correctAnswer : InteractiveElementCorrectAnswer) (points : Q) : Q :=
  default 0 (
    parsed ← JSON_parse userAnswer;
    type ← Js.prop parsed "type";
    if negb (Js.eq_string type "timeline-builder") then Some 0 else
    userResponse ← Js.prop parsed "userResponse";
    let userSequence :=
      Js.or_else (Js.opt_prop userResponse "sequence") (JArr []) in
    correctSequence ← data_sequence (data correctAnswer);
    if (List.length correctSequence =? 0)%nat then Some 0 else
    let correctPositions :=
      timelinePositions userSequence correctSequence
        (sequenceBound userSequence correctSequence) 0 0 in
    Some ((Js.of_nat correctPositions / Js.of_nat (List.length correctSequence))
          * points)).

(** [correctClassifications.find(cc => cc.id === userClass.id)] followed by
    [correctClass && correctClass.answer === userClass.answer]. *)
Definition classificationIsCorrect (correctClassifications : list Classification)
    (userClass : jsval) : option bool :=
  userId ← Js.prop userClass "id";
  match List.find (fun cc => Js.eq_string userId (statement_id cc))
          correctClassifications with
  | Some correctClass =>
      userAnswerValue ← Js.prop userClass "answer";
      Some (Js.eq_bool userAnswerValue (answer correctClass))
  | None => Some false
  end.

Fixpoint countCorrectClassifications (correctClassifications : list Classification)
    (userClassifications : list jsval) (correctCount : nat) : option nat :=
  match userClassifications with
  | [] => Some correctCount
  | userClass :: rest =>
      isCorrect ← classificationIsCorrect correctClassifications userClass;
      countCorrectClassifications correctClassifications rest
        (if isCorrect : bool then S correctCount else correctCount)
  end.

Definition gradeTrueFalseStatements (userAnswer : string)
    (correctAnswer : InteractiveElementCorrectAnswer) (points : Q) : Q :=
  default 0 (
    parsed ← JSON_parse userAnswer;
    type ← Js.prop parsed "type";
    if negb (Js.eq_string type "true-false-statements") then Some 0 else
    userResponse ← Js.prop parsed "userResponse";
    let userClassifications :=
      Js.or_else (Js.opt_prop userResponse "classifications") (JArr []) in
    correctClassifications ← data_classifications (data correctAnswer);
    if (List.length correctClassifications =? 0)%nat then Some 0 else
    items ← Js.iterate userClassifications;
    correctCount ← countCorrectClassifications correctClassifications items 0;
    Some ((Js.of_nat correctCount / Js.of_nat (List.length correctClassifications))
          * points)).

(** The loop of the drag-and-drop grader. *)
Fixpoint dragDropPositions (userSequence : jsval) (correctSequence : list string)
    (remaining i correctPositions : nat) : nat :=
  match remaining with
  | O => correctPositions
  | S remaining' =>
      dragDropPositions userSequence correctSequence remaining' (S i)
        (if positionMatches userSequence correctSequence i
         then S correctPositions else correctPositions)
  end.

Definition gradeDragDropPuzzle (userAnswer : string)
    (correctAnswer : InteractiveElementCorrectAnswer) (points : Q) : Q :=
  default 0 (
    parsed ← JSON_parse userAnswer;
    type ← Js.prop parsed "type";
    if negb (Js.eq_string type "drag-drop-puzzle") then Some 0 else
    userResponse ← Js.prop parsed "userResponse";
    let userSequence :=
      Js.or_else (Js.opt_prop userResponse "sequence") (JArr []) in
    correctSequence ← data_sequence (data correctAnswer);
    if (List.length correctSequence =? 0)%nat then Some 0 else
    let correctPositions :=
      dragDropPositions userSequence correctSequence
        (sequenceBound userSequence correctSequence) 0 0 in
    Some ((Js.of_nat correctPositions / Js.of_nat (List.length correctSequence))
          * points)).

End Graders.

(** ** Results, stored rows and configuration *)

Module ValidationResult.
Record t : Type := {
  passed : bool;
  score : option Q;
  maxScore : option Q;
  passingScore : option Q;
  totalQuestions : option nat;
  correctAnswers : option nat;
  timeSpent : jsval;
  accuracy : option Q;
  transactionValid : option bool;
  blockNumber : option Z;
  feedback : option string;
  nextSteps : option (list string);
  retryAllowed : option bool;
  tokenAddress : option jsval;
  tokenName : option jsval;
  tokenSymbol : option jsval;
  contractAddress : option jsval;
  method : option string;
  error : option string
}.

(** [{ passed: false, error, retryAllowed }] *)
Definition failure (message : string) (retry : bool) : t :=
  {| passed := false; score := None; maxScore := None; passingScore := None;
     totalQuestions := None; correctAnswers := None; timeSpent := JUndefined;
     accuracy := None; transactionValid := None; blockNumber := None;
     feedback := None; nextSteps := None; retryAllowed := Some retry;
     tokenAddress := None; tokenName := None; tokenSymbol := None;
     contractAddress := None; method := None; error := Some message |}.

(** [{ passed, feedback, nextSteps, retryAllowed }], the shape the secret
    validator answers with. *)
Definition verdict (pass : bool) (message : string) (steps : list string)
    (retry : bool) : t :=
  {| passed := pass; score := None; maxScore := None; passingScore := None;
     totalQuestions := None; correctAnswers := None; timeSpent := JUndefined;
     accuracy := None; transactionValid := None; blockNumber := None;
     feedback := Some message; nextSteps := Some steps;
     retryAllowed := Some retry;
     tokenAddress := None; tokenName := None; tokenSymbol := None;
     contractAddress := None; method := None; error := None |}.

(** A passing transaction or contract result: [{ passed: true, feedback,
    nextSteps, retryAllowed: false, ... }] with the fields of the branch. *)
Definition verified (message : string) (valid : option bool) (block : option Z)
    (token tokenNameValue tokenSymbolValue deployedAt : option jsval)
    (how : option string) : t :=
  {| passed := true; score := None; maxScore := None; passingScore := None;
     totalQuestions := None; correctAnswers := None; timeSpent := JUndefined;
     accuracy := None; transactionValid := valid; blockNumber := block;
     feedback := Some message;
     nextSteps := Some ["Claim your voucher to receive the achievement NFT"];
     retryAllowed := Some false;
     tokenAddress := token; tokenName := tokenNameValue;
     tokenSymbol := tokenSymbolValue;
     contractAddress := deployedAt; method := how; error := None |}.
End ValidationResult.

Module TrainingCompletion.
(** A row of [training_completions]. *)
Record t : Type := {
  wallet_address : string;
  achievement_number : string;
  task_code : option Z;
  submission_type : string;
  submission_data : string;
  score : option Q;
  max_score : option Q;
  passed : bool;
  voucher_signature : option string;
  metadata : option string;
  created_at : Z
}.
End TrainingCompletion.

Record CompletionVoucher : Type := {
  taskCode : option Z;
  wallet : string
}.

Record Bindings : Type := {
  ISSUER_PRIVATE_KEY : string;
  CONTRACT_ADDRESS : string;
  CHAIN_ID : string;
  RPC_URL : string;
  RPC_URL_MAINNET : option string;
  RPC_URL_TESTNET : option string;
  NEXT_PUBLIC_FACTORY_ADDRESS_TESTNET : option string;
  NEXT_PUBLIC_FACTORY_ADDRESS_MAINNET : option string;
  QUIZ_DATA_URL : option string;
  SECRET_ANSWERS_URL : option string
}.

(** An optional binding read in a boolean position: unset and empty are
    both falsy. *)
Definition configured (b : option string) : option string :=
  match b with
  | Some s => if String.eqb s EmptyString then None else Some s
  | None => None
  end.

(** The module-level variables of [routes/vouchers]. *)
Record Globals : Type := {
  QUIZ_DATA : gmap string QuizData;
  SECRET_ANSWERS : gmap string string;
  quizDataCache : option (gmap string QuizData * Z);
  secretAnswersCache : option (gmap string string * Z)
}.

Definition CACHE_DURATION : Z := 3600000.

(** ** Programs with effects

    A handler or validator is a finite tree: it returns, throws, or performs
    an event and continues with the answer. *)

Definition exn : Type := string.

Inductive FetchOutcome (T : Type) : Type :=
| FetchRejects (reason : exn)
    (* [fetch] itself rejects *)
| FetchResponds (ok : bool) (status : string) (json : option T).
    (* a response; [json = None] when [response.json()] rejects *)
Arguments FetchRejects {T} reason.
Arguments FetchResponds {T} ok status json.

Inductive Event : Type -> Type :=
| DateNow : Event Z
| GetGlobals : Event Globals
| SetGlobals (g : Globals) : Event unit
| FetchQuizData (url : string) : Event (FetchOutcome (gmap string QuizData))
| FetchSecretAnswers (url : string) : Event (FetchOutcome (gmap string string))
| FetchRpc (url rpcMethod : string) (params : list jsval)
    : Event (FetchOutcome jsval)
| DbGetTrainingCompletion (walletAddress achievementNumber : string)
    : Event (exn + option TrainingCompletion.t)
| DbCreateWalletData (walletAddress : string) : Event (exn + unit)
| DbCreateTrainingCompletion (completion : TrainingCompletion.t)
    : Event (exn + unit)
| SignVoucher (privateKey verifyingContract : string) (chainId : option Z)
    (voucher : CompletionVoucher) : Event (exn + string).

Inductive Prog (A : Type) : Type :=
| Ret (a : A)
| Throw (e : exn)
| Vis {X : Type} (ev : Event X) (k : X -> Prog A).
Arguments Ret {A} a.
Arguments Throw {A} e.
Arguments Vis {A X} ev k.

Fixpoint bind {A B : Type} (p : Prog A) (f : A -> Prog B) : Prog B :=
  match p with
  | Ret a => f a
  | Throw e => Throw e
  | Vis ev k => Vis ev (fun x => bind (k x) f)
  end.

(** [try { p } catch (error) { handler error }] *)
Fixpoint try_catch {A : Type} (p : Prog A) (handler : exn -> Prog A) : Prog A :=
  match p with
  | Ret a => Ret a
  | Throw e => handler e
  | Vis ev k => Vis ev (fun x => try_catch (k x) handler)
  end.

#[export] Instance Prog_ret : MRet Prog := @Ret.
#[export] Instance Prog_bind : MBind Prog := fun A B f p => bind p f.
#[export] Instance Prog_fmap : FMap Prog :=
  fun A B f p => bind p (fun a => Ret (f a)).

Definition trigger {X : Type} (ev : Event X) : Prog X := Vis ev Ret.

(** An awaited call that may reject. *)
Definition await {X : Type} (ev : Event (exn + X)) : Prog X :=
  Vis ev (fun r => match r with inl e => Throw e | inr x => Ret x end).

(** A pure step that may throw a [TypeError]. *)
Definition orThrow {A : Type} (o : option A) : Prog A :=
  match o with
  | Some a => Ret a
  | None => Throw "TypeError"
  end.

(** ** The world the worker runs in *)

Record World : Type := {
  globals : Globals;
  wallet_data : list string;
  training_completions : list TrainingCompletion.t;
  tick : nat      (* number of events performed so far *)
}.

(** The answers of everything outside the worker, indexed by the number of
    the event they answer. *)
Record Oracle : Type := {
  clock : nat -> Z;
  quiz_reply : nat -> string -> FetchOutcome (gmap string QuizData);
  secret_reply : nat -> string -> FetchOutcome (gmap string string);
  rpc_reply : nat -> string -> string -> list jsval -> FetchOutcome jsval;
  db_error : nat -> option exn;
  sign_reply : nat -> string -> string -> option Z -> CompletionVoucher -> exn + string
}.

Definition matches_completion (walletAddress achievementNumber : string)
    (row : TrainingCompletion.t) : bool :=
  String.eqb (TrainingCompletion.wallet_address row) walletAddress
  && String.eqb (TrainingCompletion.achievement_number row) achievementNumber
  && TrainingCompletion.passed row.

(** [ORDER BY created_at DESC LIMIT 1] over rows kept newest first. *)
Fixpoint most_recent (rows : list TrainingCompletion.t) : option TrainingCompletion.t :=
  match rows with
  | [] => None
  | row :: rest =>
      match most_recent rest with
      | Some other =>
          if TrainingCompletion.created_at row <? TrainingCompletion.created_at other
          then Some other else Some row
      | None => Some row
      end
  end.

(** [DatabaseService.getTrainingCompletion]: the most recent row of the pair
    with [passed = true]. *)
Definition getTrainingCompletion (rows : list TrainingCompletion.t)
    (walletAddress achievementNumber : string) : option TrainingCompletion.t :=
  most_recent (List.filter (matches_completion walletAddress achievementNumber) rows).

Definition advance (w : World) : World :=
  {| globals := globals w; wallet_data := wallet_data w;
     training_completions := training_completions w; tick := S (tick w) |}.

Definition stamp (row : TrainingCompletion.t) (now : Z) : TrainingCompletion.t :=
  {| TrainingCompletion.wallet_address := TrainingCompletion.wallet_address row;
     TrainingCompletion.achievement_number := TrainingCompletion.achievement_number row;
     TrainingCompletion.task_code := TrainingCompletion.task_code row;
     TrainingCompletion.submission_type := TrainingCompletion.submission_type row;
     TrainingCompletion.submission_data := TrainingCompletion.submission_data row;
     TrainingCompletion.score := TrainingCompletion.score row;
     TrainingCompletion.max_score := TrainingCompletion.max_score row;
     TrainingCompletion.passed := TrainingCompletion.passed row;
     TrainingCompletion.voucher_signature := TrainingCompletion.voucher_signature row;
     TrainingCompletion.metadata := TrainingCompletion.metadata row;
     TrainingCompletion.created_at := now |}.

(** One event: its answer and the world after it.  Any D1 call may reject
    ([db_error]), which covers a constraint of the deployed schema refusing
    an insert; an accepted insert appends the row, stamped by the database
    clock. *)
Definition handle (o : Oracle) {X : Type} (ev : Event X) (w : World) : World * X :=
  let n := tick w in
  match ev in Event X return World * X with
  | DateNow => (advance w, clock o n)
  | GetGlobals => (advance w, globals w)
  | SetGlobals g =>
      ({| globals := g; wallet_data := wallet_data w;
          training_completions := training_completions w; tick := S n |}, tt)
  | FetchQuizData url => (advance w, quiz_reply o n url)
  | FetchSecretAnswers url => (advance w, secret_reply o n url)
  | FetchRpc url rpcMethod params => (advance w, rpc_reply o n url rpcMethod params)
  | DbGetTrainingCompletion walletAddress achievementNumber =>
      (advance w,
       match db_error o n with
       | Some e => inl e
       | None => inr (getTrainingCompletion (training_completions w)
                        walletAddress achievementNumber)
       end)
  | DbCreateWalletData walletAddress =>
      match db_error o n with
      | Some e => (advance w, inl e)
      | None =>
          ({| globals := globals w;
              wallet_data :=
                if bool_decide (walletAddress ∈ wallet_data w) then wallet_data w
                else walletAddress :: wallet_data w;
              training_completions := training_completions w; tick := S n |},
           inr tt)
      end
  | DbCreateTrainingCompletion completion =>
      match db_error o n with
      | Some e => (advance w, inl e)
      | None =>
          ({| globals := globals w; wallet_data := wallet_data w;
              training_completions :=
                stamp completion (clock o n) :: training_completions w;
              tick := S n |},
           inr tt)
      end
  | SignVoucher privateKey verifyingContract chainId voucher =>
      (advance w, sign_reply o n privateKey verifyingContract chainId voucher)
  end.

Fixpoint run (o : Oracle) {A : Type} (p : Prog A) (w : World) : World * (exn + A) :=
  match p with
  | Ret a => (w, inr a)
  | Throw e => (w, inl e)
  | Vis ev k => let '(w', x) := handle o ev w in run o (k x) w'
  end.

(** ** The validation context *)

Module ValidationContext.
Record t : Type := {
  achievementNumber : string;
  walletAddress : string;
  rpcUrl : string;
  submissionType : string;
  submissionData : jsval;
  metadata : jsval
}.
End ValidationContext.

(** ** External data loaders *)

Definition modifyGlobals (f : Globals -> Globals) : Prog unit :=
  g ← trigger GetGlobals;
  trigger (SetGlobals (f g)).

Definition set_QUIZ_DATA (d : gmap string QuizData) (g : Globals) : Globals :=
  {| QUIZ_DATA := d; SECRET_ANSWERS := SECRET_ANSWERS g;
     quizDataCache := quizDataCache g; secretAnswersCache := secretAnswersCache g |}.

Definition set_quizDataCache (c : option (gmap string QuizData * Z)) (g : Globals)
    : Globals :=
  {| QUIZ_DATA := QUIZ_DATA g; SECRET_ANSWERS := SECRET_ANSWERS g;
     quizDataCache := c; secretAnswersCache := secretAnswersCache g |}.

Definition set_SECRET_ANSWERS (d : gmap string string) (g : Globals) : Globals :=
  {| QUIZ_DATA := QUIZ_DATA g; SECRET_ANSWERS := d;
     quizDataCache := quizDataCache g; secretAnswersCache := secretAnswersCache g |}.

Definition set_secretAnswersCache (c : option (gmap string string * Z)) (g : Globals)
    : Globals :=
  {| QUIZ_DATA := QUIZ_DATA g; SECRET_ANSWERS := SECRET_ANSWERS g;
     quizDataCache := quizDataCache g; secretAnswersCache := c |}.

(** The cache test [cache && (Date.now() - cache.timestamp < CACHE_DURATION)];
    the clock is read only when a cache entry exists. *)
Definition freshCache {T : Type} (cache : option (T * Z)) : Prog (option T) :=
  match cache with
  | Some (payload, timestamp) =>
      now ← trigger DateNow;
      Ret (if now - timestamp <? CACHE_DURATION then Some payload else None)
  | None => Ret None
  end.

Definition loadQuizData (env : Bindings) : Prog unit :=
  g ← trigger GetGlobals;
  cached ← freshCache (quizDataCache g);
  match cached with
  | Some payload => modifyGlobals (set_QUIZ_DATA payload)
  | None =>
      match configured (QUIZ_DATA_URL env) with
      | None => Ret tt
      | Some quizDataUrl =>
          try_catch
            (response ← trigger (FetchQuizData quizDataUrl);
             match response with
             | FetchRejects reason => Throw reason
             | FetchResponds ok status json =>
                 if negb ok then Throw ("Failed to fetch quiz data: " ++ status)
                 else
                   match json with
                   | None => Throw "SyntaxError"
                   | Some payload =>
                       modifyGlobals (set_QUIZ_DATA payload);;
                       now ← trigger DateNow;
                       modifyGlobals (set_quizDataCache (Some (payload, now)))
                   end
             end)
            (fun error => Throw error)
      end
  end.

Definition loadSecretAnswers (env : Bindings) : Prog unit :=
  g ← trigger GetGlobals;
  cached ← freshCache (secretAnswersCache g);
  match cached with
  | Some payload => modifyGlobals (set_SECRET_ANSWERS payload)
  | None =>
      match configured (SECRET_ANSWERS_URL env) with
      | None => Ret tt
      | Some secretAnswersUrl =>
          try_catch
            (response ← trigger (FetchSecretAnswers secretAnswersUrl);
             match response with
             | FetchRejects reason => Throw reason
             | FetchResponds ok status json =>
                 if negb ok then Throw ("Failed to fetch secret answers: " ++ status)
                 else
                   match json with
                   | None => Throw "SyntaxError"
                   | Some payload =>
                       modifyGlobals (set_SECRET_ANSWERS payload);;
                       now ← trigger DateNow;
                       modifyGlobals (set_secretAnswersCache (Some (payload, now)))
                   end
             end)
            (fun error => Throw error)
      end
  end.

(** [if (env) { await load(env); }] *)
Definition whenEnv (env : option Bindings) (load : Bindings -> Prog unit) : Prog unit :=
  match env with
  | Some e => load e
  | None => Ret tt
  end.

(** ** Secret validator *)

(** [new Date('2025-11-14T23:00:00Z')] in milliseconds since the epoch. *)
Definition cutoffDate : Z := 1763161200000.

Definition launchAchievement : string := "1101".

Definition validateSecretSubmission (submissionData : jsval)
    (context : ValidationContext.t) (env : option Bindings)
    : Prog ValidationResult.t :=
  whenEnv env loadSecretAnswers;;
  g ← trigger GetGlobals;
  match configured (SECRET_ANSWERS g !! ValidationContext.achievementNumber context) with
  | None =>
      Ret (ValidationResult.failure
             "Secret answer not configured for this achievement" false)
  | Some expectedAnswer =>
      expired ← (if String.eqb (ValidationContext.achievementNumber context)
                               launchAchievement
                 then currentDate ← trigger DateNow; Ret (cutoffDate <? currentDate)
                 else Ret false);
      if expired : bool then
        Ret (ValidationResult.failure
               "This launch day achievement is no longer available. The promotion period has ended."
               false)
      else
        secretAnswer ← orThrow (Js.prop submissionData "secretAnswer");
        match secretAnswer with
        | JStr s =>
            if negb (Js.truthy secretAnswer) then
              Ret (ValidationResult.failure "Secret answer is required" true)
            else
              let pass := String.eqb (JsString.trim s) expectedAnswer in
              Ret (ValidationResult.verdict pass
                     (if pass
                      then "Congratulations! You discovered the secret and unlocked this special achievement!"
                      else "The secret answer is incorrect. Keep exploring to find the right answer.")
                     (if pass
                      then ["Claim your voucher to receive the special achievement NFT"]
                      else ["Look for clues in the training materials or hidden content";
                            "Try again when you find the secret"])
                     (negb pass))
        | _ => Ret (ValidationResult.failure "Secret answer is required" true)
        end
  end.

(** ** Double-precision arithmetic *)

(** A JavaScript number that may not be finite. *)
Inductive jsnumber : Type :=
| Finite (q : Q)
| NaN
| PlusInfinity
| MinusInfinity.

(** IEEE 754 binary64, the arithmetic of a JavaScript [number]: the exact
    result of an operation is rounded to the nearest number with 53
    significant bits (a unit in the last place no smaller than [2^-1074]),
    a tie to the one whose last bit is even, and a result of [2^1024] or
    more is infinite. *)
Module Double.

Definition pow2 (e : Z) : Q :=
  if (0 <=? e)%Z then inject_Z (2 ^ e) else / inject_Z (2 ^ (- e)).

(** The exponent [e] with [2^e <= q < 2^(e+1)], for [q > 0]. *)
Definition floor_log2 (q : Q) : Z :=
  let e := (Z.log2 (Qnum q) - Z.log2 (Zpos (Qden q)))%Z in
  if Qle_bool (pow2 e) q then e else (e - 1)%Z.

(** The nearest integer to [q >= 0], a tie to the even one. *)
Definition nearest_even (q : Q) : Z :=
  let f := Qfloor q in
  match (q - inject_Z f ?= 1 # 2)%Q with
  | Lt => f
  | Gt => (f + 1)%Z
  | Eq => if Z.even f then f else (f + 1)%Z
  end.

Definition round_positive (q : Q) : jsnumber :=
  let ulp := pow2 (Z.max (floor_log2 q - 52) (-1074)) in
  let rounded := Qred (inject_Z (nearest_even (q / ulp)) * ulp) in
  if Qle_bool (pow2 1024) rounded then PlusInfinity else Finite rounded.

Definition opposite (x : jsnumber) : jsnumber :=
  match x with
  | Finite q => Finite (Qred (- q))
  | NaN => NaN
  | PlusInfinity => MinusInfinity
  | MinusInfinity => PlusInfinity
  end.

(** The double nearest to [q]. *)
Definition round (q : Q) : jsnumber :=
  let r := Qred q in
  match Qnum r with
  | Z0 => Finite 0
  | Zpos _ => round_positive r
  | Zneg _ => opposite (round_positive (Qred (- r)))
  end.


End Double.

(** [a / b] as JavaScript computes it, a zero divisor included. *)
Definition js_divide (a b : Q) : jsnumber :=
  if Qeq_bool b 0 then
    if Qeq_bool a 0 then NaN
    else if Qle_bool 0 a then PlusInfinity else MinusInfinity
  else Double.round (a / b).

(** [x * k] *)
Definition js_times (x : jsnumber) (k : Q) : jsnumber :=
  match x with
  | Finite q => Double.round (q * k)
  | NaN => NaN
  | PlusInfinity =>
      if Qeq_bool k 0 then NaN else if Qle_bool 0 k then PlusInfinity else MinusInfinity
  | MinusInfinity =>
      if Qeq_bool k 0 then NaN else if Qle_bool 0 k then MinusInfinity else PlusInfinity
  end.

(** [x >= threshold]: false for [NaN]. *)
Definition js_atLeast (x : jsnumber) (threshold : Q) : bool :=
  match x with
  | Finite q => Qle_bool threshold q
  | PlusInfinity => true
  | NaN | MinusInfinity => false
  end.

(** ** Quiz validator *)

Section QuizValidator.
Context `{JsRuntime}.

Local Open Scope Q_scope.

(** The [switch (correctAnswer.type)] of the quiz loop. *)
Definition gradeInteractive (submittedAnswer : string)
    (correctAnswer : InteractiveElementCorrectAnswer) (points : Q) : Q :=
  match element_type correctAnswer with
  | WordJumble => gradeWordJumble submittedAnswer correctAnswer points
  | ConceptMatching => gradeConceptMatching submittedAnswer correctAnswer points
  | TimelineBuilder => gradeTimelineBuilder submittedAnswer correctAnswer points
  | TrueFalseStatements => gradeTrueFalseStatements submittedAnswer correctAnswer points
  | DragDropPuzzle => gradeDragDropPuzzle submittedAnswer correctAnswer points
  end.

(** The body of the loop for a question that was answered: the score of
    the question and whether it counts as correct.  [None] is the
    [TypeError] of calling [toUpperCase] on an answer that is not a
    string. *)
Definition scoreAnswer (submittedAnswer : jsval) (q : QuizQuestion)
    : option (Q * bool) :=
  if isInteractiveAnswer submittedAnswer then
    match submittedAnswer, correctAnswer q with
    | JStr s, Interactive element =>
        let questionScore := gradeInteractive s element (points q) in
        Some (questionScore, Qeq_bool questionScore (points q))
    | _, _ => Some (0, false)
    end
  else
    match correctAnswer q with
    | Traditional correct =>
        upper ← Js.toUpperCase submittedAnswer;
        if String.eqb upper (JsString.toUpperCase correct)
        then Some (points q, true)
        else Some (0, false)
    | Interactive _ => Some (0, false)
    end.

(** [for (const question of questions)], threading [correctCount] and
    [totalScore]. *)
Fixpoint quizLoop (submissionData : jsval) (qs : list QuizQuestion)
    (correctCount : nat) (totalScore : Q) : option (nat * Q) :=
  match qs with
  | [] => Some (correctCount, totalScore)
  | q :: rest =>
      answers ← Js.prop submissionData "answers";
      submittedAnswer ← Js.prop answers (question_id q);
      if negb (Js.truthy submittedAnswer)
      then quizLoop submissionData rest correctCount totalScore
      else
        '(questionScore, correct) ← scoreAnswer submittedAnswer q;
        quizLoop submissionData rest
          (if correct : bool then S correctCount else correctCount)
          (totalScore + questionScore)
  end.

(** [questions.reduce((sum, q) => sum + q.points, 0)] *)
Definition quizMaxScore (qs : list QuizQuestion) : Q :=
  fold_left (fun sum q => sum + points q) qs 0.

Definition quizAccuracy (qs : list QuizQuestion) (correctCount : nat) : Q :=
  if (0 <? List.length qs)%nat
  then (Js.of_nat correctCount / Js.of_nat (List.length qs)) * 100
  else 0.

(** [maxScore > 0 ? (totalScore / maxScore) * 100 : 0], the quotient and
    the product each rounded to a double. *)
Definition scorePercentage (totalScore maxScore : Q) : jsnumber :=
  if Qlt_le_dec 0 maxScore then js_times (js_divide totalScore maxScore) 100
  else Finite 0.

(** [x.toFixed(1)] *)
Definition toFixed1 (x : jsnumber) : string :=
  match x with
  | Finite q => Number_toFixed1 q
  | NaN => "NaN"
  | PlusInfinity => "Infinity"
  | MinusInfinity => "-Infinity"
  end.

Definition quizResult (quizData : QuizData) (context : ValidationContext.t)
    (correctCount : nat) (totalScore : Q) : ValidationResult.t :=
  let maxScore := quizMaxScore (questions quizData) in
  let percentage := scorePercentage totalScore maxScore in
  let pass := js_atLeast percentage (passingScore quizData) in
  let scored :=
    "You scored " ++ Number_toString totalScore ++ "/" ++ Number_toString maxScore
    ++ " (" ++ toFixed1 percentage ++ "%)" in
  {| ValidationResult.passed := pass;
     ValidationResult.score := Some totalScore;
     ValidationResult.maxScore := Some maxScore;
     ValidationResult.passingScore := Some (passingScore quizData);
     ValidationResult.totalQuestions := Some (List.length (questions quizData));
     ValidationResult.correctAnswers := Some correctCount;
     ValidationResult.timeSpent :=
       Js.opt_prop (ValidationContext.metadata context) "timeSpent";
     ValidationResult.accuracy := Some (quizAccuracy (questions quizData) correctCount);
     ValidationResult.transactionValid := None;
     ValidationResult.blockNumber := None;
     ValidationResult.feedback :=
       Some (if pass
             then "Congratulations! " ++ scored ++ " and passed the quiz."
             else scored ++ ". You need " ++ Number_toString (passingScore quizData)
                  ++ "% to pass. Review the material and try again.");
     ValidationResult.nextSteps :=
       Some (if pass
             then ["Claim your voucher to receive the achievement NFT"]
             else ["Review the course materials";
                   "Focus on areas where you got questions wrong";
                   "Take the quiz again when ready"]);
     ValidationResult.retryAllowed := Some (negb pass);
     ValidationResult.tokenAddress := None;
     ValidationResult.tokenName := None;
     ValidationResult.tokenSymbol := None;
     ValidationResult.contractAddress := None;
     ValidationResult.method := None;
     ValidationResult.error := None |}.

(** The validator once [QUIZ_DATA] holds the loaded bank. *)
Definition gradeQuiz (quizData : QuizData) (submissionData : jsval)
    (context : ValidationContext.t) : option ValidationResult.t :=
  '(correctCount, totalScore) ← quizLoop submissionData (questions quizData) 0%nat 0;
  Some (quizResult quizData context correctCount totalScore).

Definition validateQuizSubmission (submissionData : jsval)
    (context : ValidationContext.t) (env : option Bindings)
    : Prog ValidationResult.t :=
  whenEnv env loadQuizData;;
  g ← trigger GetGlobals;
  match QUIZ_DATA g !! ValidationContext.achievementNumber context with
  | None =>
      Ret (ValidationResult.failure "Quiz data not found for this achievement" false)
  | Some quizData => orThrow (gradeQuiz quizData submissionData context)
  end.

End QuizValidator.

(** ** Blockchain access *)

(** [ethers.getAddress] on a string: the checksummed address, or [None] when
    it throws.  [ethers.isAddress] is defined from it. *)
Class EthersLib : Type := {
  getAddress : string -> option string
}.

Section Addresses.
Context `{EthersLib}.

Definition normalizeAddress (address : jsval) : option string :=
  match address with
  | JStr s => getAddress s
  | _ => None
  end.

Definition isValidEthereumAddress (address : jsval) : bool :=
  bool_decide (is_Some (normalizeAddress address)).
End Addresses.

Module TokenValidation.
Record t : Type := {
  isValid : bool;
  error : option string;
  name : option jsval;
  symbol : option jsval;
  totalSupply : option jsval
}.

Definition invalid (message : string) : t :=
  {| isValid := false; error := Some message;
     name := None; symbol := None; totalSupply := None |}.
End TokenValidation.

Module ClaimantValidation.
Record t : Type := {
  isValid : bool;
  error : option string
}.
End ClaimantValidation.

(** The character appended for one pair of hex digits: nothing for a null
    byte; a [NaN] code is converted to the character 0. *)
Definition charOfPair (pair : string) (rest : string) : string :=
  match JsString.parseInt pair 16 with
  | Some 0 => rest
  | Some charCode => String (ascii_of_nat (Z.to_nat charCode)) rest
  | None => String (ascii_of_nat 0) rest
  end.

Fixpoint hexToString (hex : string) : string :=
  match hex with
  | EmptyString => EmptyString
  | String a EmptyString => charOfPair (String a EmptyString) EmptyString
  | String a (String b rest) =>
      charOfPair (String a (String b EmptyString)) (hexToString rest)
  end.

(** The decoding of a [name()] or [symbol()] reply, with its inner [try]: a
    reply that is not a string ends as the empty string (a missing [slice]
    throws; the [substring] missing on an array throws inside
    [hexToString]). *)
Definition decodeTokenString (result : jsval) : string :=
  match result with
  | JStr r =>
      let hex := JsString.slice_from 2 r in
      if (128 <=? String.length hex)%nat then
        match JsString.parseInt (JsString.slice 64 128 hex) 16 with
        | Some len =>
            if (0 <? len) && (len <=? 100)
            then hexToString (JsString.slice 128 (128 + Z.to_nat len * 2) hex)
            else EmptyString
        | None => EmptyString
        end
      else hexToString hex
  | _ => EmptyString
  end.

Definition FUNCTIONS : list (string * string) :=
  [ ("name", "0x06fdde03"); ("symbol", "0x95d89b41");
    ("decimals", "0x313ce567"); ("totalSupply", "0x18160ddd") ].

Section Chain.
Context `{JsRuntime} `{EthersLib}.

(** [await fetch(rpcUrl, ...)] followed by [await response.json()]. *)
Definition rpc (url rpcMethod : string) (params : list jsval) : Prog (bool * jsval) :=
  response ← trigger (FetchRpc url rpcMethod params);
  match response with
  | FetchRejects reason => Throw reason
  | FetchResponds ok _ (Some payload) => Ret (ok, payload)
  | FetchResponds _ _ None => Throw "SyntaxError"
  end.

Definition eth_call (target : jsval) (selector : string) : list jsval :=
  [JObj [("to", target); ("data", JStr selector)]; JStr "latest"].

(** [${error?.message || fallback}] *)
Definition messageOr (error : jsval) (fallback : string) : string :=
  ToString (Js.or_else (Js.opt_prop error "message") (JStr fallback)).

(** [!result || result === '0x'] *)
Definition emptyResult (result : jsval) : bool :=
  negb (Js.truthy result) || Js.eq_string result "0x".

Definition show (results : gmap string jsval) (k : string) : string :=
  ToString (default JUndefined (results !! k)).

(** The [for (const func of functions)] loop of [verifyERC20Token];
    [inl] is an early [return]. *)
Fixpoint erc20Loop (functions : list (string * string)) (contractAddress : jsval)
    (url : string) (results : gmap string jsval)
    : Prog (TokenValidation.t + gmap string jsval) :=
  match functions with
  | [] => Ret (inr results)
  | (funcName, signature) :: rest =>
      '(ok, payload) ← rpc url "eth_call" (eth_call contractAddress signature);
      error ← orThrow (Js.prop payload "error");
      if negb ok || Js.truthy error then
        Ret (inl (TokenValidation.invalid
                    ("Failed to call " ++ funcName ++ "(): "
                     ++ messageOr error "Network error")))
      else
        let result := Js.opt_prop payload "result" in
        if emptyResult result then
          Ret (inl (TokenValidation.invalid
                      ("Contract does not implement ERC-20 function: " ++ funcName)))
        else if String.eqb funcName "name" || String.eqb funcName "symbol" then
          erc20Loop rest contractAddress url
            (<[funcName := JStr (decodeTokenString result)]> results)
        else if String.eqb funcName "totalSupply" || String.eqb funcName "decimals" then
          erc20Loop rest contractAddress url (<[funcName := result]> results)
        else erc20Loop rest contractAddress url results
  end.

Definition verifyERC20Token (contractAddress : jsval) (url : string)
    (expectedCreator : string) : Prog TokenValidation.t :=
  try_catch
    (outcome ← erc20Loop FUNCTIONS contractAddress url ∅;
     match outcome with
     | inl early => Ret early
     | inr results =>
         if negb (Js.truthy (default JUndefined (results !! "name")))
            || negb (Js.truthy (default JUndefined (results !! "symbol")))
         then
           Ret (TokenValidation.invalid
                  ("Contract does not return valid token name (" ++ show results "name"
                   ++ ") or symbol (" ++ show results "symbol" ++ ")"))
         else
           Ret {| TokenValidation.isValid := true;
                  TokenValidation.error := None;
                  TokenValidation.name := results !! "name";
                  TokenValidation.symbol := results !! "symbol";
                  TokenValidation.totalSupply := results !! "totalSupply" |}
     end)
    (fun error =>
       Ret (TokenValidation.invalid ("Failed to verify ERC-20 compliance: " ++ error))).

Definition verifyClaimantField (contractAddress : jsval) (url : string)
    (expectedClaimant : string) : Prog ClaimantValidation.t :=
  try_catch
    ('(ok, payload) ← rpc url "eth_call" (eth_call contractAddress "0xd28720af");
     error ← orThrow (Js.prop payload "error");
     if negb ok || Js.truthy error then
       Ret {| ClaimantValidation.isValid := false;
              ClaimantValidation.error :=
                Some ("Failed to call claimant(): " ++ messageOr error "Network error") |}
     else
       let result := Js.opt_prop payload "result" in
       if emptyResult result then
         Ret {| ClaimantValidation.isValid := false;
                ClaimantValidation.error :=
                  Some "Contract does not have a claimant field - required for achievement verification" |}
       else
         tail ← orThrow (Js.slice_from 26 result);
         let claimantAddress := "0x" ++ ToString tail in
         if negb (String.eqb (JsString.toLowerCase claimantAddress)
                             (JsString.toLowerCase expectedClaimant))
         then
           Ret {| ClaimantValidation.isValid := false;
                  ClaimantValidation.error :=
                    Some ("Contract claimant (" ++ claimantAddress
                          ++ ") does not match connected wallet ("
                          ++ expectedClaimant ++ ")") |}
         else
           Ret {| ClaimantValidation.isValid := true;
                  ClaimantValidation.error := None |})
    (fun error =>
       Ret {| ClaimantValidation.isValid := false;
              ClaimantValidation.error :=
                Some ("Failed to verify claimant field: " ++ error) |}).

End Chain.

(** ** Transaction and contract validators *)

Section TransactionValidator.
Context `{JsRuntime} `{EthersLib}.

Definition retryable (message : string) : Prog ValidationResult.t :=
  Ret (ValidationResult.failure message true).

(** The receipt of a successful transaction, or the failure to answer with:
    the common opening of the receipt-based checks. *)
Definition successfulReceipt (url : string) (txId : jsval)
    : Prog (ValidationResult.t + jsval) :=
  '(ok, receiptData) ← rpc url "eth_getTransactionReceipt" [txId];
  error ← orThrow (Js.prop receiptData "error");
  let receipt := Js.opt_prop receiptData "result" in
  if negb ok || Js.truthy error || negb (Js.truthy receipt) then
    Ret (inl (ValidationResult.failure
                ("Failed to get transaction receipt: "
                 ++ messageOr error "Transaction not found") true))
  else
    status ← orThrow (Js.prop receipt "status");
    if negb (Js.eq_string status "0x1") then
      Ret (inl (ValidationResult.failure "Transaction failed on the blockchain" true))
    else Ret (inr receipt).

(** The receipt of a successful contract creation and the created
    address. *)
Definition deploymentReceipt (url : string) (txId : jsval)
    : Prog (ValidationResult.t + jsval) :=
  receipt ← successfulReceipt url txId;
  match receipt with
  | inl failed => Ret (inl failed)
  | inr receipt =>
      let contractAddress := Js.opt_prop receipt "contractAddress" in
      if negb (Js.truthy contractAddress) then
        Ret (inl (ValidationResult.failure "Transaction did not deploy a contract" true))
      else Ret (inr contractAddress)
  end.

Definition tokenCreatedEventSignature : string :=
  "0xf7e8acecb8d3544fef71b7f97c2188587e324a3e2279d51915c3e067a640e88d".

(** [log.topics?.[0] === tokenCreatedEventSignature]; reading [topics] of a
    [null] log throws. *)
Definition isTokenCreatedLog (log : jsval) : option bool :=
  topics ← Js.prop log "topics";
  Some (Js.eq_string (Js.opt_prop topics "0") tokenCreatedEventSignature).

Fixpoint findLog (logs : list jsval) : option (option jsval) :=
  match logs with
  | [] => Some None
  | log :: rest =>
      found ← isTokenCreatedLog log;
      if found : bool then Some (Some log) else findLog rest
  end.

(** [receipt.logs?.find(...)]: only an array has [find]. *)
Definition findTokenCreatedLog (logs : jsval) : option (option jsval) :=
  match logs with
  | JUndefined | JNull => Some None
  | JArr items => findLog items
  | _ => None
  end.

(** ['0x' + topics[i].slice(26)] *)
Definition topicAddress (log : jsval) (i : string) : option string :=
  topics ← Js.prop log "topics";
  topic ← Js.prop topics i;
  tail ← Js.slice_from 26 topic;
  Some ("0x" ++ ToString tail).

Definition verifyFactoryTokenCreation (txId chainId : jsval)
    (expectedCreator : string) (context : ValidationContext.t) (env : Bindings)
    : Prog ValidationResult.t :=
  try_catch
    (match configured (if Js.eq_number chainId 33101
                       then NEXT_PUBLIC_FACTORY_ADDRESS_TESTNET env
                       else NEXT_PUBLIC_FACTORY_ADDRESS_MAINNET env) with
     | None =>
         Ret (ValidationResult.failure "Token factory not deployed on this network" false)
     | Some factoryAddress =>
         receipt ← successfulReceipt (ValidationContext.rpcUrl context) txId;
         match receipt with
         | inl failed => Ret failed
         | inr receipt =>
             let target := Js.opt_prop receipt "to" in
             calledFactory ←
               (if Js.is_nullish target then Ret false
                else lowered ← orThrow (Js.toLowerCase target);
                     Ret (String.eqb lowered (JsString.toLowerCase factoryAddress)));
             if negb calledFactory then
               retryable "Transaction did not call the Plunder Academy token factory"
             else
               tokenCreatedLog ← orThrow (findTokenCreatedLog (Js.opt_prop receipt "logs"));
               match tokenCreatedLog with
               | None => retryable "No TokenCreated event found in transaction"
               | Some log =>
                   creator ← orThrow (topicAddress log "1");
                   tokenAddress ← orThrow (topicAddress log "3");
                   if negb (String.eqb (JsString.toLowerCase creator)
                                       (JsString.toLowerCase expectedCreator))
                   then retryable "Token creator does not match connected wallet"
                   else
                     tokenValidation ←
                       verifyERC20Token (JStr tokenAddress)
                         (ValidationContext.rpcUrl context) expectedCreator;
                     if negb (TokenValidation.isValid tokenValidation) then
                       retryable ("Token validation failed: "
                                  ++ default "undefined" (TokenValidation.error tokenValidation))
                     else
                       Ret (ValidationResult.verified
                              ("Successfully created token via factory! Token address: "
                               ++ tokenAddress)
                              None None (Some (JStr tokenAddress))
                              (TokenValidation.name tokenValidation)
                              (TokenValidation.symbol tokenValidation)
                              None (Some "factory"))
               end
         end
     end)
    (fun _ => retryable "Failed to verify factory token creation").

Definition verifyManualTokenDeployment (txId chainId : jsval)
    (expectedClaimant : string) (context : ValidationContext.t)
    : Prog ValidationResult.t :=
  try_catch
    (deployed ← deploymentReceipt (ValidationContext.rpcUrl context) txId;
     match deployed with
     | inl failed => Ret failed
     | inr contractAddress =>
         tokenValidation ←
           verifyERC20Token contractAddress (ValidationContext.rpcUrl context)
             expectedClaimant;
         if negb (TokenValidation.isValid tokenValidation) then
           retryable ("Token validation failed: "
                      ++ default "undefined" (TokenValidation.error tokenValidation))
         else
           claimantValidation ←
             verifyClaimantField contractAddress (ValidationContext.rpcUrl context)
               expectedClaimant;
           if negb (ClaimantValidation.isValid claimantValidation) then
             retryable (default EmptyString (ClaimantValidation.error claimantValidation))
           else
             Ret (ValidationResult.verified
                    ("Successfully deployed token contract! Contract address: "
                     ++ ToString contractAddress)
                    None None (Some contractAddress)
                    (TokenValidation.name tokenValidation)
                    (TokenValidation.symbol tokenValidation)
                    None (Some "deployment"))
     end)
    (fun _ => retryable "Failed to verify manual token deployment").


(** [!response.ok || data.error || !data.result || data.result === '0x'],
    evaluated left to right. *)
Definition probeMissing (ok : bool) (payload : jsval) : option bool :=
  if negb ok then Some true
  else
    error ← Js.prop payload "error";
    Some (Js.truthy error || emptyResult (Js.opt_prop payload "result")).

(** The shared shape of the staking and NFT checks: a deployment whose
    claimant is the wallet and which answers two probes. *)
Definition verifyStakingContract (txId chainId : jsval)
    (expectedClaimant : string) (context : ValidationContext.t)
    : Prog ValidationResult.t :=
  let url := ValidationContext.rpcUrl context in
  try_catch
    (deployed ← deploymentReceipt url txId;
     match deployed with
     | inl failed => Ret failed
     | inr contractAddress =>
         claimantValidation ← verifyClaimantField contractAddress url expectedClaimant;
         if negb (ClaimantValidation.isValid claimantValidation) then
           retryable (default EmptyString (ClaimantValidation.error claimantValidation))
         else
           '(ok1, stakingTokenData) ← rpc url "eth_call" (eth_call contractAddress "0x72f702f3");
           missing1 ← orThrow (probeMissing ok1 stakingTokenData);
           if missing1 : bool then
             retryable "Contract does not appear to be a staking contract (missing stakingToken)"
           else
             '(ok2, totalStakedData) ← rpc url "eth_call" (eth_call contractAddress "0x817b1cd2");
             missing2 ← orThrow (probeMissing ok2 totalStakedData);
             if missing2 : bool then
               retryable "Contract does not appear to be a staking contract (missing totalStaked)"
             else
               Ret (ValidationResult.verified
                      ("Successfully deployed staking contract! Contract address: "
                       ++ ToString contractAddress)
                      None None None None None (Some contractAddress) (Some "deployment"))
     end)
    (fun _ => retryable "Failed to verify staking contract deployment").

Definition verifyNFTCollection (txId chainId : jsval)
    (expectedClaimant : string) (context : ValidationContext.t)
    : Prog ValidationResult.t :=
  let url := ValidationContext.rpcUrl context in
  try_catch
    (deployed ← deploymentReceipt url txId;
     match deployed with
     | inl failed => Ret failed
     | inr contractAddress =>
         claimantValidation ← verifyClaimantField contractAddress url expectedClaimant;
         if negb (ClaimantValidation.isValid claimantValidation) then
           retryable (default EmptyString (ClaimantValidation.error claimantValidation))
         else
           '(ok1, maxSupplyData) ← rpc url "eth_call" (eth_call contractAddress "0x32cb6b0c");
           missing1 ← orThrow (probeMissing ok1 maxSupplyData);
           if missing1 : bool then
             retryable "Contract does not appear to be an NFT collection (missing MAX_SUPPLY)"
           else
             '(ok2, totalMintedData) ← rpc url "eth_call" (eth_call contractAddress "0xa2309ff8");
             missing2 ← orThrow (probeMissing ok2 totalMintedData);
             if missing2 : bool then
               retryable "Contract does not appear to be an NFT collection (missing totalMinted)"
             else
               Ret (ValidationResult.verified
                      ("Successfully deployed NFT collection contract! Contract address: "
                       ++ ToString contractAddress)
                      None None None None None (Some contractAddress) (Some "deployment"))
     end)
    (fun _ => retryable "Failed to verify NFT collection deployment").

(** [message?.includes('does not exist')]: strings and arrays have
    [includes]. *)
Definition mentionsMissing (message : jsval) : option bool :=
  match message with
  | JUndefined | JNull => Some false
  | JStr s => Some (JsString.includes s "does not exist")
  | JArr items => Some (existsb (fun v => Js.eq_string v "does not exist") items)
  | _ => None
  end.

(** [!revealResponse.ok && revealData.error?.message?.includes(...)] *)
Definition revealMissing (ok : bool) (revealData : jsval) : option bool :=
  if ok then Some false
  else
    error ← Js.prop revealData "error";
    mentionsMissing (Js.opt_prop error "message").

Definition verifyRandomNumberGenerator (txId chainId : jsval)
    (expectedClaimant : string) (context : ValidationContext.t)
    : Prog ValidationResult.t :=
  let url := ValidationContext.rpcUrl context in
  try_catch
    (deployed ← deploymentReceipt url txId;
     match deployed with
     | inl failed => Ret failed
     | inr contractAddress =>
         claimantValidation ← verifyClaimantField contractAddress url expectedClaimant;
         if negb (ClaimantValidation.isValid claimantValidation) then
           retryable (default EmptyString (ClaimantValidation.error claimantValidation))
         else
           '(ok1, revealData) ← rpc url "eth_call" (eth_call contractAddress "0xa475b5dd");
           missing1 ← orThrow (revealMissing ok1 revealData);
           if missing1 : bool then
             retryable "Contract does not appear to be a random number generator (missing reveal function)"
           else
             let dummyAddress :=
               JsString.replace "0x" EmptyString (JsString.toLowerCase expectedClaimant) in
             '(ok2, commitmentsData) ←
               rpc url "eth_call"
                 (eth_call contractAddress
                    ("0xe8fcf723" ++ JsString.padStart 64 "0" dummyAddress));
             failed2 ← (if negb ok2 then Ret true
                        else error ← orThrow (Js.prop commitmentsData "error");
                             Ret (Js.truthy error));
             if failed2 : bool then
               retryable "Contract does not appear to be a random number generator (missing commitments mapping)"
             else
               Ret (ValidationResult.verified
                      ("Successfully deployed random number generator contract! Contract address: "
                       ++ ToString contractAddress)
                      None None None None None (Some contractAddress) (Some "deployment"))
     end)
    (fun _ => retryable "Failed to verify random number generator deployment").

Definition implementationSlot : string :=
  "0x360894a13ba1a3210667c828492db98dca3e2076cc3735a920a3ca505d382bbc".

Definition emptySlot : string :=
  "0x0000000000000000000000000000000000000000000000000000000000000000".

Definition verifyUpgradeableContract (proxyAddress chainId : jsval)
    (expectedClaimant : string) (context : ValidationContext.t)
    : Prog ValidationResult.t :=
  let url := ValidationContext.rpcUrl context in
  try_catch
    (contractAddress ← orThrow (normalizeAddress proxyAddress);
     claimantValidation ← verifyClaimantField (JStr contractAddress) url expectedClaimant;
     if negb (ClaimantValidation.isValid claimantValidation) then
       retryable (default EmptyString (ClaimantValidation.error claimantValidation))
     else
       '(ok, storageData) ←
         rpc url "eth_getStorageAt"
           [JStr contractAddress; JStr implementationSlot; JStr "latest"];
       failed ← (if negb ok then Ret true
                 else error ← orThrow (Js.prop storageData "error");
                      Ret (Js.truthy error));
       if failed : bool then retryable "Failed to read proxy storage slot"
       else
         implementationAddress ← orThrow (Js.prop storageData "result");
         if emptyResult implementationAddress
            || Js.eq_string implementationAddress emptySlot
         then
           retryable "Contract does not appear to be an EIP-1967 proxy (implementation slot is empty)"
         else
           Ret (ValidationResult.verified
                  ("Successfully verified upgradeable proxy contract! Proxy address: "
                   ++ contractAddress)
                  None None None None None (Some (JStr contractAddress))
                  (Some "deployment")))
    (fun _ => retryable "Failed to verify upgradeable contract proxy").

End TransactionValidator.

Section Dispatch.
Context `{JsRuntime} `{EthersLib}.

(** [/^0x[a-fA-F0-9]{64}$/.test(s)] *)
Definition txIdPattern_test (s : string) : bool :=
  match s with
  | String "0" (String "x" digits) =>
      (String.length digits =? 64)%nat && JsString.forallb_string JsString.is_hex digits
  | _ => false
  end.

(** [!claimantAddress || claimantAddress.toLowerCase() !==
    context.walletAddress.toLowerCase()]: the claimant when the test is
    false, [None] when it is true; lower-casing a truthy value that is not
    a string throws. *)
Definition claimantOfWallet (claimantAddress : jsval) (walletAddress : string)
    : Prog (option string) :=
  match claimantAddress with
  | JStr claimant =>
      Ret (if Js.truthy claimantAddress
              && String.eqb (JsString.toLowerCase claimant)
                            (JsString.toLowerCase walletAddress)
           then Some claimant else None)
  | other => if Js.truthy other then Throw "TypeError" else Ret None
  end.

(** The text ["factory" or "deployment"], quotation marks included. *)
Definition factoryOrDeployment : string :=
  let quote := String (ascii_of_nat 34) EmptyString in
  quote ++ "factory" ++ quote ++ " or " ++ quote ++ "deployment" ++ quote.

Definition claimantMismatch : Prog ValidationResult.t :=
  retryable "Claimant address must match the submitting wallet address".

Definition genericTransaction (transactionHash : jsval)
    (context : ValidationContext.t) : Prog ValidationResult.t :=
  try_catch
    ('(ok, payload) ← rpc (ValidationContext.rpcUrl context)
                        "eth_getTransactionByHash" [transactionHash];
     error ← orThrow (Js.prop payload "error");
     if negb ok || Js.truthy error then
       retryable ("Failed to verify transaction: " ++ messageOr error "Network error")
     else
       let transaction := Js.opt_prop payload "result" in
       if negb (Js.truthy transaction) then
         retryable "Transaction not found on the blockchain. Make sure the transaction is confirmed."
       else
         normalizedTxFrom ← orThrow (normalizeAddress (Js.opt_prop transaction "from"));
         normalizedWallet ←
           orThrow (normalizeAddress (JStr (ValidationContext.walletAddress context)));
         if negb (String.eqb normalizedTxFrom normalizedWallet) then
           retryable "Transaction must be from the submitting wallet address"
         else
           let minedIn := Js.opt_prop transaction "blockNumber" in
           let blockNumber :=
             if Js.truthy minedIn then JsString.parseInt (ToString minedIn) 16
             else None in
           Ret (ValidationResult.verified
                  "Transaction successfully verified on the blockchain!"
                  (Some true) blockNumber None None None None None))
    (fun _ => retryable "Failed to validate transaction due to network error").

Definition validateTransactionSubmission (submissionData : jsval)
    (context : ValidationContext.t) (env : option Bindings)
    : Prog ValidationResult.t :=
  transactionHash ← orThrow (Js.prop submissionData "transactionHash");
  let chainId := Js.or_else (Js.opt_prop submissionData "chainId") (JNum 33101) in
  let claimantAddress := Js.opt_prop submissionData "claimantAddress" in
  let method := Js.opt_prop submissionData "method" in
  let achievement := ValidationContext.achievementNumber context in
  let walletAddress := ValidationContext.walletAddress context in
  if negb (txIdPattern_test (ToString transactionHash)) then
    retryable "Invalid transaction ID format. Expected 64-character hex string starting with 0x"
  else if String.eqb achievement "0005" then
    if negb (Js.truthy method) then
      retryable ("Token creation method is required for achievement 0005. Must be " ++ factoryOrDeployment)
    else
      claimant ← claimantOfWallet claimantAddress walletAddress;
      match claimant with
      | None => claimantMismatch
      | Some claimant =>
          if Js.eq_string method "factory" then
            match env with
            | None => retryable "Environment configuration not available"
            | Some bindings =>
                verifyFactoryTokenCreation transactionHash chainId claimant context bindings
            end
          else if Js.eq_string method "deployment" then
            verifyManualTokenDeployment transactionHash chainId claimant context
          else retryable ("Invalid method. Must be " ++ factoryOrDeployment)
      end
  else if String.eqb achievement "0025" then
    claimant ← claimantOfWallet claimantAddress walletAddress;
    match claimant with
    | None => claimantMismatch
    | Some claimant => verifyStakingContract transactionHash chainId claimant context
    end
  else if String.eqb achievement "0033" then
    claimant ← claimantOfWallet claimantAddress walletAddress;
    match claimant with
    | None => claimantMismatch
    | Some claimant => verifyNFTCollection transactionHash chainId claimant context
    end
  else if String.eqb achievement "0043" then
    claimant ← claimantOfWallet claimantAddress walletAddress;
    match claimant with
    | None => claimantMismatch
    | Some claimant => verifyRandomNumberGenerator transactionHash chainId claimant context
    end
  else genericTransaction transactionHash context.

(** The [case 'contract'] arm of the dispatch. *)
Definition validateContractSubmission (context : ValidationContext.t)
    : Prog ValidationResult.t :=
  if String.eqb (ValidationContext.achievementNumber context) "0046" then
    let submissionData := ValidationContext.submissionData context in
    contractAddress ← orThrow (Js.prop submissionData "contractAddress");
    if negb (Js.truthy contractAddress) || negb (isValidEthereumAddress contractAddress)
    then retryable "Valid contract address is required for achievement 0046"
    else
      let chainId := Js.or_else (Js.opt_prop submissionData "chainId") (JNum 33101) in
      verifyUpgradeableContract contractAddress chainId
        (ValidationContext.walletAddress context) context
  else
    Ret (ValidationResult.failure
           "Contract validation not yet implemented for this achievement" false).

(** Routes to the validator of the submission type. *)
Definition validateSubmission (context : ValidationContext.t)
    (env : option Bindings) : Prog ValidationResult.t :=
  let submissionType := ValidationContext.submissionType context in
  let submissionData := ValidationContext.submissionData context in
  if String.eqb submissionType "quiz" then
    validateQuizSubmission submissionData context env
  else if String.eqb submissionType "transaction" then
    validateTransactionSubmission submissionData context env
  else if String.eqb submissionType "secret" then
    validateSecretSubmission submissionData context env
  else if String.eqb submissionType "contract" then
    validateContractSubmission context
  else if String.eqb submissionType "custom" then
    Ret (ValidationResult.failure "Custom validation not yet implemented" false)
  else
    Ret (ValidationResult.failure "Unknown submission type" false).

End Dispatch.

(** ** The submission router: [POST /submit] *)

Module VoucherResponse.
Record t : Type := {
  status : Z;                         (* HTTP status *)
  success : bool;
  voucher : option CompletionVoucher;
  signature : option string;
  contractAddress : option string;
  chainId : option jsval;
  results : option ValidationResult.t;
  error : option string
}.

(** [c.json({ success: false, error }, status)] *)
Definition rejection (code : Z) (message : string) : t :=
  {| status := code; success := false; voucher := None; signature := None;
     contractAddress := None; chainId := None; results := None;
     error := Some message |}.
End VoucherResponse.

(** [value || null] for an optional number and an optional string. *)
Definition numberOrNull (v : option Q) : option Q :=
  match v with
  | Some q => if Qeq_bool q 0 then None else Some q
  | None => None
  end.

Section Router.
Context `{JsRuntime} `{EthersLib}.

(** The validator dispatch the handler calls. *)
Variable validate : ValidationContext.t -> option Bindings -> Prog ValidationResult.t.

Definition kindMismatchError (achievementNumber : string)
    (expectedType : SubmissionKind) : string :=
  "Invalid submission type for achievement " ++ achievementNumber
  ++ ". Expected: " ++ kind_name expectedType.

(** The RPC endpoint for the submitted chain id. *)
Definition selectRpcUrl (env : Bindings) (submissionType : string)
    (submissionData : jsval) : string :=
  let mainnet := default (RPC_URL env) (configured (RPC_URL_MAINNET env)) in
  let testnet := default (RPC_URL env) (configured (RPC_URL_TESTNET env)) in
  if String.eqb submissionType "transaction" || String.eqb submissionType "contract"
  then
    let submittedChainId := Js.opt_prop submissionData "chainId" in
    if Js.eq_number submittedChainId 33101 then testnet
    else if Js.eq_number submittedChainId 32769 then mainnet
    else testnet
  else mainnet.

Definition responseChainId (env : Bindings) (submissionType : string)
    (submissionData : jsval) : option jsval :=
  let configuredChain :=
    (fun n => JNum (inject_Z n)) <$> JsString.parseInt_default (CHAIN_ID env) in
  if String.eqb submissionType "transaction" || String.eqb submissionType "contract"
  then
    let submittedChainId := Js.opt_prop submissionData "chainId" in
    if Js.truthy submittedChainId then Some submittedChainId else configuredChain
  else configuredChain.

(** The part of the handler that follows the request checks. *)
Definition processSubmission (env : Bindings) (walletAddress : jsval)
    (achievementNumber submissionType : string) (submissionData metadata : jsval)
    (taskCode : option Z) : Prog VoucherResponse.t :=
  normalizedWallet ← orThrow (normalizeAddress walletAddress);
  existingCompletion ← await (DbGetTrainingCompletion normalizedWallet achievementNumber);
  if match existingCompletion with
     | Some existing => TrainingCompletion.passed existing
     | None => false
     end
  then Ret (VoucherResponse.rejection 409 "Achievement already completed successfully")
  else
      let validationContext :=
        {| ValidationContext.achievementNumber := achievementNumber;
           ValidationContext.walletAddress := normalizedWallet;
           ValidationContext.rpcUrl := selectRpcUrl env submissionType submissionData;
           ValidationContext.submissionType := submissionType;
           ValidationContext.submissionData := submissionData;
           ValidationContext.metadata := metadata |} in
      validationResult ← validate validationContext (Some env);
      await (DbCreateWalletData normalizedWallet);;
      let voucher := {| taskCode := taskCode; wallet := normalizedWallet |} in
      signature ←
        (if ValidationResult.passed validationResult then
           Some <$> await (SignVoucher (ISSUER_PRIVATE_KEY env) (CONTRACT_ADDRESS env)
                             (JsString.parseInt_default (CHAIN_ID env)) voucher)
         else Ret None);
      await (DbCreateTrainingCompletion
               {| TrainingCompletion.wallet_address := normalizedWallet;
                  TrainingCompletion.achievement_number := achievementNumber;
                  TrainingCompletion.task_code := taskCode;
                  TrainingCompletion.submission_type := submissionType;
                  TrainingCompletion.submission_data := JSON_stringify submissionData;
                  TrainingCompletion.score :=
                    numberOrNull (ValidationResult.score validationResult);
                  TrainingCompletion.max_score :=
                    numberOrNull (ValidationResult.maxScore validationResult);
                  TrainingCompletion.passed := ValidationResult.passed validationResult;
                  TrainingCompletion.voucher_signature := configured signature;
                  TrainingCompletion.metadata :=
                    if Js.truthy metadata
                    then configured (Some (JSON_stringify metadata)) else None;
                  TrainingCompletion.created_at := 0 |});;
      Ret {| VoucherResponse.status := 200;
             VoucherResponse.success := ValidationResult.passed validationResult;
             VoucherResponse.voucher :=
               if ValidationResult.passed validationResult then Some voucher else None;
             VoucherResponse.signature := signature;
             VoucherResponse.contractAddress := Some (CONTRACT_ADDRESS env);
             VoucherResponse.chainId := responseChainId env submissionType submissionData;
             VoucherResponse.results := Some validationResult;
             VoucherResponse.error :=
               if ValidationResult.passed validationResult then None
               else ValidationResult.error validationResult |}.

(** The handler; [body] is [None] when the request body is not JSON. *)
Definition submit (env : Bindings) (body : option jsval) : Prog VoucherResponse.t :=
  try_catch
    (request ← orThrow body;
     walletAddress ← orThrow (Js.prop request "walletAddress");
     let achievementNumber := Js.opt_prop request "achievementNumber" in
     let submissionType := Js.opt_prop request "submissionType" in
     let submissionData := Js.opt_prop request "submissionData" in
     let metadata := Js.opt_prop request "metadata" in
     if negb (Js.truthy walletAddress) || negb (isValidEthereumAddress walletAddress) then
       Ret (VoucherResponse.rejection 400 "Invalid wallet address")
     else
       match achievementNumber with
       | JStr achievement =>
           if negb (Js.truthy achievementNumber) then
             Ret (VoucherResponse.rejection 400 "Invalid achievement number")
           else
             match submissionType with
             | JStr declared =>
                 if negb (bool_decide (is_Some (kind_of_name declared))) then
                   Ret (VoucherResponse.rejection 400
                          "Invalid submission type. Must be one of: quiz, transaction, contract, custom, secret")
                 else if negb (Js.truthy submissionData) then
                   Ret (VoucherResponse.rejection 400 "Submission data is required")
                 else
                   match ACHIEVEMENT_TYPES !! achievement with
                   | None =>
                       Ret (VoucherResponse.rejection 400
                              "Invalid achievement number - achievement does not exist")
                   | Some expectedType =>
                       if negb (String.eqb declared (kind_name expectedType)) then
                         Ret (VoucherResponse.rejection 400
                                (kindMismatchError achievement expectedType))
                       else
                         let taskCode := achievementNumberToTaskCode achievement in
                         if bool_decide (is_Some taskCode ∧ default 0 taskCode <= 0) then
                           Ret (VoucherResponse.rejection 400
                                  "Invalid achievement number format")
                         else
                           processSubmission env walletAddress achievement declared
                             submissionData metadata taskCode
                   end
             | _ =>
                 Ret (VoucherResponse.rejection 400
                        "Invalid submission type. Must be one of: quiz, transaction, contract, custom, secret")
             end
       | _ => Ret (VoucherResponse.rejection 400 "Invalid achievement number")
       end)
    (fun _ =>
       Ret (VoucherResponse.rejection 500 "Failed to process achievement submission")).

End Router.

(** The handler as deployed: the router over the validator dispatch. *)
Definition submitHandler `{JsRuntime} `{EthersLib} (env : Bindings)
    (body : option jsval) : Prog VoucherResponse.t :=
  submit validateSubmission env body.

(** ** A reference runtime

    An executable instance of the runtime interface, used to run the model
    on concrete requests.  It reads the JSON grammar with 8-bit strings
    (a [\u] escape above 255 is rejected) and prints numbers in plain decimal
    notation. *)

Module ReferenceRuntime.

Definition quote : ascii := ascii_of_nat 34.
Definition backslash : ascii := ascii_of_nat 92.

Definition is_json_space (c : ascii) : bool :=
  let n := JsString.code c in
  (n =? 32) || (n =? 9) || (n =? 10) || (n =? 13).

Fixpoint skip_space (s : string) : string :=
  match s with
  | String c rest => if is_json_space c then skip_space rest else s
  | EmptyString => EmptyString
  end.

(** Later members replace earlier ones with the same key. *)
Fixpoint set_field (k : string) (v : jsval) (fields : list (string * jsval))
    : list (string * jsval) :=
  match fields with
  | [] => [(k, v)]
  | (k', v') :: rest =>
      if String.eqb k k' then (k, v) :: rest else (k', v') :: set_field k v rest
  end.

Definition hex4 (s : string) : option (Z * string) :=
  match s with
  | String a (String b (String c (String d rest))) =>
      let digits := String a (String b (String c (String d EmptyString))) in
      if JsString.forallb_string JsString.is_hex digits
      then (fun n => (n, rest)) <$> JsString.parse_digits 16 None digits
      else None
  | _ => None
  end.

Definition escaped (c : ascii) : option ascii :=
  let n := JsString.code c in
  if (n =? 34) || (n =? 92) || (n =? 47) then Some c
  else if n =? 98 then Some (ascii_of_nat 8)
  else if n =? 102 then Some (ascii_of_nat 12)
  else if n =? 110 then Some (ascii_of_nat 10)
  else if n =? 114 then Some (ascii_of_nat 13)
  else if n =? 116 then Some (ascii_of_nat 9)
  else None.

(** The characters of a string literal after its opening quote, and the
    rest of the input after its closing quote. *)
Fixpoint string_body (fuel : nat) (s : string) : option (string * string) :=
  match fuel, s with
  | S fuel', String c rest =>
      if Ascii.eqb c quote then Some (EmptyString, rest)
      else if Ascii.eqb c backslash then
        match rest with
        | String e rest' =>
            if JsString.code e =? 117 then
              '(n, rest'') ← hex4 rest';
              if n <? 256 then
                '(body, after) ← string_body fuel' rest'';
                Some (String (ascii_of_nat (Z.to_nat n)) body, after)
              else None
            else
              ch ← escaped e;
              '(body, after) ← string_body fuel' rest';
              Some (String ch body, after)
        | EmptyString => None
        end
      else if JsString.code c <? 32 then None
      else
        '(body, after) ← string_body fuel' rest;
        Some (String c body, after)
  | _, _ => None
  end.

(** A run of decimal digits: its value, its length, the rest. *)
Fixpoint digits (s : string) (value : Z) (count : nat) : Z * nat * string :=
  match s with
  | String c rest =>
      if JsString.is_digit c
      then digits rest (value * 10 + (JsString.code c - 48)) (S count)
      else (value, count, s)
  | EmptyString => (value, count, s)
  end.

Definition pow10 (n : Z) : Q :=
  if 0 <=? n then inject_Z (10 ^ n) else 1 / inject_Z (10 ^ (- n)).

Definition exponent (s : string) : option (Z * string) :=
  match s with
  | String c rest =>
      if (JsString.code c =? 101) || (JsString.code c =? 69) then
        let '(sign, rest1) :=
          match rest with
          | String "-" r => (-1, r)
          | String "+" r => (1, r)
          | _ => (1, rest)
          end in
        let '(value, count, rest2) := digits rest1 0 0 in
        if (count =? 0)%nat then None else Some (sign * value, rest2)
      else Some (0, s)
  | EmptyString => Some (0, s)
  end.

Definition number (s : string) : option (Q * string) :=
  let '(sign, s1) :=
    match s with
    | String "-" r => (-1, r)
    | _ => (1, s)
    end in
  let '(whole, count, s2) := digits s1 0 0 in
  if (count =? 0)%nat then None
  else if (1 <? count)%nat && String.prefix "0" s1 then None
  else
    '(fraction, scale, s3) ←
      match s2 with
      | String "." r =>
          let '(value, places, r') := digits r 0 0 in
          if (places =? 0)%nat then None else Some (value, places, r')
      | _ => Some (0, 0%nat, s2)
      end;
    '(e, s4) ← exponent s3;
    Some ((inject_Z sign
           * (inject_Z whole + inject_Z fraction / inject_Z (10 ^ Z.of_nat scale))
           * pow10 e)%Q, s4).

Definition keyword (word : string) (v : jsval) (s : string) : option (jsval * string) :=
  if String.prefix word s then Some (v, JsString.drop (String.length word) s) else None.

Fixpoint value (fuel : nat) (s : string) : option (jsval * string) :=
  match fuel with
  | O => None
  | S fuel' =>
      match skip_space s with
      | String c rest =>
          let n := JsString.code c in
          if n =? 123 then
            match skip_space rest with
            | String "}" after => Some (JObj [], after)
            | _ => members fuel' rest []
            end
          else if n =? 91 then
            match skip_space rest with
            | String "]" after => Some (JArr [], after)
            | _ => elements fuel' rest []
            end
          else if n =? 34 then
            '(body, after) ← string_body (String.length rest) rest;
            Some (JStr body, after)
          else if n =? 116 then keyword "true" (JBool true) (String c rest)
          else if n =? 102 then keyword "false" (JBool false) (String c rest)
          else if n =? 110 then keyword "null" JNull (String c rest)
          else
            '(q, after) ← number (String c rest);
            Some (JNum q, after)
      | EmptyString => None
      end
  end
with members (fuel : nat) (s : string) (acc : list (string * jsval))
    : option (jsval * string) :=
  match fuel with
  | O => None
  | S fuel' =>
      match skip_space s with
      | String c rest =>
          if Ascii.eqb c quote then
            '(k, after) ← string_body (String.length rest) rest;
            match skip_space after with
            | String ":" after' =>
                '(v, after'') ← value fuel' after';
                match skip_space after'' with
                | String "," more => members fuel' more (set_field k v acc)
                | String "}" done => Some (JObj (set_field k v acc), done)
                | _ => None
                end
            | _ => None
            end
          else None
      | EmptyString => None
      end
  end
with elements (fuel : nat) (s : string) (acc : list jsval)
    : option (jsval * string) :=
  match fuel with
  | O => None
  | S fuel' =>
      '(v, after) ← value fuel' s;
      match skip_space after with
      | String "," more => elements fuel' more (acc ++ [v])
      | String "]" done => Some (JArr (acc ++ [v]), done)
      | _ => None
      end
  end.

Definition parse (s : string) : option jsval :=
  '(v, after) ← value (S (String.length s)) s;
  match skip_space after with
  | EmptyString => Some v
  | _ => None
  end.

(** [q.toString()]: integers exactly; other values with at most 17
    fractional digits. *)
Fixpoint fraction_digits (fuel : nat) (remainder denominator : Z) : string :=
  match fuel with
  | O => EmptyString
  | S fuel' =>
      if remainder =? 0 then EmptyString
      else
        String (JsString.digit_char (remainder * 10 / denominator))
          (fraction_digits fuel' (remainder * 10 mod denominator) denominator)
  end.

Definition number_toString (q : Q) : string :=
  let r := Qred q in
  let num := Z.abs (Qnum r) in
  let den := Z.pos (Qden r) in
  let sign := if Qnum r <? 0 then "-" else EmptyString in
  if den =? 1 then sign ++ JsString.Z_toString num
  else sign ++ JsString.Z_toString (num / den) ++ "."
       ++ fraction_digits 17 (num mod den) den.

(** [q.toFixed(1)], rounding halves away from zero. *)
Definition number_toFixed1 (q : Q) : string :=
  let tenths := Qfloor (Qabs q * 10 + (1 # 2))%Q in
  (if Qlt_le_dec q 0 then "-" else EmptyString)
  ++ JsString.Z_toString (tenths / 10) ++ "."
  ++ JsString.Z_toString (tenths mod 10).

Fixpoint toString (v : jsval) : string :=
  match v with
  | JUndefined => "undefined"
  | JNull => "null"
  | JBool true => "true"
  | JBool false => "false"
  | JNum q => number_toString q
  | JStr s => s
  | JArr items =>
      (fix join (l : list jsval) : string :=
         match l with
         | [] => EmptyString
         | x :: rest =>
             (match x with JUndefined | JNull => EmptyString | _ => toString x end)
             ++ match rest with [] => EmptyString | _ => "," ++ join rest end
         end) items
  | JObj _ => "[object Object]"
  end.

(** A numeric string: optional sign, digits, optional fraction and
    exponent; the empty string is 0. *)
Definition string_toNumber (s : string) : option Q :=
  let t := JsString.trim s in
  match t with
  | EmptyString => Some 0%Q
  | String "+" r =>
      match number r with
      | Some (q, EmptyString) => Some q
      | _ => None
      end
  | _ =>
      match number t with
      | Some (q, EmptyString) => Some q
      | _ => None
      end
  end.

Definition toNumber (v : jsval) : option Q :=
  match v with
  | JUndefined => None
  | JNull => Some 0%Q
  | JBool b => Some (if b then 1%Q else 0%Q)
  | JNum q => Some q
  | JStr s => string_toNumber s
  | JArr _ | JObj _ => string_toNumber (toString v)
  end.

Definition escape_char (c : ascii) : string :=
  let n := JsString.code c in
  if (n =? 34) || (n =? 92) then String backslash (String c EmptyString)
  else if n =? 10 then String backslash "n"
  else if n =? 13 then String backslash "r"
  else if n =? 9 then String backslash "t"
  else if n <? 32 then
    String backslash
      ("u00" ++ String (JsString.digit_char (n / 16))
                  (String (if n mod 16 <? 10 then JsString.digit_char (n mod 16)
                           else ascii_of_nat (Z.to_nat (87 + n mod 16)))
                     EmptyString))
  else String c EmptyString.

Fixpoint escape (s : string) : string :=
  match s with
  | EmptyString => EmptyString
  | String c rest => escape_char c ++ escape rest
  end.

Definition quoted (s : string) : string :=
  String quote (escape s) ++ String quote EmptyString.

Fixpoint stringify (v : jsval) : string :=
  match v with
  | JUndefined | JNull => "null"
  | JBool true => "true"
  | JBool false => "false"
  | JNum q => number_toString q
  | JStr s => quoted s
  | JArr items =>
      "[" ++ (fix join (l : list jsval) : string :=
                match l with
                | [] => EmptyString
                | x :: rest =>
                    stringify x
                    ++ match rest with [] => EmptyString | _ => "," ++ join rest end
                end) items ++ "]"
  | JObj fields =>
      "{" ++ (fix join (l : list (string * jsval)) : string :=
                match l with
                | [] => EmptyString
                | (k, x) :: rest =>
                    quoted k ++ ":" ++ stringify x
                    ++ match rest with [] => EmptyString | _ => "," ++ join rest end
                end) fields ++ "}"
  end.

(** JSON text written with apostrophes in place of quotation marks. *)
Definition json (text : string) : string :=
  JsString.map_string (fun c => if JsString.code c =? 39 then quote else c) text.

End ReferenceRuntime.

#[export] Instance reference_runtime : JsRuntime := {|
  JSON_parse := ReferenceRuntime.parse;
  JSON_stringify := ReferenceRuntime.stringify;
  ToString := ReferenceRuntime.toString;
  ToString_str := fun s => eq_refl;
  ToNumber := ReferenceRuntime.toNumber;
  ToNumber_num := fun q => eq_refl;
  ToNumber_undefined := eq_refl;
  Number_toString := ReferenceRuntime.number_toString;
  Number_toFixed1 := ReferenceRuntime.number_toFixed1
|}.

(** A stand-in for [ethers.getAddress] on concrete runs: it accepts [0x]
    followed by 40 hex digits and answers with the lower-case form (the
    checksum casing needs Keccak-256). *)
Definition reference_getAddress (s : string) : option string :=
  match s with
  | String "0" (String "x" digits) =>
      if (String.length digits =? 40)%nat && JsString.forallb_string JsString.is_hex digits
      then Some (JsString.toLowerCase s) else None
  | _ => None
  end.

#[export] Instance reference_ethers : EthersLib := {|
  getAddress := reference_getAddress
|}.

(** ** Reasoning about programs *)

(** Every event the program can perform satisfies [E], and every value it
    can return satisfies [P], whatever the answers to its events. *)
Fixpoint Covers {A : Type} (E : forall X, Event X -> Prop) (P : A -> Prop)
    (p : Prog A) : Prop :=
  match p with
  | Ret a => P a
  | Throw _ => True
  | Vis ev k => E _ ev /\ forall x, Covers E P (k x)
  end.

(** The events that leave the completion table alone. *)
Definition keepsCompletions (X : Type) (ev : Event X) : Prop :=
  match ev with
  | DbCreateTrainingCompletion _ => False
  | _ => True
  end.

(** The events that are not an HTTP fetch. *)
Definition noFetch (X : Type) (ev : Event X) : Prop :=
  match ev with
  | FetchRpc _ _ _ | FetchQuizData _ | FetchSecretAnswers _ => False
  | _ => True
  end.

(** A passed result is terminal. *)
Definition terminalWhenPassed (r : ValidationResult.t) : Prop :=
  ValidationResult.passed r = true -> ValidationResult.retryAllowed r = Some false.

(** A failure that cannot be retried. *)
Definition finalFailure (r : ValidationResult.t) : Prop :=
  ValidationResult.passed r = false /\ ValidationResult.retryAllowed r = Some false.

(** The stored rows of a wallet and achievement that passed. *)
Definition passedRows (rows : list TrainingCompletion.t)
    (walletAddress achievementNumber : string) : list TrainingCompletion.t :=
  List.filter (matches_completion walletAddress achievementNumber) rows.



(** The outcome of reading a receipt: a failure to answer with, which is
    terminal when passed, or the receipt. *)
Definition receiptOutcome (r : ValidationResult.t + jsval) : Prop :=
  match r with
  | inl failed => terminalWhenPassed failed
  | inr _ => True
  end.


Definition conflictResponse : VoucherResponse.t :=
  VoucherResponse.rejection 409 "Achievement already completed successfully".

(** The kind-mismatch guarantee read literally, for one request: whenever
    its declared kind differs from the kind the catalog configures for its
    achievement, the handler, with any validator, is the returned
    kind-mismatch rejection. *)
Definition answersKindMismatch `{JsRuntime} `{EthersLib} (env : Bindings)
    (request : jsval) : Prop :=
  forall (achievementNumber declared : string) (expectedType : SubmissionKind),
    Js.opt_prop request "achievementNumber" = JStr achievementNumber ->
    ACHIEVEMENT_TYPES !! achievementNumber = Some expectedType ->
    Js.opt_prop request "submissionType" = JStr declared ->
    declared <> kind_name expectedType ->
    forall validate,
      submit validate env (Some request)
      = Ret (VoucherResponse.rejection 400
               (kindMismatchError achievementNumber expectedType)).


(** ** Requests that overlap *)

(** An event at which the handler awaits a promise: the runtime may run
    another request before the handler continues.  Reading the clock and
    the module variables is synchronous. *)
Definition isAwait {X : Type} (ev : Event X) : bool :=
  match ev with
  | DateNow | GetGlobals | SetGlobals _ => false
  | _ => true
  end.

(** A handler runs without interruption up to its next await, or to its
    end. *)
Fixpoint settle (o : Oracle) {A : Type} (p : Prog A) (w : World) : World * Prog A :=
  match p with
  | Vis ev k =>
      if isAwait ev then (w, p)
      else let '(w', x) := handle o ev w in settle o (k x) w'
  | _ => (w, p)
  end.

(** The awaited operation of a suspended handler takes place, and the
    handler runs on to its next await. *)
Definition resume (o : Oracle) {A : Type} (p : Prog A) (w : World) : World * Prog A :=
  match p with
  | Vis ev k => let '(w', x) := handle o ev w in settle o (k x) w'
  | _ => (w, p)
  end.

(** What the runtime does next: a request arrives and its handler starts,
    or the suspended handler of an earlier request (counted from 0 in the
    order of arrival) continues. *)
Inductive Turn : Type :=
| Arrives (env : Bindings) (body : option jsval)
| Continues (request : nat).

(** The world and the requests in flight after a series of turns. *)
Fixpoint overlapped `{JsRuntime} `{EthersLib} (o : Oracle) (turns : list Turn)
    (inFlight : list (Prog VoucherResponse.t)) (w : World)
    : World * list (Prog VoucherResponse.t) :=
  match turns with
  | [] => (w, inFlight)
  | Arrives env body :: rest =>
      let '(w', p) := settle o (submitHandler env body) w in
      overlapped o rest (inFlight ++ [p]) w'
  | Continues i :: rest =>
      match inFlight !! i with
      | Some p =>
          let '(w', p') := resume o p w in
          overlapped o rest (<[i := p']> inFlight) w'
      | None => overlapped o rest inFlight w
      end
  end.




(** ** Statements in the words of the specification *)

(** A string of four decimal digits, the form of an achievement
    identifier. *)
Definition four (a b c d : ascii) : string :=
  String a (String b (String c (String d EmptyString))).

Definition decimalDigits : list ascii :=
  ["0"; "1"; "2"; "3"; "4"; "5"; "6"; "7"; "8"; "9"]%char.

Definition roundTrips (achievementNumber : string) : bool :=
  String.eqb
    (taskCodeToAchievementNumber (achievementNumberToTaskCode achievementNumber)
       default_padding)
    achievementNumber.

(** [0x] followed by exactly 64 hexadecimal characters. *)
Definition wellFormedHash (s : string) : Prop :=
  exists digits : string,
    s = "0x" ++ digits
    /\ String.length digits = 64%nat
    /\ JsString.forallb_string JsString.is_hex digits = true.

Definition invalidHashFailure : ValidationResult.t :=
  ValidationResult.failure
    "Invalid transaction ID format. Expected 64-character hex string starting with 0x"
    true.

(** The user response of an interactive answer that carries the type tag
    [tag]: [userAnswer] parses to [{ type: tag, userResponse, ... }]. *)
Definition envelope `{JsRuntime} (userAnswer tag : string) : option jsval :=
  parsed ← JSON_parse userAnswer;
  type ← Js.prop parsed "type";
  if Js.eq_string type tag then Js.prop parsed "userResponse" else None.

(** The array submitted under [field] in such a response. *)
Definition submittedItems `{JsRuntime} (userAnswer tag field : string)
    : option (list jsval) :=
  userResponse ← envelope userAnswer tag;
  match Js.opt_prop userResponse field with
  | JArr items => Some items
  | _ => None
  end.

(** The number of indices [i] where [submitted[i]] equals [expected[i]]. *)
Definition matchingIndices (submitted : list jsval) (expected : list string) : nat :=
  List.length
    (List.filter (fun pair => Js.eq_string pair.1 pair.2) (combine submitted expected)).

(** Position-indexed partial credit, in the words of the specification:
    (matching indices) / (expected length) × maxPoints. *)
Definition positionalCredit (submitted : list jsval) (expected : list string)
    (maxPoints : Q) : Q :=
  (Js.of_nat (matchingIndices submitted expected) / Js.of_nat (List.length expected)
   * maxPoints)%Q.

(** The score of a positional grader once the envelope is open. *)
Definition positionalScore `{JsRuntime} (userResponse : jsval)
    (correctAnswer : InteractiveElementCorrectAnswer) (maxPoints : Q) : Q :=
  default 0%Q (
    let userSequence := Js.or_else (Js.opt_prop userResponse "sequence") (JArr []) in
    correctSequence ← data_sequence (data correctAnswer);
    if (List.length correctSequence =? 0)%nat then Some 0%Q else
    Some ((Js.of_nat (timelinePositions userSequence correctSequence
                        (sequenceBound userSequence correctSequence) 0 0)
           / Js.of_nat (List.length correctSequence)) * maxPoints)%Q).

(** The shape shared by the two counting loops: [check] decides one
    submitted item, and throws on an item it cannot read. *)
Fixpoint countLoop (check : jsval -> option bool) (items : list jsval)
    (correctCount : nat) : option nat :=
  match items with
  | [] => Some correctCount
  | item :: rest =>
      isCorrect ← check item;
      countLoop check rest (if isCorrect : bool then S correctCount else correctCount)
  end.

(** [(correctCount / total) * points], or the 0 of the [catch] branch. *)
Definition creditOf (correctCount : option nat) (total : nat) (maxPoints : Q) : Q :=
  default 0%Q
    ((fun n => (Js.of_nat n / Js.of_nat total * maxPoints)%Q) <$> correctCount).

(** The points awarded for one question: what the loop of the quiz
    validator adds to [totalScore] for it. *)
Definition awardedPoints `{JsRuntime} (submissionData : jsval) (q : QuizQuestion) : Q :=
  default 0%Q (
    answers ← Js.prop submissionData "answers";
    submittedAnswer ← Js.prop answers (question_id q);
    if negb (Js.truthy submittedAnswer) then Some 0%Q
    else fst <$> scoreAnswer submittedAnswer q).

Definition sumQ (l : list Q) : Q := fold_right Qplus 0%Q l.






(** ** Sample data for concrete runs *)

Module Samples.

Definition wallet : string := "0x742d35cc6665c3532d8f8d9e5d6e40d9b3e5e6b7".

Definition bindings : Bindings :=
  {| ISSUER_PRIVATE_KEY := "issuer-key";
     CONTRACT_ADDRESS := "0x00000000000000000000000000000000000000aa";
     CHAIN_ID := "32769";
     RPC_URL := "https://rpc.example";
     RPC_URL_MAINNET := None;
     RPC_URL_TESTNET := None;
     NEXT_PUBLIC_FACTORY_ADDRESS_TESTNET := None;
     NEXT_PUBLIC_FACTORY_ADDRESS_MAINNET := None;
     QUIZ_DATA_URL := None;
     SECRET_ANSWERS_URL := None |}.

Definition context (achievement kind : string) (payload : jsval)
    : ValidationContext.t :=
  {| ValidationContext.achievementNumber := achievement;
     ValidationContext.walletAddress := wallet;
     ValidationContext.rpcUrl := "https://rpc.example";
     ValidationContext.submissionType := kind;
     ValidationContext.submissionData := payload;
     ValidationContext.metadata := JUndefined |}.

Definition world (quizzes : gmap string QuizData) (secrets : gmap string string)
    (rows : list TrainingCompletion.t) : World :=
  {| globals := {| QUIZ_DATA := quizzes; SECRET_ANSWERS := secrets;
                   quizDataCache := None; secretAnswersCache := None |};
     wallet_data := [];
     training_completions := rows;
     tick := 0 |}.

(** An environment in which the network is down, D1 works, the signer
    answers, and the clock shows a fixed time. *)
Definition oracle (now : Z) : Oracle :=
  {| clock := fun _ => now;
     quiz_reply := fun _ _ => FetchRejects "offline";
     secret_reply := fun _ _ => FetchRejects "offline";
     rpc_reply := fun _ _ _ _ => FetchRejects "offline";
     db_error := fun _ => None;
     sign_reply := fun _ _ _ _ _ => inr "0xsignature" |}.

Definition shortHash : jsval := JObj [("transactionHash", JStr "0x1234")].

(** An answer tagged for the timeline grader, and a question expecting that
    very sequence. *)
Definition timelineAnswer : string :=
  ReferenceRuntime.json "{'type':'timeline-builder','userResponse':{'sequence':['a']}}".

Definition sequenceQuestion : InteractiveElementCorrectAnswer :=
  {| element_type := TimelineBuilder; data := TimelineBuilderAnswer ["a"] |}.

Definition dragDropAnswer : string :=
  ReferenceRuntime.json "{'type':'drag-drop-puzzle','userResponse':{'sequence':['a']}}".

(** A concept-matching question with two pairs, and answers that match one
    pair, both pairs, and the first pair three times over. *)
Definition conceptQuestion : InteractiveElementCorrectAnswer :=
  {| element_type := ConceptMatching;
     data := ConceptMatchingAnswer
               [ {| conceptId := "c1"; definitionId := "d1" |};
                 {| conceptId := "c2"; definitionId := "d2" |} ] |}.

Definition firstPair : jsval :=
  JObj [("conceptId", JStr "c1"); ("definitionId", JStr "d1")].

Definition secondPair : jsval :=
  JObj [("conceptId", JStr "c2"); ("definitionId", JStr "d2")].

Definition onePairAnswer : string :=
  ReferenceRuntime.json
    "{'type':'concept-matching','userResponse':{'pairs':[{'conceptId':'c1','definitionId':'d1'}]}}".

Definition twoPairsAnswer : string :=
  ReferenceRuntime.json
    "{'type':'concept-matching','userResponse':{'pairs':[{'conceptId':'c1','definitionId':'d1'},{'conceptId':'c2','definitionId':'d2'}]}}".


(** A bank with the concept-matching question alone, worth 6 points, to be
    passed at 80 percent. *)
Definition conceptBank : QuizData :=
  {| questions :=
       [ {| question_id := "q1"; question := "Match each concept";
            options := []; correctAnswer := Interactive conceptQuestion;
            points := 6; explanation := None |} ];
     passingScore := 80 |}.

(** The launch secret, configured, and a submission of exactly that
    secret. *)
Definition launchWorld : World := world ∅ {["1101" := "LAUNCH"]} [].

Definition launchSubmission : jsval := JObj [("secretAnswer", JStr "LAUNCH")].

Definition launchContext : ValidationContext.t :=
  context "1101" "secret" launchSubmission.

(** A request for the first secret achievement, with surrounding white
    space in the secret, and a world in which that secret is configured. *)
Definition secretRequest (secret : string) : jsval :=
  JObj [ ("walletAddress", JStr wallet);
         ("achievementNumber", JStr "1001");
         ("submissionType", JStr "secret");
         ("submissionData", JObj [("secretAnswer", JStr secret)]) ].

Definition secretWorld : World := world ∅ {["1001" := "FIRSTSECRET"]} [].

(** A request that declares a quiz for the secret achievement, from a wallet
    address that is not one. *)
Definition mismatchedFromBadWallet : jsval :=
  JObj [ ("walletAddress", JStr "not-a-wallet");
         ("achievementNumber", JStr "1001");
         ("submissionType", JStr "quiz");
         ("submissionData", JObj [("answers", JObj [])]) ].

(** The same declaration from a well-formed wallet address. *)
Definition mismatchedRequest : jsval :=
  JObj [ ("walletAddress", JStr wallet);
         ("achievementNumber", JStr "1001");
         ("submissionType", JStr "quiz");
         ("submissionData", JObj [("answers", JObj [])]) ].

Definition quizContext : ValidationContext.t := context "0001" "quiz" (JObj []).

Definition quizWorld (bank : QuizData) : World := world {["0001" := bank]} ∅ [].

Definition answersOf (answer : string) : jsval :=
  JObj [("answers", JObj [("q1", JStr answer)])].

(** The bank of the specification's example: 16 questions of 6 points, the
    last one a word jumble, to be passed at 80 percent. *)
Definition choiceQuestion (n : nat) : QuizQuestion :=
  {| question_id := "q" ++ JsString.Z_toString (Z.of_nat n);
     question := "Pick one"; options := ["A"; "B"; "C"; "D"];
     correctAnswer := Traditional "B"; points := 6; explanation := None |}.

Definition jumbleQuestion : QuizQuestion :=
  {| question_id := "q16"; question := "Unscramble"; options := [];
     correctAnswer :=
       Interactive {| element_type := WordJumble; data := WordJumbleAnswer "BLOCKCHAIN" |};
     points := 6; explanation := None |}.

Definition fundamentalsBank : QuizData :=
  {| questions := map choiceQuestion (seq 1 15) ++ [jumbleQuestion];
     passingScore := 80 |}.

Definition jumbleAnswer (word : string) : string :=
  ReferenceRuntime.json ("{'type':'word-jumble','userResponse':{'word':'" ++ word ++ "'}}").

(** [correct] right choices, lower case, then the word jumble solved. *)
Definition fundamentalsSubmission (correct : nat) (withJumble : bool) : jsval :=
  JObj [("answers",
         JObj (map (fun n => ("q" ++ JsString.Z_toString (Z.of_nat n), JStr "b"))
                   (seq 1 correct)
               ++ (if withJumble then [("q16", JStr (jumbleAnswer "blockchain"))]
                   else [])))].

(** A true/false question with two statements and an answer that
    classifies the first statement three times. *)
Definition statementsQuestion : InteractiveElementCorrectAnswer :=
  {| element_type := TrueFalseStatements;
     data := TrueFalseAnswer
               [ {| statement_id := "s1"; answer := true |};
                 {| statement_id := "s2"; answer := false |} ] |}.

Definition repeatedStatementAnswer : string :=
  ReferenceRuntime.json
    "{'type':'true-false-statements','userResponse':{'classifications':[{'id':'s1','answer':true},{'id':'s1','answer':true},{'id':'s1','answer':true}]}}".

Definition repeatedPairAnswer : string :=
  ReferenceRuntime.json
    "{'type':'concept-matching','userResponse':{'pairs':[{'conceptId':'c1','definitionId':'d1'},{'conceptId':'c1','definitionId':'d1'},{'conceptId':'c1','definitionId':'d1'}]}}".

End Samples.

(** ** Further code of [utils/contract] and the decoding of token replies *)

(** [ContractReader.formatAchievementNumber]: a token id as a zero-padded
    achievement number. *)
Definition formatAchievementNumber (tokenId : option Z) (padding : nat) : string :=
  JsString.padStart padding "0" (taskCode_toString tokenId).

(** The integers a JavaScript [number] holds exactly. *)
Definition MAX_SAFE_INTEGER : Z := 9007199254740991.

(** The hexadecimal text of a byte string, two lower-case digits per
    character, as an RPC node writes the bytes of a reply. *)
Definition hexDigit (d : nat) : ascii :=
  if (d <? 10)%nat then ascii_of_nat (48 + d) else ascii_of_nat (87 + d).

Definition hexOfChar (c : ascii) : string :=
  let n := nat_of_ascii c in
  String (hexDigit (n / 16)) (String (hexDigit (n mod 16)) EmptyString).

Fixpoint toHex (s : string) : string :=
  match s with
  | EmptyString => EmptyString
  | String c rest => hexOfChar c ++ toHex rest
  end.

(** A string without the character of code 0. *)
Definition noNullBytes (s : string) : bool :=
  JsString.forallb_string (fun c => negb (Ascii.eqb c (ascii_of_nat 0))) s.

(** A 32-byte word holding [n], as 64 hexadecimal digits. *)
Fixpoint hexOfNat (fuel n : nat) (acc : string) : string :=
  match fuel with
  | O => acc
  | S fuel' => hexOfNat fuel' (n / 16) (String (hexDigit (n mod 16)) acc)
  end.

Definition abiWord (n : nat) : string := hexOfNat 64 n EmptyString.

(** The ABI encoding of a [string] return value: the offset of the data,
    its length, and its bytes padded with zeros to a multiple of 32. *)
Definition abiEncodeString (s : string) : string :=
  let n := String.length s in
  "0x" ++ abiWord 32 ++ abiWord n ++ toHex s
  ++ JsString.repeat_char "0" (2 * ((32 - n mod 32) mod 32)).

(** The body of a successful JSON-RPC response. *)
Definition rpcResult (result : jsval) : jsval :=
  JObj [("jsonrpc", JStr "2.0"); ("id", JNum 1); ("result", result)].

(** A name or symbol as an ERC-20 token returns it: between 1 and 100 bytes,
    none of them null. *)
Definition tokenText (s : string) : Prop :=
  noNullBytes s = true /\ (1 <= String.length s <= 100)%nat.

(** A node that answers the four ERC-20 getters of [token] with a
    successful response: the ABI encoding of the name and of the symbol,
    and the words [decimals] and [totalSupply]. *)
Definition answersAsToken (o : Oracle) (url : string) (token : jsval)
    (name symbol : string) (decimals totalSupply : jsval) : Prop :=
  forall n,
    (exists status,
        rpc_reply o n url "eth_call" (eth_call token "0x06fdde03")
        = FetchResponds true status (Some (rpcResult (JStr (abiEncodeString name)))))
    /\ (exists status,
          rpc_reply o n url "eth_call" (eth_call token "0x95d89b41")
          = FetchResponds true status (Some (rpcResult (JStr (abiEncodeString symbol)))))
    /\ (exists status,
          rpc_reply o n url "eth_call" (eth_call token "0x313ce567")
          = FetchResponds true status (Some (rpcResult decimals)))
    /\ (exists status,
          rpc_reply o n url "eth_call" (eth_call token "0x18160ddd")
          = FetchResponds true status (Some (rpcResult totalSupply))).

Module Tokens.

Definition tokenAddress : string := "0x00000000000000000000000000000000000000cc".

Definition decimalsWord : string := "0x" ++ abiWord 18.

Definition supplyWord : string := "0x" ++ abiWord 1000.

(** A node that knows one token, "Plunder Token" (PLDR), and answers each
    getter by its selector. *)
Definition tokenNode : Oracle :=
  {| clock := fun _ => 0;
     quiz_reply := fun _ _ => FetchRejects "offline";
     secret_reply := fun _ _ => FetchRejects "offline";
     rpc_reply := fun _ _ _ params =>
       match params with
       | [call; _] =>
           let selector := Js.opt_prop call "data" in
           if Js.eq_string selector "0x06fdde03" then
             FetchResponds true "200 OK"
               (Some (rpcResult (JStr (abiEncodeString "Plunder Token"))))
           else if Js.eq_string selector "0x95d89b41" then
             FetchResponds true "200 OK" (Some (rpcResult (JStr (abiEncodeString "PLDR"))))
           else if Js.eq_string selector "0x313ce567" then
             FetchResponds true "200 OK" (Some (rpcResult (JStr decimalsWord)))
           else if Js.eq_string selector "0x18160ddd" then
             FetchResponds true "200 OK" (Some (rpcResult (JStr supplyWord)))
           else FetchRejects "unknown selector"
       | _ => FetchRejects "malformed"
       end;
     db_error := fun _ => None;
     sign_reply := fun _ _ _ _ _ => inr "0xsignature" |}.

End Tokens.

(** ** Shapes of question banks and submissions *)

(** The interactive elements whose grader counts the submitted items one by
    one (the other graders compare positions or a single word). *)
Definition countsItems (t : ElementType) : bool :=
  match t with
  | ConceptMatching | TrueFalseStatements => true
  | WordJumble | TimelineBuilder | DragDropPuzzle => false
  end.

(** A bank without questions graded by counting submitted items. *)
Definition positionalBank (qs : list QuizQuestion) : Prop :=
  forall q element,
    q ∈ qs -> correctAnswer q = Interactive element ->
    countsItems (element_type element) = false.

(** Every question is worth a non-negative number of points. *)
Definition nonNegativePoints (qs : list QuizQuestion) : Prop :=
  forall q, q ∈ qs -> (0 <= points q)%Q.

(** Text whose characters are all in the ASCII range, on which the trimming
    and the case mapping of the embedding are those of JavaScript. *)
Definition asciiText (s : string) : bool :=
  JsString.forallb_string (fun c => JsString.code c <? 128) s.

(** A submission that gives, for every question of a multiple-choice bank,
    the expected option in some mix of upper and lower case. *)
Definition allChoicesRight (submissionData : jsval) (qs : list QuizQuestion) : Prop :=
  exists answers,
    Js.prop submissionData "answers" = Some answers
    /\ forall q, q ∈ qs ->
         exists submitted expected,
           Js.prop answers (question_id q) = Some (JStr submitted)
           /\ correctAnswer q = Traditional expected
           /\ submitted <> EmptyString
           /\ asciiText submitted = true
           /\ JsString.toUpperCase submitted = JsString.toUpperCase expected
           /\ (JsString.startsWith (JsString.trim submitted) "{"
               && JsString.endsWith (JsString.trim submitted) "}") = false.

(** ** More sample data *)

Module Cases.

(** A bank with a multiple-choice question and a timeline, 6 points each. *)
Definition timelineBank : QuizData :=
  {| questions :=
       [ Samples.choiceQuestion 1;
         {| question_id := "q2"; question := "Order the events"; options := [];
            correctAnswer := Interactive Samples.sequenceQuestion;
            points := 6; explanation := None |} ];
     passingScore := 80 |}.

(** The right choice and the timeline in the expected order. *)
Definition timelineSubmission : jsval :=
  JObj [("answers",
         JObj [("q1", JStr "B"); ("q2", JStr Samples.timelineAnswer)])].

(** A bank of three multiple-choice questions and the submission of the
    three expected options in lower case. *)
Definition choiceBank : QuizData :=
  {| questions := map Samples.choiceQuestion (seq 1 3); passingScore := 80 |}.

Definition choiceSubmission : jsval := Samples.fundamentalsSubmission 3 false.

(** Bindings that name the two external files. *)
Definition remoteBindings : Bindings :=
  {| ISSUER_PRIVATE_KEY := "issuer-key";
     CONTRACT_ADDRESS := "0x00000000000000000000000000000000000000aa";
     CHAIN_ID := "32769";
     RPC_URL := "https://rpc.example";
     RPC_URL_MAINNET := None;
     RPC_URL_TESTNET := None;
     NEXT_PUBLIC_FACTORY_ADDRESS_TESTNET := None;
     NEXT_PUBLIC_FACTORY_ADDRESS_MAINNET := None;
     QUIZ_DATA_URL := Some "https://data.example/quiz.json";
     SECRET_ANSWERS_URL := Some "https://data.example/secrets.json" |}.

(** An environment in which the two files are served, the chain node is
    down, D1 works, the signer answers, and the clock shows 5000. *)
Definition onlineOracle : Oracle :=
  {| clock := fun _ => 5000;
     quiz_reply := fun _ _ =>
       FetchResponds true "200 OK" (Some {["0001" := Samples.conceptBank]});
     secret_reply := fun _ _ =>
       FetchResponds true "200 OK" (Some {["1001" := "FIRSTSECRET"]});
     rpc_reply := fun _ _ _ _ => FetchRejects "offline";
     db_error := fun _ => None;
     sign_reply := fun _ _ _ _ _ => inr "0xsignature" |}.

(** The row of a first secret achievement that was completed, and a world
    whose table holds it. *)
Definition completedRow : TrainingCompletion.t :=
  {| TrainingCompletion.wallet_address := Samples.wallet;
     TrainingCompletion.achievement_number := "1001";
     TrainingCompletion.task_code := Some 1001;
     TrainingCompletion.submission_type := "secret";
     TrainingCompletion.submission_data := "{}";
     TrainingCompletion.score := None;
     TrainingCompletion.max_score := None;
     TrainingCompletion.passed := true;
     TrainingCompletion.voucher_signature := Some "0xsignature";
     TrainingCompletion.metadata := None;
     TrainingCompletion.created_at := 10 |}.

Definition completedWorld : World :=
  Samples.world ∅ {["1001" := "FIRSTSECRET"]} [completedRow].

(** A well-formed transaction hash, and a staking submission that names
    another address as claimant. *)
Definition sampleHash : string :=
  "0x" ++ JsString.repeat_char "a" 64.

Definition stakingSubmission : jsval :=
  JObj [ ("transactionHash", JStr sampleHash);
         ("claimantAddress", JStr "0x00000000000000000000000000000000000000bb") ].

(** A staking submission that names the submitting wallet as claimant. *)
Definition ownStakingSubmission : jsval :=
  JObj [ ("transactionHash", JStr sampleHash);
         ("claimantAddress", JStr Samples.wallet) ].

(** A bank of two multiple-choice questions worth 29 and 21 points, to be
    passed at 58 percent, and the submission that gets the first one
    right. *)
Definition unevenBank : QuizData :=
  {| questions :=
       [ {| question_id := "q1"; question := "Pick one"; options := ["A"; "B"];
            correctAnswer := Traditional "B"; points := 29; explanation := None |};
         {| question_id := "q2"; question := "Pick one"; options := ["A"; "B"];
            correctAnswer := Traditional "A"; points := 21; explanation := None |} ];
     passingScore := 58 |}.

Definition unevenSubmission : jsval :=
  JObj [("answers", JObj [("q1", JStr "B"); ("q2", JStr "B")])].

(** Two requests with the right secret for one wallet: both arrive, both
    read the table, and then each runs to its end. *)
Definition race : list Turn :=
  [ Arrives Samples.bindings (Some (Samples.secretRequest "FIRSTSECRET"));
    Arrives Samples.bindings (Some (Samples.secretRequest "FIRSTSECRET"));
    Continues 0; Continues 1;
    Continues 0; Continues 0; Continues 0;
    Continues 1; Continues 1; Continues 1 ].

(** A worker that loaded the bank at time 1000. *)
Definition cachedWorld : World :=
  {| globals := {| QUIZ_DATA := {["0001" := Samples.conceptBank]};
                   SECRET_ANSWERS := ∅;
                   quizDataCache := Some ({["0001" := Samples.conceptBank]}, 1000);
                   secretAnswersCache := None |};
     wallet_data := [];
     training_completions := [];
     tick := 0 |}.

End Cases.

(** ** The events of a run *)

(** An event of any answer type. *)
Inductive Performed : Type :=
| performed {X : Type} (ev : Event X).

(** The events a program performs, in order, when run against an oracle. *)
Fixpoint eventsOf (o : Oracle) {A : Type} (p : Prog A) (w : World) : list Performed :=
  match p with
  | Ret _ | Throw _ => []
  | Vis ev k => let '(w', x) := handle o ev w in performed ev :: eventsOf o (k x) w'
  end.

Definition isFetch (e : Performed) : bool :=
  match e with
  | performed ev =>
      match ev with
      | FetchRpc _ _ _ | FetchQuizData _ | FetchSecretAnswers _ => true
      | _ => false
      end
  end.

(** A fetch that does not deliver data: the request fails, the status is
    not a success, or the body is not JSON. *)
Definition fetchFails {T : Type} (reply : FetchOutcome T) : Prop :=
  match reply with
  | FetchRejects _ => True
  | FetchResponds ok _ json => ok = false \/ json = None
  end.

(** ** Statements about the transaction validators *)

(** The submitted claimant is absent, or is a string that differs from the
    wallet address when both are written in lower case. *)
Definition claimantDiffers (claimantAddress : jsval) (walletAddress : string) : Prop :=
  Js.truthy claimantAddress = false
  \/ exists claimant,
       claimantAddress = JStr claimant
       /\ JsString.toLowerCase claimant <> JsString.toLowerCase walletAddress.

(** The achievements whose transaction must deploy a contract that names the
    submitting wallet as claimant, and the token achievement once a creation
    method is given. *)
Definition checksClaimant (achievementNumber : string) (submissionData : jsval)
    : Prop :=
  achievementNumber = "0025" \/ achievementNumber = "0033"
  \/ achievementNumber = "0043"
  \/ (achievementNumber = "0005"
      /\ Js.truthy (Js.opt_prop submissionData "method") = true).

(** The events a validator may perform for a context and an environment:
    reading the clock and the module state, fetching the two configured
    files, and calling the RPC endpoint of the context. *)
Definition validatorEvent (context : ValidationContext.t) (env : option Bindings)
    (X : Type) (ev : Event X) : Prop :=
  match ev with
  | DateNow | GetGlobals | SetGlobals _ => True
  | FetchQuizData url =>
      exists bindings, env = Some bindings /\ configured (QUIZ_DATA_URL bindings) = Some url
  | FetchSecretAnswers url =>
      exists bindings,
        env = Some bindings /\ configured (SECRET_ANSWERS_URL bindings) = Some url
  | FetchRpc url _ _ => url = ValidationContext.rpcUrl context
  | DbGetTrainingCompletion _ _ | DbCreateWalletData _
  | DbCreateTrainingCompletion _ | SignVoucher _ _ _ _ => False
  end.

Definition allowedEvent (context : ValidationContext.t) (env : option Bindings)
    (e : Performed) : Prop :=
  match e with
  | performed ev => validatorEvent context env _ ev
  end.

(** An RPC request that brings no successful response: the fetch fails, or
    the HTTP status is not a success. *)
Definition rpcDown (reply : FetchOutcome jsval) : Prop :=
  match reply with
  | FetchRejects _ => True
  | FetchResponds ok _ _ => ok = false
  end.

(** The answers of an environment whose RPC endpoint is down. *)
Definition chainUnreachable (X : Type) (ev : Event X) : X -> Prop :=
  match ev in Event X return X -> Prop with
  | FetchRpc _ _ _ => rpcDown
  | _ => fun _ => True
  end.

(** Every value the program can return satisfies [P], for the answers that
    [R] admits. *)
Fixpoint Under {A : Type} (R : forall X, Event X -> X -> Prop) (P : A -> Prop)
    (p : Prog A) : Prop :=
  match p with
  | Ret a => P a
  | Throw _ => True
  | Vis ev k => forall x, R _ ev x -> Under R P (k x)
  end.

(** ** The status route: [GET /status/:walletAddress/:achievementNumber] *)

Module StatusResponse.
Record t : Type := {
  status : Z;                         (* HTTP status *)
  achievementNumber : option string;
  taskCode : option (option Z);
  walletAddress : option string;
  voucherSigned : option bool;
  createdAt : option Z;
  error : option string
}.

(** [c.json({ error }, status)] *)
Definition failure (code : Z) (message : string) : t :=
  {| status := code; achievementNumber := None; taskCode := None;
     walletAddress := None; voucherSigned := None; createdAt := None;
     error := Some message |}.
End StatusResponse.

Section StatusRoute.
Context `{EthersLib}.

(** The handler; the two route parameters are strings. *)
Definition voucherStatus (walletAddress achievementNumber : string)
    : Prog StatusResponse.t :=
  try_catch
    (if negb (isValidEthereumAddress (JStr walletAddress)) then
       Ret (StatusResponse.failure 400 "Invalid wallet address")
     else if negb (Js.truthy (JStr achievementNumber)) then
       Ret (StatusResponse.failure 400 "Invalid achievement number")
     else
       normalizedWallet ← orThrow (normalizeAddress (JStr walletAddress));
       completion ← await (DbGetTrainingCompletion normalizedWallet achievementNumber);
       match completion with
       | None =>
           Ret (StatusResponse.failure 404 "No voucher found for this achievement")
       | Some completion =>
           Ret {| StatusResponse.status := 200;
                  StatusResponse.achievementNumber :=
                    Some (TrainingCompletion.achievement_number completion);
                  StatusResponse.taskCode :=
                    Some (TrainingCompletion.task_code completion);
                  StatusResponse.walletAddress :=
                    Some (TrainingCompletion.wallet_address completion);
                  StatusResponse.voucherSigned :=
                    Some (bool_decide
                            (is_Some (configured
                                        (TrainingCompletion.voucher_signature completion))));
                  StatusResponse.createdAt :=
                    Some (TrainingCompletion.created_at completion);
                  StatusResponse.error := None |}
       end)
    (fun _ => Ret (StatusResponse.failure 500 "Failed to get voucher status")).

End StatusRoute.

(* ===================================================================== *)
(** * The rate limiter ([utils/rateLimit], [RATE_LIMITS] of [types]) *)

Record RateLimit : Type := {
  windowMs : Z;
  maxRequests : Z
}.

Definition RATE_LIMITS_entries : list (string * RateLimit) :=
  [ ("/api/v1/vouchers/issue", {| windowMs := 60000; maxRequests := 10 |});
    ("/api/v1/wallets", {| windowMs := 60000; maxRequests := 30 |});
    ("/api/v1/feedback/ai-interaction", {| windowMs := 3600000; maxRequests := 100 |});
    ("/api/v1/feedback/ai-response", {| windowMs := 3600000; maxRequests := 100 |});
    ("/api/v1/feedback/module-completion", {| windowMs := 3600000; maxRequests := 100 |});
    ("/api/v1/feedback/general", {| windowMs := 3600000; maxRequests := 50 |}) ].

(** The table is read at the path name of the request URL, which begins
    with a slash, so that no name inherited from [Object.prototype] is ever
    looked up. *)
Definition RATE_LIMITS : gmap string RateLimit := list_to_map RATE_LIMITS_entries.

(** What the limiter reads of the request. *)
Module RateRequest.
Record t : Type := {
  (** [new URL(c.req.url).pathname] *)
  pathname : string;
  (** [c.req.param('walletAddress')] *)
  walletAddressParam : option string;
  (** [c.req.header(name)] *)
  header : string -> option string
}.
End RateRequest.

(** [a || b] where [a] is a string or [undefined]. *)
Definition orString (a : option string) (b : string) : string :=
  match configured a with
  | Some s => s
  | None => b
  end.

(** The body of the 429 answer. *)
Record RateLimitExceeded : Type := {
  exceeded_error : string;
  exceeded_message : string;
  retryAfter : Q
}.

(** The limiter either answers 429 itself or returns what [next()] returns;
    the headers set with [c.header] go with either. *)
Inductive RateLimitOutcome (A : Type) : Type :=
| TooManyRequests (headers : list (string * string)) (body : RateLimitExceeded)
| Forwarded (response : A).
Arguments TooManyRequests {A} headers body.
Arguments Forwarded {A} response.

(** The identifiers under which a request is counted. *)
Definition clientWalletAddress (request : RateRequest.t) : string :=
  orString (RateRequest.walletAddressParam request)
    (orString (RateRequest.header request "x-wallet-address") "anonymous").

Definition clientIpAddress (request : RateRequest.t) : string :=
  orString (RateRequest.header request "cf-connecting-ip")
    (orString (RateRequest.header request "x-forwarded-for")
       (orString (RateRequest.header request "x-real-ip") "unknown")).

Definition rateLimitHeaders (rateConfig : RateLimit) (remaining now : Z)
    : list (string * string) :=
  [ ("X-RateLimit-Limit", JsString.Z_toString (maxRequests rateConfig));
    ("X-RateLimit-Remaining", JsString.Z_toString remaining);
    ("X-RateLimit-Reset", JsString.Z_toString (now + windowMs rateConfig)) ].

Section RateLimiter.
Context `{JsRuntime}.
Context {A : Type}.

(** [DatabaseService.checkRateLimit], which answers [{allowed, remaining}]
    or throws. *)
Variable checkRateLimit : string -> string -> string -> Z -> Z -> Prog (bool * Z).

(** [next] is the rest of the route, run on the context with the headers
    set so far.  Hono's [next()] resolves also when the handler behind it
    throws, so the [catch] block is entered from [checkRateLimit] only, at
    a point where no header has been set. *)
Definition rateLimit (request : RateRequest.t)
    (next : list (string * string) -> Prog A) : Prog (RateLimitOutcome A) :=
  try_catch
    (let path := RateRequest.pathname request in
     match RATE_LIMITS !! path with
     | None => response ← next []; Ret (Forwarded response)
     | Some rateConfig =>
         let walletAddress := clientWalletAddress request in
         let ipAddress := clientIpAddress request in
         '(allowed, remaining) ←
           checkRateLimit walletAddress ipAddress path
             (maxRequests rateConfig) (windowMs rateConfig);
         now ← trigger DateNow;
         let headers := rateLimitHeaders rateConfig remaining now in
         if negb allowed
         then Ret (TooManyRequests headers
                     {| exceeded_error := "Rate limit exceeded";
                        exceeded_message :=
                          "Too many requests. Limit: "
                          ++ JsString.Z_toString (maxRequests rateConfig)
                          ++ " per "
                          ++ Number_toString (inject_Z (windowMs rateConfig) / 1000)
                          ++ "s";
                        retryAfter := inject_Z (windowMs rateConfig) / 1000 |})
         else response ← next headers; Ret (Forwarded response)
     end)
    (fun _ => response ← next []; Ret (Forwarded response)).

End RateLimiter.

(** The path names of the routes that install the limiter: the four voucher
    routes ([/submit], [/wallet/:walletAddress], [/unclaimed/:walletAddress],
    [/claimed/:walletAddress]) mounted at [/api/v1/vouchers], and the three
    wallet routes ([/:walletAddress] and below) mounted at [/api/v1/wallets]. *)
Definition limitedRoute (path : string) : Prop :=
  path = "/api/v1/vouchers/submit"
  \/ (exists walletAddress,
         path = "/api/v1/vouchers/wallet/" ++ walletAddress
         \/ path = "/api/v1/vouchers/unclaimed/" ++ walletAddress
         \/ path = "/api/v1/vouchers/claimed/" ++ walletAddress)
  \/ (exists rest, path = "/api/v1/wallets/" ++ rest).

(** A request for [POST /api/v1/vouchers/submit] from a client that names
    itself in no header, and a database that has counted every client out. *)
Module Requests.

Definition submitRequest : RateRequest.t :=
  {| RateRequest.pathname := "/api/v1/vouchers/submit";
     RateRequest.walletAddressParam := None;
     RateRequest.header := fun _ => None |}.

Definition generalFeedback : RateRequest.t :=
  {| RateRequest.pathname := "/api/v1/feedback/general";
     RateRequest.walletAddressParam := None;
     RateRequest.header := fun name =>
       if String.eqb name "x-real-ip" then Some "203.0.113.7" else None |}.

Definition countedOut (walletAddress ipAddress endpoint : string)
    (maxRequests windowMs : Z) : Prog (bool * Z) :=
  Ret (false, 0).

End Requests.

(* ===================================================================== *)
(** * Request validation ([utils/validation]) *)

(** The class [[\x00-\x08\x0B-\x0C\x0E-\x1F\x7F]]. *)
Definition isControl (c : ascii) : bool :=
  let n := JsString.code c in
  (n <=? 8) || ((11 <=? n) && (n <=? 12)) || ((14 <=? n) && (n <=? 31)) || (n =? 127).

(** [s.replace(/[...]/g, '')] for that class. *)
Fixpoint removeControl (s : string) : string :=
  match s with
  | EmptyString => EmptyString
  | String c s' => if isControl c then removeControl s' else String c (removeControl s')
  end.

(** [None] is [undefined]; [substring(0, maxLength)] reads a negative
    [maxLength] as 0. *)
Definition sanitizeText (text : option string) (maxLength : Z) : option string :=
  match configured text with
  | None => None
  | Some t =>
      Some (removeControl (String.substring 0 (Z.to_nat maxLength) (JsString.trim t)))
  end.

(** The default value of [maxLength]. *)
Definition default_maxLength : Z := 5000.

(** [timeframeDays]: [null] for all time, or a number of days ([None] is
    [NaN]). *)
Inductive Timeframe : Type :=
| AllTime
| Days (days : option Z).

Module AnalyticsParams.
Record t : Type := {
  valid : bool;
  error : option string;
  limit : option (option Z);
  timeframeDays : option Timeframe
}.
Definition invalid (message : string) : t :=
  {| valid := false; error := Some message; limit := None; timeframeDays := None |}.
End AnalyticsParams.

(** [s.match(/^(\d+)d$/)]: the captured digits. *)
Definition matchDays (s : string) : option string :=
  let n := String.length s in
  let digits := String.substring 0 (n - 1) s in
  if JsString.endsWith s "d"
     && negb (String.eqb digits EmptyString)
     && JsString.forallb_string JsString.is_digit digits
  then Some digits else None.

(** [x < a || x > b] on a number; both comparisons are false on [NaN]. *)
Definition outside (x : option Z) (a b : Z) : bool :=
  match x with
  | Some n => (n <? a) || (b <? n)
  | None => false
  end.

Definition validateAnalyticsParams (limit timeframe : option string)
    : AnalyticsParams.t :=
  let checkedLimit :=
    match limit with
    | Some text =>
        let parsed := JsString.parseInt text 10 in
        if bool_decide (parsed = None) || outside parsed 1 100
        then inl (AnalyticsParams.invalid "Invalid limit (must be 1-100)")
        else inr (Some parsed)
    | None => inr None
    end in
  match checkedLimit with
  | inl rejected => rejected
  | inr resultLimit =>
      let result :=
        {| AnalyticsParams.valid := true; AnalyticsParams.error := None;
           AnalyticsParams.limit := resultLimit;
           AnalyticsParams.timeframeDays := None |} in
      match timeframe with
      | Some text =>
          if String.eqb text "all"
          then {| AnalyticsParams.valid := true; AnalyticsParams.error := None;
                  AnalyticsParams.limit := resultLimit;
                  AnalyticsParams.timeframeDays := Some AllTime |}
          else
            match matchDays text with
            | None =>
                AnalyticsParams.invalid
                  ("Invalid timeframe format (use " ++ String (ascii_of_nat 34) "30d"
                   ++ String (ascii_of_nat 34) ", " ++ String (ascii_of_nat 34) "7d"
                   ++ String (ascii_of_nat 34) ", or " ++ String (ascii_of_nat 34) "all"
                   ++ String (ascii_of_nat 34) ")")
            | Some digits =>
                let days := JsString.parseInt digits 10 in
                if outside days 1 365
                then AnalyticsParams.invalid
                       ("Invalid timeframe (must be 1-365 days or "
                        ++ String (ascii_of_nat 34) "all" ++ String (ascii_of_nat 34) ")")
                else {| AnalyticsParams.valid := true; AnalyticsParams.error := None;
                        AnalyticsParams.limit := resultLimit;
                        AnalyticsParams.timeframeDays := Some (Days days) |}
            end
      | None => result
      end
  end.

(** [/^0x[a-fA-F0-9]{40}$/.test(s)] *)
Definition walletPattern_test (s : string) : bool :=
  match s with
  | String "0" (String "x" digits) =>
      (String.length digits =? 40)%nat && JsString.forallb_string JsString.is_hex digits
  | _ => false
  end.

(** [Number.isInteger(q)] *)
Definition isInteger (q : Q) : bool := Qeq_bool q (inject_Z (Qfloor q)).

(** [typeof v === 'object'] *)
Definition typeof_object (v : jsval) : bool :=
  match v with
  | JNull | JArr _ | JObj _ => true
  | _ => false
  end.

(** [v === undefined] *)
Definition isUndefined (v : jsval) : bool :=
  match v with JUndefined => true | _ => false end.

Definition isArray (v : jsval) : bool :=
  match v with JArr _ => true | _ => false end.

Definition GENERAL_FEEDBACK_CATEGORIES : list string :=
  ["bug"; "feature-request"; "ui"; "content"; "other"].

(** [GENERAL_FEEDBACK_CATEGORIES.includes(v)] *)
Definition isCategory (v : jsval) : bool :=
  match v with
  | JStr s => bool_decide (s ∈ GENERAL_FEEDBACK_CATEGORIES)
  | _ => false
  end.

(** [v.length > n] for a string or [undefined] field. *)
Definition longerThan (v : jsval) (n : Z) : bool :=
  match v with
  | JStr s => n <? Z.of_nat (String.length s)
  | _ => false
  end.

Record GeneralFeedbackRequest : Type := {
  feedback_walletAddress : jsval;
  feedback_category : jsval;
  feedback_text : option string;
  feedback_title : option string;
  feedback_rating : jsval;
  feedback_pageUrl : option string;
  feedback_metadata : jsval
}.

Module RequestValidation.
Record t : Type := {
  valid : bool;
  error : option string;
  code : option string;
  data : option GeneralFeedbackRequest
}.
Definition rejected (message : string) (code : option string) : t :=
  {| valid := false; error := Some message; code := code; data := None |}.
End RequestValidation.

Section Validation.
Context `{JsRuntime}.

(** The parameter is declared a string; the validators pass a field of the
    parsed body, which the pattern test converts with [String]. *)
Definition isValidWalletAddress (address : jsval) : bool :=
  if negb (Js.truthy address) then false
  else walletPattern_test (ToString address).

Definition isValidRating (rating : jsval) : bool :=
  match rating with
  | JUndefined => true
  | JNum q => isInteger q && Qle_bool 1 q && Qle_bool q 5
  | _ => false
  end.

(** [v ? sanitizeText(v, maxLength) : undefined] for a string or
    [undefined] field. *)
Definition sanitizeField (v : jsval) (maxLength : Z) : option string :=
  match v with
  | JStr s => sanitizeText (Some s) maxLength
  | _ => None
  end.

Definition validateGeneralFeedbackRequest (data : jsval) : RequestValidation.t :=
  if negb (Js.truthy data) || negb (typeof_object data)
  then RequestValidation.rejected "Invalid request body" None
  else
    let walletAddress := Js.opt_prop data "walletAddress" in
    let category := Js.opt_prop data "category" in
    let feedback := Js.opt_prop data "feedback" in
    let title := Js.opt_prop data "title" in
    let rating := Js.opt_prop data "rating" in
    let pageUrl := Js.opt_prop data "pageUrl" in
    let metadata := Js.opt_prop data "metadata" in
    if negb (Js.truthy walletAddress) || negb (isValidWalletAddress walletAddress)
    then RequestValidation.rejected "Invalid wallet address format" (Some "INVALID_WALLET")
    else if negb (Js.truthy category) || negb (isCategory category)
    then RequestValidation.rejected
           ("Invalid category (must be one of: "
            ++ String.concat ", " GENERAL_FEEDBACK_CATEGORIES ++ ")")
           (Some "INVALID_CATEGORY")
    else if negb (Js.truthy feedback)
            || match feedback with
               | JStr s => (String.length (JsString.trim s) =? 0)%nat
               | _ => true
               end
    then RequestValidation.rejected "Feedback text is required" (Some "MISSING_FEEDBACK")
    else if longerThan feedback 5000
    then RequestValidation.rejected "Feedback text too long (max 5000 characters)"
           (Some "FEEDBACK_TOO_LONG")
    else if negb (isUndefined title)
            && (negb (Js.is_string title) || longerThan title 200)
    then RequestValidation.rejected "Invalid title (max 200 characters)"
           (Some "INVALID_TITLE")
    else if negb (isUndefined rating) && negb (isValidRating rating)
    then RequestValidation.rejected "Invalid rating (must be 1-5)" (Some "INVALID_RATING")
    else if negb (isUndefined pageUrl)
            && (negb (Js.is_string pageUrl) || longerThan pageUrl 500)
    then RequestValidation.rejected "Invalid page URL (max 500 characters)"
           (Some "INVALID_URL")
    else if negb (isUndefined metadata)
            && (negb (typeof_object metadata) || isArray metadata)
    then RequestValidation.rejected "Metadata must be an object" (Some "INVALID_METADATA")
    else
      {| RequestValidation.valid := true;
         RequestValidation.error := None;
         RequestValidation.code := None;
         RequestValidation.data :=
           Some {| feedback_walletAddress := walletAddress;
                   feedback_category := category;
                   feedback_text := sanitizeField feedback 5000;
                   feedback_title :=
                     if Js.truthy title then sanitizeField title 200 else None;
                   feedback_rating := rating;
                   feedback_pageUrl :=
                     if Js.truthy pageUrl then sanitizeField pageUrl 500 else None;
                   feedback_metadata := metadata |} |}.

End Validation.

(** A body for [POST /api/v1/feedback/general]. *)
Definition sampleFeedback : jsval :=
  JObj [ ("walletAddress", JStr ("0x" ++ JsString.repeat_char "b" 40));
         ("category", JStr "bug");
         ("feedback", JStr "  The treasure map is upside down.  ");
         ("rating", JNum 4) ].

(* ===================================================================== *)
(** * The badge contract ([contracts/src/TrainingRegistry.sol]) *)

(** The contract that redeems the vouchers signed by the API.  An [address]
    and a [uint256] are integers; a mapping is a total function, every key
    holding the zero value until it is written; a transaction returns the new
    state or reverts with a reason and leaves the state as it was.  Events
    are not part of the state and are left out.  A mint ends with a call to
    the receiving contract, which may call the registry again before it
    answers: the calls of the receiver are part of the transaction. *)

Module Registry.

Definition address : Type := Z.
Definition reason : Type := string.

(** What the contract inherits from OpenZeppelin 5 (ERC1155Upgradeable,
    Ownable2StepUpgradeable, PausableUpgradeable, EIP712Upgradeable) and
    calls in its libraries.  Their code is not part of the repository; the
    one law is the effect of a mint that the contract relies on. *)
Class OpenZeppelin : Type := {
  (** The storage of the inherited contracts: balances and approvals, the
      owner, the pause flag, the EIP-712 domain. *)
  Inherited : Type;
  owner : Inherited -> address;
  paused : Inherited -> bool;
  balanceOf : Inherited -> address -> Z -> Z;
  (** [ERC1155Upgradeable._update(from, to, ids, values)] *)
  super_update : Inherited -> address -> address -> list Z -> list Z -> reason + Inherited;
  (** [from == sender || isApprovedForAll(from, sender)] *)
  mayTransfer : Inherited -> address -> address -> bool;
  _setURI : Inherited -> string -> Inherited;
  _pause : Inherited -> reason + Inherited;
  _unpause : Inherited -> reason + Inherited;
  (** [MessageHashUtils.toTypedDataHash(_domainSeparatorV4(),
      keccak256(abi.encode(VOUCHER_TYPEHASH, taskCode, wallet)))] *)
  voucherDigest : Inherited -> Z -> address -> Z;
  (** [ECDSA.recover(digest, signature)], which reverts on a malformed
      signature. *)
  recover : Z -> string -> reason + address;
  mint_credits : forall (b b' : Inherited) (to : address) (id : Z),
    to <> 0 -> super_update b 0 to [id] [1] = inr b' -> 0 < balanceOf b' to id
}.

Section Contract.
Context `{OpenZeppelin}.

Record state : Type := {
  inherited : Inherited;
  isIssuer : address -> bool;
  completed : address -> Z -> bool;
  _walletTokenIds : address -> list Z;
  _hasTokenId : address -> Z -> bool;
  _baseDirectoryURI : string;
  uriPadDigits : Z
}.

(** [m[a][k] = v] *)
Definition write {V : Type} (m : address -> Z -> V) (a : address) (k : Z) (v : V)
    : address -> Z -> V :=
  fun a' k' => if (a' =? a) && (k' =? k) then v else m a' k'.

Definition set_inherited (b : Inherited) (s : state) : state :=
  {| inherited := b; isIssuer := isIssuer s; completed := completed s;
     _walletTokenIds := _walletTokenIds s; _hasTokenId := _hasTokenId s;
     _baseDirectoryURI := _baseDirectoryURI s; uriPadDigits := uriPadDigits s |}.

Definition set_completed (wallet : address) (taskCode : Z) (s : state) : state :=
  {| inherited := inherited s; isIssuer := isIssuer s;
     completed := write (completed s) wallet taskCode true;
     _walletTokenIds := _walletTokenIds s; _hasTokenId := _hasTokenId s;
     _baseDirectoryURI := _baseDirectoryURI s; uriPadDigits := uriPadDigits s |}.

(** The two writes of the index: the flag of [(wallet, tokenId)] and the
    list of [wallet]. *)
Definition set_index (wallet : address) (tokenId : Z) (flag : bool) (ids : list Z)
    (s : state) : state :=
  {| inherited := inherited s; isIssuer := isIssuer s; completed := completed s;
     _walletTokenIds :=
       fun a => if a =? wallet then ids else _walletTokenIds s a;
     _hasTokenId := write (_hasTokenId s) wallet tokenId flag;
     _baseDirectoryURI := _baseDirectoryURI s; uriPadDigits := uriPadDigits s |}.

Definition set_isIssuer (issuers : address -> bool) (s : state) : state :=
  {| inherited := inherited s; isIssuer := issuers; completed := completed s;
     _walletTokenIds := _walletTokenIds s; _hasTokenId := _hasTokenId s;
     _baseDirectoryURI := _baseDirectoryURI s; uriPadDigits := uriPadDigits s |}.

Definition set_baseDirectoryURI (baseURI : string) (s : state) : state :=
  {| inherited := inherited s; isIssuer := isIssuer s; completed := completed s;
     _walletTokenIds := _walletTokenIds s; _hasTokenId := _hasTokenId s;
     _baseDirectoryURI := baseURI; uriPadDigits := uriPadDigits s |}.

Definition set_uriPadDigits (pad : Z) (s : state) : state :=
  {| inherited := inherited s; isIssuer := isIssuer s; completed := completed s;
     _walletTokenIds := _walletTokenIds s; _hasTokenId := _hasTokenId s;
     _baseDirectoryURI := _baseDirectoryURI s; uriPadDigits := pad |}.

(** The state that [initialize] leaves: nothing written but the base URI and
    the padding; [b] is what the initializers of the inherited contracts
    leave. *)
Definition initialized (b : Inherited) (baseURI : string) : state :=
  {| inherited := b; isIssuer := fun _ => false; completed := fun _ _ => false;
     _walletTokenIds := fun _ => []; _hasTokenId := fun _ _ => false;
     _baseDirectoryURI := baseURI; uriPadDigits := 4 |}.

(** [_removeWalletTokenId]: the first occurrence is overwritten with the
    last element, and the last element is popped. *)
Definition _removeWalletTokenId (tokenIds : list Z) (tokenId : Z) : list Z :=
  match list_find (fun x => x = tokenId) tokenIds with
  | Some (i, _) => removelast (<[i := List.last tokenIds 0]> tokenIds)
  | None => tokenIds
  end.

(** One turn of the first loop of [_update]. *)
Definition indexGained (to : address) (s : state) (tokenId : Z) : state :=
  if negb (_hasTokenId s to tokenId) && (0 <? balanceOf (inherited s) to tokenId)
  then set_index to tokenId true (_walletTokenIds s to ++ [tokenId]) s
  else s.

(** One turn of the second loop. *)
Definition indexLost (from : address) (s : state) (tokenId : Z) : state :=
  if _hasTokenId s from tokenId && (balanceOf (inherited s) from tokenId =? 0)
  then set_index from tokenId false (_removeWalletTokenId (_walletTokenIds s from) tokenId) s
  else s.

(** The override of the ERC-1155 hook. *)
Definition _update (s : state) (from to : address) (ids amounts : list Z)
    : reason + state :=
  if negb ((from =? 0) || (to =? 0)) then inl "SBT: non-transferable"
  else
    match super_update (inherited s) from to ids amounts with
    | inl e => inl e
    | inr b =>
        let s1 := set_inherited b s in
        let s2 := if negb (to =? 0) then fold_left (indexGained to) ids s1 else s1 in
        let s3 := if negb (from =? 0) then fold_left (indexLost from) ids s2 else s2 in
        inr s3
    end.

(** [ERC1155Upgradeable._updateWithAcceptanceCheck], which calls the
    override and then, for a receiver that is not the zero address, the
    receiver: [onERC1155Received] is an external call, made after the
    update, and the receiver may call the registry before it returns.
    [received] is that call: from the state the update left, the state the
    receiver leaves and the reason it makes the call revert with, if it
    does ([ERC1155InvalidReceiver] for an answer that is not the accepting
    value or a revert without data, its own reason otherwise).  An
    externally owned account has no code and is not called: it leaves the
    state and refuses nothing. *)
Definition _updateWithAcceptanceCheck (s : state) (from to : address)
    (ids values : list Z) (received : state -> state * option reason) : reason + state :=
  match _update s from to ids values with
  | inl e => inl e
  | inr s' =>
      if to =? 0 then inr s'
      else
        let '(s'', refusal) := received s' in
        match refusal with
        | None => inr s''
        | Some e => inl e
        end
  end.

(** [ERC1155Upgradeable._mint] *)
Definition _mint (s : state) (to : address) (id value : Z)
    (received : state -> state * option reason) : reason + state :=
  if to =? 0 then inl "ERC1155InvalidReceiver"
  else _updateWithAcceptanceCheck s 0 to [id] [value] received.

Definition submitVoucher (s : state) (msgSender : address) (taskCode : Z)
    (signature : string) (received : state -> state * option reason) : reason + state :=
  if paused (inherited s) then inl "EnforcedPause"
  else if completed s msgSender taskCode then inl "already completed"
  else
    let digest := voucherDigest (inherited s) taskCode msgSender in
    match recover digest signature with
    | inl e => inl e
    | inr signer =>
        if negb (isIssuer s signer) then inl "invalid issuer"
        else _mint (set_completed msgSender taskCode s) msgSender taskCode 1 received
    end.

(** The modifier [onlyOwner]. *)
Definition onlyOwner (s : state) (msgSender : address) (body : reason + state)
    : reason + state :=
  if negb (msgSender =? owner (inherited s)) then inl "OwnableUnauthorizedAccount"
  else body.

Definition setIssuer (s : state) (msgSender issuer : address) (allowed : bool)
    : reason + state :=
  onlyOwner s msgSender
    (inr (set_isIssuer (fun a => if a =? issuer then allowed else isIssuer s a) s)).

Definition setBaseURI (s : state) (msgSender : address) (newBaseURI : string)
    : reason + state :=
  onlyOwner s msgSender
    (inr (set_baseDirectoryURI newBaseURI
            (set_inherited (_setURI (inherited s) newBaseURI) s))).

Definition setUriPadDigits (s : state) (msgSender : address) (newPad : Z)
    : reason + state :=
  onlyOwner s msgSender (inr (set_uriPadDigits newPad s)).

Definition pause (s : state) (msgSender : address) : reason + state :=
  onlyOwner s msgSender
    (match _pause (inherited s) with
     | inl e => inl e
     | inr b => inr (set_inherited b s)
     end).

Definition unpause (s : state) (msgSender : address) : reason + state :=
  onlyOwner s msgSender
    (match _unpause (inherited s) with
     | inl e => inl e
     | inr b => inr (set_inherited b s)
     end).

(** [ERC1155Upgradeable.safeTransferFrom] and [safeBatchTransferFrom], which
    the contract inherits: the authorization of the sender, the two checks
    against the zero address, and the update with the call to the
    receiver. *)
Definition safeTransferFrom (s : state) (msgSender from to : address) (id value : Z)
    (received : state -> state * option reason) : reason + state :=
  if negb (mayTransfer (inherited s) from msgSender)
  then inl "ERC1155MissingApprovalForAll"
  else if to =? 0 then inl "ERC1155InvalidReceiver"
  else if from =? 0 then inl "ERC1155InvalidSender"
  else _updateWithAcceptanceCheck s from to [id] [value] received.

Definition safeBatchTransferFrom (s : state) (msgSender from to : address)
    (ids values : list Z) (received : state -> state * option reason) : reason + state :=
  if negb (mayTransfer (inherited s) from msgSender)
  then inl "ERC1155MissingApprovalForAll"
  else if to =? 0 then inl "ERC1155InvalidReceiver"
  else if from =? 0 then inl "ERC1155InvalidSender"
  else _updateWithAcceptanceCheck s from to ids values received.

(** [_paddedDecimal(value, minDigits)]; [Strings.toString] is the decimal
    numeral. *)
Definition _paddedDecimal (value minDigits : Z) : string :=
  let dec := JsString.Z_toString value in
  let len := Z.of_nat (String.length dec) in
  if minDigits <=? len then dec
  else JsString.repeat_char "0" (Z.to_nat (minDigits - len)) ++ dec.

Definition uri (s : state) (tokenId : Z) : string :=
  _baseDirectoryURI s ++ _paddedDecimal tokenId (uriPadDigits s) ++ ".json".

Definition getWalletAchievements (s : state) (wallet : address) : list Z :=
  _walletTokenIds s wallet.

Definition hasAchievement (s : state) (wallet : address) (tokenId : Z) : bool :=
  _hasTokenId s wallet tokenId.

(** The calls of the deployed contract.  A call that mints or transfers
    comes with the conduct of the receiver: the calls that reach the
    registry while the receiver is asked, each with its sender, and the
    reason the receiver reverts with, if it does; an externally owned
    account [Returns] at once and refuses nothing.  A call that reverts
    inside the receiver leaves the state to the calls after it; a receiver
    that lets the revert through is one that refuses.  [Other] is a function that is inherited unchanged and
    does not reach [_update] (approvals, the transfer of ownership): it
    writes to the inherited storage only.  An upgrade of the implementation
    replaces this code and is not a call of it. *)
Inductive call : Type :=
| SubmitVoucher (taskCode : Z) (signature : string) (calls : reentry) (refusal : option reason)
| SetIssuer (issuer : address) (allowed : bool)
| SetBaseURI (newBaseURI : string)
| SetUriPadDigits (newPad : Z)
| Pause
| Unpause
| SafeTransferFrom (from to : address) (id value : Z) (calls : reentry) (refusal : option reason)
| SafeBatchTransferFrom (from to : address) (ids values : list Z)
    (calls : reentry) (refusal : option reason)
| Other (f : Inherited -> reason + Inherited)
with reentry : Type :=
| Returns
| Calls (msgSender : address) (c : call) (rest : reentry).

Scheme call_reentry := Induction for call Sort Prop
  with reentry_call := Induction for reentry Sort Prop.

(** A call that reverts leaves the state as it was. *)
Definition outcome (s : state) (result : reason + state) : state :=
  match result with
  | inr s' => s'
  | inl _ => s
  end.

Fixpoint execute (s : state) (msgSender : address) (c : call) {struct c}
    : reason + state :=
  match c with
  | SubmitVoucher taskCode signature calls refusal =>
      submitVoucher s msgSender taskCode signature
        (fun s' => (reenter s' calls, refusal))
  | SetIssuer issuer allowed => setIssuer s msgSender issuer allowed
  | SetBaseURI newBaseURI => setBaseURI s msgSender newBaseURI
  | SetUriPadDigits newPad => setUriPadDigits s msgSender newPad
  | Pause => pause s msgSender
  | Unpause => unpause s msgSender
  | SafeTransferFrom from to id value calls refusal =>
      safeTransferFrom s msgSender from to id value
        (fun s' => (reenter s' calls, refusal))
  | SafeBatchTransferFrom from to ids values calls refusal =>
      safeBatchTransferFrom s msgSender from to ids values
        (fun s' => (reenter s' calls, refusal))
  | Other f =>
      match f (inherited s) with
      | inl e => inl e
      | inr b => inr (set_inherited b s)
      end
  end
with reenter (s : state) (calls : reentry) {struct calls} : state :=
  match calls with
  | Returns => s
  | Calls msgSender c rest => reenter (outcome s (execute s msgSender c)) rest
  end.

(** A transaction: a call from outside. *)
Definition transact (s : state) (tx : address * call) : state :=
  outcome s (execute s tx.1 tx.2).

Definition transactAll (s : state) (txs : list (address * call)) : state :=
  fold_left transact txs s.

(** A property of the state that every write of the contract keeps: the
    writes of the fields outside [_update], and an [_update] that mints. *)
Definition kept (P : state -> Prop) : Prop :=
  (forall s wallet taskCode, P s -> P (set_completed wallet taskCode s))
  /\ (forall s s' to ids amounts, P s -> _update s 0 to ids amounts = inr s' -> P s')
  /\ (forall s b, P s -> P (set_inherited b s))
  /\ (forall s issuers, P s -> P (set_isIssuer issuers s))
  /\ (forall s baseURI, P s -> P (set_baseDirectoryURI baseURI s))
  /\ (forall s pad, P s -> P (set_uriPadDigits pad s)).

(** The index of a wallet lists a token exactly when its flag is set, and
    lists no token twice. *)
Definition indexConsistent (s : state) : Prop :=
  forall wallet,
    NoDup (_walletTokenIds s wallet)
    /\ forall tokenId, _hasTokenId s wallet tokenId = true <-> tokenId ∈ _walletTokenIds s wallet.

End Contract.

(** A token with balances only, for the examples: nothing is paused, the
    owner is account 1, every account moves its own tokens, and the
    signature of a voucher by [signer] is the numeral of [signer]. *)
Definition ledger_update (balances : address -> Z -> nat) (from to : address)
    (ids values : list Z) : reason + (address -> Z -> nat) :=
  match ids, values with
  | [id], [value] =>
      if negb (from =? 0) && (Z.of_nat (balances from id) <? value)
      then inl "ERC1155InsufficientBalance"
      else
        let debited :=
          if from =? 0 then balances
          else fun a k => if (a =? from) && (k =? id)
                          then (balances a k - Z.to_nat value)%nat
                          else balances a k in
        inr (if to =? 0 then debited
             else fun a k => if (a =? to) && (k =? id)
                             then (debited a k + Z.to_nat value)%nat
                             else debited a k)
  | _, _ => inl "ERC1155InvalidArrayLength"
  end.

#[export] Instance ledger : OpenZeppelin := {|
  Inherited := address -> Z -> nat;
  owner := fun _ => 1;
  paused := fun _ => false;
  balanceOf := fun b a k => Z.of_nat (b a k);
  super_update := ledger_update;
  mayTransfer := fun _ from sender => from =? sender;
  _setURI := fun b _ => b;
  _pause := fun b => inr b;
  _unpause := fun b => inr b;
  voucherDigest := fun _ taskCode wallet => taskCode * 2 ^ 160 + wallet;
  recover := fun _ signature =>
    match JsString.parseInt signature 10 with
    | Some signer => inr signer
    | None => inl "ECDSAInvalidSignature"
    end;
  mint_credits := ltac:(
    intros b b' to id Hto; unfold ledger_update; cbn [Z.eqb negb andb];
    destruct (Z.eqb_spec to 0) as [? | _]; [contradiction |];
    intros [= <-]; rewrite !Z.eqb_refl; cbn [andb]; lia)
|}.

(** The registry after [initialize] and [setIssuer(7, true)] by the owner. *)
Definition deployed : state :=
  transact (initialized (fun _ _ => 0%nat) "https://static.example/training/")
    (1, SetIssuer 7 true).

(** A contract wallet at address 5 that, asked to accept the badge of one
    task, redeems its voucher for task 2 before it answers. *)
Definition redeemsAnother : reentry :=
  Calls 5 (SubmitVoucher 2 "7" Returns None) Returns.

End Registry.

(* ===================================================================== *)
(** * Properties *)
(* ===================================================================== *)

(** ** Checks of the built-ins and of the validators on concrete inputs *)

Example toUpperCase_mixed : JsString.toUpperCase "BlockChain 9z" = "BLOCKCHAIN 9Z".
Proof. reflexivity. Qed.

Example trim_both_sides : JsString.trim "  FIRSTSECRET " = "FIRSTSECRET".
Proof. reflexivity. Qed.

Example parseInt_padded : JsString.parseInt "0042" 10 = Some 42.
Proof. reflexivity. Qed.

Example parseInt_not_a_number : JsString.parseInt "abc" 10 = None.
Proof. reflexivity. Qed.

Example parseInt_hex_block : JsString.parseInt "0x1f" 16 = Some 31.
Proof. reflexivity. Qed.

Example Z_toString_1001 : JsString.Z_toString 1001 = "1001".
Proof. reflexivity. Qed.

Example padStart_short : JsString.padStart 4 "0" "21" = "0021".
Proof. reflexivity. Qed.

Example hexToString_skips_null_bytes : hexToString "54004b" = "TK".
Proof. reflexivity. Qed.

Example json_parse_nested :
  ReferenceRuntime.parse (ReferenceRuntime.json "{'a': [1, 'x', null], 'b': {'c': true}}")
  = Some (JObj [("a", JArr [JNum 1; JStr "x"; JNull]); ("b", JObj [("c", JBool true)])]).
Proof. reflexivity. Qed.

(** The word jumble is graded without regard to case. *)
Example word_jumble_ignores_case :
  gradeWordJumble (Samples.jumbleAnswer "BLOCKCHAIN")
    {| element_type := WordJumble; data := WordJumbleAnswer "BLOCKCHAIN" |} 6 = 6%Q
  /\ gradeWordJumble (Samples.jumbleAnswer "blockchain")
       {| element_type := WordJumble; data := WordJumbleAnswer "BLOCKCHAIN" |} 6 = 6%Q
  /\ gradeWordJumble (Samples.jumbleAnswer "blockchains")
       {| element_type := WordJumble; data := WordJumbleAnswer "BLOCKCHAIN" |} 6 = 0%Q.
Proof. repeat split; reflexivity. Qed.

(** The example of the specification: 13 right choices and the word jumble
    give 84 of 96 points, 87.5 percent, a pass; 10 right choices give 60
    points, a failure that may be retried. *)
Example fundamentals_quiz_example :
  (exists r,
      gradeQuiz Samples.fundamentalsBank (Samples.fundamentalsSubmission 13 true)
        Samples.quizContext = Some r
      /\ ValidationResult.passed r = true
      /\ (exists total top accuracy,
            ValidationResult.score r = Some total /\ (total == 84)%Q
            /\ ValidationResult.maxScore r = Some top /\ (top == 96)%Q
            /\ ValidationResult.accuracy r = Some accuracy /\ (accuracy == 875 # 10)%Q)
      /\ ValidationResult.retryAllowed r = Some false)
  /\ (exists r,
        gradeQuiz Samples.fundamentalsBank (Samples.fundamentalsSubmission 10 false)
          Samples.quizContext = Some r
        /\ ValidationResult.passed r = false
        /\ ValidationResult.retryAllowed r = Some true).
Proof.
  split.
  - eexists. split; [vm_compute; reflexivity |]. split; [reflexivity |].
    split; [| reflexivity]. do 3 eexists. repeat split; reflexivity.
  - eexists. split; [vm_compute; reflexivity |]. split; reflexivity.
Qed.

(** ** Programs *)

Lemma run_bind {A B : Type} (o : Oracle) (p : Prog A) (f : A -> Prog B) (w : World) :
  run o (bind p f) w =
  match run o p w with
  | (w1, inr a) => run o (f a) w1
  | (w1, inl e) => (w1, inl e)
  end.
Proof.
  revert w. induction p as [a | e | X ev k IH]; intros w; simpl; try reflexivity.
  destruct (handle o ev w) as [w' x]. apply IH.
Qed.

Lemma run_try_catch {A : Type} (o : Oracle) (p : Prog A) (h : exn -> Prog A) (w : World) :
  run o (try_catch p h) w =
  match run o p w with
  | (w1, inr a) => (w1, inr a)
  | (w1, inl e) => run o (h e) w1
  end.
Proof.
  revert w. induction p as [a | e | X ev k IH]; intros w; simpl; try reflexivity.
  destruct (handle o ev w) as [w' x]. apply IH.
Qed.

Lemma Covers_mono {A : Type} (E : forall X, Event X -> Prop) (P Q : A -> Prop) (p : Prog A) :
  (forall a, P a -> Q a) -> Covers E P p -> Covers E Q p.
Proof.
  intros HPQ. induction p as [a | e | X ev k IH]; simpl; auto.
  intros [Hev Hk]. split; [exact Hev | intros x; apply IH, Hk].
Qed.

Lemma Covers_bind {A B : Type} (E : forall X, Event X -> Prop) (Q : A -> Prop)
    (P : B -> Prop) (p : Prog A) (f : A -> Prog B) :
  Covers E Q p -> (forall a, Q a -> Covers E P (f a)) -> Covers E P (bind p f).
Proof.
  intros Hp Hf. induction p as [a | e | X ev k IH]; simpl in *; auto.
  destruct Hp as [Hev Hk]. split; [exact Hev | intros x; apply IH, Hk].
Qed.

Lemma Covers_try_catch {A : Type} (E : forall X, Event X -> Prop) (P : A -> Prop)
    (p : Prog A) (h : exn -> Prog A) :
  Covers E P p -> (forall e, Covers E P (h e)) -> Covers E P (try_catch p h).
Proof.
  intros Hp Hh. induction p as [a | e | X ev k IH]; simpl in *; auto.
  destruct Hp as [Hev Hk]. split; [exact Hev | intros x; apply IH, Hk].
Qed.

Lemma Covers_orThrow {A : Type} (E : forall X, Event X -> Prop) (P : A -> Prop)
    (o : option A) :
  (forall a, o = Some a -> P a) -> Covers E P (orThrow o).
Proof. destruct o; simpl; auto. Qed.

(** A program whose events keep the completion table leaves it as it was. *)
Lemma keepsCompletions_run {A : Type} (o : Oracle) (P : A -> Prop) (p : Prog A) (w : World) :
  Covers keepsCompletions P p ->
  training_completions (run o p w).1 = training_completions w
  /\ match (run o p w).2 with inr a => P a | inl _ => True end.
Proof.
  revert w. induction p as [a | e | X ev k IH]; intros w; simpl; auto.
  intros [Hev Hk].
  destruct (handle o ev w) as [w' x] eqn:Hh.
  specialize (IH x w' (Hk x)). destruct IH as [IH1 IH2].
  split; [| exact IH2]. rewrite IH1.
  destruct ev; simpl in *; try (injection Hh as <- <-; reflexivity); try contradiction.
  - destruct (db_error o (tick w)); injection Hh as <- <-; reflexivity.
Qed.

(** A program without events runs in no time. *)
Lemma run_Ret {A : Type} (o : Oracle) (a : A) (w : World) : run o (Ret a) w = (w, inr a).
Proof. reflexivity. Qed.

(** ** Task codes *)

Lemma catalog_entries_round_trip :
  Forall (fun entry => roundTrips entry.1 = true) ACHIEVEMENT_TYPES_entries.
Proof. repeat constructor. Qed.

Lemma is_digit_decimal (c : ascii) : JsString.is_digit c = true -> c ∈ decimalDigits.
Proof.
  destruct c as [[] [] [] [] [] [] [] []]; vm_compute; intros Hd;
    first [discriminate Hd | set_solver].
Qed.

Lemma all_four_digit_strings_round_trip :
  forallb (fun a => forallb (fun b => forallb (fun c => forallb (fun d =>
    roundTrips (four a b c d)) decimalDigits) decimalDigits) decimalDigits)
    decimalDigits = true.
Proof. vm_compute. reflexivity. Qed.

(** Every string of four decimal digits survives the conversion to a task
    code and back. *)
Lemma four_digit_round_trip (a b c d : ascii) :
  JsString.is_digit a = true -> JsString.is_digit b = true ->
  JsString.is_digit c = true -> JsString.is_digit d = true ->
  taskCodeToAchievementNumber (achievementNumberToTaskCode (four a b c d))
    default_padding = four a b c d.
Proof.
  intros Ha Hb Hc Hd.
  apply is_digit_decimal, list_elem_of_In in Ha.
  apply is_digit_decimal, list_elem_of_In in Hb.
  apply is_digit_decimal, list_elem_of_In in Hc.
  apply is_digit_decimal, list_elem_of_In in Hd.
  pose proof all_four_digit_strings_round_trip as Hall.
  rewrite forallb_forall in Hall. specialize (Hall a Ha).
  rewrite forallb_forall in Hall. specialize (Hall b Hb).
  rewrite forallb_forall in Hall. specialize (Hall c Hc).
  rewrite forallb_forall in Hall. specialize (Hall d Hd).
  unfold roundTrips in Hall. apply String.eqb_eq in Hall. exact Hall.
Qed.

(** C10: every identifier of the catalog is recovered by converting it to a
    task code with [achievementNumberToTaskCode] and back with
    [taskCodeToAchievementNumber] at the default padding of 4. *)
Theorem catalog_task_code_round_trip (achievementNumber : string) (kind : SubmissionKind) :
  ACHIEVEMENT_TYPES !! achievementNumber = Some kind ->
  taskCodeToAchievementNumber (achievementNumberToTaskCode achievementNumber)
    default_padding = achievementNumber.
Proof.
  intros Hin. unfold ACHIEVEMENT_TYPES in Hin.
  apply elem_of_list_to_map_2 in Hin.
  pose proof catalog_entries_round_trip as Hall.
  rewrite Forall_forall in Hall. specialize (Hall _ Hin). simpl in Hall.
  unfold roundTrips in Hall. apply String.eqb_eq in Hall. exact Hall.
Qed.

Lemma catalog_task_code_round_trip_witness :
  ACHIEVEMENT_TYPES !! "0021" = Some Quiz
  /\ taskCodeToAchievementNumber (achievementNumberToTaskCode "0021") default_padding
     = "0021".
Proof.
  split; [reflexivity |].
  apply (catalog_task_code_round_trip "0021" Quiz). reflexivity.
Defined.

(** ** The transaction-hash gate *)

Lemma txIdPattern_test_spec (s : string) :
  txIdPattern_test s = true <-> wellFormedHash s.
Proof.
  unfold txIdPattern_test, wellFormedHash. split.
  - destruct s as [| a s']; [discriminate |].
    destruct (Ascii.eqb_spec a "0") as [-> | Ha];
      [| destruct a as [[] [] [] [] [] [] [] []]; first [discriminate | congruence]].
    destruct s' as [| b digits]; [discriminate |].
    destruct (Ascii.eqb_spec b "x") as [-> | Hb];
      [| destruct b as [[] [] [] [] [] [] [] []]; first [discriminate | congruence]].
    intros Ht. apply andb_true_iff in Ht as [Hlen Hhex].
    exists digits. split; [reflexivity |]. split; [| exact Hhex].
    apply Nat.eqb_eq in Hlen. exact Hlen.
  - intros (digits & -> & Hlen & Hhex). cbv [String.append].
    rewrite Hlen, Hhex. reflexivity.
Qed.

(** C6: a transaction hash that is not [0x] followed by exactly 64
    hexadecimal characters makes the transaction validator return a failure
    at once: the validator is a returned value, so it performs no event, and
    in particular no RPC fetch, and running it leaves the world as it
    was. *)
Theorem malformed_hash_rejected_before_rpc `{JsRuntime} `{EthersLib}
    (submissionData transactionHash : jsval) (context : ValidationContext.t)
    (env : option Bindings) :
  Js.prop submissionData "transactionHash" = Some transactionHash ->
  ~ wellFormedHash (ToString transactionHash) ->
  validateTransactionSubmission submissionData context env = Ret invalidHashFailure
  /\ Covers noFetch (fun r => ValidationResult.passed r = false)
       (validateTransactionSubmission submissionData context env)
  /\ forall (o : Oracle) (w : World),
       run o (validateTransactionSubmission submissionData context env) w
       = (w, inr invalidHashFailure).
Proof.
  intros Hhash Hbad.
  assert (Htest : txIdPattern_test (ToString transactionHash) = false).
  { destruct (txIdPattern_test (ToString transactionHash)) eqn:Ht; [| reflexivity].
    exfalso. apply Hbad, txIdPattern_test_spec, Ht. }
  assert (Heq : validateTransactionSubmission submissionData context env
                = Ret invalidHashFailure).
  { unfold validateTransactionSubmission. rewrite Hhash. simpl.
    rewrite Htest. reflexivity. }
  rewrite Heq. repeat split. 
Qed.

Lemma malformed_hash_rejected_before_rpc_witness :
  Js.prop Samples.shortHash "transactionHash" = Some (JStr "0x1234")
  /\ validateTransactionSubmission Samples.shortHash
       (Samples.context "0005" "transaction" Samples.shortHash) None
     = Ret invalidHashFailure.
Proof.
  split; [reflexivity |].
  refine (proj1 (malformed_hash_rejected_before_rpc Samples.shortHash (JStr "0x1234")
                   (Samples.context "0005" "transaction" Samples.shortHash) None _ _)).
  - reflexivity.
  - intros Hw. apply txIdPattern_test_spec in Hw. vm_compute in Hw. discriminate Hw.
Defined.


(** ** The positional graders *)

Section PositionalGraders.
Context `{JsRuntime}.

Lemma envelope_inv (userAnswer tag : string) (userResponse : jsval) :
  envelope userAnswer tag = Some userResponse ->
  exists parsed type,
    JSON_parse userAnswer = Some parsed
    /\ Js.prop parsed "type" = Some type
    /\ Js.eq_string type tag = true
    /\ Js.prop parsed "userResponse" = Some userResponse.
Proof.
  unfold envelope. intros Henv.
  destruct (JSON_parse userAnswer) as [parsed |] eqn:Hparse; [| discriminate].
  simpl in Henv.
  destruct (Js.prop parsed "type") as [type |] eqn:Htype; [| discriminate].
  simpl in Henv.
  destruct (Js.eq_string type tag) eqn:Htag; [| discriminate].
  exists parsed, type. auto.
Qed.

Lemma eq_string_eq (v : jsval) (s t : string) :
  Js.eq_string v s = true -> Js.eq_string v t = String.eqb s t.
Proof.
  destruct v; simpl; try discriminate.
  intros Hs. apply String.eqb_eq in Hs. subst. reflexivity.
Qed.

(** The two loops are the same function. *)
Lemma dragDropPositions_timelinePositions (userSequence : jsval)
    (correctSequence : list string) (remaining i correctPositions : nat) :
  dragDropPositions userSequence correctSequence remaining i correctPositions
  = timelinePositions userSequence correctSequence remaining i correctPositions.
Proof.
  revert i correctPositions.
  induction remaining as [| n IH]; intros i acc; simpl; [reflexivity | apply IH].
Qed.

Lemma positionMatches_cons (x : jsval) (sub : list jsval) (c : string)
    (expected : list string) (i : nat) :
  positionMatches (JArr (x :: sub)) (c :: expected) (S i)
  = positionMatches (JArr sub) expected i.
Proof. reflexivity. Qed.

Lemma timelinePositions_cons (x : jsval) (sub : list jsval) (c : string)
    (expected : list string) (remaining i acc : nat) :
  timelinePositions (JArr (x :: sub)) (c :: expected) remaining (S i) acc
  = timelinePositions (JArr sub) expected remaining i acc.
Proof.
  revert i acc. induction remaining as [| n IH]; intros i acc; simpl; [reflexivity |].
  rewrite IH. reflexivity.
Qed.

Lemma timelinePositions_matchingIndices (sub : list jsval) (expected : list string)
    (acc : nat) :
  timelinePositions (JArr sub) expected
    (Nat.min (List.length sub) (List.length expected)) 0 acc
  = (acc + matchingIndices sub expected)%nat.
Proof.
  revert expected acc.
  induction sub as [| x sub IH]; intros expected acc; simpl.
  - unfold matchingIndices. simpl. lia.
  - destruct expected as [| c expected]; simpl.
    + unfold matchingIndices. simpl. lia.
    + rewrite timelinePositions_cons, IH.
      unfold matchingIndices, positionMatches. simpl.
      destruct (Js.eq_string x c); simpl; lia.
Qed.

Lemma iterations_of_nat (n : nat) : Js.iterations (Some (Js.of_nat n)) = n.
Proof.
  unfold Js.iterations, Js.of_nat. rewrite Qceiling_Z. apply Nat2Z.id.
Qed.

Lemma Qle_bool_of_nat (a b : nat) :
  Qle_bool (Js.of_nat a) (Js.of_nat b) = (a <=? b)%nat.
Proof.
  unfold Js.of_nat.
  destruct (Nat.leb_spec a b) as [Hle | Hlt].
  - apply Qle_bool_iff. rewrite <- Zle_Qle. lia.
  - destruct (Qle_bool (inject_Z (Z.of_nat a)) (inject_Z (Z.of_nat b))) eqn:Hq;
      [| reflexivity].
    apply Qle_bool_iff in Hq. rewrite <- Zle_Qle in Hq. lia.
Qed.

Lemma sequenceBound_array (sub : list jsval) (expected : list string) :
  sequenceBound (JArr sub) expected = Nat.min (List.length sub) (List.length expected).
Proof.
  unfold sequenceBound.
  change (Js.opt_prop (JArr sub) "length") with (JNum (Js.of_nat (List.length sub))).
  rewrite ToNumber_num.
  cbv [Js.min_with fmap option_fmap option_map].
  rewrite Qle_bool_of_nat.
  destruct (Nat.leb_spec (List.length sub) (List.length expected));
    rewrite iterations_of_nat; lia.
Qed.

Lemma gradeTimelineBuilder_envelope (userAnswer : string) (userResponse : jsval)
    (correctAnswer : InteractiveElementCorrectAnswer) (maxPoints : Q) :
  envelope userAnswer "timeline-builder" = Some userResponse ->
  gradeTimelineBuilder userAnswer correctAnswer maxPoints
  = positionalScore userResponse correctAnswer maxPoints.
Proof.
  intros Henv. apply envelope_inv in Henv as (parsed & type & Hp & Ht & Htag & Hur).
  unfold gradeTimelineBuilder, positionalScore.
  rewrite Hp. simpl. rewrite Ht. simpl. rewrite Htag. simpl. rewrite Hur. reflexivity.
Qed.

Lemma gradeDragDropPuzzle_envelope (userAnswer : string) (userResponse : jsval)
    (correctAnswer : InteractiveElementCorrectAnswer) (maxPoints : Q) :
  envelope userAnswer "drag-drop-puzzle" = Some userResponse ->
  gradeDragDropPuzzle userAnswer correctAnswer maxPoints
  = positionalScore userResponse correctAnswer maxPoints.
Proof.
  intros Henv. apply envelope_inv in Henv as (parsed & type & Hp & Ht & Htag & Hur).
  unfold gradeDragDropPuzzle, positionalScore.
  rewrite Hp. simpl. rewrite Ht. simpl. rewrite Htag. simpl. rewrite Hur. simpl.
  destruct (data_sequence (data correctAnswer)) as [correctSequence |]; [| reflexivity].
  simpl. rewrite dragDropPositions_timelinePositions. reflexivity.
Qed.

Lemma positionalScore_array (userResponse : jsval) (submitted : list jsval)
    (expected : list string) (correctAnswer : InteractiveElementCorrectAnswer)
    (maxPoints : Q) :
  Js.opt_prop userResponse "sequence" = JArr submitted ->
  data_sequence (data correctAnswer) = Some expected ->
  expected <> [] ->
  positionalScore userResponse correctAnswer maxPoints
  = positionalCredit submitted expected maxPoints.
Proof.
  intros Hseq Hdata Hne. unfold positionalScore, positionalCredit.
  rewrite Hseq, Hdata.
  change (Js.or_else (JArr submitted) (JArr [])) with (JArr submitted).
  destruct expected as [| c expected]; [congruence |].
  cbn [mbind option_bind default List.length Nat.eqb].
  rewrite sequenceBound_array, timelinePositions_matchingIndices. reflexivity.
Qed.

Lemma gradeTimelineBuilder_other_tag (userAnswer tag : string) (userResponse : jsval)
    (correctAnswer : InteractiveElementCorrectAnswer) (maxPoints : Q) :
  envelope userAnswer tag = Some userResponse ->
  tag <> "timeline-builder" ->
  gradeTimelineBuilder userAnswer correctAnswer maxPoints = 0%Q.
Proof.
  intros Henv Hne. apply envelope_inv in Henv as (parsed & type & Hp & Ht & Htag & Hur).
  unfold gradeTimelineBuilder. rewrite Hp. simpl. rewrite Ht. simpl.
  rewrite (eq_string_eq _ _ _ Htag).
  destruct (String.eqb_spec tag "timeline-builder"); [congruence | reflexivity].
Qed.

Lemma gradeDragDropPuzzle_other_tag (userAnswer tag : string) (userResponse : jsval)
    (correctAnswer : InteractiveElementCorrectAnswer) (maxPoints : Q) :
  envelope userAnswer tag = Some userResponse ->
  tag <> "drag-drop-puzzle" ->
  gradeDragDropPuzzle userAnswer correctAnswer maxPoints = 0%Q.
Proof.
  intros Henv Hne. apply envelope_inv in Henv as (parsed & type & Hp & Ht & Htag & Hur).
  unfold gradeDragDropPuzzle. rewrite Hp. simpl. rewrite Ht. simpl.
  rewrite (eq_string_eq _ _ _ Htag).
  destruct (String.eqb_spec tag "drag-drop-puzzle"); [congruence | reflexivity].
Qed.

End PositionalGraders.

(** C7, as stated, fails: on one and the same answer text the two graders
    disagree, because each insists on its own type tag.  The answer
    [{type: 'timeline-builder', userResponse: {sequence: ['a']}}] against the
    expected sequence [['a']] earns 6 points from the timeline grader and 0
    from the drag-and-drop grader. *)
Lemma same_triple_graded_differently :
  ~ (gradeDragDropPuzzle Samples.timelineAnswer Samples.sequenceQuestion 6
     == gradeTimelineBuilder Samples.timelineAnswer Samples.sequenceQuestion 6)%Q.
Proof. vm_compute. discriminate. Qed.

(** C7, amended: the drag-and-drop grader runs the algorithm of the timeline
    grader on answers that carry its own tag.  For one user response, sent
    once tagged [timeline-builder] and once tagged [drag-drop-puzzle], the
    two graders award the same score; for an array response and a non-empty
    expected sequence that score is (number of indices where submitted[i]
    equals expected[i]) / (expected length) × maxPoints; and each grader
    awards 0 to an answer carrying the other's tag. *)
Theorem drag_drop_grades_like_timeline `{JsRuntime}
    (timelineText dragDropText : string) (userResponse : jsval)
    (correctAnswer : InteractiveElementCorrectAnswer) (maxPoints : Q) :
  envelope timelineText "timeline-builder" = Some userResponse ->
  envelope dragDropText "drag-drop-puzzle" = Some userResponse ->
  gradeDragDropPuzzle dragDropText correctAnswer maxPoints
  = gradeTimelineBuilder timelineText correctAnswer maxPoints
  /\ (forall (submitted : list jsval) (expected : list string),
        Js.opt_prop userResponse "sequence" = JArr submitted ->
        data_sequence (data correctAnswer) = Some expected ->
        expected <> [] ->
        gradeDragDropPuzzle dragDropText correctAnswer maxPoints
        = positionalCredit submitted expected maxPoints)
  /\ gradeDragDropPuzzle timelineText correctAnswer maxPoints = 0%Q
  /\ gradeTimelineBuilder dragDropText correctAnswer maxPoints = 0%Q.
Proof.
  intros Htimeline Hdrag.
  rewrite (gradeDragDropPuzzle_envelope _ _ _ _ Hdrag).
  rewrite (gradeTimelineBuilder_envelope _ _ _ _ Htimeline).
  split; [reflexivity |]. split.
  - intros submitted expected Hseq Hdata Hne.
    apply positionalScore_array; assumption.
  - split.
    + apply (gradeDragDropPuzzle_other_tag _ _ _ _ _ Htimeline). discriminate.
    + apply (gradeTimelineBuilder_other_tag _ _ _ _ _ Hdrag). discriminate.
Qed.

Lemma drag_drop_grades_like_timeline_witness :
  envelope Samples.timelineAnswer "timeline-builder"
  = Some (JObj [("sequence", JArr [JStr "a"])])
  /\ gradeDragDropPuzzle Samples.dragDropAnswer Samples.sequenceQuestion 6
     = gradeTimelineBuilder Samples.timelineAnswer Samples.sequenceQuestion 6.
Proof.
  split; [reflexivity |].
  refine (proj1 (drag_drop_grades_like_timeline Samples.timelineAnswer
                   Samples.dragDropAnswer (JObj [("sequence", JArr [JStr "a"])])
                   Samples.sequenceQuestion 6 _ _)); reflexivity.
Defined.


(** ** Monotonicity of the partial-credit graders *)

Lemma countLoop_acc (check : jsval -> option bool) (items : list jsval) (acc : nat) :
  countLoop check items acc = (fun n => (acc + n)%nat) <$> countLoop check items 0.
Proof.
  revert acc. induction items as [| item rest IH]; intros acc; simpl.
  - f_equal. lia.
  - destruct (check item) as [[] |]; simpl; [| apply IH | reflexivity].
    rewrite (IH (S acc)), (IH 1%nat).
    destruct (countLoop check rest 0); simpl; [f_equal; lia | reflexivity].
Qed.

Lemma countLoop_app (check : jsval -> option bool) (before after : list jsval) (acc : nat) :
  countLoop check (before ++ after) acc
  = countLoop check before acc ≫= countLoop check after.
Proof.
  revert acc. induction before as [| item rest IH]; intros acc; simpl; [reflexivity |].
  destruct (check item) as [isCorrect |]; simpl; [apply IH | reflexivity].
Qed.

(** One more correct item never lowers the count, and cannot make a loop
    that completed throw. *)
Lemma countLoop_insert_correct (check : jsval -> option bool)
    (before after : list jsval) (extra : jsval) (n : nat) :
  check extra = Some true ->
  countLoop check (before ++ after) 0 = Some n ->
  countLoop check (before ++ extra :: after) 0 = Some (S n).
Proof.
  intros Hextra. rewrite !countLoop_app. simpl.
  destruct (countLoop check before 0) as [m |]; simpl; [| discriminate].
  rewrite Hextra. simpl.
  rewrite (countLoop_acc check after m), (countLoop_acc check after (S m)).
  destruct (countLoop check after 0); simpl; [| discriminate].
  intros [= <-]. reflexivity.
Qed.

(** Replacing an item by a correct one never lowers the count either. *)
Lemma countLoop_replace_correct (check : jsval -> option bool)
    (before after : list jsval) (was now : jsval) (n : nat) :
  check now = Some true ->
  countLoop check (before ++ was :: after) 0 = Some n ->
  exists n', countLoop check (before ++ now :: after) 0 = Some n' /\ (n <= n')%nat.
Proof.
  intros Hnow. rewrite !countLoop_app. simpl.
  destruct (countLoop check before 0) as [m |]; simpl; [| discriminate].
  rewrite Hnow. simpl.
  destruct (check was) as [isCorrect |]; simpl; [| discriminate].
  rewrite (countLoop_acc check after (if isCorrect then S m else m)),
          (countLoop_acc check after (S m)).
  destruct (countLoop check after 0) as [k |]; simpl; [| discriminate].
  intros [= <-]. eexists. split; [reflexivity |]. destruct isCorrect; lia.
Qed.

Lemma of_nat_nonneg (n : nat) : (0 <= Js.of_nat n)%Q.
Proof. unfold Js.of_nat. change 0%Q with (inject_Z 0). rewrite <- Zle_Qle. lia. Qed.

Lemma of_nat_le (a b : nat) : (a <= b)%nat -> (Js.of_nat a <= Js.of_nat b)%Q.
Proof. intros Hab. unfold Js.of_nat. rewrite <- Zle_Qle. lia. Qed.

Lemma share_le (a b total : nat) (maxPoints : Q) :
  (a <= b)%nat -> (0 <= maxPoints)%Q ->
  (Js.of_nat a / Js.of_nat total * maxPoints
   <= Js.of_nat b / Js.of_nat total * maxPoints)%Q.
Proof.
  intros Hab Hpoints.
  apply Qmult_le_compat_r; [| exact Hpoints].
  unfold Qdiv. apply Qmult_le_compat_r; [apply of_nat_le, Hab |].
  apply Qinv_le_0_compat, of_nat_nonneg.
Qed.

Lemma share_nonneg (a total : nat) (maxPoints : Q) :
  (0 <= maxPoints)%Q -> (0 <= Js.of_nat a / Js.of_nat total * maxPoints)%Q.
Proof.
  intros Hpoints. apply Qmult_le_0_compat; [| exact Hpoints].
  unfold Qdiv. apply Qmult_le_0_compat; [apply of_nat_nonneg |].
  apply Qinv_le_0_compat, of_nat_nonneg.
Qed.

Lemma creditOf_nonneg (count : option nat) (total : nat) (maxPoints : Q) :
  (0 <= maxPoints)%Q -> (0 <= creditOf count total maxPoints)%Q.
Proof.
  intros Hpoints. destruct count as [n |]; unfold creditOf; simpl.
  - apply share_nonneg, Hpoints.
  - apply Qle_refl.
Qed.

Lemma creditOf_mono (count1 count2 : option nat) (total : nat) (maxPoints : Q) :
  (0 <= maxPoints)%Q ->
  (forall n, count1 = Some n -> exists n', count2 = Some n' /\ (n <= n')%nat) ->
  (creditOf count1 total maxPoints <= creditOf count2 total maxPoints)%Q.
Proof.
  intros Hpoints Hcount. destruct count1 as [n |].
  - destruct (Hcount n eq_refl) as (n' & -> & Hle).
    unfold creditOf; simpl. apply share_le; assumption.
  - apply (creditOf_nonneg count2 total maxPoints Hpoints).
Qed.

Lemma matchingIndices_cons (x : jsval) (sub : list jsval) (c : string)
    (expected : list string) :
  matchingIndices (x :: sub) (c :: expected)
  = ((if Js.eq_string x c then 1 else 0) + matchingIndices sub expected)%nat.
Proof. unfold matchingIndices. simpl. destruct (Js.eq_string x c); reflexivity. Qed.

Lemma eq_string_refl (c : string) : Js.eq_string (JStr c) c = true.
Proof. simpl. apply String.eqb_refl. Qed.

(** Putting the expected element at a position never lowers the number of
    matching positions. *)
Lemma matchingIndices_replace_correct (before after : list jsval) (was : jsval)
    (c : string) (expected : list string) :
  expected !! List.length before = Some c ->
  (matchingIndices (before ++ was :: after) expected
   <= matchingIndices (before ++ JStr c :: after) expected)%nat.
Proof.
  revert expected. induction before as [| x before IH]; intros expected Hc.
  - destruct expected as [| c' expected]; [discriminate |].
    simpl in Hc. injection Hc as ->. simpl app.
    rewrite !matchingIndices_cons, eq_string_refl.
    destruct (Js.eq_string was c); lia.
  - destruct expected as [| c' expected]; [discriminate |].
    simpl in Hc. simpl app. rewrite !matchingIndices_cons.
    specialize (IH expected Hc). lia.
Qed.

Section Monotone.
Context `{JsRuntime}.

Lemma submittedItems_inv (userAnswer tag field : string) (items : list jsval) :
  submittedItems userAnswer tag field = Some items ->
  exists userResponse,
    envelope userAnswer tag = Some userResponse
    /\ Js.opt_prop userResponse field = JArr items.
Proof.
  unfold submittedItems. intros Hitems.
  destruct (envelope userAnswer tag) as [userResponse |] eqn:Henv; [| discriminate].
  simpl in Hitems. exists userResponse. split; [reflexivity |].
  destruct (Js.opt_prop userResponse field); try discriminate.
  injection Hitems as ->. reflexivity.
Qed.

Lemma countCorrectPairs_countLoop (correctPairs : list ConceptPair)
    (items : list jsval) (acc : nat) :
  countCorrectPairs correctPairs items acc
  = countLoop (pairIsCorrect correctPairs) items acc.
Proof.
  revert acc. induction items as [| item rest IH]; intros acc; simpl; [reflexivity |].
  destruct (pairIsCorrect correctPairs item); simpl; [apply IH | reflexivity].
Qed.

Lemma countCorrectClassifications_countLoop (correctClassifications : list Classification)
    (items : list jsval) (acc : nat) :
  countCorrectClassifications correctClassifications items acc
  = countLoop (classificationIsCorrect correctClassifications) items acc.
Proof.
  revert acc. induction items as [| item rest IH]; intros acc; simpl; [reflexivity |].
  destruct (classificationIsCorrect correctClassifications item); simpl;
    [apply IH | reflexivity].
Qed.

(** The concept-matching score of an answer whose pairs are [items]. *)
Lemma gradeConceptMatching_items (userAnswer : string) (items : list jsval)
    (correctAnswer : InteractiveElementCorrectAnswer) (maxPoints : Q) :
  submittedItems userAnswer "concept-matching" "pairs" = Some items ->
  gradeConceptMatching userAnswer correctAnswer maxPoints
  = match data_pairs (data correctAnswer) with
    | Some [] | None => 0%Q
    | Some correctPairs =>
        creditOf (countLoop (pairIsCorrect correctPairs) items 0)
          (List.length correctPairs) maxPoints
    end.
Proof.
  intros Hitems. apply submittedItems_inv in Hitems as (userResponse & Henv & Hpairs).
  apply envelope_inv in Henv as (parsed & type & Hp & Ht & Htag & Hur).
  unfold gradeConceptMatching.
  rewrite Hp. simpl. rewrite Ht. simpl. rewrite Htag. simpl. rewrite Hur. simpl.
  rewrite Hpairs.
  destruct (data_pairs (data correctAnswer)) as [[| cp correctPairs] |];
    try reflexivity.
  simpl. rewrite countCorrectPairs_countLoop. unfold creditOf.
  destruct (countLoop _ items 0); reflexivity.
Qed.

(** The true/false score of an answer whose classifications are [items]. *)
Lemma gradeTrueFalseStatements_items (userAnswer : string) (items : list jsval)
    (correctAnswer : InteractiveElementCorrectAnswer) (maxPoints : Q) :
  submittedItems userAnswer "true-false-statements" "classifications" = Some items ->
  gradeTrueFalseStatements userAnswer correctAnswer maxPoints
  = match data_classifications (data correctAnswer) with
    | Some [] | None => 0%Q
    | Some correctClassifications =>
        creditOf (countLoop (classificationIsCorrect correctClassifications) items 0)
          (List.length correctClassifications) maxPoints
    end.
Proof.
  intros Hitems. apply submittedItems_inv in Hitems as (userResponse & Henv & Hcls).
  apply envelope_inv in Henv as (parsed & type & Hp & Ht & Htag & Hur).
  unfold gradeTrueFalseStatements.
  rewrite Hp. simpl. rewrite Ht. simpl. rewrite Htag. simpl. rewrite Hur. simpl.
  rewrite Hcls.
  destruct (data_classifications (data correctAnswer)) as [[| cc correctClassifications] |];
    try reflexivity.
  simpl. rewrite countCorrectClassifications_countLoop. unfold creditOf.
  destruct (countLoop _ items 0); reflexivity.
Qed.

(** The positional score of an answer whose sequence is [items]. *)
Lemma positionalScore_items (userResponse : jsval) (items : list jsval)
    (correctAnswer : InteractiveElementCorrectAnswer) (maxPoints : Q) :
  Js.opt_prop userResponse "sequence" = JArr items ->
  positionalScore userResponse correctAnswer maxPoints
  = match data_sequence (data correctAnswer) with
    | Some [] | None => 0%Q
    | Some expected => positionalCredit items expected maxPoints
    end.
Proof.
  intros Hseq.
  destruct (data_sequence (data correctAnswer)) as [[| c expected] |] eqn:Hdata.
  - unfold positionalScore. rewrite Hdata. reflexivity.
  - apply positionalScore_array; [exact Hseq | exact Hdata | discriminate].
  - unfold positionalScore. rewrite Hdata. reflexivity.
Qed.

Lemma positionalCredit_replace_correct (before after : list jsval) (was : jsval)
    (c : string) (expected : list string) (maxPoints : Q) :
  (0 <= maxPoints)%Q ->
  expected !! List.length before = Some c ->
  (positionalCredit (before ++ was :: after) expected maxPoints
   <= positionalCredit (before ++ JStr c :: after) expected maxPoints)%Q.
Proof.
  intros Hpoints Hc. unfold positionalCredit.
  apply share_le; [| exact Hpoints].
  apply matchingIndices_replace_correct, Hc.
Qed.

End Monotone.

(** C8: the concept-matching, timeline-builder, true/false and drag-and-drop
    graders are monotonic.  For a question worth a non-negative number of
    points: a concept-matching or true/false answer with one more correct
    item, or with one item replaced by a correct one, and a timeline or
    drag-and-drop answer with one position replaced by the expected element,
    is awarded at least the score of the answer it was derived from. *)
Theorem partial_credit_graders_monotone `{JsRuntime}
    (correctAnswer : InteractiveElementCorrectAnswer) (maxPoints : Q)
    (original improved : string) (before after : list jsval) (was now : jsval) :
  (0 <= maxPoints)%Q ->
  (forall correctPairs,
      data_pairs (data correctAnswer) = Some correctPairs ->
      pairIsCorrect correctPairs now = Some true ->
      submittedItems improved "concept-matching" "pairs" = Some (before ++ now :: after)%list ->
      (submittedItems original "concept-matching" "pairs" = Some (before ++ after)%list
       \/ submittedItems original "concept-matching" "pairs"
          = Some (before ++ was :: after)%list) ->
      (gradeConceptMatching original correctAnswer maxPoints
       <= gradeConceptMatching improved correctAnswer maxPoints)%Q)
  /\ (forall correctClassifications,
        data_classifications (data correctAnswer) = Some correctClassifications ->
        classificationIsCorrect correctClassifications now = Some true ->
        submittedItems improved "true-false-statements" "classifications"
        = Some (before ++ now :: after)%list ->
        (submittedItems original "true-false-statements" "classifications"
         = Some (before ++ after)%list
         \/ submittedItems original "true-false-statements" "classifications"
            = Some (before ++ was :: after)%list) ->
        (gradeTrueFalseStatements original correctAnswer maxPoints
         <= gradeTrueFalseStatements improved correctAnswer maxPoints)%Q)
  /\ (forall expected c,
        data_sequence (data correctAnswer) = Some expected ->
        expected !! List.length before = Some c ->
        now = JStr c ->
        (submittedItems original "timeline-builder" "sequence"
         = Some (before ++ was :: after)%list ->
         submittedItems improved "timeline-builder" "sequence"
         = Some (before ++ now :: after)%list ->
         (gradeTimelineBuilder original correctAnswer maxPoints
          <= gradeTimelineBuilder improved correctAnswer maxPoints)%Q)
        /\ (submittedItems original "drag-drop-puzzle" "sequence"
            = Some (before ++ was :: after)%list ->
            submittedItems improved "drag-drop-puzzle" "sequence"
            = Some (before ++ now :: after)%list ->
            (gradeDragDropPuzzle original correctAnswer maxPoints
             <= gradeDragDropPuzzle improved correctAnswer maxPoints)%Q)).
Proof.
  intros Hpoints. split; [| split].
  - intros correctPairs Hdata Hnow Himproved Horiginal.
    rewrite (gradeConceptMatching_items improved _ _ _ Himproved), Hdata.
    destruct Horiginal as [Horiginal | Horiginal];
      rewrite (gradeConceptMatching_items original _ _ _ Horiginal), Hdata;
      destruct correctPairs as [| cp correctPairs]; try apply Qle_refl;
      apply creditOf_mono; try exact Hpoints; intros n Hn.
    + exists (S n). split; [| lia].
      apply countLoop_insert_correct; assumption.
    + apply (countLoop_replace_correct _ before after was now n); assumption.
  - intros correctClassifications Hdata Hnow Himproved Horiginal.
    rewrite (gradeTrueFalseStatements_items improved _ _ _ Himproved), Hdata.
    destruct Horiginal as [Horiginal | Horiginal];
      rewrite (gradeTrueFalseStatements_items original _ _ _ Horiginal), Hdata;
      destruct correctClassifications as [| cc correctClassifications];
      try apply Qle_refl;
      apply creditOf_mono; try exact Hpoints; intros n Hn.
    + exists (S n). split; [| lia].
      apply countLoop_insert_correct; assumption.
    + apply (countLoop_replace_correct _ before after was now n); assumption.
  - intros expected c Hdata Hc ->. split; intros Horiginal Himproved;
      apply submittedItems_inv in Horiginal as (response1 & Henv1 & Hseq1);
      apply submittedItems_inv in Himproved as (response2 & Henv2 & Hseq2).
    + rewrite (gradeTimelineBuilder_envelope _ _ _ _ Henv1),
              (gradeTimelineBuilder_envelope _ _ _ _ Henv2),
              (positionalScore_items _ _ _ _ Hseq1),
              (positionalScore_items _ _ _ _ Hseq2), Hdata.
      destruct expected as [| c' expected]; [apply Qle_refl |].
      apply positionalCredit_replace_correct; assumption.
    + rewrite (gradeDragDropPuzzle_envelope _ _ _ _ Henv1),
              (gradeDragDropPuzzle_envelope _ _ _ _ Henv2),
              (positionalScore_items _ _ _ _ Hseq1),
              (positionalScore_items _ _ _ _ Hseq2), Hdata.
      destruct expected as [| c' expected]; [apply Qle_refl |].
      apply positionalCredit_replace_correct; assumption.
Qed.

Lemma partial_credit_graders_monotone_witness :
  (0 <= 6)%Q
  /\ submittedItems Samples.onePairAnswer "concept-matching" "pairs"
     = Some [Samples.firstPair]
  /\ submittedItems Samples.twoPairsAnswer "concept-matching" "pairs"
     = Some [Samples.firstPair; Samples.secondPair]
  /\ (gradeConceptMatching Samples.onePairAnswer Samples.conceptQuestion 6
      <= gradeConceptMatching Samples.twoPairsAnswer Samples.conceptQuestion 6)%Q.
Proof.
  split; [discriminate |]. split; [reflexivity |]. split; [reflexivity |].
  refine (proj1 (partial_credit_graders_monotone Samples.conceptQuestion 6
                   Samples.onePairAnswer Samples.twoPairsAnswer
                   [Samples.firstPair] [] JNull Samples.secondPair _)
            _ eq_refl eq_refl eq_refl (or_introl eq_refl)).
  discriminate.
Defined.


(** ** The quiz validator *)

Section QuizProperties.
Context `{JsRuntime}.

Lemma quizLoop_total_score (submissionData : jsval) (qs : list QuizQuestion)
    (correctCount correctCount' : nat) (totalScore totalScore' : Q) :
  quizLoop submissionData qs correctCount totalScore = Some (correctCount', totalScore') ->
  (totalScore' == totalScore + sumQ (map (awardedPoints submissionData) qs))%Q.
Proof.
  revert correctCount totalScore.
  induction qs as [| q rest IH]; intros correctCount totalScore Hloop; simpl in *.
  - injection Hloop as _ <-. lra.
  - unfold awardedPoints at 1.
    destruct (Js.prop submissionData "answers") as [answers |]; [| discriminate].
    simpl in *.
    destruct (Js.prop answers (question_id q)) as [submittedAnswer |]; [| discriminate].
    simpl in *.
    destruct (Js.truthy submittedAnswer); simpl in *.
    + destruct (scoreAnswer submittedAnswer q) as [[questionScore correct] |];
        [| discriminate].
      simpl in *. apply IH in Hloop. lra.
    + apply IH in Hloop. lra.
Qed.

Lemma fold_left_points (qs : list QuizQuestion) (sum : Q) :
  (fold_left (fun sum q => sum + points q) qs sum == sum + sumQ (map points qs))%Q.
Proof.
  revert sum. induction qs as [| q rest IH]; intros sum; simpl.
  - lra.
  - rewrite IH. lra.
Qed.

Lemma quizMaxScore_sum (qs : list QuizQuestion) :
  (quizMaxScore qs == sumQ (map points qs))%Q.
Proof. unfold quizMaxScore. rewrite fold_left_points. lra. Qed.


(** What a run of the validator returns: the graded bank when one is
    configured for the achievement, the non-retryable failure otherwise. *)
Lemma validateQuizSubmission_returns (o : Oracle) (w w' : World)
    (submissionData : jsval) (context : ValidationContext.t)
    (env : option Bindings) (r : ValidationResult.t) :
  run o (validateQuizSubmission submissionData context env) w = (w', inr r) ->
  match QUIZ_DATA (globals w') !! ValidationContext.achievementNumber context with
  | Some quizData => gradeQuiz quizData submissionData context = Some r
  | None =>
      r = ValidationResult.failure "Quiz data not found for this achievement" false
  end.
Proof.
  unfold validateQuizSubmission, mbind, Prog_bind. rewrite run_bind.
  destruct (run o (whenEnv env loadQuizData) w) as [w1 [e | []]]; [discriminate |].
  simpl.
  destruct (QUIZ_DATA (globals w1) !! ValidationContext.achievementNumber context)
    as [quizData |] eqn:Hbank.
  - destruct (gradeQuiz quizData submissionData context) as [r' |] eqn:Hgraded;
      simpl; intros [= <- <-]; simpl; rewrite Hbank; exact Hgraded.
  - simpl. intros [= <- <-]. simpl. rewrite Hbank. reflexivity.
Qed.

End QuizProperties.

(** ** Rounding *)



(** Equal rationals round to the same double. *)
Lemma round_Qeq (q q' : Q) : (q == q')%Q -> Double.round q = Double.round q'.
Proof.
  intros Heq. unfold Double.round. now rewrite (Qred_complete _ _ Heq).
Qed.

(** 29 of 50 points are 58 percent in exact arithmetic and less in doubles,
    where the quotient is rounded down and its product with 100 is
    57.99999999999999; 84 of 96 points are 87.5 percent in both. *)
Example percentage_of_29_in_50 :
  js_times (js_divide 29 50) 100 = Finite (8162774324609023 # 140737488355328)
  /\ js_atLeast (js_times (js_divide 29 50) 100) 58 = false
  /\ js_atLeast (js_times (js_divide 84 96) 100) (875 # 10) = true.
Proof. vm_compute. repeat split. Qed.

(** The validator on that bank: 29 points of 50 miss the threshold of 58
    percent, and the attempt may be repeated. *)
Example threshold_missed_by_rounding :
  exists w' r,
    run (Samples.oracle 0)
      (validateQuizSubmission Cases.unevenSubmission Samples.quizContext None)
      (Samples.quizWorld Cases.unevenBank) = (w', inr r)
    /\ ValidationResult.score r = Some 29%Q
    /\ ValidationResult.maxScore r = Some 50%Q
    /\ ValidationResult.passed r = false
    /\ ValidationResult.retryAllowed r = Some true.
Proof. vm_compute. eexists _, _. repeat split. Qed.




(** C3, on the failing input: the concept-matching grader counts every
    submitted pair that matches an expected pair, repeats included.  For the
    bank with one question of two pairs worth 6 points, an answer that
    repeats one correct pair three times is awarded 9 points: the reported
    score exceeds [maxScore], and the submission passes at 150 percent. *)
Theorem repeated_pairs_score_above_maximum :
  exists w' r totalScore maxScore,
    run (Samples.oracle 0)
      (validateQuizSubmission (Samples.answersOf Samples.repeatedPairAnswer)
         Samples.quizContext None)
      (Samples.quizWorld Samples.conceptBank) = (w', inr r)
    /\ ValidationResult.score r = Some totalScore
    /\ ValidationResult.maxScore r = Some maxScore
    /\ (totalScore == 9)%Q /\ (maxScore == 6)%Q
    /\ ~ (totalScore <= maxScore)%Q
    /\ ValidationResult.passed r = true.
Proof.
  do 4 eexists. split; [vm_compute; reflexivity |].
  split; [reflexivity |]. split; [reflexivity |].
  repeat split; try reflexivity. vm_compute. intros Hle. apply Hle. reflexivity.
Qed.

(** ** Every result of every validator *)

Lemma Covers_events {A : Type} (E E' : forall X, Event X -> Prop) (P : A -> Prop)
    (p : Prog A) :
  (forall X ev, E X ev -> E' X ev) -> Covers E P p -> Covers E' P p.
Proof.
  intros HE. induction p as [a | e | X ev k IH]; simpl; auto.
  intros [Hev Hk]. split; [apply HE, Hev | intros x; apply IH, Hk].
Qed.

(** The rule for [bind] that carries the continuation into the
    postcondition of the first program. *)
Lemma Covers_bind_walk {A B : Type} (E : forall X, Event X -> Prop) (P : B -> Prop)
    (p : Prog A) (f : A -> Prog B) :
  Covers E (fun a => Covers E P (f a)) p -> Covers E P (bind p f).
Proof. intros Hp. apply (Covers_bind E _ P p f Hp). auto. Qed.

Lemma terminalWhenPassed_failure (message : string) (retry : bool) :
  terminalWhenPassed (ValidationResult.failure message retry).
Proof. intros Hpassed. discriminate Hpassed. Qed.

Lemma terminalWhenPassed_verified (message : string) (valid : option bool)
    (block : option Z) (token tokenNameValue tokenSymbolValue deployedAt : option jsval)
    (how : option string) :
  terminalWhenPassed
    (ValidationResult.verified message valid block token tokenNameValue
       tokenSymbolValue deployedAt how).
Proof. intros _. reflexivity. Qed.

Lemma terminalWhenPassed_verdict (pass : bool) (message : string) (steps : list string) :
  terminalWhenPassed (ValidationResult.verdict pass message steps (negb pass)).
Proof. intros Hpassed. simpl in Hpassed. subst pass. reflexivity. Qed.

Create HintDb covers.

#[local] Hint Resolve terminalWhenPassed_failure terminalWhenPassed_verified
  terminalWhenPassed_verdict : covers.

Ltac head_of t :=
  lazymatch t with
  | ?f _ => head_of f
  | _ => t
  end.

(** Walks a program tree: one case per shape of the program. *)
Ltac walk :=
  lazymatch goal with
  | |- Covers ?E (fun a => Covers ?E' ?P (@?f a)) (Ret ?x) =>
      change (Covers E' P (f x)); cbv beta; walk
  | |- Covers _ _ (Ret _) =>
      simpl in *; first [exact I | assumption | solve [eauto with covers] | idtac]
  | |- Covers _ _ (Throw _) => exact I
  | |- Covers _ _ (Vis _ _) => split; [exact I | intros ?; walk]
  | |- Covers _ _ (bind _ _) =>
      first [ eapply Covers_bind; [solve [eauto with covers] | cbv beta; intros ? ?; walk]
            | apply Covers_bind_walk; walk ]
  | |- Covers _ _ (try_catch _ _) =>
      apply Covers_try_catch; [walk | intros ?; walk]
  | |- Covers _ _ (orThrow _) => apply Covers_orThrow; intros ? ?; walk
  | |- Covers _ _ (mbind _ _) => unfold mbind, Prog_bind; walk
  | |- Covers _ _ (fmap _ _) => unfold fmap, Prog_fmap; walk
  | |- Covers _ _ (if ?c then _ else _) => destruct c; walk
  | |- Covers _ _ (match ?x with _ => _ end) => destruct x; walk
  | |- Covers _ _ ?p =>
      first [solve [eauto with covers] | let h := head_of p in unfold h; walk]
  | |- _ => simpl; first [exact I | solve [eauto with covers] | idtac]
  end.

Section ValidatorResults.
Context `{JsRuntime} `{EthersLib}.

Lemma loadQuizData_covers (env : Bindings) :
  Covers keepsCompletions (fun _ => True) (loadQuizData env).
Proof. walk. Qed.

Lemma loadSecretAnswers_covers (env : Bindings) :
  Covers keepsCompletions (fun _ => True) (loadSecretAnswers env).
Proof. walk. Qed.

Lemma whenEnv_covers (env : option Bindings) (load : Bindings -> Prog unit) :
  (forall e, Covers keepsCompletions (fun _ => True) (load e)) ->
  Covers keepsCompletions (fun _ => True) (whenEnv env load).
Proof. intros Hload. destruct env; simpl; auto. Qed.

Lemma rpc_covers (url rpcMethod : string) (params : list jsval) :
  Covers keepsCompletions (fun _ => True) (rpc url rpcMethod params).
Proof. walk. Qed.

#[local] Hint Resolve loadQuizData_covers loadSecretAnswers_covers whenEnv_covers
  rpc_covers : covers.

Lemma erc20Loop_covers (functions : list (string * string)) (contractAddress : jsval)
    (url : string) (results : gmap string jsval) :
  Covers keepsCompletions (fun _ => True)
    (erc20Loop functions contractAddress url results).
Proof.
  revert results. induction functions as [| [funcName signature] rest IH];
    intros results; cbn [erc20Loop]; walk.
Qed.

#[local] Hint Resolve erc20Loop_covers : covers.

Lemma verifyERC20Token_covers (contractAddress : jsval) (url expectedCreator : string) :
  Covers keepsCompletions (fun _ => True)
    (verifyERC20Token contractAddress url expectedCreator).
Proof. walk. Qed.

Lemma verifyClaimantField_covers (contractAddress : jsval) (url expectedClaimant : string) :
  Covers keepsCompletions (fun _ => True)
    (verifyClaimantField contractAddress url expectedClaimant).
Proof. walk. Qed.

#[local] Hint Resolve verifyERC20Token_covers verifyClaimantField_covers : covers.

Lemma successfulReceipt_covers (url : string) (txId : jsval) :
  Covers keepsCompletions receiptOutcome (successfulReceipt url txId).
Proof. walk. Qed.

#[local] Hint Resolve successfulReceipt_covers : covers.

Lemma deploymentReceipt_covers (url : string) (txId : jsval) :
  Covers keepsCompletions receiptOutcome (deploymentReceipt url txId).
Proof. walk. Qed.

#[local] Hint Resolve deploymentReceipt_covers : covers.

Lemma verifyFactoryTokenCreation_covers (txId chainId : jsval) (expectedCreator : string)
    (context : ValidationContext.t) (env : Bindings) :
  Covers keepsCompletions terminalWhenPassed
    (verifyFactoryTokenCreation txId chainId expectedCreator context env).
Proof. walk. Qed.

Lemma verifyManualTokenDeployment_covers (txId chainId : jsval)
    (expectedClaimant : string) (context : ValidationContext.t) :
  Covers keepsCompletions terminalWhenPassed
    (verifyManualTokenDeployment txId chainId expectedClaimant context).
Proof. walk. Qed.

Lemma verifyStakingContract_covers (txId chainId : jsval)
    (expectedClaimant : string) (context : ValidationContext.t) :
  Covers keepsCompletions terminalWhenPassed
    (verifyStakingContract txId chainId expectedClaimant context).
Proof. walk. Qed.

Lemma verifyNFTCollection_covers (txId chainId : jsval)
    (expectedClaimant : string) (context : ValidationContext.t) :
  Covers keepsCompletions terminalWhenPassed
    (verifyNFTCollection txId chainId expectedClaimant context).
Proof. walk. Qed.

Lemma verifyRandomNumberGenerator_covers (txId chainId : jsval)
    (expectedClaimant : string) (context : ValidationContext.t) :
  Covers keepsCompletions terminalWhenPassed
    (verifyRandomNumberGenerator txId chainId expectedClaimant context).
Proof. walk. Qed.

Lemma verifyUpgradeableContract_covers (proxyAddress chainId : jsval)
    (expectedClaimant : string) (context : ValidationContext.t) :
  Covers keepsCompletions terminalWhenPassed
    (verifyUpgradeableContract proxyAddress chainId expectedClaimant context).
Proof. walk. Qed.

Lemma genericTransaction_covers (transactionHash : jsval) (context : ValidationContext.t) :
  Covers keepsCompletions terminalWhenPassed
    (genericTransaction transactionHash context).
Proof. walk. Qed.

Lemma claimantOfWallet_covers (claimantAddress : jsval) (walletAddress : string) :
  Covers keepsCompletions (fun _ => True)
    (claimantOfWallet claimantAddress walletAddress).
Proof. walk. Qed.

#[local] Hint Resolve verifyFactoryTokenCreation_covers
  verifyManualTokenDeployment_covers verifyStakingContract_covers
  verifyNFTCollection_covers verifyRandomNumberGenerator_covers
  verifyUpgradeableContract_covers genericTransaction_covers
  claimantOfWallet_covers : covers.

Lemma validateTransactionSubmission_covers (submissionData : jsval)
    (context : ValidationContext.t) (env : option Bindings) :
  Covers keepsCompletions terminalWhenPassed
    (validateTransactionSubmission submissionData context env).
Proof. walk. Qed.

Lemma validateContractSubmission_covers (context : ValidationContext.t) :
  Covers keepsCompletions terminalWhenPassed (validateContractSubmission context).
Proof. walk. Qed.

Lemma gradeQuiz_terminal (quizData : QuizData) (submissionData : jsval)
    (context : ValidationContext.t) (r : ValidationResult.t) :
  gradeQuiz quizData submissionData context = Some r -> terminalWhenPassed r.
Proof.
  unfold gradeQuiz. intros Hgraded.
  destruct (quizLoop submissionData (questions quizData) 0 0)
    as [[correctCount totalScore] |]; [| discriminate].
  simpl in Hgraded. injection Hgraded as <-.
  unfold terminalWhenPassed, quizResult. simpl. intros ->. reflexivity.
Qed.

#[local] Hint Resolve gradeQuiz_terminal : covers.

Lemma validateQuizSubmission_covers (submissionData : jsval)
    (context : ValidationContext.t) (env : option Bindings) :
  Covers keepsCompletions terminalWhenPassed
    (validateQuizSubmission submissionData context env).
Proof. walk. Qed.

Lemma validateSecretSubmission_covers (submissionData : jsval)
    (context : ValidationContext.t) (env : option Bindings) :
  Covers keepsCompletions terminalWhenPassed
    (validateSecretSubmission submissionData context env).
Proof. walk. Qed.

#[local] Hint Resolve validateTransactionSubmission_covers
  validateContractSubmission_covers validateQuizSubmission_covers
  validateSecretSubmission_covers : covers.

(** The dispatch writes no completion row, and whatever it returns is
    terminal when passed. *)
Lemma validateSubmission_covers (context : ValidationContext.t) (env : option Bindings) :
  Covers keepsCompletions terminalWhenPassed (validateSubmission context env).
Proof. walk. Qed.

(** The secret validator on the launch achievement once the cutoff has
    passed: it returns a final failure, unless loading the answers throws,
    in which case it throws the same error. *)
Lemma launch_secret_after_cutoff (o : Oracle) (w : World) (submissionData : jsval)
    (context : ValidationContext.t) (env : option Bindings) :
  ValidationContext.achievementNumber context = launchAchievement ->
  (forall n, cutoffDate < clock o n) ->
  match run o (validateSecretSubmission submissionData context env) w with
  | (_, inr r) => finalFailure r
  | (w', inl e) => run o (whenEnv env loadSecretAnswers) w = (w', inl e)
  end.
Proof.
  intros Hlaunch Hlate.
  unfold validateSecretSubmission, mbind, Prog_bind. rewrite run_bind.
  destruct (run o (whenEnv env loadSecretAnswers) w) as [w1 [e | []]];
    [reflexivity |].
  simpl. rewrite Hlaunch.
  destruct (configured (SECRET_ANSWERS (globals w1) !! launchAchievement))
    as [expectedAnswer |]; simpl; [| split; reflexivity].
  specialize (Hlate (S (tick w1))). apply Z.ltb_lt in Hlate. rewrite Hlate.
  simpl. split; reflexivity.
Qed.

(** A secret that is not configured ends in a final failure. *)
Lemma unconfigured_secret_is_final (o : Oracle) (w w' : World) (submissionData : jsval)
    (context : ValidationContext.t) (env : option Bindings) (r : ValidationResult.t) :
  run o (validateSecretSubmission submissionData context env) w = (w', inr r) ->
  configured (SECRET_ANSWERS (globals w') !! ValidationContext.achievementNumber context)
  = None ->
  finalFailure r.
Proof.
  unfold validateSecretSubmission, mbind, Prog_bind. rewrite run_bind.
  destruct (run o (whenEnv env loadSecretAnswers) w) as [w1 [e | []]];
    [discriminate |].
  simpl.
  destruct (configured (SECRET_ANSWERS (globals w1)
                        !! ValidationContext.achievementNumber context))
    as [expectedAnswer |] eqn:Hexpected; simpl.
  - intros Hrun Hnone. exfalso.
    assert (Hglobals : globals w' = globals w1).
    { destruct (String.eqb _ launchAchievement); simpl in Hrun.
      - destruct (cutoffDate <? _); simpl in Hrun.
        + injection Hrun as <- _. reflexivity.
        + destruct (Js.prop submissionData "secretAnswer") as [secretAnswer |];
            simpl in Hrun; [| discriminate].
          destruct secretAnswer; try (injection Hrun as <- _; reflexivity).
          destruct (negb _); injection Hrun as <- _; reflexivity.
      - destruct (Js.prop submissionData "secretAnswer") as [secretAnswer |];
          simpl in Hrun; [| discriminate].
        destruct secretAnswer; try (injection Hrun as <- _; reflexivity).
        destruct (negb _); injection Hrun as <- _; reflexivity. }
    rewrite Hglobals, Hexpected in Hnone. discriminate Hnone.
  - intros [= <- <-] _. split; reflexivity.
Qed.

End ValidatorResults.

(** C4: every result of every validator (quiz, transaction, contract,
    secret, custom, reached through the dispatch) has [retryAllowed = false]
    whenever [passed] is true; and the failures that cannot be recovered
    from (no question bank for the achievement, no secret configured for it,
    the launch window closed) are returned with [passed = false] and
    [retryAllowed = false]. *)
Theorem retry_denied_after_pass_and_final_failure `{JsRuntime} `{EthersLib}
    (context : ValidationContext.t) (env : option Bindings) :
  Covers (fun _ _ => True) terminalWhenPassed (validateSubmission context env)
  /\ (forall o w w' r,
        run o (validateSubmission context env) w = (w', inr r) ->
        terminalWhenPassed r)
  /\ (forall o w w' submissionData r,
        run o (validateQuizSubmission submissionData context env) w = (w', inr r) ->
        QUIZ_DATA (globals w') !! ValidationContext.achievementNumber context = None ->
        finalFailure r)
  /\ (forall o w w' submissionData r,
        run o (validateSecretSubmission submissionData context env) w = (w', inr r) ->
        configured (SECRET_ANSWERS (globals w')
                    !! ValidationContext.achievementNumber context) = None ->
        finalFailure r)
  /\ (forall o w w' submissionData r,
        run o (validateSecretSubmission submissionData context env) w = (w', inr r) ->
        ValidationContext.achievementNumber context = launchAchievement ->
        (forall n, cutoffDate < clock o n) ->
        finalFailure r).
Proof.
  split; [| split; [| split; [| split]]].
  - apply (Covers_events keepsCompletions); [auto |].
    apply validateSubmission_covers.
  - intros o w w' r Hrun.
    pose proof (keepsCompletions_run o terminalWhenPassed _ w
                  (validateSubmission_covers context env)) as [_ Hresult].
    rewrite Hrun in Hresult. exact Hresult.
  - intros o w w' submissionData r Hrun Hnone.
    apply validateQuizSubmission_returns in Hrun. rewrite Hnone in Hrun.
    subst r. split; reflexivity.
  - intros o w w' submissionData r Hrun Hnone.
    exact (unconfigured_secret_is_final o w w' submissionData context env r Hrun Hnone).
  - intros o w w' submissionData r Hrun Hlaunch Hlate.
    pose proof (launch_secret_after_cutoff o w submissionData context env
                  Hlaunch Hlate) as Hclosed.
    rewrite Hrun in Hclosed. exact Hclosed.
Qed.

Lemma retry_denied_after_pass_and_final_failure_witness :
  exists w' r,
    run (Samples.oracle 0)
      (validateSecretSubmission Samples.launchSubmission
         (Samples.context "1001" "secret" Samples.launchSubmission) None)
      Samples.launchWorld = (w', inr r)
    /\ configured (SECRET_ANSWERS (globals w') !! "1001") = None
    /\ finalFailure r.
Proof.
  eexists. eexists. split; [reflexivity |]. split; [reflexivity |].
  refine (proj1 (proj2 (proj2 (proj2
            (retry_denied_after_pass_and_final_failure
               (Samples.context "1001" "secret" Samples.launchSubmission) None))))
            (Samples.oracle 0) Samples.launchWorld _ Samples.launchSubmission _
            eq_refl eq_refl).
Defined.

(** C9: for the launch secret achievement ['1101'], a submission made after
    the cutoff (every reading of the clock is later than it) fails with
    [passed = false] and [retryAllowed = false], whatever secret it carries.
    The validator returns that failure whenever loading the secret answers
    does not throw; when loading throws, the validator throws the same error
    and returns nothing. *)
Theorem launch_secret_closed_after_cutoff `{JsRuntime}
    (o : Oracle) (w : World) (submissionData : jsval)
    (context : ValidationContext.t) (env : option Bindings) :
  ValidationContext.achievementNumber context = launchAchievement ->
  (forall n, cutoffDate < clock o n) ->
  match run o (validateSecretSubmission submissionData context env) w with
  | (_, inr r) =>
      ValidationResult.passed r = false
      /\ ValidationResult.retryAllowed r = Some false
  | (w', inl e) => run o (whenEnv env loadSecretAnswers) w = (w', inl e)
  end
  /\ (forall w1,
        run o (whenEnv env loadSecretAnswers) w = (w1, inr tt) ->
        exists w' r,
          run o (validateSecretSubmission submissionData context env) w = (w', inr r)
          /\ ValidationResult.passed r = false
          /\ ValidationResult.retryAllowed r = Some false).
Proof.
  intros Hlaunch Hlate.
  pose proof (launch_secret_after_cutoff o w submissionData context env
                Hlaunch Hlate) as Hclosed.
  split; [exact Hclosed |].
  intros w1 Hloaded.
  destruct (run o (validateSecretSubmission submissionData context env) w)
    as [w' [e | r]].
  - rewrite Hloaded in Hclosed. discriminate Hclosed.
  - exists w', r. split; [reflexivity | exact Hclosed].
Qed.

Lemma launch_secret_closed_after_cutoff_witness :
  ValidationContext.achievementNumber Samples.launchContext = launchAchievement
  /\ (forall n, cutoffDate < clock (Samples.oracle (cutoffDate + 1)) n)
  /\ exists w' r,
       run (Samples.oracle (cutoffDate + 1))
         (validateSecretSubmission Samples.launchSubmission Samples.launchContext None)
         Samples.launchWorld = (w', inr r)
       /\ ValidationResult.passed r = false
       /\ ValidationResult.retryAllowed r = Some false.
Proof.
  split; [reflexivity |]. split; [intros n; reflexivity |].
  refine (proj2 (launch_secret_closed_after_cutoff (Samples.oracle (cutoffDate + 1))
                   Samples.launchWorld Samples.launchSubmission Samples.launchContext
                   None eq_refl _) Samples.launchWorld eq_refl).
  intros n. reflexivity.
Defined.

(** Before the cutoff the same submission passes: the window, not the
    secret, decides. *)
Example launch_secret_open_before_cutoff :
  exists w' r,
    run (Samples.oracle (cutoffDate - 1))
      (validateSecretSubmission Samples.launchSubmission Samples.launchContext None)
      Samples.launchWorld = (w', inr r)
    /\ ValidationResult.passed r = true.
Proof. eexists. eexists. split; reflexivity. Qed.

(** ** The completion store *)

Lemma most_recent_None (rows : list TrainingCompletion.t) :
  most_recent rows = None -> rows = [].
Proof.
  destruct rows as [| row rest]; [reflexivity |]. simpl.
  destruct (most_recent rest) as [other |]; [| discriminate].
  destruct (_ <? _); discriminate.
Qed.

Lemma most_recent_In (rows : list TrainingCompletion.t) (row : TrainingCompletion.t) :
  most_recent rows = Some row -> In row rows.
Proof.
  revert row. induction rows as [| first rest IH]; intros row; simpl; [discriminate |].
  destruct (most_recent rest) as [other |].
  - destruct (_ <? _); intros [= <-]; [right; apply IH; reflexivity | left; reflexivity].
  - intros [= <-]. left. reflexivity.
Qed.

(** The query answers with a passed row of the pair, if there is one, and with
    nothing exactly when the pair has no passed row. *)
Lemma getTrainingCompletion_Some (rows : list TrainingCompletion.t)
    (walletAddress achievementNumber : string) (row : TrainingCompletion.t) :
  getTrainingCompletion rows walletAddress achievementNumber = Some row ->
  In row rows /\ matches_completion walletAddress achievementNumber row = true.
Proof.
  unfold getTrainingCompletion. intros Hrow.
  apply most_recent_In, filter_In in Hrow. exact Hrow.
Qed.

Lemma getTrainingCompletion_None (rows : list TrainingCompletion.t)
    (walletAddress achievementNumber : string) :
  getTrainingCompletion rows walletAddress achievementNumber = None ->
  passedRows rows walletAddress achievementNumber = [].
Proof. unfold getTrainingCompletion, passedRows. apply most_recent_None. Qed.

Lemma matches_completion_passed (walletAddress achievementNumber : string)
    (row : TrainingCompletion.t) :
  matches_completion walletAddress achievementNumber row = true ->
  TrainingCompletion.wallet_address row = walletAddress
  /\ TrainingCompletion.achievement_number row = achievementNumber
  /\ TrainingCompletion.passed row = true.
Proof.
  unfold matches_completion. intros Hm.
  apply andb_true_iff in Hm as [Hm Hpassed]. apply andb_true_iff in Hm as [Hw Ha].
  apply String.eqb_eq in Hw. apply String.eqb_eq in Ha. auto.
Qed.



Section Store.
Context `{JsRuntime} `{EthersLib}.
Variable validate : ValidationContext.t -> option Bindings -> Prog ValidationResult.t.
Hypothesis validate_keeps :
  forall context env, Covers keepsCompletions (fun _ => True) (validate context env).









End Store.



Lemma catalog_identifier_truthy (achievementNumber : string) (kind : SubmissionKind) :
  ACHIEVEMENT_TYPES !! achievementNumber = Some kind ->
  Js.truthy (JStr achievementNumber) = true.
Proof.
  intros Hin. destruct achievementNumber; [| reflexivity].
  vm_compute in Hin. discriminate Hin.
Qed.


Section Requests.
Context `{JsRuntime} `{EthersLib}.
Variable validate : ValidationContext.t -> option Bindings -> Prog ValidationResult.t.



End Requests.

Section Mismatch.
Context `{JsRuntime} `{EthersLib}.
Variable validate : ValidationContext.t -> option Bindings -> Prog ValidationResult.t.

(** A request whose declared kind is not the configured one is rejected with
    status 400 by one of the checks on its shape. *)
Lemma mismatch_rejected (env : Bindings) (request : jsval)
    (achievementNumber declared : string) (expectedType : SubmissionKind) :
  Js.opt_prop request "achievementNumber" = JStr achievementNumber ->
  ACHIEVEMENT_TYPES !! achievementNumber = Some expectedType ->
  Js.opt_prop request "submissionType" = JStr declared ->
  declared <> kind_name expectedType ->
  exists message,
    submit validate env (Some request) = Ret (VoucherResponse.rejection 400 message).
Proof.
  intros Hachievement Hcatalog Htype Hdiffers.
  unfold submit, mbind, Prog_bind. cbn [bind orThrow try_catch].
  destruct (Js.prop request "walletAddress") as [walletAddress |] eqn:Hwallet.
  2: { destruct request; simpl in Hwallet; try discriminate Hwallet;
       discriminate Hachievement. }
  cbn [bind orThrow try_catch]. cbv zeta.
  destruct (negb (Js.truthy walletAddress) || negb (isValidEthereumAddress walletAddress));
    [eexists; reflexivity |].
  rewrite Hachievement, Htype.
  rewrite (catalog_identifier_truthy _ _ Hcatalog). cbn [negb].
  destruct (negb (bool_decide (is_Some (kind_of_name declared))));
    [eexists; reflexivity |].
  destruct (negb (Js.truthy (Js.opt_prop request "submissionData")));
    [eexists; reflexivity |].
  rewrite Hcatalog.
  destruct (String.eqb_spec declared (kind_name expectedType)) as [Heq | _];
    [contradiction |].
  eexists. reflexivity.
Qed.

(** When the checks before the kind check pass, the rejection is the
    kind-mismatch error. *)
Lemma mismatch_reported (env : Bindings) (request walletAddress : jsval)
    (achievementNumber declared : string) (expectedType : SubmissionKind) :
  Js.opt_prop request "achievementNumber" = JStr achievementNumber ->
  ACHIEVEMENT_TYPES !! achievementNumber = Some expectedType ->
  Js.opt_prop request "submissionType" = JStr declared ->
  declared <> kind_name expectedType ->
  Js.prop request "walletAddress" = Some walletAddress ->
  Js.truthy walletAddress = true ->
  isValidEthereumAddress walletAddress = true ->
  is_Some (kind_of_name declared) ->
  Js.truthy (Js.opt_prop request "submissionData") = true ->
  submit validate env (Some request)
  = Ret (VoucherResponse.rejection 400 (kindMismatchError achievementNumber expectedType)).
Proof.
  intros Hachievement Hcatalog Htype Hdiffers Hwallet Htruthy Hvalid Hkind Hpresent.
  unfold submit, mbind, Prog_bind. cbn [bind orThrow try_catch].
  rewrite Hwallet. cbn [bind orThrow try_catch]. cbv zeta.
  rewrite Htruthy, Hvalid. cbn [negb orb].
  rewrite Hachievement, Htype.
  rewrite (catalog_identifier_truthy _ _ Hcatalog). cbn [negb].
  rewrite (bool_decide_eq_true_2 _ Hkind). cbn [negb].
  rewrite Hpresent. cbn [negb].
  rewrite Hcatalog.
  destruct (String.eqb_spec declared (kind_name expectedType)) as [Heq | _];
    [contradiction | reflexivity].
Qed.

(** The rejection is the error of the first check that fails, in the order
    of the handler: the wallet address, the declared kind, the payload, the
    kind configured for the achievement. *)
Lemma mismatch_first_failure (env : Bindings) (request : jsval)
    (achievementNumber declared : string) (expectedType : SubmissionKind) :
  Js.opt_prop request "achievementNumber" = JStr achievementNumber ->
  ACHIEVEMENT_TYPES !! achievementNumber = Some expectedType ->
  Js.opt_prop request "submissionType" = JStr declared ->
  declared <> kind_name expectedType ->
  exists walletAddress,
    Js.prop request "walletAddress" = Some walletAddress
    /\ submit validate env (Some request)
       = Ret (VoucherResponse.rejection 400
                (if negb (Js.truthy walletAddress)
                    || negb (isValidEthereumAddress walletAddress)
                 then "Invalid wallet address"
                 else if negb (bool_decide (is_Some (kind_of_name declared)))
                 then "Invalid submission type. Must be one of: quiz, transaction, contract, custom, secret"
                 else if negb (Js.truthy (Js.opt_prop request "submissionData"))
                 then "Submission data is required"
                 else kindMismatchError achievementNumber expectedType)).
Proof.
  intros Hachievement Hcatalog Htype Hdiffers.
  unfold submit, mbind, Prog_bind. cbn [bind orThrow try_catch].
  destruct (Js.prop request "walletAddress") as [walletAddress |] eqn:Hwallet.
  2: { destruct request; simpl in Hwallet; try discriminate Hwallet;
       discriminate Hachievement. }
  exists walletAddress. split; [reflexivity |].
  cbn [bind orThrow try_catch]. cbv zeta.
  destruct (negb (Js.truthy walletAddress) || negb (isValidEthereumAddress walletAddress));
    [reflexivity |].
  rewrite Hachievement, Htype.
  rewrite (catalog_identifier_truthy _ _ Hcatalog). cbn [negb].
  destruct (negb (bool_decide (is_Some (kind_of_name declared)))); [reflexivity |].
  destruct (negb (Js.truthy (Js.opt_prop request "submissionData"))); [reflexivity |].
  rewrite Hcatalog.
  destruct (String.eqb_spec declared (kind_name expectedType)) as [Heq | _];
    [contradiction | reflexivity].
Qed.

End Mismatch.

(** C5, as stated, fails: the kind check is the sixth check of the handler.
    A request that declares a quiz for the secret achievement ['1001'] from a
    malformed wallet address is rejected for its wallet address, not for its
    kind. *)
Lemma mismatch_from_bad_wallet_reports_wallet :
  ~ answersKindMismatch Samples.bindings Samples.mismatchedFromBadWallet.
Proof.
  intros Hclaim.
  specialize (Hclaim "1001" "quiz" Secret eq_refl eq_refl eq_refl).
  assert (Hdiffers : "quiz" <> kind_name Secret) by discriminate.
  specialize (Hclaim Hdiffers validateSubmission).
  vm_compute in Hclaim. discriminate Hclaim.
Qed.

(** C5, amended: a request whose declared kind differs from the kind the
    catalog configures for its achievement is rejected with status 400 before
    any validator is invoked and before the payload is interpreted: the
    handler is a returned rejection, the same for every validator, with no
    event at all.  The rejection is the kind-mismatch error whenever the
    request passes the checks the handler makes first (a valid wallet
    address, a declared kind among the five, a payload that is present);
    otherwise it is the error of the first of those checks that fails:
    [Invalid wallet address] for a wallet address that is absent or not
    valid; else the list of the five kinds for a declared kind that is not
    one of them; else [Submission data is required] for an absent
    payload. *)
Theorem kind_mismatch_rejected_before_validation `{JsRuntime} `{EthersLib}
    (validate : ValidationContext.t -> option Bindings -> Prog ValidationResult.t)
    (env : Bindings) (request : jsval)
    (achievementNumber declared : string) (expectedType : SubmissionKind) :
  Js.opt_prop request "achievementNumber" = JStr achievementNumber ->
  ACHIEVEMENT_TYPES !! achievementNumber = Some expectedType ->
  Js.opt_prop request "submissionType" = JStr declared ->
  declared <> kind_name expectedType ->
  (exists message,
      submit validate env (Some request) = Ret (VoucherResponse.rejection 400 message)
      /\ forall o w, run o (submit validate env (Some request)) w
                     = (w, inr (VoucherResponse.rejection 400 message)))
  /\ (forall walletAddress,
        Js.prop request "walletAddress" = Some walletAddress ->
        Js.truthy walletAddress = true ->
        isValidEthereumAddress walletAddress = true ->
        is_Some (kind_of_name declared) ->
        Js.truthy (Js.opt_prop request "submissionData") = true ->
        submit validate env (Some request)
        = Ret (VoucherResponse.rejection 400
                 (kindMismatchError achievementNumber expectedType)))
  /\ (exists walletAddress,
        Js.prop request "walletAddress" = Some walletAddress
        /\ (Js.truthy walletAddress = false
            \/ isValidEthereumAddress walletAddress = false ->
            submit validate env (Some request)
            = Ret (VoucherResponse.rejection 400 "Invalid wallet address"))
        /\ (Js.truthy walletAddress = true ->
            isValidEthereumAddress walletAddress = true ->
            kind_of_name declared = None ->
            submit validate env (Some request)
            = Ret (VoucherResponse.rejection 400
                     "Invalid submission type. Must be one of: quiz, transaction, contract, custom, secret"))
        /\ (Js.truthy walletAddress = true ->
            isValidEthereumAddress walletAddress = true ->
            is_Some (kind_of_name declared) ->
            Js.truthy (Js.opt_prop request "submissionData") = false ->
            submit validate env (Some request)
            = Ret (VoucherResponse.rejection 400 "Submission data is required"))).
Proof.
  intros Hachievement Hcatalog Htype Hdiffers. split; [| split].
  - destruct (mismatch_rejected validate env request achievementNumber declared
                expectedType Hachievement Hcatalog Htype Hdiffers) as [message Hrejected].
    exists message. split; [exact Hrejected |].
    intros o w. rewrite Hrejected. reflexivity.
  - intros walletAddress Hwallet Htruthy Hvalid Hkind Hpresent.
    exact (mismatch_reported validate env request walletAddress achievementNumber
             declared expectedType Hachievement Hcatalog Htype Hdiffers
             Hwallet Htruthy Hvalid Hkind Hpresent).
  - destruct (mismatch_first_failure validate env request achievementNumber declared
                expectedType Hachievement Hcatalog Htype Hdiffers)
      as (walletAddress & Hwallet & Hanswer).
    exists walletAddress. split; [exact Hwallet |]. rewrite Hanswer.
    split; [| split].
    + intros [-> | ->]; [reflexivity |]. now rewrite orb_true_r.
    + intros -> -> ->. reflexivity.
    + intros -> -> Hkind ->. now rewrite (bool_decide_eq_true_2 _ Hkind).
Qed.

Lemma kind_mismatch_rejected_before_validation_witness :
  Js.opt_prop Samples.mismatchedRequest "submissionType" = JStr "quiz"
  /\ ACHIEVEMENT_TYPES !! "1001" = Some Secret
  /\ submitHandler Samples.bindings (Some Samples.mismatchedRequest)
     = Ret (VoucherResponse.rejection 400
              "Invalid submission type for achievement 1001. Expected: secret").
Proof.
  split; [reflexivity |]. split; [reflexivity |].
  assert (Hdiffers : "quiz" <> kind_name Secret) by discriminate.
  refine (proj1 (proj2 (kind_mismatch_rejected_before_validation validateSubmission
                          Samples.bindings Samples.mismatchedRequest "1001" "quiz" Secret
                          eq_refl eq_refl eq_refl Hdiffers))
            (JStr Samples.wallet) eq_refl eq_refl eq_refl _ eq_refl).
  exists Quiz. reflexivity.
Defined.

Lemma validateSubmission_keeps `{JsRuntime} `{EthersLib}
    (context : ValidationContext.t) (env : option Bindings) :
  Covers keepsCompletions (fun _ => True) (validateSubmission context env).
Proof.
  apply (Covers_mono _ terminalWhenPassed); [auto |].
  apply validateSubmission_covers.
Qed.


(** ** Overlapping requests *)


Section Overlap.
Context `{JsRuntime} `{EthersLib}.



End Overlap.


(** The course of the two requests, run: both are answered with status 200
    and a voucher, and the table holds two passed rows of the one wallet
    and achievement, each with a signature. *)
Example race_answers_both_with_a_voucher :
  let after := overlapped (Samples.oracle 0) Cases.race [] Samples.secretWorld in
  map TrainingCompletion.passed (training_completions after.1) = [true; true]
  /\ map TrainingCompletion.achievement_number (training_completions after.1)
     = ["1001"; "1001"]
  /\ map TrainingCompletion.voucher_signature (training_completions after.1)
     = [Some "0xsignature"; Some "0xsignature"]
  /\ map (fun p => match p with
                   | Ret response =>
                       Some (VoucherResponse.status response,
                             VoucherResponse.success response)
                   | _ => None
                   end) after.2
     = [Some (200%Z, true); Some (200%Z, true)].
Proof. vm_compute. repeat split. Qed.



(** The two requests of the witness, run: the first passes and stores one
    row with a voucher signature; the second is answered with the conflict
    and stores nothing. *)
Example second_submission_conflicts :
  let w1 := (run (Samples.oracle 0)
               (submitHandler Samples.bindings
                  (Some (Samples.secretRequest " FIRSTSECRET "))) Samples.secretWorld).1 in
  map TrainingCompletion.passed (training_completions w1) = [true]
  /\ map TrainingCompletion.voucher_signature (training_completions w1)
     = [Some "0xsignature"]
  /\ exists w2,
       run (Samples.oracle 0)
         (submitHandler Samples.bindings (Some (Samples.secretRequest "FIRSTSECRET")))
         w1 = (w2, inr conflictResponse)
       /\ training_completions w2 = training_completions w1.
Proof.
  vm_compute. split; [reflexivity |]. split; [reflexivity |].
  eexists. split; reflexivity.
Qed.

(** A wrong secret fails and may be retried; the attempt is stored with
    [passed = false]. *)
Example wrong_case_secret_fails :
  let outcome := run (Samples.oracle 0)
                   (submitHandler Samples.bindings
                      (Some (Samples.secretRequest "firstsecret"))) Samples.secretWorld in
  map TrainingCompletion.passed (training_completions outcome.1) = [false]
  /\ exists response results,
       outcome.2 = inr response
       /\ VoucherResponse.success response = false
       /\ VoucherResponse.results response = Some results
       /\ ValidationResult.retryAllowed results = Some true.
Proof.
  vm_compute. split; [reflexivity |]. do 2 eexists. repeat split; reflexivity.
Qed.

(** The counting graders on repeated items: three copies of one correct item
    against two expected items earn one and a half times the points of the
    question. *)
Example repeated_items_counted_each_time :
  (gradeConceptMatching Samples.repeatedPairAnswer Samples.conceptQuestion 6 == 9)%Q
  /\ (gradeTrueFalseStatements Samples.repeatedStatementAnswer
        Samples.statementsQuestion 6 == 9)%Q.
Proof. split; reflexivity. Qed.

(** ** Task codes and achievement numbers *)

Lemma digit_value_digit_char (d : Z) :
  0 <= d < 10 ->
  JsString.digit_value 10 (JsString.digit_char d) = Some d
  /\ JsString.is_digit (JsString.digit_char d) = true.
Proof.
  intros Hd.
  assert (d = 0 \/ d = 1 \/ d = 2 \/ d = 3 \/ d = 4 \/ d = 5 \/ d = 6 \/ d = 7
          \/ d = 8 \/ d = 9) as Hcases by lia.
  repeat (destruct Hcases as [-> | Hcases]; [split; reflexivity |]).
  subst d. split; reflexivity.
Qed.

Lemma parse_digits_step (acc : option Z) (d : Z) (rest : string) :
  0 <= d < 10 ->
  JsString.parse_digits 10 acc (String (JsString.digit_char d) rest)
  = JsString.parse_digits 10 (Some (default 0 acc * 10 + d)) rest.
Proof.
  intros Hd. cbn [JsString.parse_digits].
  now rewrite (proj1 (digit_value_digit_char d Hd)).
Qed.

Lemma parse_digits_digits_of_pos (fuel : nat) :
  forall (n : Z) (acc : option Z) (rest : string),
    0 <= n < 2 ^ Z.of_nat (S fuel) ->
    exists k : Z,
      0 <= k
      /\ JsString.parse_digits 10 acc (JsString.digits_of_pos (S fuel) n rest)
         = JsString.parse_digits 10 (Some (default 0 acc * 10 ^ k + n)) rest.
Proof.
  induction fuel as [| fuel IH]; intros n acc rest Hn.
  - cbn [JsString.digits_of_pos].
    assert (n / 10 = 0) as Hq by (apply Z.div_small; change (2 ^ Z.of_nat 1) with 2 in Hn; lia).
    rewrite Hq. cbn [Z.eqb]. exists 1. split; [lia |].
    rewrite parse_digits_step by (apply Z.mod_pos_bound; lia).
    rewrite Z.mod_small by (change (2 ^ Z.of_nat 1) with 2 in Hn; lia).
    now rewrite Z.pow_1_r.
  - change (JsString.digits_of_pos (S (S fuel)) n rest)
      with (if n / 10 =? 0
            then String (JsString.digit_char (n mod 10)) rest
            else JsString.digits_of_pos (S fuel) (n / 10)
                   (String (JsString.digit_char (n mod 10)) rest)).
    destruct (Z.eqb_spec (n / 10) 0) as [Hq | Hq].
    + exists 1. split; [lia |].
      rewrite parse_digits_step by (apply Z.mod_pos_bound; lia).
      assert (n < 10) by (apply Z.div_small_iff in Hq; lia).
      rewrite Z.mod_small by lia. now rewrite Z.pow_1_r.
    + assert (0 <= n / 10 < 2 ^ Z.of_nat (S fuel)) as Hdiv.
      { split; [apply Z.div_pos; lia |].
        apply Z.div_lt_upper_bound; [lia |].
        replace (Z.of_nat (S (S fuel))) with (Z.succ (Z.of_nat (S fuel))) in Hn by lia.
        rewrite Z.pow_succ_r in Hn by lia. 
        assert (0 < 2 ^ Z.of_nat (S fuel)) by (apply Z.pow_pos_nonneg; lia). lia. }
      destruct (IH (n / 10) acc (String (JsString.digit_char (n mod 10)) rest) Hdiv)
        as (k & Hk & ->).
      exists (k + 1). split; [lia |].
      rewrite parse_digits_step by (apply Z.mod_pos_bound; lia).
      f_equal. f_equal. cbn [default]. rewrite Z.pow_add_r, Z.pow_1_r by lia.
      unfold id. pose proof (Z.div_mod n 10 ltac:(lia)). lia.
Qed.

Lemma digits_of_pos_head (fuel : nat) :
  forall (n : Z) (rest : string),
    0 <= n ->
    exists c r,
      JsString.digits_of_pos (S fuel) n rest = String c r
      /\ JsString.is_digit c = true.
Proof.
  induction fuel as [| fuel IH]; intros n rest Hn.
  - cbn [JsString.digits_of_pos]. 
    destruct (n / 10 =? 0); eexists _, _; (split; [reflexivity |]);
      apply digit_value_digit_char, Z.mod_pos_bound; lia.
  - change (JsString.digits_of_pos (S (S fuel)) n rest)
      with (if n / 10 =? 0
            then String (JsString.digit_char (n mod 10)) rest
            else JsString.digits_of_pos (S fuel) (n / 10)
                   (String (JsString.digit_char (n mod 10)) rest)).
    destruct (n / 10 =? 0).
    + eexists _, _. split; [reflexivity |].
      apply digit_value_digit_char, Z.mod_pos_bound; lia.
    + apply IH, Z.div_pos; lia.
Qed.

(** Reading a decimal numeral that starts with a digit. *)
Lemma parseInt_numeral (c : ascii) (r : string) :
  JsString.is_digit c = true ->
  JsString.parseInt (String c r) 10
  = JsString.parse_digits 10 (Some 0) (String c r).
Proof.
  intros Hc. unfold JsString.parseInt.
  assert (JsString.is_space c = false) as Hspace.
  { unfold JsString.is_digit, JsString.is_space in *.
    apply andb_true_iff in Hc as [H1 H2]. apply Z.leb_le in H1, H2.
    apply orb_false_iff. split.
    - apply andb_false_iff. right. apply Z.leb_gt. lia.
    - apply Z.eqb_neq. lia. }
  cbn [JsString.trimStart]. rewrite Hspace.
  assert (forall o : option Z, Z.mul 1 <$> o = o) as Hone.
  { intros [v |]; [| reflexivity]. cbn. f_equal. lia. }
  destruct c as [[] [] [] [] [] [] [] []]; try discriminate Hc;
    (etransitivity; [| apply Hone]); reflexivity.
Qed.

Lemma parse_digits_zeros (m : nat) (a : Z) (s : string) :
  JsString.parse_digits 10 (Some 0) (JsString.repeat_char "0" m ++ s)
  = JsString.parse_digits 10 (Some 0) s.
Proof.
  induction m as [| m IH]; [reflexivity |].
  cbn [JsString.repeat_char]. 
  change (String "0" (JsString.repeat_char "0" m) ++ s)
    with (String "0" (JsString.repeat_char "0" m ++ s)).
  cbn [JsString.parse_digits]. exact IH.
Qed.

Lemma Z_toString_parse (n : Z) :
  0 <= n ->
  (exists c r, JsString.Z_toString n = String c r /\ JsString.is_digit c = true)
  /\ JsString.parse_digits 10 (Some 0) (JsString.Z_toString n) = Some n.
Proof.
  intros Hn. unfold JsString.Z_toString.
  destruct (Z.ltb_spec n 0) as [? | _]; [lia |].
  split; [now apply digits_of_pos_head |].
  assert (0 <= n < 2 ^ Z.of_nat (S (Z.to_nat (Z.log2 n)))) as Hbound.
  { split; [lia |].
    replace (Z.of_nat (S (Z.to_nat (Z.log2 n)))) with (Z.succ (Z.log2 n))
      by (pose proof (Z.log2_nonneg n); lia).
    destruct (Z.eq_dec n 0) as [-> | Hpos]; [reflexivity |].
    apply Z.log2_spec. lia. }
  destruct (parse_digits_digits_of_pos _ n (Some 0) EmptyString Hbound) as (k & _ & ->).
  cbn [JsString.parse_digits default]. f_equal; lia.
Qed.

(** Padding a numeral with zeros does not change what [parseInt] reads. *)
Lemma parseInt_padStart (n : Z) (padding : nat) :
  0 <= n ->
  JsString.parseInt (JsString.padStart padding "0" (JsString.Z_toString n)) 10 = Some n.
Proof.
  intros Hn. destruct (Z_toString_parse n Hn) as ((c & r & Hshape & Hc) & Hparse).
  unfold JsString.padStart.
  destruct (padding - String.length (JsString.Z_toString n))%nat as [| m] eqn:Hpad.
  - cbn [JsString.repeat_char]. change (EmptyString ++ ?s) with s.
    rewrite Hshape, parseInt_numeral by exact Hc. now rewrite <- Hshape.
  - cbn [JsString.repeat_char].
    change (String "0" (JsString.repeat_char "0" m) ++ ?s)
      with (String "0" (JsString.repeat_char "0" m ++ s)).
    rewrite parseInt_numeral by reflexivity.
    change (String "0" (JsString.repeat_char "0" m ++ ?s))
      with (JsString.repeat_char "0" (S m) ++ s).
    now rewrite parse_digits_zeros.
Qed.

(** X1: token id, achievement number, token id.  For every task code that a
    JavaScript number holds exactly and is not negative,
    [taskCodeToAchievementNumber] followed by [achievementNumberToTaskCode]
    returns the task code, whatever the padding; the same holds for
    [ContractReader.formatAchievementNumber]. *)
Theorem task_code_survives_formatting (taskCode : Z) (padding : nat) :
  0 <= taskCode <= MAX_SAFE_INTEGER ->
  achievementNumberToTaskCode (taskCodeToAchievementNumber (Some taskCode) padding)
  = Some taskCode
  /\ achievementNumberToTaskCode (formatAchievementNumber (Some taskCode) padding)
     = Some taskCode.
Proof.
  intros [Hn _].
  unfold achievementNumberToTaskCode, taskCodeToAchievementNumber,
    formatAchievementNumber, taskCode_toString.
  split; now apply parseInt_padStart.
Qed.

Lemma task_code_survives_formatting_witness :
  achievementNumberToTaskCode (taskCodeToAchievementNumber (Some 12345) 4) = Some 12345
  /\ achievementNumberToTaskCode (formatAchievementNumber (Some 12345) 4) = Some 12345.
Proof.
  apply (task_code_survives_formatting 12345 4). unfold MAX_SAFE_INTEGER. lia.
Defined.

(** ** Decoding the bytes of a reply *)

Lemma charOfPair_hexOfChar (c : ascii) (rest : string) :
  charOfPair (hexOfChar c) rest
  = if Ascii.eqb c (ascii_of_nat 0) then rest else String c rest.
Proof.
  destruct c as [[] [] [] [] [] [] [] []]; reflexivity.
Qed.

Lemma hexOfChar_shape (c : ascii) :
  exists a b, hexOfChar c = String a (String b EmptyString).
Proof. eexists _, _. reflexivity. Qed.

Lemma hexToString_pair (a b : ascii) (rest : string) :
  hexToString (String a (String b rest))
  = charOfPair (String a (String b EmptyString)) (hexToString rest).
Proof. reflexivity. Qed.

Lemma hexToString_zeros (k : nat) :
  hexToString (JsString.repeat_char "0" (2 * k)) = EmptyString.
Proof.
  induction k as [| k IH]; [reflexivity |].
  replace (2 * S k)%nat with (S (S (2 * k))) by lia.
  cbn [JsString.repeat_char]. rewrite hexToString_pair, IH. reflexivity.
Qed.

Lemma hexToString_toHex (s : string) (k : nat) :
  noNullBytes s = true ->
  hexToString (toHex s ++ JsString.repeat_char "0" (2 * k)) = s.
Proof.
  induction s as [| c s IH]; intros Hs.
  - cbn [toHex]. change (EmptyString ++ ?t) with t. apply hexToString_zeros.
  - cbn [noNullBytes JsString.forallb_string] in Hs.
    apply andb_true_iff in Hs as [Hc Hs].
    cbn [toHex]. unfold hexOfChar at 1.
    change (String ?a (String ?b EmptyString) ++ ?t ++ ?u)
      with (String a (String b (t ++ u))).
    change ((String ?a (String ?b EmptyString) ++ ?t) ++ ?u)
      with (String a (String b (t ++ u))).
    rewrite hexToString_pair.
    change (String (hexDigit (nat_of_ascii c / 16))
              (String (hexDigit (nat_of_ascii c mod 16)) EmptyString))
      with (hexOfChar c).
    rewrite charOfPair_hexOfChar, (IH Hs).
    apply negb_true_iff in Hc. now rewrite Hc.
Qed.

(** X2: [hexToString] inverts the hexadecimal text of a byte string.  For
    every string without null bytes, decoding its hexadecimal text returns
    the string, also when the text is followed by any number of zero bytes
    (the padding of an ABI word), which the decoder skips. *)
Theorem hexToString_decodes_hex (s : string) (paddingBytes : nat) :
  noNullBytes s = true ->
  hexToString (toHex s ++ JsString.repeat_char "0" (2 * paddingBytes)) = s.
Proof. apply hexToString_toHex. Qed.

Lemma hexToString_decodes_hex_witness :
  hexToString (toHex "Plunder" ++ JsString.repeat_char "0" (2 * 25)) = "Plunder".
Proof. apply (hexToString_decodes_hex "Plunder" 25). reflexivity. Defined.

Lemma append_cons (x : ascii) (a b : string) : String x a ++ b = String x (a ++ b).
Proof. reflexivity. Qed.

Lemma append_nil (b : string) : EmptyString ++ b = b.
Proof. reflexivity. Qed.

Lemma string_app_assoc (a b c : string) : (a ++ b) ++ c = a ++ (b ++ c).
Proof.
  induction a as [| x a IH]; [reflexivity |]. now rewrite !append_cons, IH.
Qed.

Lemma string_app_empty (a : string) : a ++ EmptyString = a.
Proof. induction a as [| x a IH]; [reflexivity |]. now rewrite append_cons, IH. Qed.

Lemma string_length_app (a b : string) :
  String.length (a ++ b) = (String.length a + String.length b)%nat.
Proof.
  induction a as [| x a IH]; [reflexivity |].
  rewrite append_cons. cbn [String.length]. now rewrite IH.
Qed.

Lemma substring_skip (a b : string) (n m : nat) :
  String.substring (String.length a + n) m (a ++ b) = String.substring n m b.
Proof.
  induction a as [| x a IH]; [reflexivity |].
  rewrite append_cons. cbn [String.length Nat.add String.substring]. exact IH.
Qed.

Lemma substring_prefix (a b : string) :
  String.substring 0 (String.length a) (a ++ b) = a.
Proof.
  induction a as [| x a IH]; [now destruct b |].
  rewrite append_cons. cbn [String.length String.substring]. now rewrite IH.
Qed.

Lemma drop_skip (a b : string) : JsString.drop (String.length a) (a ++ b) = b.
Proof.
  induction a as [| x a IH]; [reflexivity |].
  rewrite append_cons. cbn [String.length JsString.drop]. exact IH.
Qed.

Lemma toHex_length (s : string) : String.length (toHex s) = (2 * String.length s)%nat.
Proof.
  induction s as [| c s IH]; [reflexivity |].
  cbn [toHex]. unfold hexOfChar. rewrite !append_cons, append_nil.
  cbn [String.length]. lia.
Qed.

Lemma hexOfNat_length (fuel : nat) :
  forall n acc, String.length (hexOfNat fuel n acc) = (fuel + String.length acc)%nat.
Proof.
  induction fuel as [| fuel IH]; intros n acc; [reflexivity |].
  cbn [hexOfNat]. rewrite IH. cbn [String.length]. lia.
Qed.

Lemma abiWord_length (n : nat) : String.length (abiWord n) = 64%nat.
Proof. unfold abiWord. now rewrite hexOfNat_length. Qed.

Lemma abiWord_parse (n : nat) :
  (n <= 100)%nat -> JsString.parseInt (abiWord n) 16 = Some (Z.of_nat n).
Proof.
  intros Hn.
  assert (forallb
            (fun n => bool_decide (JsString.parseInt (abiWord n) 16 = Some (Z.of_nat n)))
            (seq 0 101) = true) as Hall by (vm_compute; reflexivity).
  rewrite forallb_forall in Hall.
  specialize (Hall n). rewrite bool_decide_eq_true in Hall.
  apply Hall. apply in_seq. lia.
Qed.

Lemma decodeTokenString_abiEncodeString (s : string) :
  noNullBytes s = true ->
  (1 <= String.length s <= 100)%nat ->
  decodeTokenString (JStr (abiEncodeString s)) = s.
Proof.
  intros Hs Hlen. unfold decodeTokenString, abiEncodeString.
  set (padding := JsString.repeat_char "0" (2 * ((32 - String.length s mod 32) mod 32))).
  change (JsString.slice_from 2 ("0x" ++ ?rest)) with rest.
  set (hex := abiWord 32 ++ abiWord (String.length s) ++ toHex s ++ padding).
  assert (128 <= String.length hex)%nat as Hhex.
  { subst hex. rewrite !string_length_app, !abiWord_length. lia. }
  apply Nat.leb_le in Hhex. rewrite Hhex.
  assert (JsString.slice 64 128 hex = abiWord (String.length s)) as ->.
  { unfold JsString.slice. subst hex.
    rewrite <- (abiWord_length 32) at 1.
    rewrite <- (Nat.add_0_r (String.length (abiWord 32))), substring_skip.
    change (128 - 64)%nat with 64%nat.
    rewrite <- (abiWord_length (String.length s)) at 1.
    apply substring_prefix. }
  rewrite abiWord_parse by lia.
  assert ((0 <? Z.of_nat (String.length s)) && (Z.of_nat (String.length s) <=? 100) = true)
    as ->.
  { apply andb_true_iff. split; [apply Z.ltb_lt | apply Z.leb_le]; lia. }
  rewrite Nat2Z.id.
  assert (JsString.slice 128 (128 + String.length s * 2) hex = toHex s) as ->.
  { unfold JsString.slice. subst hex.
    rewrite <- string_app_assoc.
    replace 128%nat with (String.length (abiWord 32 ++ abiWord (String.length s)) + 0)%nat
      at 1 by (rewrite string_length_app, !abiWord_length; lia).
    rewrite substring_skip.
    replace (128 + String.length s * 2 - 128)%nat with (String.length (toHex s))
      by (rewrite toHex_length; lia).
    apply substring_prefix. }
  rewrite <- (string_app_empty (toHex s)).
  exact (hexToString_toHex s 0 Hs).
Qed.

(** ** Bounds of the graders and of the quiz score *)

Section GraderBounds.
Context `{JsRuntime}.

Lemma timelinePositions_le (userSequence : jsval) (correctSequence : list string)
    (remaining i acc : nat) :
  (timelinePositions userSequence correctSequence remaining i acc <= acc + remaining)%nat.
Proof.
  revert i acc. induction remaining as [| n IH]; intros i acc; cbn [timelinePositions].
  - lia.
  - destruct (positionMatches userSequence correctSequence i).
    + specialize (IH (S i) (S acc)). lia.
    + specialize (IH (S i) acc). lia.
Qed.

Lemma sequenceBound_le (userSequence : jsval) (correctSequence : list string) :
  (sequenceBound userSequence correctSequence <= List.length correctSequence)%nat.
Proof.
  unfold sequenceBound, Js.min_with.
  destruct (ToNumber (Js.opt_prop userSequence "length")) as [q |];
    cbn [fmap option_fmap option_map Js.iterations]; [| lia].
  destruct (Qle_bool q (Js.of_nat (List.length correctSequence))) eqn:Hle.
  - apply Qle_bool_iff in Hle. apply Qceiling_resp_le in Hle.
    unfold Js.of_nat in Hle. rewrite Qceiling_Z in Hle. lia.
  - unfold Js.of_nat. rewrite Qceiling_Z. lia.
Qed.

Lemma share_within (a total : nat) (maxPoints : Q) :
  (a <= total)%nat -> (0 < total)%nat -> (0 <= maxPoints)%Q ->
  (0 <= Js.of_nat a / Js.of_nat total * maxPoints <= maxPoints)%Q.
Proof.
  intros Ha Htotal Hpoints. split; [now apply share_nonneg |].
  rewrite <- (Qmult_1_l maxPoints) at 2.
  apply Qmult_le_compat_r; [| exact Hpoints].
  assert (0 < Js.of_nat total)%Q as Hpos.
  { unfold Js.of_nat. change 0%Q with (inject_Z 0). rewrite <- Zlt_Qlt. lia. }
  apply Qle_shift_div_r; [exact Hpos |]. rewrite Qmult_1_l. now apply of_nat_le.
Qed.

Lemma positionalScore_within (userResponse : jsval)
    (correctAnswer : InteractiveElementCorrectAnswer) (maxPoints : Q) :
  (0 <= maxPoints)%Q ->
  (0 <= positionalScore userResponse correctAnswer maxPoints <= maxPoints)%Q.
Proof.
  intros Hpoints. unfold positionalScore.
  destruct (data_sequence (data correctAnswer)) as [correctSequence |];
    cbn [mbind option_bind default]; [| split; [apply Qle_refl | exact Hpoints]].
  destruct (Nat.eqb_spec (List.length correctSequence) 0) as [Hempty | Hne];
    cbn [default]; [split; [apply Qle_refl | exact Hpoints] |].
  apply share_within; [| lia | exact Hpoints].
  pose proof (timelinePositions_le
                (Js.or_else (Js.opt_prop userResponse "sequence") (JArr []))
                correctSequence
                (sequenceBound
                   (Js.or_else (Js.opt_prop userResponse "sequence") (JArr []))
                   correctSequence) 0 0).
  pose proof (sequenceBound_le
                (Js.or_else (Js.opt_prop userResponse "sequence") (JArr []))
                correctSequence).
  lia.
Qed.

(** An answer either opens as an envelope with the grader's tag, or the
    grader awards nothing. *)
Lemma gradeTimelineBuilder_cases (userAnswer : string)
    (correctAnswer : InteractiveElementCorrectAnswer) (maxPoints : Q) :
  gradeTimelineBuilder userAnswer correctAnswer maxPoints = 0%Q
  \/ exists userResponse,
       gradeTimelineBuilder userAnswer correctAnswer maxPoints
       = positionalScore userResponse correctAnswer maxPoints.
Proof.
  destruct (envelope userAnswer "timeline-builder") as [userResponse |] eqn:Henv.
  - right. exists userResponse. now apply gradeTimelineBuilder_envelope.
  - left. unfold envelope in Henv. unfold gradeTimelineBuilder.
    destruct (JSON_parse userAnswer) as [parsed |]; [| reflexivity].
    cbn [mbind option_bind] in *.
    destruct (Js.prop parsed "type") as [type |]; [| reflexivity].
    cbn [mbind option_bind] in *.
    destruct (Js.eq_string type "timeline-builder"); [| reflexivity].
    cbn [negb] in *. rewrite Henv. reflexivity.
Qed.

Lemma gradeDragDropPuzzle_cases (userAnswer : string)
    (correctAnswer : InteractiveElementCorrectAnswer) (maxPoints : Q) :
  gradeDragDropPuzzle userAnswer correctAnswer maxPoints = 0%Q
  \/ exists userResponse,
       gradeDragDropPuzzle userAnswer correctAnswer maxPoints
       = positionalScore userResponse correctAnswer maxPoints.
Proof.
  destruct (envelope userAnswer "drag-drop-puzzle") as [userResponse |] eqn:Henv.
  - right. exists userResponse. now apply gradeDragDropPuzzle_envelope.
  - left. unfold envelope in Henv. unfold gradeDragDropPuzzle.
    destruct (JSON_parse userAnswer) as [parsed |]; [| reflexivity].
    cbn [mbind option_bind] in *.
    destruct (Js.prop parsed "type") as [type |]; [| reflexivity].
    cbn [mbind option_bind] in *.
    destruct (Js.eq_string type "drag-drop-puzzle"); [| reflexivity].
    cbn [negb] in *. rewrite Henv. reflexivity.
Qed.

Lemma gradeWordJumble_cases (userAnswer : string)
    (correctAnswer : InteractiveElementCorrectAnswer) (maxPoints : Q) :
  gradeWordJumble userAnswer correctAnswer maxPoints = 0%Q
  \/ gradeWordJumble userAnswer correctAnswer maxPoints = maxPoints.
Proof.
  unfold gradeWordJumble.
  destruct (JSON_parse userAnswer) as [parsed |]; [| now left].
  cbn [mbind option_bind].
  destruct (Js.prop parsed "type") as [type |]; [| now left].
  cbn [mbind option_bind].
  destruct (Js.eq_string type "word-jumble"); [| now left].
  cbn [negb].
  destruct (Js.prop parsed "userResponse") as [userResponse |]; [| now left].
  cbn [mbind option_bind].
  destruct (if Js.is_nullish (Js.opt_prop userResponse "word")
            then Some JUndefined
            else JStr <$> Js.toUpperCase (Js.opt_prop userResponse "word"))
    as [upper |]; [| now left].
  cbn [mbind option_bind].
  destruct (data_word (data correctAnswer)) as [word |]; [| now left].
  cbn [fmap option_fmap option_map mbind option_bind default].
  destruct (Js.eq_string _ _); [now right | now left].
Qed.

Lemma countLoop_nonneg_credit (count : option nat) (total : nat) (maxPoints : Q) :
  (0 <= maxPoints)%Q ->
  (0 <= default 0%Q
          (correctCount ← count;
           Some (Js.of_nat correctCount / Js.of_nat total * maxPoints)%Q))%Q.
Proof.
  intros Hpoints. destruct count as [n |]; cbn [mbind option_bind default].
  - now apply share_nonneg.
  - apply Qle_refl.
Qed.

Lemma gradeConceptMatching_nonneg (userAnswer : string)
    (correctAnswer : InteractiveElementCorrectAnswer) (maxPoints : Q) :
  (0 <= maxPoints)%Q ->
  (0 <= gradeConceptMatching userAnswer correctAnswer maxPoints)%Q.
Proof.
  intros Hpoints. unfold gradeConceptMatching.
  destruct (JSON_parse userAnswer) as [parsed |]; [| apply Qle_refl].
  cbn [mbind option_bind].
  destruct (Js.prop parsed "type") as [type |]; [| apply Qle_refl].
  cbn [mbind option_bind].
  destruct (Js.eq_string type "concept-matching"); [| apply Qle_refl].
  cbn [negb].
  destruct (Js.prop parsed "userResponse") as [userResponse |]; [| apply Qle_refl].
  cbn [mbind option_bind].
  destruct (data_pairs (data correctAnswer)) as [correctPairs |]; [| apply Qle_refl].
  cbn [mbind option_bind].
  destruct (List.length correctPairs =? 0)%nat; [apply Qle_refl |].
  destruct (Js.iterate _) as [items |]; [| apply Qle_refl].
  cbn [mbind option_bind].
  now apply countLoop_nonneg_credit.
Qed.

Lemma gradeTrueFalseStatements_nonneg (userAnswer : string)
    (correctAnswer : InteractiveElementCorrectAnswer) (maxPoints : Q) :
  (0 <= maxPoints)%Q ->
  (0 <= gradeTrueFalseStatements userAnswer correctAnswer maxPoints)%Q.
Proof.
  intros Hpoints. unfold gradeTrueFalseStatements.
  destruct (JSON_parse userAnswer) as [parsed |]; [| apply Qle_refl].
  cbn [mbind option_bind].
  destruct (Js.prop parsed "type") as [type |]; [| apply Qle_refl].
  cbn [mbind option_bind].
  destruct (Js.eq_string type "true-false-statements"); [| apply Qle_refl].
  cbn [negb].
  destruct (Js.prop parsed "userResponse") as [userResponse |]; [| apply Qle_refl].
  cbn [mbind option_bind].
  destruct (data_classifications (data correctAnswer)) as [correct |]; [| apply Qle_refl].
  cbn [mbind option_bind].
  destruct (List.length correct =? 0)%nat; [apply Qle_refl |].
  destruct (Js.iterate _) as [items |]; [| apply Qle_refl].
  cbn [mbind option_bind].
  now apply countLoop_nonneg_credit.
Qed.

Lemma gradeInteractive_nonneg (submittedAnswer : string)
    (element : InteractiveElementCorrectAnswer) (maxPoints : Q) :
  (0 <= maxPoints)%Q ->
  (0 <= gradeInteractive submittedAnswer element maxPoints)%Q.
Proof.
  intros Hpoints. unfold gradeInteractive.
  destruct (element_type element).
  - destruct (gradeWordJumble_cases submittedAnswer element maxPoints) as [-> | ->];
      [apply Qle_refl | exact Hpoints].
  - now apply gradeConceptMatching_nonneg.
  - destruct (gradeTimelineBuilder_cases submittedAnswer element maxPoints)
      as [-> | [userResponse ->]]; [apply Qle_refl |].
    now apply positionalScore_within.
  - now apply gradeTrueFalseStatements_nonneg.
  - destruct (gradeDragDropPuzzle_cases submittedAnswer element maxPoints)
      as [-> | [userResponse ->]]; [apply Qle_refl |].
    now apply positionalScore_within.
Qed.

Lemma gradeInteractive_le (submittedAnswer : string)
    (element : InteractiveElementCorrectAnswer) (maxPoints : Q) :
  (0 <= maxPoints)%Q ->
  countsItems (element_type element) = false ->
  (gradeInteractive submittedAnswer element maxPoints <= maxPoints)%Q.
Proof.
  intros Hpoints Htype. unfold gradeInteractive.
  destruct (element_type element); try discriminate Htype.
  - destruct (gradeWordJumble_cases submittedAnswer element maxPoints) as [-> | ->];
      [exact Hpoints | apply Qle_refl].
  - destruct (gradeTimelineBuilder_cases submittedAnswer element maxPoints)
      as [-> | [userResponse ->]]; [exact Hpoints |].
    now apply positionalScore_within.
  - destruct (gradeDragDropPuzzle_cases submittedAnswer element maxPoints)
      as [-> | [userResponse ->]]; [exact Hpoints |].
    now apply positionalScore_within.
Qed.

(** What the loop adds for one question. *)
Lemma awardedPoints_cases (submissionData : jsval) (q : QuizQuestion) :
  awardedPoints submissionData q = 0%Q
  \/ awardedPoints submissionData q = points q
  \/ exists s element,
       correctAnswer q = Interactive element
       /\ awardedPoints submissionData q = gradeInteractive s element (points q).
Proof.
  unfold awardedPoints.
  destruct (Js.prop submissionData "answers") as [answers |]; [| now left].
  cbn [mbind option_bind].
  destruct (Js.prop answers (question_id q)) as [submittedAnswer |]; [| now left].
  cbn [mbind option_bind].
  destruct (Js.truthy submittedAnswer); cbn [negb]; [| now left].
  unfold scoreAnswer.
  destruct (isInteractiveAnswer submittedAnswer).
  - destruct submittedAnswer as [| | b | n | s | l | fs];
      try (left; destruct (correctAnswer q); reflexivity).
    destruct (correctAnswer q) as [expected | element] eqn:Hq; [now left |].
    right. right. exists s, element. split; reflexivity.
  - destruct (correctAnswer q) as [expected | element]; [| now left].
    destruct (Js.toUpperCase submittedAnswer) as [upper |]; [| now left].
    cbn [mbind option_bind].
    destruct (String.eqb upper (JsString.toUpperCase expected)); [right | left];
      [left |]; reflexivity.
Qed.

Lemma awardedPoints_nonneg (submissionData : jsval) (q : QuizQuestion) :
  (0 <= points q)%Q -> (0 <= awardedPoints submissionData q)%Q.
Proof.
  intros Hpoints.
  destruct (awardedPoints_cases submissionData q)
    as [-> | [-> | (s & element & _ & ->)]];
    [apply Qle_refl | exact Hpoints | now apply gradeInteractive_nonneg].
Qed.

Lemma awardedPoints_le (submissionData : jsval) (q : QuizQuestion) :
  (0 <= points q)%Q ->
  (forall element, correctAnswer q = Interactive element ->
                   countsItems (element_type element) = false) ->
  (awardedPoints submissionData q <= points q)%Q.
Proof.
  intros Hpoints Htype.
  destruct (awardedPoints_cases submissionData q)
    as [-> | [-> | (s & element & Hq & ->)]];
    [exact Hpoints | apply Qle_refl |].
  apply gradeInteractive_le; [exact Hpoints | now apply Htype].
Qed.

Lemma sumQ_awarded_nonneg (submissionData : jsval) (qs : list QuizQuestion) :
  nonNegativePoints qs ->
  (0 <= sumQ (map (awardedPoints submissionData) qs))%Q.
Proof.
  induction qs as [| q rest IH]; intros Hpoints; cbn [map sumQ fold_right].
  - apply Qle_refl.
  - assert (0 <= awardedPoints submissionData q)%Q
      by (apply awardedPoints_nonneg, Hpoints; left).
    assert (0 <= sumQ (map (awardedPoints submissionData) rest))%Q
      by (apply IH; intros q' Hin; apply Hpoints; now right).
    unfold sumQ in *. lra.
Qed.

Lemma sumQ_awarded_le (submissionData : jsval) (qs : list QuizQuestion) :
  nonNegativePoints qs -> positionalBank qs ->
  (sumQ (map (awardedPoints submissionData) qs) <= sumQ (map points qs))%Q.
Proof.
  induction qs as [| q rest IH]; intros Hpoints Hbank; cbn [map sumQ fold_right].
  - apply Qle_refl.
  - assert (awardedPoints submissionData q <= points q)%Q.
    { apply awardedPoints_le; [apply Hpoints; left |].
      intros element Hq. apply (Hbank q element); [left | exact Hq]. }
    assert (sumQ (map (awardedPoints submissionData) rest) <= sumQ (map points rest))%Q.
    { apply IH; [intros q' Hin; apply Hpoints; now right |].
      intros q' element Hin. apply Hbank. now right. }
    unfold sumQ in *. lra.
Qed.

End GraderBounds.

Section QuizBounds.
Context `{JsRuntime}.

Lemma quizLoop_correct_count (submissionData : jsval) (qs : list QuizQuestion)
    (correctCount correctCount' : nat) (totalScore totalScore' : Q) :
  quizLoop submissionData qs correctCount totalScore = Some (correctCount', totalScore') ->
  (correctCount <= correctCount' <= correctCount + List.length qs)%nat.
Proof.
  revert correctCount totalScore.
  induction qs as [| q rest IH]; intros correctCount totalScore Hloop;
    cbn [quizLoop List.length] in *.
  - injection Hloop as <- _. lia.
  - destruct (Js.prop submissionData "answers") as [answers |]; [| discriminate].
    cbn [mbind option_bind] in Hloop.
    destruct (Js.prop answers (question_id q)) as [submittedAnswer |]; [| discriminate].
    cbn [mbind option_bind] in Hloop.
    destruct (Js.truthy submittedAnswer); cbn [negb] in Hloop.
    + destruct (scoreAnswer submittedAnswer q) as [[questionScore correct] |];
        [| discriminate].
      cbn [mbind option_bind] in Hloop. apply IH in Hloop. destruct correct; lia.
    + apply IH in Hloop. lia.
Qed.

Lemma gradeQuiz_inv (quizData : QuizData) (submissionData : jsval)
    (context : ValidationContext.t) (r : ValidationResult.t) :
  gradeQuiz quizData submissionData context = Some r ->
  exists correctCount totalScore,
    quizLoop submissionData (questions quizData) 0 0 = Some (correctCount, totalScore)
    /\ r = quizResult quizData context correctCount totalScore.
Proof.
  unfold gradeQuiz. intros Hgrade.
  destruct (quizLoop submissionData (questions quizData) 0 0)
    as [[correctCount totalScore] |]; [| discriminate].
  cbn [mbind option_bind] in Hgrade. injection Hgrade as <-. eauto.
Qed.

Lemma quizLoop_all_right (submissionData answers : jsval) (qs : list QuizQuestion)
    (correctCount : nat) (totalScore : Q) :
  Js.prop submissionData "answers" = Some answers ->
  (forall q, q ∈ qs ->
     exists submitted expected,
       Js.prop answers (question_id q) = Some (JStr submitted)
       /\ correctAnswer q = Traditional expected
       /\ submitted <> EmptyString
       /\ asciiText submitted = true
       /\ JsString.toUpperCase submitted = JsString.toUpperCase expected
       /\ (JsString.startsWith (JsString.trim submitted) "{"
           && JsString.endsWith (JsString.trim submitted) "}") = false) ->
  exists totalScore',
    quizLoop submissionData qs correctCount totalScore
    = Some ((correctCount + List.length qs)%nat, totalScore')
    /\ (totalScore' == totalScore + sumQ (map points qs))%Q.
Proof.
  intros Hanswers. revert correctCount totalScore.
  induction qs as [| q rest IH]; intros correctCount totalScore Heach;
    cbn [quizLoop List.length map].
  - exists totalScore. split; [f_equal; f_equal; lia |]. unfold sumQ. cbn. lra.
  - rewrite Hanswers. cbn [mbind option_bind].
    destruct (Heach q) as (submitted & expected & Hq & Hexpected & Hne & _ & Hcase & Hplain);
      [left |].
    rewrite Hq. cbn [mbind option_bind].
    assert (Js.truthy (JStr submitted) = true) as Htruthy.
    { cbn [Js.truthy]. now destruct (String.eqb_spec submitted EmptyString). }
    rewrite Htruthy. cbn [negb].
    assert (scoreAnswer (JStr submitted) q = Some (points q, true)) as ->.
    { unfold scoreAnswer, isInteractiveAnswer. rewrite Htruthy. cbn [negb].
      rewrite Hplain, Hexpected. cbn [Js.toUpperCase mbind option_bind].
      rewrite Hcase, String.eqb_refl. reflexivity. }
    cbn [mbind option_bind].
    destruct (IH (S correctCount) (totalScore + points q)%Q) as (total & -> & Htotal).
    { intros q' Hin. apply Heach. now right. }
    exists total. split; [f_equal; f_equal; lia |].
    rewrite Htotal. unfold sumQ. cbn [fold_right]. lra.
Qed.

End QuizBounds.

(** X3: the reported score is never negative, and it stays within [maxScore]
    for a bank whose interactive questions are word jumbles, timelines and
    drag-and-drop puzzles.  For a bank whose questions are worth
    non-negative points, every result of the quiz validator reports
    [0 <= score]; when no question of the bank is graded by counting
    submitted items (concept matching, true/false statements),
    [score <= maxScore] as well, whatever the submission. *)
Theorem quiz_score_bounded_without_counted_items `{JsRuntime}
    (o : Oracle) (w w' : World) (submissionData : jsval)
    (context : ValidationContext.t) (env : option Bindings) (quizData : QuizData)
    (r : ValidationResult.t) :
  run o (validateQuizSubmission submissionData context env) w = (w', inr r) ->
  QUIZ_DATA (globals w') !! ValidationContext.achievementNumber context = Some quizData ->
  nonNegativePoints (questions quizData) ->
  exists totalScore maxScore,
    ValidationResult.score r = Some totalScore
    /\ ValidationResult.maxScore r = Some maxScore
    /\ (0 <= totalScore)%Q
    /\ (positionalBank (questions quizData) -> (totalScore <= maxScore)%Q).
Proof.
  intros Hrun Hbank Hpoints.
  apply validateQuizSubmission_returns in Hrun. rewrite Hbank in Hrun.
  apply gradeQuiz_inv in Hrun as (correctCount & totalScore & Hloop & ->).
  exists totalScore, (quizMaxScore (questions quizData)).
  split; [reflexivity |]. split; [reflexivity |].
  apply quizLoop_total_score in Hloop.
  pose proof (sumQ_awarded_nonneg submissionData (questions quizData) Hpoints).
  split; [lra |].
  intros Hpositional.
  pose proof (sumQ_awarded_le submissionData (questions quizData) Hpoints Hpositional).
  pose proof (quizMaxScore_sum (questions quizData)). lra.
Qed.

Lemma quiz_score_bounded_without_counted_items_witness :
  exists w' r,
    run (Samples.oracle 0)
      (validateQuizSubmission Cases.timelineSubmission Samples.quizContext None)
      (Samples.quizWorld Cases.timelineBank) = (w', inr r)
    /\ exists totalScore maxScore,
         ValidationResult.score r = Some totalScore
         /\ ValidationResult.maxScore r = Some maxScore
         /\ (0 <= totalScore)%Q
         /\ (totalScore <= maxScore)%Q.
Proof.
  eexists. eexists. split; [reflexivity |].
  assert (nonNegativePoints (questions Cases.timelineBank)) as Hpoints.
  { intros q Hin. apply list_elem_of_In in Hin. simpl in Hin.
    destruct Hin as [<- | [<- | []]]; discriminate. }
  assert (positionalBank (questions Cases.timelineBank)) as Hbank.
  { intros q element Hin Hq. apply list_elem_of_In in Hin. simpl in Hin.
    destruct Hin as [<- | [<- | []]]; [discriminate Hq |].
    injection Hq as <-. reflexivity. }
  destruct (quiz_score_bounded_without_counted_items (Samples.oracle 0)
              (Samples.quizWorld Cases.timelineBank) _
              Cases.timelineSubmission Samples.quizContext None
              Cases.timelineBank _ eq_refl eq_refl Hpoints)
    as (totalScore & maxScore & Hscore & Hmax & Hlow & Hhigh).
  exists totalScore, maxScore. auto.
Defined.

(** X4: the number of correct answers never exceeds the number of questions,
    and the reported accuracy is a percentage.  This holds for every bank
    and every submission, also where the score itself exceeds [maxScore]:
    a question counts as correct at most once. *)
Theorem quiz_accuracy_is_a_percentage `{JsRuntime}
    (o : Oracle) (w w' : World) (submissionData : jsval)
    (context : ValidationContext.t) (env : option Bindings) (quizData : QuizData)
    (r : ValidationResult.t) :
  run o (validateQuizSubmission submissionData context env) w = (w', inr r) ->
  QUIZ_DATA (globals w') !! ValidationContext.achievementNumber context = Some quizData ->
  exists correctCount accuracy,
    ValidationResult.correctAnswers r = Some correctCount
    /\ ValidationResult.totalQuestions r = Some (List.length (questions quizData))
    /\ (correctCount <= List.length (questions quizData))%nat
    /\ ValidationResult.accuracy r = Some accuracy
    /\ (0 <= accuracy <= 100)%Q.
Proof.
  intros Hrun Hbank.
  apply validateQuizSubmission_returns in Hrun. rewrite Hbank in Hrun.
  apply gradeQuiz_inv in Hrun as (correctCount & totalScore & Hloop & ->).
  apply quizLoop_correct_count in Hloop.
  exists correctCount, (quizAccuracy (questions quizData) correctCount).
  split; [reflexivity |]. split; [reflexivity |]. split; [lia |].
  split; [reflexivity |].
  unfold quizAccuracy.
  destruct (Nat.ltb_spec 0 (List.length (questions quizData))) as [Hpos | Hzero].
  - apply share_within; [lia | exact Hpos | lra].
  - lra.
Qed.

Lemma quiz_accuracy_is_a_percentage_witness :
  exists w' r,
    run (Samples.oracle 0)
      (validateQuizSubmission (Samples.answersOf Samples.repeatedPairAnswer)
         Samples.quizContext None)
      (Samples.quizWorld Samples.conceptBank) = (w', inr r)
    /\ exists correctCount accuracy,
         ValidationResult.correctAnswers r = Some correctCount
         /\ ValidationResult.totalQuestions r = Some 1%nat
         /\ (correctCount <= 1)%nat
         /\ ValidationResult.accuracy r = Some accuracy
         /\ (0 <= accuracy <= 100)%Q.
Proof.
  eexists. eexists. split; [reflexivity |].
  exact (quiz_accuracy_is_a_percentage (Samples.oracle 0)
           (Samples.quizWorld Samples.conceptBank) _
           (Samples.answersOf Samples.repeatedPairAnswer)
           Samples.quizContext None Samples.conceptBank _ eq_refl eq_refl).
Defined.

(** X5: full marks.  A submission that gives the expected option of every
    question of a multiple-choice bank, in any mix of upper and lower case,
    is awarded [maxScore] and counts every question as correct; it passes
    whenever the bank carries points and its threshold is at most 100. *)
Theorem all_right_choices_earn_full_marks `{JsRuntime}
    (o : Oracle) (w w' : World) (submissionData : jsval)
    (context : ValidationContext.t) (env : option Bindings) (quizData : QuizData)
    (r : ValidationResult.t) :
  run o (validateQuizSubmission submissionData context env) w = (w', inr r) ->
  QUIZ_DATA (globals w') !! ValidationContext.achievementNumber context = Some quizData ->
  allChoicesRight submissionData (questions quizData) ->
  exists totalScore maxScore,
    ValidationResult.score r = Some totalScore
    /\ ValidationResult.maxScore r = Some maxScore
    /\ (totalScore == maxScore)%Q
    /\ ValidationResult.correctAnswers r = Some (List.length (questions quizData))
    /\ ((0 < maxScore)%Q -> (passingScore quizData <= 100)%Q ->
        ValidationResult.passed r = true).
Proof.
  intros Hrun Hbank (answers & Hanswers & Heach).
  apply validateQuizSubmission_returns in Hrun. rewrite Hbank in Hrun.
  apply gradeQuiz_inv in Hrun as (correctCount & totalScore & Hloop & ->).
  destruct (quizLoop_all_right submissionData answers (questions quizData) 0 0
              Hanswers Heach) as (total & Hall & Htotal).
  rewrite Hall in Hloop. injection Hloop as <- <-.
  pose proof (quizMaxScore_sum (questions quizData)) as Hmax.
  exists total, (quizMaxScore (questions quizData)).
  split; [reflexivity |]. split; [reflexivity |]. split; [lra |].
  split; [reflexivity |].
  intros Hpos Hthreshold. unfold quizResult, ValidationResult.passed.
  unfold scorePercentage.
  destruct (Qlt_le_dec 0 (quizMaxScore (questions quizData))) as [_ | Hle]; [| lra].
  assert (total / quizMaxScore (questions quizData) == 1)%Q as Hone.
  { assert (total == quizMaxScore (questions quizData))%Q as -> by lra.
    apply Qmult_inv_r. lra. }
  unfold js_divide.
  destruct (Qeq_bool (quizMaxScore (questions quizData)) 0) eqn:Hzero;
    [apply Qeq_bool_iff in Hzero; lra |].
  rewrite (round_Qeq _ _ Hone).
  change (js_times (Double.round 1) 100) with (Finite 100).
  apply Qle_bool_iff. exact Hthreshold.
Qed.

Lemma all_right_choices_earn_full_marks_witness :
  exists w' r,
    run (Samples.oracle 0)
      (validateQuizSubmission Cases.choiceSubmission Samples.quizContext None)
      (Samples.quizWorld Cases.choiceBank) = (w', inr r)
    /\ exists totalScore maxScore,
         ValidationResult.score r = Some totalScore
         /\ ValidationResult.maxScore r = Some maxScore
         /\ (totalScore == maxScore)%Q
         /\ ValidationResult.correctAnswers r = Some 3%nat
         /\ ValidationResult.passed r = true.
Proof.
  eexists. eexists. split; [reflexivity |].
  assert (allChoicesRight Cases.choiceSubmission (questions Cases.choiceBank)) as Hright.
  { eexists. split; [reflexivity |].
    intros q Hin. apply list_elem_of_In in Hin. simpl in Hin.
    destruct Hin as [<- | [<- | [<- | []]]];
      exists "b", "B"; (split; [reflexivity |]); (split; [reflexivity |]);
      (split; [discriminate |]); (split; [reflexivity |]); split; reflexivity. }
  destruct (all_right_choices_earn_full_marks (Samples.oracle 0)
              (Samples.quizWorld Cases.choiceBank) _
              Cases.choiceSubmission Samples.quizContext None
              Cases.choiceBank _ eq_refl eq_refl Hright)
    as (totalScore & maxScore & Hscore & Hmax & Heq & Hcount & Hpass).
  exists totalScore, maxScore.
  split; [exact Hscore |]. split; [exact Hmax |]. split; [exact Heq |].
  split; [exact Hcount |].
  injection Hmax as <-. apply Hpass; [reflexivity | discriminate].
Defined.

(** ** The secret validator *)

(** X6: the secret validator passes exactly the trimmed match.  For an
    achievement other than the launch achievement, a result of the validator
    has [passed = true] if and only if the submitted [secretAnswer] is a
    string that, with surrounding white space removed, is character for
    character the secret configured for the achievement (upper and lower
    case are distinguished); and on a configured secret a result that did
    not pass may be retried. *)
Theorem secret_passes_exactly_on_trimmed_match
    (o : Oracle) (w w' : World) (submissionData : jsval)
    (context : ValidationContext.t) (env : option Bindings) (r : ValidationResult.t) :
  ValidationContext.achievementNumber context <> launchAchievement ->
  (forall s, Js.prop submissionData "secretAnswer" = Some (JStr s) -> asciiText s = true) ->
  run o (validateSecretSubmission submissionData context env) w = (w', inr r) ->
  (ValidationResult.passed r = true
   <-> exists s expected,
         Js.prop submissionData "secretAnswer" = Some (JStr s)
         /\ configured (SECRET_ANSWERS (globals w')
                        !! ValidationContext.achievementNumber context) = Some expected
         /\ JsString.trim s = expected)
  /\ (is_Some (configured (SECRET_ANSWERS (globals w')
                           !! ValidationContext.achievementNumber context)) ->
      ValidationResult.passed r = false ->
      ValidationResult.retryAllowed r = Some true).
Proof.
  intros Hother _.
  unfold validateSecretSubmission, mbind, Prog_bind. rewrite run_bind.
  destruct (run o (whenEnv env loadSecretAnswers) w) as [w1 [e | []]];
    [discriminate |].
  cbn [run bind trigger handle fst snd].
  destruct (configured (SECRET_ANSWERS (globals w1)
                        !! ValidationContext.achievementNumber context))
    as [expectedAnswer |] eqn:Hexpected.
  - destruct (String.eqb_spec (ValidationContext.achievementNumber context)
                launchAchievement) as [Hlaunch | _]; [contradiction |].
    cbn [bind run].
    destruct (Js.prop submissionData "secretAnswer") as [secretAnswer |] eqn:Hsecret;
      cbn [orThrow bind run]; [| discriminate].
    destruct secretAnswer as [| | b | n | s | l | fs];
      try (intros [= <- <-]; cbn [globals advance]; rewrite Hexpected;
           split; [split; [discriminate | intros (s & x & [=] & _)] | reflexivity]).
    destruct (negb (Js.truthy (JStr s))) eqn:Hempty; cbn [run];
      intros [= <- <-]; cbn [globals advance]; rewrite Hexpected.
    + split; [split; [discriminate |] | reflexivity].
      intros (s' & x & [= <-] & [= <-] & Htrim).
      cbn [Js.truthy] in Hempty. apply negb_true_iff, negb_false_iff in Hempty.
      apply String.eqb_eq in Hempty. subst s.
      unfold configured in Hexpected.
      destruct (SECRET_ANSWERS (globals w1) !! _) as [secret |]; [| discriminate].
      destruct (String.eqb secret EmptyString) eqn:Hne; [discriminate |].
      apply String.eqb_neq in Hne. injection Hexpected as <-.
      exfalso. apply Hne. symmetry. exact Htrim.
    + cbn [ValidationResult.verdict ValidationResult.passed
             ValidationResult.retryAllowed].
      split; [split |].
      * intros Hpass. apply String.eqb_eq in Hpass. eauto.
      * intros (s' & x & [= <-] & [= <-] & Htrim). now apply String.eqb_eq.
      * intros _ ->. reflexivity.
  - cbn [run]. intros [= <- <-]. cbn [globals advance]. rewrite Hexpected.
    split; [split; [discriminate | intros (s & x & _ & [=] & _)] |].
    intros [x [=]].
Qed.

Lemma secret_passes_exactly_on_trimmed_match_witness :
  exists w' r,
    run (Samples.oracle 0)
      (validateSecretSubmission (JObj [("secretAnswer", JStr "  FIRSTSECRET ")])
         (Samples.context "1001" "secret" (JObj [])) None)
      Samples.secretWorld = (w', inr r)
    /\ ValidationResult.passed r = true.
Proof.
  eexists. eexists. split; [reflexivity |].
  apply (proj1 (secret_passes_exactly_on_trimmed_match (Samples.oracle 0)
                  Samples.secretWorld _
                  (JObj [("secretAnswer", JStr "  FIRSTSECRET ")])
                  (Samples.context "1001" "secret" (JObj [])) None _
                  ltac:(discriminate)
                  ltac:(intros s [= <-]; reflexivity)
                  eq_refl)).
  exists "  FIRSTSECRET ", "FIRSTSECRET". repeat split; reflexivity.
Defined.

(** ** The loaders and their cache *)

Lemma eventsOf_bind {A B : Type} (o : Oracle) (p : Prog A) (f : A -> Prog B) (w : World) :
  eventsOf o (bind p f) w
  = (eventsOf o p w ++
     match run o p w with
     | (w1, inr a) => eventsOf o (f a) w1
     | (_, inl _) => []
     end)%list.
Proof.
  revert w. induction p as [a | e | X ev k IH]; intros w; cbn [bind eventsOf run].
  - reflexivity.
  - reflexivity.
  - destruct (handle o ev w) as [w' x]. cbn [app]. f_equal. apply IH.
Qed.

(** X7: a cache entry younger than an hour is served without a fetch.  When
    the cache of the question banks (of the secret answers) holds an entry
    and the clock shows less than [CACHE_DURATION] past its time stamp, the
    loader returns without any HTTP request, [QUIZ_DATA] ([SECRET_ANSWERS])
    is the cached payload, and the cache entry is kept. *)
Theorem fresh_cache_served_without_fetch (o : Oracle) (w : World) (env : Bindings) :
  (forall payload timestamp,
      quizDataCache (globals w) = Some (payload, timestamp) ->
      (forall n, clock o n - timestamp < CACHE_DURATION) ->
      exists w',
        run o (loadQuizData env) w = (w', inr tt)
        /\ QUIZ_DATA (globals w') = payload
        /\ quizDataCache (globals w') = Some (payload, timestamp)
        /\ forallb (fun e => negb (isFetch e)) (eventsOf o (loadQuizData env) w) = true)
  /\ (forall payload timestamp,
        secretAnswersCache (globals w) = Some (payload, timestamp) ->
        (forall n, clock o n - timestamp < CACHE_DURATION) ->
        exists w',
          run o (loadSecretAnswers env) w = (w', inr tt)
          /\ SECRET_ANSWERS (globals w') = payload
          /\ secretAnswersCache (globals w') = Some (payload, timestamp)
          /\ forallb (fun e => negb (isFetch e))
               (eventsOf o (loadSecretAnswers env) w) = true).
Proof.
  split; intros payload timestamp Hcache Hfresh.
  - specialize (Hfresh (S (tick w))). apply Z.ltb_lt in Hfresh.
    unfold loadQuizData, freshCache, modifyGlobals, mbind, Prog_bind.
    cbn [run eventsOf bind trigger handle advance globals tick]. rewrite Hcache.
    cbn [run eventsOf bind trigger handle advance globals tick]. rewrite Hfresh.
    cbn [run eventsOf bind trigger handle advance globals tick].
    eexists. split; [reflexivity |].
    cbn [globals set_QUIZ_DATA QUIZ_DATA quizDataCache]. auto.
  - specialize (Hfresh (S (tick w))). apply Z.ltb_lt in Hfresh.
    unfold loadSecretAnswers, freshCache, modifyGlobals, mbind, Prog_bind.
    cbn [run eventsOf bind trigger handle advance globals tick]. rewrite Hcache.
    cbn [run eventsOf bind trigger handle advance globals tick]. rewrite Hfresh.
    cbn [run eventsOf bind trigger handle advance globals tick].
    eexists. split; [reflexivity |].
    cbn [globals set_SECRET_ANSWERS SECRET_ANSWERS secretAnswersCache]. auto.
Qed.

Lemma fresh_cache_served_without_fetch_witness :
  exists w',
    run (Samples.oracle 2000) (loadQuizData Cases.remoteBindings) Cases.cachedWorld
    = (w', inr tt)
    /\ QUIZ_DATA (globals w') = {["0001" := Samples.conceptBank]}
    /\ quizDataCache (globals w') = Some ({["0001" := Samples.conceptBank]}, 1000)
    /\ forallb (fun e => negb (isFetch e))
         (eventsOf (Samples.oracle 2000) (loadQuizData Cases.remoteBindings)
            Cases.cachedWorld) = true.
Proof.
  apply (proj1 (fresh_cache_served_without_fetch (Samples.oracle 2000)
                  Cases.cachedWorld Cases.remoteBindings)
           {["0001" := Samples.conceptBank]} 1000 eq_refl).
  intros n. reflexivity.
Defined.

(** X8: a failed fetch leaves the loaded data alone and is rethrown.  When
    the file is configured, no cache entry is younger than an hour, and the
    fetch does not deliver data (the request fails, the status is not a
    success, or the body is not JSON), the loader throws, and [QUIZ_DATA],
    [SECRET_ANSWERS] and both caches are what they were. *)
Theorem failed_fetch_keeps_loaded_data (o : Oracle) (w : World) (env : Bindings) :
  (forall url,
      configured (QUIZ_DATA_URL env) = Some url ->
      (forall payload timestamp n,
          quizDataCache (globals w) = Some (payload, timestamp) ->
          CACHE_DURATION <= clock o n - timestamp) ->
      (forall n, fetchFails (quiz_reply o n url)) ->
      exists w' e,
        run o (loadQuizData env) w = (w', inl e) /\ globals w' = globals w)
  /\ (forall url,
        configured (SECRET_ANSWERS_URL env) = Some url ->
        (forall payload timestamp n,
            secretAnswersCache (globals w) = Some (payload, timestamp) ->
            CACHE_DURATION <= clock o n - timestamp) ->
        (forall n, fetchFails (secret_reply o n url)) ->
        exists w' e,
          run o (loadSecretAnswers env) w = (w', inl e) /\ globals w' = globals w).
Proof.
  split; intros url Hurl Hstale Hfails.
  - unfold loadQuizData, freshCache, modifyGlobals, mbind, Prog_bind.
    cbn [run bind trigger handle advance globals tick].
    destruct (quizDataCache (globals w)) as [[payload timestamp] |] eqn:Hcache.
    + cbn [run bind trigger handle advance globals tick].
      specialize (Hstale payload timestamp (S (tick w)) eq_refl).
      apply Z.ltb_ge in Hstale. rewrite Hstale, Hurl.
      cbn [run bind try_catch trigger handle advance globals tick].
      specialize (Hfails (S (S (tick w)))).
      destruct (quiz_reply o (S (S (tick w))) url) as [reason | ok status json];
        cbn [run try_catch]; [eauto |].
      destruct Hfails as [-> | ->]; cbn [negb run try_catch]; [eauto |].
      destruct ok; cbn [negb run try_catch]; eauto.
    + rewrite Hurl.
      cbn [run bind try_catch trigger handle advance globals tick].
      specialize (Hfails (S (tick w))).
      destruct (quiz_reply o (S (tick w)) url) as [reason | ok status json];
        cbn [run try_catch]; [eauto |].
      destruct Hfails as [-> | ->]; cbn [negb run try_catch]; [eauto |].
      destruct ok; cbn [negb run try_catch]; eauto.
  - unfold loadSecretAnswers, freshCache, modifyGlobals, mbind, Prog_bind.
    cbn [run bind trigger handle advance globals tick].
    destruct (secretAnswersCache (globals w)) as [[payload timestamp] |] eqn:Hcache.
    + cbn [run bind trigger handle advance globals tick].
      specialize (Hstale payload timestamp (S (tick w)) eq_refl).
      apply Z.ltb_ge in Hstale. rewrite Hstale, Hurl.
      cbn [run bind try_catch trigger handle advance globals tick].
      specialize (Hfails (S (S (tick w)))).
      destruct (secret_reply o (S (S (tick w))) url) as [reason | ok status json];
        cbn [run try_catch]; [eauto |].
      destruct Hfails as [-> | ->]; cbn [negb run try_catch]; [eauto |].
      destruct ok; cbn [negb run try_catch]; eauto.
    + rewrite Hurl.
      cbn [run bind try_catch trigger handle advance globals tick].
      specialize (Hfails (S (tick w))).
      destruct (secret_reply o (S (tick w)) url) as [reason | ok status json];
        cbn [run try_catch]; [eauto |].
      destruct Hfails as [-> | ->]; cbn [negb run try_catch]; [eauto |].
      destruct ok; cbn [negb run try_catch]; eauto.
Qed.

Lemma failed_fetch_keeps_loaded_data_witness :
  exists w' e,
    run (Samples.oracle 3601000) (loadQuizData Cases.remoteBindings) Cases.cachedWorld
    = (w', inl e)
    /\ globals w' = globals Cases.cachedWorld.
Proof.
  apply (proj1 (failed_fetch_keeps_loaded_data (Samples.oracle 3601000)
                  Cases.cachedWorld Cases.remoteBindings)
           "https://data.example/quiz.json" eq_refl).
  - intros payload timestamp n [= <- <-]. discriminate.
  - intros n. exact I.
Defined.

(** X9: one fetch serves the hour.  On a worker without a cache entry, a
    successful load of the question banks performs exactly one fetch, sets
    [QUIZ_DATA] to the fetched payload and stamps the cache; a second load,
    at any clock reading less than an hour after the stamp, performs no
    fetch and leaves [QUIZ_DATA] at that payload. *)
Theorem loaded_banks_are_served_from_cache (o : Oracle) (w : World) (env : Bindings)
    (url status : string) (payload : gmap string QuizData) :
  quizDataCache (globals w) = None ->
  configured (QUIZ_DATA_URL env) = Some url ->
  (forall n, quiz_reply o n url = FetchResponds true status (Some payload)) ->
  (forall n m, clock o n - clock o m < CACHE_DURATION) ->
  exists w1 w2,
    run o (loadQuizData env) w = (w1, inr tt)
    /\ QUIZ_DATA (globals w1) = payload
    /\ List.length (List.filter isFetch (eventsOf o (loadQuizData env) w)) = 1%nat
    /\ run o (loadQuizData env) w1 = (w2, inr tt)
    /\ QUIZ_DATA (globals w2) = payload
    /\ List.filter isFetch (eventsOf o (loadQuizData env) w1) = [].
Proof.
  intros Hcold Hurl Hreply Hclock.
  assert (exists w1,
             run o (loadQuizData env) w = (w1, inr tt)
             /\ QUIZ_DATA (globals w1) = payload
             /\ quizDataCache (globals w1)
                = Some (payload, clock o (S (S (S (S (tick w))))))
             /\ List.length (List.filter isFetch (eventsOf o (loadQuizData env) w))
                = 1%nat) as (w1 & Hrun & Hdata & Hstamp & Hone).
  { unfold loadQuizData, freshCache, modifyGlobals, mbind, Prog_bind.
    cbn [run eventsOf bind trigger handle advance globals tick].
    rewrite Hcold, Hurl.
    cbn [run eventsOf bind try_catch trigger handle advance globals tick].
    rewrite Hreply.
    cbn [negb run eventsOf bind try_catch trigger handle advance globals tick].
    eexists. split; [reflexivity |]. repeat split; reflexivity. }
  exists w1. rewrite Hrun.
  unfold loadQuizData, freshCache, modifyGlobals, mbind, Prog_bind.
  cbn [run eventsOf bind trigger handle advance globals tick]. rewrite Hstamp.
  cbn [run eventsOf bind trigger handle advance globals tick].
  pose proof (Hclock (S (tick w1)) (S (S (S (S (tick w)))))) as Hfresh.
  apply Z.ltb_lt in Hfresh. rewrite Hfresh.
  cbn [run eventsOf bind trigger handle advance globals tick].
  eexists. split; [reflexivity |]. split; [exact Hdata |].
  split; [exact Hone |]. split; [reflexivity |]. split; reflexivity.
Qed.

Lemma loaded_banks_are_served_from_cache_witness :
  exists w1 w2,
    run Cases.onlineOracle (loadQuizData Cases.remoteBindings)
      (Samples.world ∅ ∅ []) = (w1, inr tt)
    /\ QUIZ_DATA (globals w1) = {["0001" := Samples.conceptBank]}
    /\ List.length
         (List.filter isFetch
            (eventsOf Cases.onlineOracle (loadQuizData Cases.remoteBindings)
               (Samples.world ∅ ∅ []))) = 1%nat
    /\ run Cases.onlineOracle (loadQuizData Cases.remoteBindings) w1 = (w2, inr tt)
    /\ QUIZ_DATA (globals w2) = {["0001" := Samples.conceptBank]}
    /\ List.filter isFetch
         (eventsOf Cases.onlineOracle (loadQuizData Cases.remoteBindings) w1) = [].
Proof.
  apply (loaded_banks_are_served_from_cache Cases.onlineOracle (Samples.world ∅ ∅ [])
           Cases.remoteBindings "https://data.example/quiz.json" "200 OK"
           {["0001" := Samples.conceptBank]} eq_refl eq_refl).
  - intros n. reflexivity.
  - intros n m. reflexivity.
Defined.

(** ** The submission handler, case by case *)

Lemma Covers_run {A : Type} (o : Oracle) (E : forall X, Event X -> Prop) (P : A -> Prop)
    (p : Prog A) (w : World) :
  Covers E P p -> match (run o p w).2 with inr a => P a | inl _ => True end.
Proof.
  revert w. induction p as [a | e | X ev k IH]; intros w; cbn [Covers run snd]; auto.
  intros [_ Hk]. destruct (handle o ev w) as [w' x]. apply IH, Hk.
Qed.

Lemma eventsOf_try_catch {A : Type} (o : Oracle) (p : Prog A) (h : exn -> Prog A)
    (w : World) :
  eventsOf o (try_catch p h) w
  = (eventsOf o p w ++
     match run o p w with
     | (_, inr _) => []
     | (w1, inl e) => eventsOf o (h e) w1
     end)%list.
Proof.
  revert w. induction p as [a | e | X ev k IH]; intros w;
    cbn [try_catch eventsOf run app].
  - reflexivity.
  - reflexivity.
  - destruct (handle o ev w) as [w' x]. cbn [app]. f_equal. apply IH.
Qed.

Section Handler.
Context `{JsRuntime} `{EthersLib}.
Variable validate : ValidationContext.t -> option Bindings -> Prog ValidationResult.t.

(** The three ways the handler starts: a rejection of the request as it
    stands, the answer to a body that cannot be read, or the processing of a
    request that passed every check on its shape. *)
Lemma submit_cases (env : Bindings) (body : option jsval) :
  (exists message, submit validate env body = Ret (VoucherResponse.rejection 400 message))
  \/ submit validate env body
     = Ret (VoucherResponse.rejection 500 "Failed to process achievement submission")
  \/ exists request walletAddress normalizedWallet achievementNumber kind,
       body = Some request
       /\ Js.prop request "walletAddress" = Some walletAddress
       /\ normalizeAddress walletAddress = Some normalizedWallet
       /\ Js.opt_prop request "achievementNumber" = JStr achievementNumber
       /\ ACHIEVEMENT_TYPES !! achievementNumber = Some kind
       /\ Js.opt_prop request "submissionType" = JStr (kind_name kind)
       /\ Js.truthy (Js.opt_prop request "submissionData") = true
       /\ submit validate env body
          = try_catch
              (processSubmission validate env walletAddress achievementNumber
                 (kind_name kind) (Js.opt_prop request "submissionData")
                 (Js.opt_prop request "metadata")
                 (achievementNumberToTaskCode achievementNumber))
              (fun _ =>
                 Ret (VoucherResponse.rejection 500
                        "Failed to process achievement submission")).
Proof.
  unfold submit, mbind, Prog_bind.
  destruct body as [request |]; cbn [orThrow bind try_catch]; [| right; left; reflexivity].
  destruct (Js.prop request "walletAddress") as [walletAddress |] eqn:Hwallet;
    cbn [orThrow bind try_catch]; [| right; left; reflexivity].
  cbv zeta.
  destruct (Js.truthy walletAddress); cbn [negb orb try_catch];
    [| left; eexists; reflexivity].
  destruct (isValidEthereumAddress walletAddress) eqn:Hvalid; cbn [negb try_catch];
    [| left; eexists; reflexivity].
  destruct (Js.opt_prop request "achievementNumber") as [| | b | n | achievement | l | fs]
    eqn:Hachievement; cbn [try_catch]; try (left; eexists; reflexivity).
  destruct (Js.truthy (JStr achievement)); cbn [negb try_catch];
    [| left; eexists; reflexivity].
  destruct (Js.opt_prop request "submissionType") as [| | b | n | declared | l | fs]
    eqn:Hdeclared; cbn [try_catch]; try (left; eexists; reflexivity).
  destruct (bool_decide (is_Some (kind_of_name declared))); cbn [negb try_catch];
    [| left; eexists; reflexivity].
  destruct (Js.truthy (Js.opt_prop request "submissionData")) eqn:Hdata;
    cbn [negb try_catch]; [| left; eexists; reflexivity].
  destruct (ACHIEVEMENT_TYPES !! achievement) as [expectedType |] eqn:Hcatalog;
    cbn [try_catch]; [| left; eexists; reflexivity].
  destruct (String.eqb_spec declared (kind_name expectedType)) as [-> | Hne];
    cbn [negb try_catch]; [| left; eexists; reflexivity].
  destruct (bool_decide (is_Some (achievementNumberToTaskCode achievement)
                         /\ default 0 (achievementNumberToTaskCode achievement) <= 0));
    cbn [try_catch]; [left; eexists; reflexivity |].
  right. right.
  unfold isValidEthereumAddress in Hvalid. apply bool_decide_eq_true in Hvalid.
  destruct Hvalid as [normalizedWallet Hnormal].
  exists request, walletAddress, normalizedWallet, achievement, expectedType.
  repeat (split; [first [reflexivity | assumption] |]). reflexivity.
Qed.

(** Every way the processing of a well-formed request can go. *)
Lemma processing_outcomes (o : Oracle) (w : World) (env : Bindings)
    (walletAddress : jsval) (normalizedWallet achievementNumber submissionType : string)
    (submissionData metadata : jsval) (taskCode : option Z) :
  normalizeAddress walletAddress = Some normalizedWallet ->
  exists w' resp,
    run o (try_catch
             (processSubmission validate env walletAddress achievementNumber
                submissionType submissionData metadata taskCode)
             (fun _ =>
                Ret (VoucherResponse.rejection 500
                       "Failed to process achievement submission"))) w
    = (w', inr resp)
    /\ ((resp = VoucherResponse.rejection 500 "Failed to process achievement submission"
         /\ w' = advance w)
        \/ (resp = conflictResponse
            /\ w' = advance w
            /\ eventsOf o
                 (try_catch
                    (processSubmission validate env walletAddress achievementNumber
                       submissionType submissionData metadata taskCode)
                    (fun _ =>
                       Ret (VoucherResponse.rejection 500
                              "Failed to process achievement submission"))) w
               = [performed (DbGetTrainingCompletion normalizedWallet achievementNumber)]
            /\ exists existing,
                 getTrainingCompletion (training_completions w) normalizedWallet
                   achievementNumber = Some existing)
        \/ (getTrainingCompletion (training_completions w) normalizedWallet
              achievementNumber = None
            /\ exists w1 outcome,
                 run o (validate
                          {| ValidationContext.achievementNumber := achievementNumber;
                             ValidationContext.walletAddress := normalizedWallet;
                             ValidationContext.rpcUrl :=
                               selectRpcUrl env submissionType submissionData;
                             ValidationContext.submissionType := submissionType;
                             ValidationContext.submissionData := submissionData;
                             ValidationContext.metadata := metadata |} (Some env))
                   (advance w) = (w1, outcome)
                 /\ ((resp = VoucherResponse.rejection 500
                               "Failed to process achievement submission"
                      /\ training_completions w' = training_completions w1)
                     \/ exists r signature row,
                          outcome = inr r
                          /\ VoucherResponse.status resp = 200
                          /\ VoucherResponse.success resp = ValidationResult.passed r
                          /\ VoucherResponse.results resp = Some r
                          /\ VoucherResponse.voucher resp
                             = (if ValidationResult.passed r
                                then Some {| taskCode := taskCode;
                                             wallet := normalizedWallet |}
                                else None)
                          /\ VoucherResponse.signature resp = signature
                          /\ (if ValidationResult.passed r then is_Some signature
                              else signature = None)
                          /\ training_completions w' = row :: training_completions w1
                          /\ TrainingCompletion.wallet_address row = normalizedWallet
                          /\ TrainingCompletion.achievement_number row = achievementNumber
                          /\ TrainingCompletion.task_code row = taskCode
                          /\ TrainingCompletion.submission_type row = submissionType
                          /\ TrainingCompletion.passed row = ValidationResult.passed r
                          /\ TrainingCompletion.voucher_signature row
                             = configured signature))).
Proof.
  intros Hnormal. rewrite run_try_catch.
  unfold processSubmission, mbind, Prog_bind. rewrite Hnormal.
  cbn [orThrow bind await run handle].
  destruct (db_error o (tick w)) as [e |] eqn:Hdb; cbn [bind run].
  { eexists _, _. split; [reflexivity |]. left. split; reflexivity. }
  destruct (getTrainingCompletion (training_completions w) normalizedWallet
              achievementNumber) as [existing |] eqn:Hquery.
  { pose proof Hquery as Hrow.
    apply getTrainingCompletion_Some in Hrow as [_ Hmatch].
    apply matches_completion_passed in Hmatch as (_ & _ & Hpassed).
    rewrite Hpassed. cbn [run].
    eexists _, _. split; [reflexivity |]. right. left.
    split; [reflexivity |]. split; [reflexivity |]. split; [| eauto].
    cbn [orThrow bind await try_catch eventsOf handle]. rewrite Hdb, Hquery.
    cbn [bind try_catch]. rewrite Hpassed. reflexivity. }
  clear Hdb. rewrite run_bind.
  match goal with
  | |- context [run o (validate ?c ?e) ?w0] =>
      destruct (run o (validate c e) w0) as [w1 [e1 | r]] eqn:Hvalidate
  end.
  { cbn [run]. eexists _, _. split; [reflexivity |]. right. right.
    split; [reflexivity |]. eexists _, _. split; [reflexivity |]. left.
    split; reflexivity. }
  cbn [bind run handle].
  destruct (db_error o (tick w1)) as [e |]; cbn [bind run].
  { eexists _, _. split; [reflexivity |]. right. right.
    split; [reflexivity |]. eexists _, _. split; [reflexivity |]. left.
    split; reflexivity. }
  destruct (ValidationResult.passed r) eqn:Hpassed.
  - unfold fmap, Prog_fmap. cbn [bind await run handle tick].
    destruct (sign_reply o _ _ _ _ _) as [e | signature]; cbn [bind run handle tick].
    { eexists _, _. split; [reflexivity |]. right. right.
      split; [reflexivity |]. eexists _, _. split; [reflexivity |]. left.
      split; reflexivity. }
    destruct (db_error o _) as [e |]; cbn [bind run].
    { eexists _, _. split; [reflexivity |]. right. right.
      split; [reflexivity |]. eexists _, _. split; [reflexivity |]. left.
      split; reflexivity. }
    eexists _, _. split; [reflexivity |]. right. right.
    split; [reflexivity |]. eexists _, _. split; [reflexivity |]. right.
    exists r, (Some signature). eexists.
    split; [reflexivity |].
    cbn [VoucherResponse.status VoucherResponse.success VoucherResponse.results
           VoucherResponse.voucher VoucherResponse.signature training_completions].
    rewrite Hpassed.
    repeat (split; [first [reflexivity | eauto] |]). reflexivity.
  - cbn [bind run handle tick].
    destruct (db_error o _) as [e |]; cbn [bind run].
    { eexists _, _. split; [reflexivity |]. right. right.
      split; [reflexivity |]. eexists _, _. split; [reflexivity |]. left.
      split; reflexivity. }
    eexists _, _. split; [reflexivity |]. right. right.
    split; [reflexivity |]. eexists _, _. split; [reflexivity |]. right.
    exists r, None. eexists.
    split; [reflexivity |].
    cbn [VoucherResponse.status VoucherResponse.success VoucherResponse.results
           VoucherResponse.voucher VoucherResponse.signature training_completions].
    rewrite Hpassed.
    repeat (split; [first [reflexivity | eauto] |]). reflexivity.
Qed.

End Handler.

(** X10: the handler always answers.  Whatever the request body, the
    validator and the answers of the database, the network and the signer,
    [POST /submit] returns a response and never lets an exception escape;
    its status is 200, 400, 409 or 500; the response carries validation
    results exactly when the status is 200, and every other status comes
    with [success = false] and an error message. *)
Theorem submit_always_answers `{JsRuntime} `{EthersLib}
    (validate : ValidationContext.t -> option Bindings -> Prog ValidationResult.t)
    (o : Oracle) (w : World) (env : Bindings) (body : option jsval) :
  exists w' resp,
    run o (submit validate env body) w = (w', inr resp)
    /\ (VoucherResponse.status resp = 200 \/ VoucherResponse.status resp = 400
        \/ VoucherResponse.status resp = 409 \/ VoucherResponse.status resp = 500)
    /\ (VoucherResponse.status resp = 200 <-> is_Some (VoucherResponse.results resp))
    /\ (VoucherResponse.status resp <> 200 ->
        VoucherResponse.success resp = false
        /\ is_Some (VoucherResponse.error resp)).
Proof.
  assert (forall code message,
             code <> 200 ->
             (code = 200 <-> is_Some (VoucherResponse.results
                                        (VoucherResponse.rejection code message)))
             /\ (VoucherResponse.status (VoucherResponse.rejection code message) <> 200 ->
                 VoucherResponse.success (VoucherResponse.rejection code message) = false
                 /\ is_Some (VoucherResponse.error
                               (VoucherResponse.rejection code message)))) as Hrejection.
  { intros code message Hcode. split.
    - split; [contradiction | intros [x [=]]].
    - intros _. split; [reflexivity | eexists; reflexivity]. }
  destruct (submit_cases validate env body)
    as [[message ->] | [-> | (request & walletAddress & normalizedWallet
                              & achievementNumber & kind & -> & _ & Hnormal & _ & _
                              & _ & _ & ->)]].
  - exists w, (VoucherResponse.rejection 400 message).
    split; [reflexivity |]. split; [auto |]. now apply Hrejection.
  - eexists w, _. split; [reflexivity |]. split; [auto |]. now apply Hrejection.
  - destruct (processing_outcomes validate o w env walletAddress normalizedWallet
                achievementNumber (kind_name kind)
                (Js.opt_prop request "submissionData") (Js.opt_prop request "metadata")
                (achievementNumberToTaskCode achievementNumber) Hnormal)
      as (w' & resp & -> & Hcases).
    exists w', resp. split; [reflexivity |].
    destruct Hcases
      as [[-> _] | [(-> & _) | (_ & w1 & outcome & _
                                & [[-> _] | (r & signature & row & _ & Hstatus & _
                                             & Hresults & _)])]].
    + split; [auto |]. now apply Hrejection.
    + split; [auto |]. now apply Hrejection.
    + split; [auto |]. now apply Hrejection.
    + rewrite Hstatus, Hresults. split; [auto |].
      split; [split; eauto | contradiction].
Qed.

(** X11: a voucher is issued only for a validation that passed.  A response
    with [success = true] has status 200, reports a validation result with
    [passed = true], and carries a signature and the voucher of the
    request: the task code of the requested catalog achievement and the
    normalized form of the submitted wallet address.  A response with
    [success = false] carries neither voucher nor signature. *)
Theorem voucher_only_for_passed_validation `{JsRuntime} `{EthersLib}
    (validate : ValidationContext.t -> option Bindings -> Prog ValidationResult.t)
    (o : Oracle) (w w' : World) (env : Bindings) (body : option jsval)
    (resp : VoucherResponse.t) :
  run o (submit validate env body) w = (w', inr resp) ->
  (VoucherResponse.success resp = true ->
   VoucherResponse.status resp = 200
   /\ exists request walletAddress normalizedWallet achievementNumber kind r signature,
        body = Some request
        /\ Js.prop request "walletAddress" = Some walletAddress
        /\ normalizeAddress walletAddress = Some normalizedWallet
        /\ Js.opt_prop request "achievementNumber" = JStr achievementNumber
        /\ ACHIEVEMENT_TYPES !! achievementNumber = Some kind
        /\ VoucherResponse.results resp = Some r
        /\ ValidationResult.passed r = true
        /\ VoucherResponse.voucher resp
           = Some {| taskCode := achievementNumberToTaskCode achievementNumber;
                     wallet := normalizedWallet |}
        /\ VoucherResponse.signature resp = Some signature)
  /\ (VoucherResponse.success resp = false ->
      VoucherResponse.voucher resp = None /\ VoucherResponse.signature resp = None).
Proof.
  destruct (submit_cases validate env body)
    as [[message ->] | [-> | (request & walletAddress & normalizedWallet
                              & achievementNumber & kind & -> & Hwallet & Hnormal
                              & Hachievement & Hcatalog & _ & _ & ->)]].
  - intros [= <- <-]. split; [discriminate | split; reflexivity].
  - intros [= <- <-]. split; [discriminate | split; reflexivity].
  - destruct (processing_outcomes validate o w env walletAddress normalizedWallet
                achievementNumber (kind_name kind)
                (Js.opt_prop request "submissionData") (Js.opt_prop request "metadata")
                (achievementNumberToTaskCode achievementNumber) Hnormal)
      as (w2 & resp2 & -> & Hcases).
    intros [= <- <-].
    destruct Hcases
      as [[-> _] | [(-> & _) | (_ & w1 & outcome & _
                                & [[-> _] | (r & signature & row & _ & Hstatus & Hsuccess
                                             & Hresults & Hvoucher & Hsignature & Hsigned
                                             & _)])]];
      try (split; [discriminate | split; reflexivity]).
    rewrite Hsuccess, Hvoucher, Hsignature. split.
    + intros Hpassed. rewrite Hpassed in Hsigned |- *. split; [exact Hstatus |].
      destruct Hsigned as [signed ->].
      exists request, walletAddress, normalizedWallet, achievementNumber, kind, r, signed.
      repeat (split; [first [reflexivity | assumption] |]). reflexivity.
    + intros Hfailed. rewrite Hfailed in Hsigned |- *. rewrite Hsigned.
      split; reflexivity.
Qed.

Lemma voucher_only_for_passed_validation_witness :
  exists w' resp,
    run (Samples.oracle 0)
      (submit validateSubmission Samples.bindings
         (Some (Samples.secretRequest "FIRSTSECRET"))) Samples.secretWorld
    = (w', inr resp)
    /\ VoucherResponse.success resp = true
    /\ VoucherResponse.status resp = 200
    /\ exists r signature,
         VoucherResponse.results resp = Some r
         /\ ValidationResult.passed r = true
         /\ VoucherResponse.voucher resp
            = Some {| taskCode := Some 1001; wallet := Samples.wallet |}
         /\ VoucherResponse.signature resp = Some signature.
Proof.
  eassert (run (Samples.oracle 0)
             (submit validateSubmission Samples.bindings
                (Some (Samples.secretRequest "FIRSTSECRET"))) Samples.secretWorld
           = (_, inr _)) as Hrun by (vm_compute; reflexivity).
  eexists. eexists. split; [exact Hrun |]. split; [reflexivity |].
  destruct (voucher_only_for_passed_validation _ _ _ _ _ _ _ Hrun) as [Hissued _].
  destruct (Hissued eq_refl)
    as (Hstatus & request & walletAddress & normalizedWallet & achievementNumber & kind
        & r & signature & Hbody & Hwallet & Hnormal & Hachievement & _ & Hresults
        & Hpassed & Hvoucher & Hsignature).
  split; [exact Hstatus |]. exists r, signature.
  split; [exact Hresults |]. split; [exact Hpassed |]. split; [| exact Hsignature].
  injection Hbody as <-. injection Hwallet as <-. injection Hachievement as <-.
  injection Hnormal as <-. exact Hvoucher.
Defined.

(** X12: a request answered 400 has no effect.  When the handler answers with
    status 400 it has performed no event at all: no database access, no
    fetch, no signature, and the validator has not been started; the world
    is exactly as before. *)
Theorem rejected_request_has_no_effect `{JsRuntime} `{EthersLib}
    (validate : ValidationContext.t -> option Bindings -> Prog ValidationResult.t)
    (o : Oracle) (w w' : World) (env : Bindings) (body : option jsval)
    (resp : VoucherResponse.t) :
  run o (submit validate env body) w = (w', inr resp) ->
  VoucherResponse.status resp = 400 ->
  w' = w /\ eventsOf o (submit validate env body) w = [].
Proof.
  destruct (submit_cases validate env body)
    as [[message ->] | [-> | (request & walletAddress & normalizedWallet
                              & achievementNumber & kind & -> & _ & Hnormal & _ & _
                              & _ & _ & ->)]].
  - intros [= <- <-] _. split; reflexivity.
  - intros [= <- <-] Hstatus. discriminate Hstatus.
  - destruct (processing_outcomes validate o w env walletAddress normalizedWallet
                achievementNumber (kind_name kind)
                (Js.opt_prop request "submissionData") (Js.opt_prop request "metadata")
                (achievementNumberToTaskCode achievementNumber) Hnormal)
      as (w2 & resp2 & -> & Hcases).
    intros [= <- <-] Hstatus. exfalso.
    destruct Hcases
      as [[-> _] | [(-> & _) | (_ & w1 & outcome & _
                                & [[-> _] | (r & signature & row & _ & Hok & _)])]];
      try discriminate Hstatus.
    rewrite Hok in Hstatus. discriminate Hstatus.
Qed.

Lemma rejected_request_has_no_effect_witness :
  exists w' resp,
    run (Samples.oracle 0)
      (submit validateSubmission Samples.bindings (Some Samples.mismatchedRequest))
      Samples.secretWorld = (w', inr resp)
    /\ VoucherResponse.status resp = 400
    /\ w' = Samples.secretWorld
    /\ eventsOf (Samples.oracle 0)
         (submit validateSubmission Samples.bindings (Some Samples.mismatchedRequest))
         Samples.secretWorld = [].
Proof.
  eassert (run (Samples.oracle 0)
             (submit validateSubmission Samples.bindings (Some Samples.mismatchedRequest))
             Samples.secretWorld = (_, inr _)) as Hrun by (vm_compute; reflexivity).
  eexists. eexists. split; [exact Hrun |]. split; [reflexivity |].
  exact (rejected_request_has_no_effect _ _ _ _ _ _ _ Hrun eq_refl).
Defined.

(** X13: a conflict is reported only for a completed achievement.  When the
    handler answers with status 409, the table holds a row with
    [passed = true] for the normalized wallet address and the achievement
    of the request; the query for that row is the only event of the run, so
    nothing has been validated, signed or stored. *)
Theorem conflict_only_for_completed_achievement `{JsRuntime} `{EthersLib}
    (validate : ValidationContext.t -> option Bindings -> Prog ValidationResult.t)
    (o : Oracle) (w w' : World) (env : Bindings) (body : option jsval)
    (resp : VoucherResponse.t) :
  run o (submit validate env body) w = (w', inr resp) ->
  VoucherResponse.status resp = 409 ->
  exists request walletAddress normalizedWallet achievementNumber existing,
    body = Some request
    /\ Js.prop request "walletAddress" = Some walletAddress
    /\ normalizeAddress walletAddress = Some normalizedWallet
    /\ Js.opt_prop request "achievementNumber" = JStr achievementNumber
    /\ In existing (training_completions w)
    /\ TrainingCompletion.wallet_address existing = normalizedWallet
    /\ TrainingCompletion.achievement_number existing = achievementNumber
    /\ TrainingCompletion.passed existing = true
    /\ eventsOf o (submit validate env body) w
       = [performed (DbGetTrainingCompletion normalizedWallet achievementNumber)]
    /\ training_completions w' = training_completions w.
Proof.
  destruct (submit_cases validate env body)
    as [[message ->] | [-> | (request & walletAddress & normalizedWallet
                              & achievementNumber & kind & -> & Hwallet & Hnormal
                              & Hachievement & _ & _ & _ & ->)]].
  - intros [= <- <-] Hstatus. discriminate Hstatus.
  - intros [= <- <-] Hstatus. discriminate Hstatus.
  - destruct (processing_outcomes validate o w env walletAddress normalizedWallet
                achievementNumber (kind_name kind)
                (Js.opt_prop request "submissionData") (Js.opt_prop request "metadata")
                (achievementNumberToTaskCode achievementNumber) Hnormal)
      as (w2 & resp2 & -> & Hcases).
    intros [= <- <-] Hstatus.
    destruct Hcases
      as [[-> _] | [(-> & -> & Hevents & existing & Hquery)
                   | (_ & w1 & outcome & _
                      & [[-> _] | (r & signature & row & _ & Hok & _)])]];
      try discriminate Hstatus.
    + apply getTrainingCompletion_Some in Hquery as [Hin Hmatch].
      apply matches_completion_passed in Hmatch as (Hw & Ha & Hp).
      exists request, walletAddress, normalizedWallet, achievementNumber, existing.
      repeat (split; [first [reflexivity | assumption] |]). reflexivity.
    + rewrite Hok in Hstatus. discriminate Hstatus.
Qed.

Lemma conflict_only_for_completed_achievement_witness :
  exists w' resp existing,
    run (Samples.oracle 0)
      (submit validateSubmission Samples.bindings
         (Some (Samples.secretRequest "FIRSTSECRET"))) Cases.completedWorld
    = (w', inr resp)
    /\ VoucherResponse.status resp = 409
    /\ In existing (training_completions Cases.completedWorld)
    /\ TrainingCompletion.passed existing = true
    /\ training_completions w' = training_completions Cases.completedWorld.
Proof.
  eassert (run (Samples.oracle 0)
             (submit validateSubmission Samples.bindings
                (Some (Samples.secretRequest "FIRSTSECRET"))) Cases.completedWorld
           = (_, inr _)) as Hrun by (vm_compute; reflexivity).
  destruct (conflict_only_for_completed_achievement _ _ _ _ _ _ _ Hrun eq_refl)
    as (request & walletAddress & normalizedWallet & achievementNumber & existing
        & _ & _ & _ & _ & Hin & _ & _ & Hpassed & _ & Hrows).
  eexists _, _, existing. split; [exact Hrun |]. split; [reflexivity |]. auto.
Defined.

(** X14: an attempt is recorded exactly when the answer is 200.  The deployed
    handler appends one row to [training_completions] when it answers with
    status 200, for a passed and for a failed validation alike, and leaves
    the table as it was with every other status.  The row names the
    normalized wallet address, the requested catalog achievement, its task
    code and its configured kind; [passed] is the [success] of the response,
    and the stored signature is the signature of the response, so a failed
    attempt is stored without one. *)
Theorem attempt_recorded_exactly_on_200 `{JsRuntime} `{EthersLib}
    (o : Oracle) (w w' : World) (env : Bindings) (body : option jsval)
    (resp : VoucherResponse.t) :
  run o (submitHandler env body) w = (w', inr resp) ->
  (VoucherResponse.status resp <> 200 ->
   training_completions w' = training_completions w)
  /\ (VoucherResponse.status resp = 200 ->
      exists request walletAddress normalizedWallet achievementNumber kind row,
        body = Some request
        /\ Js.prop request "walletAddress" = Some walletAddress
        /\ normalizeAddress walletAddress = Some normalizedWallet
        /\ Js.opt_prop request "achievementNumber" = JStr achievementNumber
        /\ ACHIEVEMENT_TYPES !! achievementNumber = Some kind
        /\ training_completions w' = row :: training_completions w
        /\ TrainingCompletion.wallet_address row = normalizedWallet
        /\ TrainingCompletion.achievement_number row = achievementNumber
        /\ TrainingCompletion.task_code row = achievementNumberToTaskCode achievementNumber
        /\ TrainingCompletion.submission_type row = kind_name kind
        /\ TrainingCompletion.passed row = VoucherResponse.success resp
        /\ TrainingCompletion.voucher_signature row
           = configured (VoucherResponse.signature resp)).
Proof.
  unfold submitHandler.
  destruct (submit_cases validateSubmission env body)
    as [[message ->] | [-> | (request & walletAddress & normalizedWallet
                              & achievementNumber & kind & -> & Hwallet & Hnormal
                              & Hachievement & Hcatalog & _ & _ & ->)]].
  - intros [= <- <-]. split; [reflexivity | discriminate].
  - intros [= <- <-]. split; [reflexivity | discriminate].
  - destruct (processing_outcomes validateSubmission o w env walletAddress
                normalizedWallet achievementNumber (kind_name kind)
                (Js.opt_prop request "submissionData") (Js.opt_prop request "metadata")
                (achievementNumberToTaskCode achievementNumber) Hnormal)
      as (w2 & resp2 & -> & Hcases).
    intros [= <- <-].
    destruct Hcases
      as [[-> ->] | [(-> & -> & _) | (_ & w1 & outcome & Hvalidate & Hafter)]].
    + split; [reflexivity | discriminate].
    + split; [reflexivity | discriminate].
    + match type of Hvalidate with
      | run o (validateSubmission ?c ?e) ?w0 = _ =>
          pose proof (keepsCompletions_run o (fun _ => True) (validateSubmission c e) w0
                        (validateSubmission_keeps c e)) as [Hkept _]
      end.
      rewrite Hvalidate in Hkept. cbn [fst training_completions advance] in Hkept.
      destruct Hafter
        as [[-> Hrows] | (r & signature & row & _ & Hstatus & Hsuccess & _ & _
                          & Hsignature & _ & Hrows & Hrow)].
      * split; [intros _; congruence | discriminate].
      * split; [contradiction |]. intros _.
        exists request, walletAddress, normalizedWallet, achievementNumber, kind, row.
        rewrite Hsuccess, Hsignature, Hrows, Hkept.
        destruct Hrow as (? & ? & ? & ? & ? & ?).
        repeat (split; [first [reflexivity | assumption] |]). assumption.
Qed.

Lemma attempt_recorded_exactly_on_200_witness :
  exists w' resp row,
    run (Samples.oracle 0)
      (submitHandler Samples.bindings (Some (Samples.secretRequest "wrong")))
      Samples.secretWorld = (w', inr resp)
    /\ VoucherResponse.status resp = 200
    /\ VoucherResponse.success resp = false
    /\ training_completions w' = [row]
    /\ TrainingCompletion.passed row = false
    /\ TrainingCompletion.voucher_signature row = None.
Proof.
  eassert (run (Samples.oracle 0)
             (submitHandler Samples.bindings (Some (Samples.secretRequest "wrong")))
             Samples.secretWorld = (_, inr _)) as Hrun by (vm_compute; reflexivity).
  destruct (attempt_recorded_exactly_on_200 _ _ _ _ _ _ Hrun) as [_ Hstored].
  destruct (Hstored eq_refl)
    as (request & walletAddress & normalizedWallet & achievementNumber & kind & row
        & _ & _ & _ & _ & _ & Hrows & _ & _ & _ & _ & Hpassed & Hsignature).
  eexists _, _, row. split; [exact Hrun |]. split; [reflexivity |].
  split; [reflexivity |]. split; [exact Hrows |]. split; [exact Hpassed |].
  exact Hsignature.
Defined.

(** ** The status route *)

Section Status.
Context `{EthersLib}.

(** Every way the status route can go. *)
Lemma voucherStatus_outcomes (o : Oracle) (w : World)
    (walletAddress achievementNumber : string) :
  exists w' resp,
    run o (voucherStatus walletAddress achievementNumber) w = (w', inr resp)
    /\ training_completions w' = training_completions w
    /\ ((exists message, resp = StatusResponse.failure 400 message)
        \/ resp = StatusResponse.failure 500 "Failed to get voucher status"
        \/ exists normalizedWallet,
             normalizeAddress (JStr walletAddress) = Some normalizedWallet
             /\ db_error o (tick w) = None
             /\ match getTrainingCompletion (training_completions w) normalizedWallet
                        achievementNumber with
                | None =>
                    resp = StatusResponse.failure 404
                             "No voucher found for this achievement"
                | Some completion =>
                    resp
                    = {| StatusResponse.status := 200;
                         StatusResponse.achievementNumber :=
                           Some (TrainingCompletion.achievement_number completion);
                         StatusResponse.taskCode :=
                           Some (TrainingCompletion.task_code completion);
                         StatusResponse.walletAddress :=
                           Some (TrainingCompletion.wallet_address completion);
                         StatusResponse.voucherSigned :=
                           Some (bool_decide
                                   (is_Some
                                      (configured
                                         (TrainingCompletion.voucher_signature
                                            completion))));
                         StatusResponse.createdAt :=
                           Some (TrainingCompletion.created_at completion);
                         StatusResponse.error := None |}
                end).
Proof.
  unfold voucherStatus, mbind, Prog_bind. rewrite run_try_catch.
  destruct (isValidEthereumAddress (JStr walletAddress)) eqn:Hvalid; cbn [negb].
  2: { cbn [run]. eexists _, _. split; [reflexivity |]. split; [reflexivity |].
       left. eauto. }
  destruct (Js.truthy (JStr achievementNumber)); cbn [negb].
  2: { cbn [run]. eexists _, _. split; [reflexivity |]. split; [reflexivity |].
       left. eauto. }
  unfold isValidEthereumAddress in Hvalid. apply bool_decide_eq_true in Hvalid.
  destruct Hvalid as [normalizedWallet Hnormal]. rewrite Hnormal.
  cbn [orThrow bind await run handle].
  destruct (db_error o (tick w)) as [e |] eqn:Hdb; cbn [bind run].
  { eexists _, _. split; [reflexivity |]. split; [reflexivity |]. right. left.
    reflexivity. }
  destruct (getTrainingCompletion (training_completions w) normalizedWallet
              achievementNumber) as [completion |] eqn:Hquery; cbn [run].
  - eexists _, _. split; [reflexivity |]. split; [reflexivity |]. right. right.
    exists normalizedWallet. rewrite Hquery. auto.
  - eexists _, _. split; [reflexivity |]. split; [reflexivity |]. right. right.
    exists normalizedWallet. rewrite Hquery. auto.
Qed.

End Status.

(** X15: the status route reports passed completions only, and only reads.  A
    200 answer describes a stored row with [passed = true] of the
    normalized wallet address and the achievement of the request; a 404
    answer means that the pair has no passed row, whatever failed attempts
    are stored; and the route never changes the table. *)
Theorem status_reports_passed_completions_only `{EthersLib}
    (o : Oracle) (w w' : World) (walletAddress achievementNumber : string)
    (resp : StatusResponse.t) :
  run o (voucherStatus walletAddress achievementNumber) w = (w', inr resp) ->
  training_completions w' = training_completions w
  /\ (StatusResponse.status resp = 200 ->
      exists normalizedWallet row,
        normalizeAddress (JStr walletAddress) = Some normalizedWallet
        /\ In row (training_completions w)
        /\ TrainingCompletion.passed row = true
        /\ TrainingCompletion.wallet_address row = normalizedWallet
        /\ TrainingCompletion.achievement_number row = achievementNumber
        /\ StatusResponse.achievementNumber resp = Some achievementNumber
        /\ StatusResponse.walletAddress resp = Some normalizedWallet
        /\ StatusResponse.taskCode resp = Some (TrainingCompletion.task_code row)
        /\ StatusResponse.createdAt resp = Some (TrainingCompletion.created_at row))
  /\ (StatusResponse.status resp = 404 ->
      exists normalizedWallet,
        normalizeAddress (JStr walletAddress) = Some normalizedWallet
        /\ passedRows (training_completions w) normalizedWallet achievementNumber = []).
Proof.
  destruct (voucherStatus_outcomes o w walletAddress achievementNumber)
    as (w2 & resp2 & -> & Hrows & Hcases).
  intros [= <- <-]. split; [exact Hrows |].
  destruct Hcases as [[message ->] | [-> | (normalizedWallet & Hnormal & _ & Hquery)]].
  - split; discriminate.
  - split; discriminate.
  - destruct (getTrainingCompletion (training_completions w) normalizedWallet
                achievementNumber) as [completion |] eqn:Hfound; subst resp2.
    + split; [| discriminate]. intros _.
      apply getTrainingCompletion_Some in Hfound as [Hin Hmatch].
      apply matches_completion_passed in Hmatch as (Hw & Ha & Hp).
      exists normalizedWallet, completion.
      cbn [StatusResponse.achievementNumber StatusResponse.walletAddress
             StatusResponse.taskCode StatusResponse.createdAt].
      rewrite Hw, Ha. auto 10.
    + split; [discriminate |]. intros _.
      exists normalizedWallet. split; [exact Hnormal |].
      now apply getTrainingCompletion_None.
Qed.

Lemma status_reports_passed_completions_only_witness :
  exists w' resp,
    run (Samples.oracle 0) (voucherStatus Samples.wallet "1001") Cases.completedWorld
    = (w', inr resp)
    /\ training_completions w' = training_completions Cases.completedWorld
    /\ StatusResponse.status resp = 200
    /\ StatusResponse.taskCode resp = Some (Some 1001).
Proof.
  eassert (run (Samples.oracle 0) (voucherStatus Samples.wallet "1001")
             Cases.completedWorld = (_, inr _)) as Hrun by (vm_compute; reflexivity).
  destruct (status_reports_passed_completions_only _ _ _ _ _ _ Hrun)
    as (Hrows & _ & _).
  eexists _, _. split; [exact Hrun |]. split; [exact Hrows |]. split; reflexivity.
Defined.

Lemma configured_idempotent (b : option string) : configured (configured b) = configured b.
Proof.
  destruct b as [s |]; [| reflexivity]. unfold configured.
  destruct (String.eqb s EmptyString) eqn:Hs; [reflexivity |]. now rewrite Hs.
Qed.

(** X16: an issued voucher is found by the status route.  After the deployed
    handler answered a request with [success = true], the status route,
    asked for the wallet address and the achievement of that request while
    the database answers, returns 200 with that achievement, the normalized
    wallet address and the task code of the voucher, and reports the
    voucher as signed when the signature is not empty. *)
Theorem issued_voucher_is_found_by_status `{JsRuntime} `{EthersLib}
    (o : Oracle) (w w1 : World) (env : Bindings) (request : jsval)
    (walletAddress achievementNumber : string) (resp : VoucherResponse.t) :
  run o (submitHandler env (Some request)) w = (w1, inr resp) ->
  VoucherResponse.success resp = true ->
  Js.prop request "walletAddress" = Some (JStr walletAddress) ->
  Js.opt_prop request "achievementNumber" = JStr achievementNumber ->
  db_error o (tick w1) = None ->
  exists w2 status voucher,
    run o (voucherStatus walletAddress achievementNumber) w1 = (w2, inr status)
    /\ VoucherResponse.voucher resp = Some voucher
    /\ StatusResponse.status status = 200
    /\ StatusResponse.achievementNumber status = Some achievementNumber
    /\ StatusResponse.walletAddress status = Some (wallet voucher)
    /\ StatusResponse.taskCode status = Some (taskCode voucher)
    /\ StatusResponse.voucherSigned status
       = Some (bool_decide (is_Some (configured (VoucherResponse.signature resp)))).
Proof.
  unfold submitHandler. intros Hrun Hsuccess Hwallet Hachievement Hdb.
  destruct (submit_cases validateSubmission env (Some request))
    as [[message Heq] | [Heq | (request' & walletValue & normalizedWallet
                                & achievement & kind & [= <-] & Hwallet' & Hnormal
                                & Hachievement' & Hcatalog & _ & _ & Heq)]];
    rewrite Heq in Hrun.
  - injection Hrun as <- <-. discriminate Hsuccess.
  - injection Hrun as <- <-. discriminate Hsuccess.
  - rewrite Hwallet in Hwallet'. injection Hwallet' as <-.
    rewrite Hachievement in Hachievement'. injection Hachievement' as <-.
    destruct (processing_outcomes validateSubmission o w env (JStr walletAddress)
                normalizedWallet achievementNumber (kind_name kind)
                (Js.opt_prop request "submissionData") (Js.opt_prop request "metadata")
                (achievementNumberToTaskCode achievementNumber) Hnormal)
      as (w2 & resp2 & Hrun2 & Hcases).
    rewrite Hrun2 in Hrun. injection Hrun as -> ->.
    destruct Hcases
      as [[-> _] | [(-> & _) | (Hnone & w0 & outcome & Hvalidate & Hafter)]];
      try discriminate Hsuccess.
    destruct Hafter
      as [[-> _] | (r & signature & row & _ & _ & Hpassed & _ & Hvoucher
                    & Hsignature & _ & Hrows & Hrw & Hra & Hrt & _ & Hrp & Hrs)];
      [discriminate Hsuccess |].
    rewrite Hsuccess in Hpassed. rewrite <- Hpassed in Hvoucher, Hrp.
    match type of Hvalidate with
    | run o (validateSubmission ?c ?e) ?w0 = _ =>
        pose proof (keepsCompletions_run o (fun _ => True) (validateSubmission c e) w0
                      (validateSubmission_keeps c e)) as [Hkept _]
    end.
    rewrite Hvalidate in Hkept. cbn [fst training_completions advance] in Hkept.
    assert (getTrainingCompletion (training_completions w1) normalizedWallet
              achievementNumber = Some row) as Hfound.
    { unfold getTrainingCompletion. rewrite Hrows, Hkept. cbn [List.filter].
      assert (matches_completion normalizedWallet achievementNumber row = true) as ->.
      { unfold matches_completion. rewrite Hrw, Hra, Hrp, !String.eqb_refl. reflexivity. }
      apply getTrainingCompletion_None in Hnone. unfold passedRows in Hnone.
      rewrite Hnone. reflexivity. }
    destruct (voucherStatus_outcomes o w1 walletAddress achievementNumber)
      as (w3 & status & Hstatus & _ & Hshape).
    exists w3, status. eexists. split; [exact Hstatus |]. split; [exact Hvoucher |].
    destruct Hshape as [[message ->] | [-> | (normalized' & Hnormal' & _ & Hquery)]].
    + exfalso. revert Hstatus. unfold voucherStatus, isValidEthereumAddress.
      rewrite Hnormal. rewrite (bool_decide_eq_true_2 _ (mk_is_Some _ _ eq_refl)).
      cbn [negb].
      assert (Js.truthy (JStr achievementNumber) = true) as ->
        by (eapply catalog_identifier_truthy; exact Hcatalog).
      unfold mbind, Prog_bind.
      cbn [negb orThrow bind await try_catch run handle]. rewrite Hdb, Hfound.
      cbn [bind try_catch run]. discriminate.
    + exfalso. revert Hstatus. unfold voucherStatus, isValidEthereumAddress.
      rewrite Hnormal. rewrite (bool_decide_eq_true_2 _ (mk_is_Some _ _ eq_refl)).
      cbn [negb].
      assert (Js.truthy (JStr achievementNumber) = true) as ->
        by (eapply catalog_identifier_truthy; exact Hcatalog).
      unfold mbind, Prog_bind.
      cbn [negb orThrow bind await try_catch run handle]. rewrite Hdb, Hfound.
      cbn [bind try_catch run]. discriminate.
    + rewrite Hnormal in Hnormal'. injection Hnormal' as <-.
      rewrite Hfound in Hquery. subst status.
      cbn [StatusResponse.status StatusResponse.achievementNumber
             StatusResponse.walletAddress StatusResponse.taskCode
             StatusResponse.voucherSigned wallet taskCode].
      rewrite Hrw, Hra, Hrt, Hrs, Hsignature, configured_idempotent.
      repeat (split; [reflexivity |]). reflexivity.
Qed.

Lemma issued_voucher_is_found_by_status_witness :
  exists w1 resp w2 status,
    run Cases.onlineOracle
      (submitHandler Samples.bindings (Some (Samples.secretRequest "FIRSTSECRET")))
      Samples.secretWorld = (w1, inr resp)
    /\ VoucherResponse.success resp = true
    /\ run Cases.onlineOracle (voucherStatus Samples.wallet "1001") w1 = (w2, inr status)
    /\ StatusResponse.status status = 200
    /\ StatusResponse.taskCode status = Some (Some 1001)
    /\ StatusResponse.voucherSigned status = Some true.
Proof.
  eassert (run Cases.onlineOracle
             (submitHandler Samples.bindings (Some (Samples.secretRequest "FIRSTSECRET")))
             Samples.secretWorld = (_, inr _)) as Hrun by (vm_compute; reflexivity).
  destruct (issued_voucher_is_found_by_status _ _ _ _ _ Samples.wallet "1001" _
              Hrun eq_refl eq_refl eq_refl eq_refl)
    as (w2 & status & voucher & Hstatus & Hvoucher & H200 & _ & _ & Htask & Hsigned).
  eexists _, _, w2, status. split; [exact Hrun |]. split; [reflexivity |].
  split; [exact Hstatus |]. split; [exact H200 |].
  injection Hvoucher as <-. split; [exact Htask | exact Hsigned].
Defined.

(** ** The transaction validators *)

Lemma claimantOfWallet_differs (claimantAddress : jsval) (walletAddress : string) :
  claimantDiffers claimantAddress walletAddress ->
  claimantOfWallet claimantAddress walletAddress = Ret None.
Proof.
  intros [Hfalsy | (claimant & -> & Hne)].
  - unfold claimantOfWallet. destruct claimantAddress; rewrite Hfalsy; reflexivity.
  - unfold claimantOfWallet.
    destruct (String.eqb_spec (JsString.toLowerCase claimant)
                (JsString.toLowerCase walletAddress)) as [Heq | _]; [contradiction |].
    now rewrite andb_false_r.
Qed.

(** X17: a claimant that is not the submitting wallet is rejected before any
    RPC call.  For the staking, NFT and random-number achievements, and for
    the token achievement once a creation method is given, a submission
    with a well-formed transaction hash whose [claimantAddress] is absent,
    or differs from the wallet address of the context when both are written
    in lower case, is answered with the retryable claimant failure; the
    validator is that returned result, so the chain is never asked. *)
Theorem claimant_mismatch_rejected_before_rpc `{JsRuntime} `{EthersLib}
    (submissionData transactionHash : jsval) (context : ValidationContext.t)
    (env : option Bindings) :
  Js.prop submissionData "transactionHash" = Some transactionHash ->
  wellFormedHash (ToString transactionHash) ->
  checksClaimant (ValidationContext.achievementNumber context) submissionData ->
  claimantDiffers (Js.opt_prop submissionData "claimantAddress")
    (ValidationContext.walletAddress context) ->
  validateTransactionSubmission submissionData context env
  = Ret (ValidationResult.failure
           "Claimant address must match the submitting wallet address" true)
  /\ forall (o : Oracle) (w : World),
       eventsOf o (validateTransactionSubmission submissionData context env) w = [].
Proof.
  intros Hhash Hwell Hkind Hclaimant.
  apply txIdPattern_test_spec in Hwell.
  apply claimantOfWallet_differs in Hclaimant.
  assert (validateTransactionSubmission submissionData context env
          = Ret (ValidationResult.failure
                   "Claimant address must match the submitting wallet address" true))
    as Heq.
  { unfold validateTransactionSubmission, mbind, Prog_bind. rewrite Hhash.
    cbn [orThrow bind]. cbv zeta. rewrite Hwell. cbn [negb].
    destruct Hkind as [-> | [-> | [-> | [-> Hmethod]]]].
    - change (String.eqb "0025" "0005") with false.
      change (String.eqb "0025" "0025") with true. cbv iota.
      rewrite Hclaimant. reflexivity.
    - change (String.eqb "0033" "0005") with false.
      change (String.eqb "0033" "0025") with false.
      change (String.eqb "0033" "0033") with true. cbv iota.
      rewrite Hclaimant. reflexivity.
    - change (String.eqb "0043" "0005") with false.
      change (String.eqb "0043" "0025") with false.
      change (String.eqb "0043" "0033") with false.
      change (String.eqb "0043" "0043") with true. cbv iota.
      rewrite Hclaimant. reflexivity.
    - change (String.eqb "0005" "0005") with true. cbv iota.
      rewrite Hmethod. cbn [negb]. rewrite Hclaimant. reflexivity. }
  split; [exact Heq |]. intros o w. rewrite Heq. reflexivity.
Qed.

Lemma claimant_mismatch_rejected_before_rpc_witness :
  validateTransactionSubmission Cases.stakingSubmission
    (Samples.context "0025" "transaction" Cases.stakingSubmission) None
  = Ret (ValidationResult.failure
           "Claimant address must match the submitting wallet address" true).
Proof.
  refine (proj1 (claimant_mismatch_rejected_before_rpc Cases.stakingSubmission
                   (JStr Cases.sampleHash)
                   (Samples.context "0025" "transaction" Cases.stakingSubmission)
                   None eq_refl _ _ _)).
  - apply txIdPattern_test_spec. reflexivity.
  - left. reflexivity.
  - right. eexists. split; [reflexivity |]. discriminate.
Defined.

(** ** The events of the validators *)

Lemma Covers_eventsOf {A : Type} (o : Oracle) (E : forall X, Event X -> Prop)
    (P : A -> Prop) (p : Prog A) (w : World) :
  Covers E P p ->
  Forall (fun e => match e with performed ev => E _ ev end) (eventsOf o p w).
Proof.
  revert w. induction p as [a | e | X ev k IH]; intros w; cbn [Covers eventsOf].
  - constructor.
  - constructor.
  - intros [Hev Hk]. destruct (handle o ev w) as [w' x].
    constructor; [exact Hev | apply IH, Hk].
Qed.

Create HintDb tour.

Ltac event_allowed := first [exact I | reflexivity | solve [hnf; eauto]].

(** Walks a program tree, keeping the equations of the cases it opens. *)
Ltac tour :=
  cbv beta zeta;
  lazymatch goal with
  | |- Covers ?E (fun a => Covers ?E' ?P (@?f a)) (Ret ?x) =>
      change (Covers E' P (f x)); tour
  | |- Covers _ _ (Ret _) => exact I
  | |- Covers _ _ (Throw _) => exact I
  | |- Covers _ _ (Vis _ _) => split; [event_allowed | intros ?; tour]
  | |- Covers _ _ (bind _ _) =>
      first [ eapply Covers_bind; [solve [eauto with tour] | cbv beta; intros ? _; tour]
            | apply Covers_bind_walk; tour ]
  | |- Covers _ _ (try_catch _ _) =>
      apply Covers_try_catch; [tour | intros ?; tour]
  | |- Covers _ _ (orThrow _) => apply Covers_orThrow; intros ? _; tour
  | |- Covers _ _ (mbind _ _) => unfold mbind, Prog_bind; tour
  | |- Covers _ _ (fmap _ _) => unfold fmap, Prog_fmap; tour
  | |- Covers _ _ (if ?c then _ else _) => destruct c; tour
  | |- Covers _ _ (match ?x with _ => _ end) => destruct x eqn:?; tour
  | |- Covers _ _ ?p =>
      first [solve [eauto with tour] | let h := head_of p in unfold h; tour]
  | |- _ => exact I
  end.

Section Footprint.
Context `{JsRuntime} `{EthersLib}.
Variable context : ValidationContext.t.

Lemma loadQuizData_tour (env : Bindings) :
  Covers (validatorEvent context (Some env)) (fun _ => True) (loadQuizData env).
Proof. tour. Qed.

Lemma loadSecretAnswers_tour (env : Bindings) :
  Covers (validatorEvent context (Some env)) (fun _ => True) (loadSecretAnswers env).
Proof. tour. Qed.

Lemma whenEnv_tour (env : option Bindings) (load : Bindings -> Prog unit) :
  (forall e, Covers (validatorEvent context (Some e)) (fun _ => True) (load e)) ->
  Covers (validatorEvent context env) (fun _ => True) (whenEnv env load).
Proof. intros Hload. destruct env; cbn [whenEnv]; [apply Hload | exact I]. Qed.

Lemma rpc_tour (env : option Bindings) (rpcMethod : string) (params : list jsval) :
  Covers (validatorEvent context env) (fun _ => True)
    (rpc (ValidationContext.rpcUrl context) rpcMethod params).
Proof. tour. Qed.

#[local] Hint Resolve loadQuizData_tour loadSecretAnswers_tour whenEnv_tour rpc_tour
  : tour.

Lemma erc20Loop_tour (env : option Bindings) (functions : list (string * string))
    (contractAddress : jsval) (results : gmap string jsval) :
  Covers (validatorEvent context env) (fun _ => True)
    (erc20Loop functions contractAddress (ValidationContext.rpcUrl context) results).
Proof.
  revert results. induction functions as [| [funcName signature] rest IH];
    intros results; cbn [erc20Loop]; tour.
Qed.

#[local] Hint Resolve erc20Loop_tour : tour.

Lemma verifyERC20Token_tour (env : option Bindings) (contractAddress : jsval)
    (expectedCreator : string) :
  Covers (validatorEvent context env) (fun _ => True)
    (verifyERC20Token contractAddress (ValidationContext.rpcUrl context) expectedCreator).
Proof. tour. Qed.

Lemma verifyClaimantField_tour (env : option Bindings) (contractAddress : jsval)
    (expectedClaimant : string) :
  Covers (validatorEvent context env) (fun _ => True)
    (verifyClaimantField contractAddress (ValidationContext.rpcUrl context)
       expectedClaimant).
Proof. tour. Qed.

Lemma successfulReceipt_tour (env : option Bindings) (txId : jsval) :
  Covers (validatorEvent context env) (fun _ => True)
    (successfulReceipt (ValidationContext.rpcUrl context) txId).
Proof. tour. Qed.

#[local] Hint Resolve verifyERC20Token_tour verifyClaimantField_tour
  successfulReceipt_tour : tour.

Lemma deploymentReceipt_tour (env : option Bindings) (txId : jsval) :
  Covers (validatorEvent context env) (fun _ => True)
    (deploymentReceipt (ValidationContext.rpcUrl context) txId).
Proof. tour. Qed.

#[local] Hint Resolve deploymentReceipt_tour : tour.

Lemma verifyFactoryTokenCreation_tour (env : option Bindings) (txId chainId : jsval)
    (expectedCreator : string) (bindings : Bindings) :
  Covers (validatorEvent context env) (fun _ => True)
    (verifyFactoryTokenCreation txId chainId expectedCreator context bindings).
Proof. tour. Qed.

Lemma verifyManualTokenDeployment_tour (env : option Bindings) (txId chainId : jsval)
    (expectedClaimant : string) :
  Covers (validatorEvent context env) (fun _ => True)
    (verifyManualTokenDeployment txId chainId expectedClaimant context).
Proof. tour. Qed.

Lemma verifyStakingContract_tour (env : option Bindings) (txId chainId : jsval)
    (expectedClaimant : string) :
  Covers (validatorEvent context env) (fun _ => True)
    (verifyStakingContract txId chainId expectedClaimant context).
Proof. tour. Qed.

Lemma verifyNFTCollection_tour (env : option Bindings) (txId chainId : jsval)
    (expectedClaimant : string) :
  Covers (validatorEvent context env) (fun _ => True)
    (verifyNFTCollection txId chainId expectedClaimant context).
Proof. tour. Qed.

Lemma verifyRandomNumberGenerator_tour (env : option Bindings) (txId chainId : jsval)
    (expectedClaimant : string) :
  Covers (validatorEvent context env) (fun _ => True)
    (verifyRandomNumberGenerator txId chainId expectedClaimant context).
Proof. tour. Qed.

Lemma verifyUpgradeableContract_tour (env : option Bindings)
    (proxyAddress chainId : jsval) (expectedClaimant : string) :
  Covers (validatorEvent context env) (fun _ => True)
    (verifyUpgradeableContract proxyAddress chainId expectedClaimant context).
Proof. tour. Qed.

Lemma genericTransaction_tour (env : option Bindings) (transactionHash : jsval) :
  Covers (validatorEvent context env) (fun _ => True)
    (genericTransaction transactionHash context).
Proof. tour. Qed.

Lemma claimantOfWallet_tour (env : option Bindings) (claimantAddress : jsval)
    (walletAddress : string) :
  Covers (validatorEvent context env) (fun _ => True)
    (claimantOfWallet claimantAddress walletAddress).
Proof. tour. Qed.

#[local] Hint Resolve verifyFactoryTokenCreation_tour
  verifyManualTokenDeployment_tour verifyStakingContract_tour
  verifyNFTCollection_tour verifyRandomNumberGenerator_tour
  verifyUpgradeableContract_tour genericTransaction_tour
  claimantOfWallet_tour : tour.

Lemma validateTransactionSubmission_tour (env : option Bindings) :
  Covers (validatorEvent context env) (fun _ => True)
    (validateTransactionSubmission (ValidationContext.submissionData context)
       context env).
Proof. tour. Qed.

Lemma validateContractSubmission_tour (env : option Bindings) :
  Covers (validatorEvent context env) (fun _ => True)
    (validateContractSubmission context).
Proof. tour. Qed.

Lemma validateQuizSubmission_tour (env : option Bindings) :
  Covers (validatorEvent context env) (fun _ => True)
    (validateQuizSubmission (ValidationContext.submissionData context) context env).
Proof. tour. Qed.

Lemma validateSecretSubmission_tour (env : option Bindings) :
  Covers (validatorEvent context env) (fun _ => True)
    (validateSecretSubmission (ValidationContext.submissionData context) context env).
Proof. tour. Qed.

#[local] Hint Resolve validateTransactionSubmission_tour
  validateContractSubmission_tour validateQuizSubmission_tour
  validateSecretSubmission_tour : tour.

Lemma validateSubmission_tour (env : option Bindings) :
  Covers (validatorEvent context env) (fun _ => True) (validateSubmission context env).
Proof. tour. Qed.

End Footprint.

(** X18: the validators reach only the configured endpoints.  Whatever the
    submission and the answers of the environment, the events of the
    validator dispatch are readings of the clock and of the module state,
    fetches of the two files named by the bindings, and RPC calls to the
    endpoint the router put in the context: no validator reads or writes the
    database, asks the signer, or fetches from an address taken from the
    submission. *)
Theorem validators_reach_only_configured_endpoints `{JsRuntime} `{EthersLib}
    (context : ValidationContext.t) (env : option Bindings) (o : Oracle) (w : World) :
  Forall (allowedEvent context env) (eventsOf o (validateSubmission context env) w).
Proof.
  apply (Covers_eventsOf o (validatorEvent context env) (fun _ => True)).
  apply validateSubmission_tour.
Qed.

(** ** Validation while the chain cannot be reached *)

Lemma Under_mono {A : Type} (R : forall X, Event X -> X -> Prop) (P Q : A -> Prop)
    (p : Prog A) :
  (forall a, P a -> Q a) -> Under R P p -> Under R Q p.
Proof.
  intros HPQ. induction p as [a | e | X ev k IH]; cbn [Under]; auto.
Qed.

Lemma Under_bind {A B : Type} (R : forall X, Event X -> X -> Prop) (Q : A -> Prop)
    (P : B -> Prop) (p : Prog A) (f : A -> Prog B) :
  Under R Q p -> (forall a, Q a -> Under R P (f a)) -> Under R P (bind p f).
Proof.
  intros Hp Hf. induction p as [a | e | X ev k IH]; cbn [Under bind] in *; auto.
Qed.

Lemma Under_bind_walk {A B : Type} (R : forall X, Event X -> X -> Prop) (P : B -> Prop)
    (p : Prog A) (f : A -> Prog B) :
  Under R (fun a => Under R P (f a)) p -> Under R P (bind p f).
Proof. intros Hp. apply (Under_bind R _ P p f Hp). auto. Qed.

Lemma Under_try_catch {A : Type} (R : forall X, Event X -> X -> Prop) (P : A -> Prop)
    (p : Prog A) (h : exn -> Prog A) :
  Under R P p -> (forall e, Under R P (h e)) -> Under R P (try_catch p h).
Proof.
  intros Hp Hh. induction p as [a | e | X ev k IH]; cbn [Under try_catch] in *; auto.
Qed.

Lemma Under_orThrow {A : Type} (R : forall X, Event X -> X -> Prop) (P : A -> Prop)
    (o : option A) :
  (forall a, o = Some a -> P a) -> Under R P (orThrow o).
Proof. destruct o; cbn [Under orThrow]; auto. Qed.

(** What a program returns under an oracle whose answers [R] admits. *)
Lemma Under_run {A : Type} (o : Oracle) (R : forall X, Event X -> X -> Prop)
    (P : A -> Prop) (p : Prog A) (w : World) :
  (forall X (ev : Event X) w0, R X ev (handle o ev w0).2) ->
  Under R P p ->
  match (run o p w).2 with inr a => P a | inl _ => True end.
Proof.
  intros Hanswers. revert w.
  induction p as [a | e | X ev k IH]; intros w; cbn [Under run snd]; auto.
  intros Hk. specialize (Hanswers X ev w).
  destruct (handle o ev w) as [w' x]. apply IH, Hk, Hanswers.
Qed.

Lemma chainUnreachable_handle (o : Oracle) :
  (forall n url rpcMethod params, rpcDown (rpc_reply o n url rpcMethod params)) ->
  forall X (ev : Event X) w0, chainUnreachable X ev (handle o ev w0).2.
Proof.
  intros Hdown X ev w0. destruct ev; cbn [chainUnreachable]; try exact I.
  cbn [handle snd]. apply Hdown.
Qed.

Create HintDb down.

(** Walks a program tree under the answers of an unreachable chain. *)
Ltac down :=
  cbv beta zeta; cbn [negb orb andb fst snd] in *;
  lazymatch goal with
  | |- Under ?R (fun a => Under ?R' ?P (@?f a)) (Ret ?x) =>
      change (Under R' P (f x)); down
  | |- Under _ _ (Ret _) =>
      cbn [Under]; first [reflexivity | assumption | solve [eauto with down]]
  | |- Under _ _ (Throw _) => exact I
  | |- Under _ _ (Vis _ _) => intros ? ?; down
  | |- Under _ _ (bind _ _) =>
      first [ eapply Under_bind;
              [solve [eauto with down] | cbv beta; intros ? ?; down]
            | apply Under_bind_walk; down ]
  | |- Under _ _ (try_catch _ _) => apply Under_try_catch; [down | intros ?; down]
  | |- Under _ _ (orThrow _) => apply Under_orThrow; intros ? ?; down
  | |- Under _ _ (mbind _ _) => unfold mbind, Prog_bind; down
  | |- Under _ _ (fmap _ _) => unfold fmap, Prog_fmap; down
  | |- Under _ _ (if ?c then _ else _) => destruct c; down
  | |- Under _ _ (match ?x with _ => _ end) =>
      destruct x; cbn [fst snd] in *; try contradiction; try discriminate; subst; down
  | |- Under _ _ ?p =>
      first [solve [eauto with down] | let h := head_of p in unfold h; down]
  | |- _ => first [exact I | reflexivity | assumption | solve [eauto with down]]
  end.

Section Unreachable.
Context `{JsRuntime} `{EthersLib}.

(** A call to an unreachable endpoint throws or reports a response that is
    not a success. *)
Lemma rpc_down (url rpcMethod : string) (params : list jsval) :
  Under chainUnreachable (fun reply => reply.1 = false) (rpc url rpcMethod params).
Proof.
  unfold rpc, mbind, Prog_bind. cbn [bind trigger Under].
  intros [reason | ok status [payload |]] Hdown; cbn [Under]; auto.
Qed.

#[local] Hint Resolve rpc_down : down.

Lemma erc20Loop_down (funcName signature : string) (rest : list (string * string))
    (contractAddress : jsval) (url : string) (results : gmap string jsval) :
  Under chainUnreachable
    (fun outcome =>
       match outcome with
       | inl early => TokenValidation.isValid early = false
       | inr _ => False
       end)
    (erc20Loop ((funcName, signature) :: rest) contractAddress url results).
Proof. cbn [erc20Loop]. down. Qed.

Lemma verifyERC20Token_down (contractAddress : jsval) (url expectedCreator : string) :
  Under chainUnreachable (fun validation => TokenValidation.isValid validation = false)
    (verifyERC20Token contractAddress url expectedCreator).
Proof.
  unfold verifyERC20Token, FUNCTIONS, mbind, Prog_bind.
  apply Under_try_catch; [| intros e; reflexivity].
  eapply Under_bind; [apply erc20Loop_down |].
  intros [early | results] Hearly; [exact Hearly | contradiction].
Qed.

Lemma verifyClaimantField_down (contractAddress : jsval) (url expectedClaimant : string) :
  Under chainUnreachable
    (fun validation => ClaimantValidation.isValid validation = false)
    (verifyClaimantField contractAddress url expectedClaimant).
Proof. down. Qed.

Lemma successfulReceipt_down (url : string) (txId : jsval) :
  Under chainUnreachable
    (fun receipt =>
       match receipt with
       | inl failed => ValidationResult.passed failed = false
       | inr _ => False
       end)
    (successfulReceipt url txId).
Proof. down. Qed.

#[local] Hint Resolve verifyERC20Token_down verifyClaimantField_down
  successfulReceipt_down : down.

Lemma deploymentReceipt_down (url : string) (txId : jsval) :
  Under chainUnreachable
    (fun receipt =>
       match receipt with
       | inl failed => ValidationResult.passed failed = false
       | inr _ => False
       end)
    (deploymentReceipt url txId).
Proof. down. Qed.

#[local] Hint Resolve deploymentReceipt_down : down.

Lemma verifyFactoryTokenCreation_down (txId chainId : jsval) (expectedCreator : string)
    (context : ValidationContext.t) (env : Bindings) :
  Under chainUnreachable (fun r => ValidationResult.passed r = false)
    (verifyFactoryTokenCreation txId chainId expectedCreator context env).
Proof. down. Qed.

Lemma verifyManualTokenDeployment_down (txId chainId : jsval)
    (expectedClaimant : string) (context : ValidationContext.t) :
  Under chainUnreachable (fun r => ValidationResult.passed r = false)
    (verifyManualTokenDeployment txId chainId expectedClaimant context).
Proof. down. Qed.

Lemma verifyStakingContract_down (txId chainId : jsval)
    (expectedClaimant : string) (context : ValidationContext.t) :
  Under chainUnreachable (fun r => ValidationResult.passed r = false)
    (verifyStakingContract txId chainId expectedClaimant context).
Proof. down. Qed.

Lemma verifyNFTCollection_down (txId chainId : jsval)
    (expectedClaimant : string) (context : ValidationContext.t) :
  Under chainUnreachable (fun r => ValidationResult.passed r = false)
    (verifyNFTCollection txId chainId expectedClaimant context).
Proof. down. Qed.

Lemma verifyRandomNumberGenerator_down (txId chainId : jsval)
    (expectedClaimant : string) (context : ValidationContext.t) :
  Under chainUnreachable (fun r => ValidationResult.passed r = false)
    (verifyRandomNumberGenerator txId chainId expectedClaimant context).
Proof. down. Qed.

Lemma verifyUpgradeableContract_down (proxyAddress chainId : jsval)
    (expectedClaimant : string) (context : ValidationContext.t) :
  Under chainUnreachable (fun r => ValidationResult.passed r = false)
    (verifyUpgradeableContract proxyAddress chainId expectedClaimant context).
Proof. down. Qed.

Lemma genericTransaction_down (transactionHash : jsval) (context : ValidationContext.t) :
  Under chainUnreachable (fun r => ValidationResult.passed r = false)
    (genericTransaction transactionHash context).
Proof. down. Qed.

Lemma claimantOfWallet_down (claimantAddress : jsval) (walletAddress : string) :
  Under chainUnreachable (fun _ => True)
    (claimantOfWallet claimantAddress walletAddress).
Proof. down. Qed.

#[local] Hint Resolve verifyFactoryTokenCreation_down
  verifyManualTokenDeployment_down verifyStakingContract_down
  verifyNFTCollection_down verifyRandomNumberGenerator_down
  verifyUpgradeableContract_down genericTransaction_down
  claimantOfWallet_down : down.

Lemma validateTransactionSubmission_down (submissionData : jsval)
    (context : ValidationContext.t) (env : option Bindings) :
  Under chainUnreachable (fun r => ValidationResult.passed r = false)
    (validateTransactionSubmission submissionData context env).
Proof. down. Qed.

Lemma validateContractSubmission_down (context : ValidationContext.t) :
  Under chainUnreachable (fun r => ValidationResult.passed r = false)
    (validateContractSubmission context).
Proof. down. Qed.

End Unreachable.

(** X19: no transaction or contract submission passes while the chain cannot
    be reached.  When every RPC request fails or comes back with an HTTP
    status that is not a success, the transaction validator and the contract
    validator return [passed = false] for every submission and every
    achievement, if they return at all. *)
Theorem unreachable_chain_passes_nothing `{JsRuntime} `{EthersLib}
    (o : Oracle) (w : World) (submissionData : jsval)
    (context : ValidationContext.t) (env : option Bindings) :
  (forall n url rpcMethod params, rpcDown (rpc_reply o n url rpcMethod params)) ->
  (forall w' r,
      run o (validateTransactionSubmission submissionData context env) w = (w', inr r) ->
      ValidationResult.passed r = false)
  /\ (forall w' r,
        run o (validateContractSubmission context) w = (w', inr r) ->
        ValidationResult.passed r = false).
Proof.
  intros Hdown. split; intros w' r Hrun.
  - pose proof (Under_run o chainUnreachable _ _ w (chainUnreachable_handle o Hdown)
                  (validateTransactionSubmission_down submissionData context env))
      as Hresult.
    rewrite Hrun in Hresult. exact Hresult.
  - pose proof (Under_run o chainUnreachable _ _ w (chainUnreachable_handle o Hdown)
                  (validateContractSubmission_down context)) as Hresult.
    rewrite Hrun in Hresult. exact Hresult.
Qed.

Lemma unreachable_chain_passes_nothing_witness :
  exists w' r,
    run (Samples.oracle 0)
      (validateTransactionSubmission Cases.ownStakingSubmission
         (Samples.context "0025" "transaction" Cases.ownStakingSubmission) None)
      (Samples.world ∅ ∅ []) = (w', inr r)
    /\ ValidationResult.passed r = false.
Proof.
  eassert (run (Samples.oracle 0)
             (validateTransactionSubmission Cases.ownStakingSubmission
                (Samples.context "0025" "transaction" Cases.ownStakingSubmission) None)
             (Samples.world ∅ ∅ []) = (_, inr _)) as Hrun by (vm_compute; reflexivity).
  eexists _, _. split; [exact Hrun |].
  exact (proj1 (unreachable_chain_passes_nothing (Samples.oracle 0) _ _ _ _
                  (fun _ _ _ _ => I)) _ _ Hrun).
Defined.

(** ** The ERC-20 check on a token that answers *)

Section Token.
Context `{JsRuntime} `{EthersLib}.

(** One turn of the loop on a getter that answers. *)
Lemma erc20Loop_answered (o : Oracle) (w : World) (funcName signature : string)
    (rest : list (string * string)) (token : jsval) (url : string)
    (results : gmap string jsval) (status : string) (result : jsval) :
  rpc_reply o (tick w) url "eth_call" (eth_call token signature)
  = FetchResponds true status (Some (rpcResult result)) ->
  emptyResult result = false ->
  run o (erc20Loop ((funcName, signature) :: rest) token url results) w
  = run o (erc20Loop rest token url
             (if String.eqb funcName "name" || String.eqb funcName "symbol"
              then <[funcName := JStr (decodeTokenString result)]> results
              else if String.eqb funcName "totalSupply" || String.eqb funcName "decimals"
                   then <[funcName := result]> results
                   else results))
      (advance w).
Proof.
  intros Hreply Hpresent.
  assert (Js.prop (rpcResult result) "error" = Some JUndefined) as Herror
    by reflexivity.
  assert (Js.opt_prop (rpcResult result) "result" = result) as Hresult
    by reflexivity.
  cbn [erc20Loop]. unfold rpc at 1, mbind, Prog_bind.
  cbn [bind trigger run handle]. rewrite Hreply.
  cbn [bind run]. rewrite Herror, Hresult.
  cbn [bind run orThrow Js.truthy negb orb].
  rewrite Hpresent.
  destruct (String.eqb funcName "name" || String.eqb funcName "symbol");
    [reflexivity |].
  destruct (String.eqb funcName "totalSupply" || String.eqb funcName "decimals");
    reflexivity.
Qed.

Lemma abiEncodeString_present (s : string) :
  emptyResult (JStr (abiEncodeString s)) = false.
Proof.
  unfold emptyResult, abiEncodeString, abiWord.
  cbn [hexOfNat]. reflexivity.
Qed.

End Token.

(** X20: a token that answers the four getters is accepted with its decoded
    name and symbol.  When the node answers [name()] and [symbol()] with the
    ABI encoding of two texts of 1 to 100 bytes without null bytes, and
    [decimals()] and [totalSupply()] with results that are not empty, the
    ERC-20 check returns [isValid = true] with exactly those texts as name
    and symbol and the raw total supply. *)
Theorem answering_token_is_accepted `{JsRuntime} `{EthersLib}
    (o : Oracle) (w : World) (token : jsval) (url expectedCreator : string)
    (name symbol : string) (decimals totalSupply : jsval) :
  tokenText name -> tokenText symbol ->
  emptyResult decimals = false -> emptyResult totalSupply = false ->
  answersAsToken o url token name symbol decimals totalSupply ->
  exists w',
    run o (verifyERC20Token token url expectedCreator) w
    = (w', inr {| TokenValidation.isValid := true;
                  TokenValidation.error := None;
                  TokenValidation.name := Some (JStr name);
                  TokenValidation.symbol := Some (JStr symbol);
                  TokenValidation.totalSupply := Some totalSupply |}).
Proof.
  intros [Hname Hnamelen] [Hsymbol Hsymbollen] Hdecimals Hsupply Hanswers.
  unfold verifyERC20Token, FUNCTIONS, mbind, Prog_bind.
  rewrite run_try_catch, run_bind.
  destruct (Hanswers (tick w)) as ((s1 & H1) & _).
  rewrite (erc20Loop_answered o w _ _ _ _ _ _ _ _ H1 (abiEncodeString_present name)).
  change (String.eqb "name" "name" || String.eqb "name" "symbol") with true.
  cbv iota.
  destruct (Hanswers (tick (advance w))) as (_ & (s2 & H2) & _).
  rewrite (erc20Loop_answered o _ _ _ _ _ _ _ _ _ H2 (abiEncodeString_present symbol)).
  change (String.eqb "symbol" "name" || String.eqb "symbol" "symbol") with true.
  cbv iota.
  destruct (Hanswers (tick (advance (advance w)))) as (_ & _ & (s3 & H3) & _).
  rewrite (erc20Loop_answered o _ _ _ _ _ _ _ _ _ H3 Hdecimals).
  change (String.eqb "decimals" "name" || String.eqb "decimals" "symbol") with false.
  change (String.eqb "decimals" "totalSupply" || String.eqb "decimals" "decimals")
    with true.
  cbv iota.
  destruct (Hanswers (tick (advance (advance (advance w))))) as (_ & _ & _ & (s4 & H4)).
  rewrite (erc20Loop_answered o _ _ _ _ _ _ _ _ _ H4 Hsupply).
  change (String.eqb "totalSupply" "name" || String.eqb "totalSupply" "symbol")
    with false.
  change (String.eqb "totalSupply" "totalSupply" || String.eqb "totalSupply" "decimals")
    with true.
  cbv iota.
  cbn [erc20Loop run].
  rewrite !(decodeTokenString_abiEncodeString _) by assumption.
  set (results := <["totalSupply" := totalSupply]>
                    (<["decimals" := decimals]>
                       (<["symbol" := JStr symbol]> (<["name" := JStr name]> ∅)))).
  assert (results !! "name" = Some (JStr name)) as Hn.
  { subst results. rewrite !lookup_insert_ne by discriminate. apply lookup_insert_eq. }
  assert (results !! "symbol" = Some (JStr symbol)) as Hs.
  { subst results. rewrite !lookup_insert_ne by discriminate. apply lookup_insert_eq. }
  assert (results !! "totalSupply" = Some totalSupply) as Ht.
  { subst results. apply lookup_insert_eq. }
  rewrite Hn, Hs, Ht. cbn [default from_option id Js.truthy].
  assert (String.eqb name EmptyString = false) as ->
    by (destruct name; [cbn in Hnamelen; lia | reflexivity]).
  assert (String.eqb symbol EmptyString = false) as ->
    by (destruct symbol; [cbn in Hsymbollen; lia | reflexivity]).
  cbn [negb orb run]. eexists. reflexivity.
Qed.

Lemma answering_token_is_accepted_witness :
  exists w',
    run Tokens.tokenNode
      (verifyERC20Token (JStr Tokens.tokenAddress) "https://rpc.example" Samples.wallet)
      (Samples.world ∅ ∅ [])
    = (w', inr {| TokenValidation.isValid := true;
                  TokenValidation.error := None;
                  TokenValidation.name := Some (JStr "Plunder Token");
                  TokenValidation.symbol := Some (JStr "PLDR");
                  TokenValidation.totalSupply := Some (JStr Tokens.supplyWord) |}).
Proof.
  apply (answering_token_is_accepted Tokens.tokenNode (Samples.world ∅ ∅ [])
           (JStr Tokens.tokenAddress) "https://rpc.example" Samples.wallet
           "Plunder Token" "PLDR" (JStr Tokens.decimalsWord) (JStr Tokens.supplyWord)).
  - split; [reflexivity | cbn; lia].
  - split; [reflexivity | cbn; lia].
  - reflexivity.
  - reflexivity.
  - intros n. repeat split; eexists; vm_compute; reflexivity.
Defined.

(** ** The rate limiter *)

Lemma limitedRoute_not_configured (path : string) :
  limitedRoute path -> RATE_LIMITS !! path = None.
Proof.
  intros Hroute. apply not_elem_of_list_to_map_1.
  cbn [RATE_LIMITS_entries fmap list_fmap fst].
  intros Hin. repeat (apply elem_of_cons in Hin as [Heq | Hin]);
    [.. | apply elem_of_nil in Hin; exact Hin];
    destruct Hroute as [-> | [[walletAddress [-> | [-> | ->]]] | [rest ->]]];
    cbv [String.append] in Heq; congruence.
Qed.

Section RateLimiterFacts.
Context `{JsRuntime}.
Context {A : Type}.
Variable checkRateLimit : string -> string -> string -> Z -> Z -> Prog (bool * Z).

Lemma rateLimit_unconfigured (request : RateRequest.t)
    (next : list (string * string) -> Prog A) :
  RATE_LIMITS !! RateRequest.pathname request = None ->
  rateLimit checkRateLimit request next
  = try_catch (response ← next []; Ret (Forwarded response))
      (fun _ => response ← next []; Ret (Forwarded response)).
Proof. intros Hnone. unfold rateLimit. rewrite Hnone. reflexivity. Qed.

End RateLimiterFacts.

(** X21: the limiter limits none of the routes that install it.  The path name
    of every route registered with [rateLimit] (the voucher routes under
    [/api/v1/vouchers], the wallet routes under [/api/v1/wallets/]) is not
    a key of [RATE_LIMITS], whose voucher key is [/api/v1/vouchers/issue]
    and whose wallet key has no address.  On these routes the limiter
    answers what the route answers, and performs the events of the route
    and no other: the request is not counted, whatever [checkRateLimit]
    would do, and no rate-limit header is set. *)
Theorem rate_limit_skips_the_routes_that_install_it `{JsRuntime} {A : Type}
    (checkRateLimit : string -> string -> string -> Z -> Z -> Prog (bool * Z))
    (request : RateRequest.t) (next : list (string * string) -> Prog A)
    (o : Oracle) (w w' : World) (response : A) :
  limitedRoute (RateRequest.pathname request) ->
  run o (next []) w = (w', inr response) ->
  RATE_LIMITS !! RateRequest.pathname request = None
  /\ run o (rateLimit checkRateLimit request next) w = (w', inr (Forwarded response))
  /\ eventsOf o (rateLimit checkRateLimit request next) w = eventsOf o (next []) w.
Proof.
  intros Hroute Hnext.
  pose proof (limitedRoute_not_configured _ Hroute) as Hnone.
  split; [exact Hnone |].
  rewrite (rateLimit_unconfigured checkRateLimit request next Hnone).
  split.
  - rewrite run_try_catch.
    change (response0 ← next []; Ret (Forwarded response0))
      with (bind (next []) (fun response0 => Ret (Forwarded response0))).
    rewrite run_bind, Hnext. reflexivity.
  - rewrite eventsOf_try_catch.
    change (response0 ← next []; Ret (Forwarded response0))
      with (bind (next []) (fun response0 => Ret (Forwarded response0))).
    rewrite run_bind, eventsOf_bind, Hnext. cbn [run eventsOf].
    rewrite !app_nil_r. reflexivity.
Qed.

Lemma rate_limit_skips_the_routes_that_install_it_witness :
  exists w' resp,
    run (Samples.oracle 0)
      (rateLimit Requests.countedOut Requests.submitRequest
         (fun _ => submitHandler Samples.bindings (Some (Samples.secretRequest "wrong"))))
      Samples.secretWorld
    = (w', inr (Forwarded resp))
    /\ VoucherResponse.status resp = 200.
Proof.
  eassert (run (Samples.oracle 0)
             (submitHandler Samples.bindings (Some (Samples.secretRequest "wrong")))
             Samples.secretWorld = (_, inr _)) as Hrun by (vm_compute; reflexivity).
  eexists. eexists. split.
  - refine (proj1 (proj2 (rate_limit_skips_the_routes_that_install_it
                            Requests.countedOut Requests.submitRequest
                            (fun _ => submitHandler Samples.bindings
                                        (Some (Samples.secretRequest "wrong")))
                            _ _ _ _ _ Hrun))).
    left. reflexivity.
  - reflexivity.
Defined.

(** X22: the limiter answers 429 only for a counted-out client, and a failing
    count blocks nobody.  A 429 answer means that the path is a key of
    [RATE_LIMITS] and that [checkRateLimit], asked about the wallet and IP
    identifiers of the request and the limits of that key, answered
    [allowed = false]; the answer carries the three rate-limit headers and
    [retryAfter], the window in seconds.  When [checkRateLimit] throws, the
    limiter hands the request to the route, without rate-limit headers. *)
Theorem rate_limit_fails_open `{JsRuntime} {A : Type}
    (checkRateLimit : string -> string -> string -> Z -> Z -> Prog (bool * Z))
    (request : RateRequest.t) (next : list (string * string) -> Prog A)
    (o : Oracle) (w : World) :
  JsString.startsWith (RateRequest.pathname request) "/" = true ->
  (forall w' headers body,
      run o (rateLimit checkRateLimit request next) w
      = (w', inr (TooManyRequests headers body)) ->
      exists rateConfig w1 remaining,
        RATE_LIMITS !! RateRequest.pathname request = Some rateConfig
        /\ run o (checkRateLimit (clientWalletAddress request) (clientIpAddress request)
                    (RateRequest.pathname request)
                    (maxRequests rateConfig) (windowMs rateConfig)) w
           = (w1, inr (false, remaining))
        /\ w' = advance w1
        /\ headers = rateLimitHeaders rateConfig remaining (clock o (tick w1))
        /\ retryAfter body = (inject_Z (windowMs rateConfig) / 1000)%Q)
  /\ (forall rateConfig w1 e w2 response,
        RATE_LIMITS !! RateRequest.pathname request = Some rateConfig ->
        run o (checkRateLimit (clientWalletAddress request) (clientIpAddress request)
                 (RateRequest.pathname request)
                 (maxRequests rateConfig) (windowMs rateConfig)) w
        = (w1, inl e) ->
        run o (next []) w1 = (w2, inr response) ->
        run o (rateLimit checkRateLimit request next) w = (w2, inr (Forwarded response))).
Proof.
  intros _. unfold rateLimit. split.
  - intros w' headers body. rewrite run_try_catch.
    destruct (RATE_LIMITS !! RateRequest.pathname request) as [rateConfig |] eqn:Hconfig.
    + cbv zeta. unfold mbind, Prog_bind. rewrite run_bind.
      destruct (run o (checkRateLimit _ _ _ _ _) w)
        as [w1 [e | [allowed remaining]]] eqn:Hcheck.
      * rewrite run_bind. destruct (run o (next []) w1) as [w2 [e2 | a]];
          cbn [run]; intros Heq; inversion Heq.
      * cbn [bind trigger run handle]. destruct allowed; cbn [negb].
        -- rewrite run_bind. destruct (run o (next _) (advance w1)) as [w2 [e2 | a]].
           ++ rewrite run_bind. destruct (run o (next []) w2) as [w3 [e3 | a]];
                cbn [run]; intros Heq; inversion Heq.
           ++ cbn [run]. intros Heq; inversion Heq.
        -- cbn [run]. intros Heq. inversion Heq; subst.
           exists rateConfig, w1, remaining.
           split; [reflexivity |]. split; [exact Hcheck |]. auto.
    + unfold mbind, Prog_bind. rewrite run_bind.
      destruct (run o (next []) w) as [w1 [e | a]].
      * rewrite run_bind. destruct (run o (next []) w1) as [w2 [e2 | a]];
          cbn [run]; intros Heq; inversion Heq.
      * cbn [run]. intros Heq; inversion Heq.
  - intros rateConfig w1 e w2 response Hconfig Hcheck Hnext.
    rewrite run_try_catch, Hconfig. cbv zeta. unfold mbind, Prog_bind.
    rewrite run_bind, Hcheck, run_bind, Hnext. reflexivity.
Qed.

Lemma rate_limit_fails_open_witness :
  exists w' headers body,
    run (Samples.oracle 0)
      (rateLimit Requests.countedOut
         Requests.generalFeedback (fun _ => Ret 201))
      Samples.secretWorld
    = (w', inr (TooManyRequests headers body))
    /\ RATE_LIMITS !! "/api/v1/feedback/general"
       = Some {| windowMs := 3600000; maxRequests := 50 |}
    /\ clientIpAddress Requests.generalFeedback = "203.0.113.7"
    /\ (retryAfter body == 3600)%Q.
Proof.
  eassert (run (Samples.oracle 0)
             (rateLimit Requests.countedOut
                Requests.generalFeedback (fun _ => Ret 201))
             Samples.secretWorld = (_, inr (TooManyRequests _ _))) as Hrun
    by (vm_compute; reflexivity).
  destruct (proj1 (rate_limit_fails_open Requests.countedOut Requests.generalFeedback
                     (fun _ => Ret 201) (Samples.oracle 0) Samples.secretWorld eq_refl)
              _ _ _ Hrun)
    as (rateConfig & w1 & remaining & Hconfig & _ & _ & _ & Hretry).
  eexists _, _, _. split; [exact Hrun |].
  split; [reflexivity |]. split; [reflexivity |].
  rewrite Hretry.
  assert (rateConfig = {| windowMs := 3600000; maxRequests := 50 |}) as ->
    by (apply (inj Some); rewrite <- Hconfig; reflexivity).
  reflexivity.
Defined.

(** ** Request validation *)

Lemma substring_length_le (n : nat) (s : string) :
  (String.length (String.substring 0 n s) <= n)%nat.
Proof.
  revert s. induction n as [| n IH]; intros [| c s]; cbn [String.substring String.length];
    try lia.
  specialize (IH s). lia.
Qed.

Lemma substring_whole (n : nat) (s : string) :
  (String.length s <= n)%nat -> String.substring 0 n s = s.
Proof.
  revert s. induction n as [| n IH]; intros [| c s]; cbn [String.substring String.length];
    intros Hlen; try reflexivity; try lia.
  rewrite IH by lia. reflexivity.
Qed.

Lemma removeControl_length (s : string) :
  (String.length (removeControl s) <= String.length s)%nat.
Proof.
  induction s as [| c s IH]; cbn [removeControl String.length]; [lia |].
  destruct (isControl c); cbn [String.length]; lia.
Qed.

Lemma removeControl_clean (s : string) :
  JsString.forallb_string (fun c => negb (isControl c)) (removeControl s) = true.
Proof.
  induction s as [| c s IH]; cbn [removeControl]; [reflexivity |].
  destruct (isControl c) eqn:Hc; [exact IH |].
  cbn [JsString.forallb_string]. now rewrite Hc, IH.
Qed.

Lemma removeControl_id (s : string) :
  JsString.forallb_string (fun c => negb (isControl c)) s = true -> removeControl s = s.
Proof.
  induction s as [| c s IH]; cbn [removeControl JsString.forallb_string]; [reflexivity |].
  intros Hclean. apply andb_true_iff in Hclean as [Hc Hs].
  apply negb_true_iff in Hc. rewrite Hc, IH by exact Hs. reflexivity.
Qed.

(** X23: sanitized text is short and free of control characters.  For a text
    in the ASCII range, what [sanitizeText] returns has at most [maxLength]
    characters and none of the class [\x00-\x08\x0B\x0C\x0E-\x1F\x7F]; a
    text that is already trimmed, short enough and free of these characters
    is returned as it is. *)
Theorem sanitized_text_is_short_and_clean (text : string) (maxLength : Z)
    (sanitized : string) :
  asciiText text = true ->
  sanitizeText (Some text) maxLength = Some sanitized ->
  Z.of_nat (String.length sanitized) <= Z.max 0 maxLength
  /\ JsString.forallb_string (fun c => negb (isControl c)) sanitized = true
  /\ (JsString.trim text = text ->
      Z.of_nat (String.length text) <= maxLength ->
      JsString.forallb_string (fun c => negb (isControl c)) text = true ->
      sanitized = text).
Proof.
  intros _. unfold sanitizeText, configured.
  destruct (String.eqb text EmptyString); [discriminate |].
  intros [= <-]. split; [| split].
  - pose proof (removeControl_length
                  (String.substring 0 (Z.to_nat maxLength) (JsString.trim text))).
    pose proof (substring_length_le (Z.to_nat maxLength) (JsString.trim text)). lia.
  - apply removeControl_clean.
  - intros -> Hlen Hclean. rewrite substring_whole by lia.
    now apply removeControl_id.
Qed.

Lemma sanitized_text_is_short_and_clean_witness :
  exists sanitized,
    sanitizeText (Some ("  ahoy" ++ String (ascii_of_nat 7) " matey  ")) 8 = Some sanitized
    /\ Z.of_nat (String.length sanitized) <= 8
    /\ JsString.forallb_string (fun c => negb (isControl c)) sanitized = true.
Proof.
  exists "ahoy ma".
  assert (sanitizeText (Some ("  ahoy" ++ String (ascii_of_nat 7) " matey  ")) 8
          = Some "ahoy ma") as Hsanitized by (vm_compute; reflexivity).
  split; [exact Hsanitized |].
  destruct (sanitized_text_is_short_and_clean
              ("  ahoy" ++ String (ascii_of_nat 7) " matey  ") 8 "ahoy ma"
              eq_refl Hsanitized)
    as (Hlength & Hclean & _).
  split; [exact Hlength | exact Hclean].
Defined.

Lemma digits_parse (s : string) (acc : Z) :
  JsString.forallb_string JsString.is_digit s = true ->
  0 <= acc ->
  exists k, 0 <= k /\ JsString.parse_digits 10 (Some acc) s = Some k.
Proof.
  revert acc. induction s as [| c s IH]; intros acc Hdigits Hacc.
  - exists acc. split; [exact Hacc | reflexivity].
  - cbn [JsString.forallb_string] in Hdigits.
    apply andb_true_iff in Hdigits as [Hc Hs].
    cbn [JsString.parse_digits]. unfold JsString.digit_value. rewrite Hc.
    unfold JsString.is_digit in Hc. apply andb_true_iff in Hc as [Hlow Hhigh].
    apply Z.leb_le in Hlow, Hhigh.
    destruct (Z.ltb_spec (JsString.code c - 48) 10) as [_ | ?]; [| lia].
    apply IH; [exact Hs |]. cbn [default]. unfold id. lia.
Qed.

Lemma parseInt_digits (s : string) :
  s <> EmptyString ->
  JsString.forallb_string JsString.is_digit s = true ->
  exists k, 0 <= k /\ JsString.parseInt s 10 = Some k.
Proof.
  intros Hne Hdigits. destruct s as [| c s]; [congruence |].
  pose proof Hdigits as Hall. cbn [JsString.forallb_string] in Hdigits.
  apply andb_true_iff in Hdigits as [Hc _].
  rewrite parseInt_numeral by exact Hc. now apply digits_parse.
Qed.

(** X24: accepted analytics parameters are within their bounds.  When
    [validateAnalyticsParams] accepts, a [limit] is reported only for a
    given parameter and is a number from 1 to 100; [timeframeDays] is absent
    for an absent parameter, [null] for the text [all] and a number from 1
    to 365 otherwise, never [NaN].  When it rejects, the result carries an
    error message and neither a limit nor a time frame. *)
Theorem analytics_params_within_bounds (limit timeframe : option string)
    (r : AnalyticsParams.t) :
  validateAnalyticsParams limit timeframe = r ->
  (AnalyticsParams.valid r = true ->
   match AnalyticsParams.limit r with
   | None => limit = None
   | Some parsed => is_Some limit /\ exists n, parsed = Some n /\ 1 <= n <= 100
   end
   /\ match AnalyticsParams.timeframeDays r with
      | None => timeframe = None
      | Some AllTime => timeframe = Some "all"
      | Some (Days days) =>
          is_Some timeframe /\ timeframe <> Some "all"
          /\ exists n, days = Some n /\ 1 <= n <= 365
      end)
  /\ (AnalyticsParams.valid r = false ->
      is_Some (AnalyticsParams.error r)
      /\ AnalyticsParams.limit r = None
      /\ AnalyticsParams.timeframeDays r = None).
Proof.
  intros <-. unfold validateAnalyticsParams.
  assert (forall checked : option (option Z),
             match checked with
             | None => limit = None
             | Some parsed => is_Some limit /\ exists n, parsed = Some n /\ 1 <= n <= 100
             end ->
             let r :=
               match timeframe with
               | Some text =>
                   if String.eqb text "all"
                   then {| AnalyticsParams.valid := true; AnalyticsParams.error := None;
                           AnalyticsParams.limit := checked;
                           AnalyticsParams.timeframeDays := Some AllTime |}
                   else
                     match matchDays text with
                     | None =>
                         AnalyticsParams.invalid
                           ("Invalid timeframe format (use "
                            ++ String (ascii_of_nat 34) "30d"
                            ++ String (ascii_of_nat 34) ", "
                            ++ String (ascii_of_nat 34) "7d"
                            ++ String (ascii_of_nat 34) ", or "
                            ++ String (ascii_of_nat 34) "all"
                            ++ String (ascii_of_nat 34) ")")
                     | Some digits =>
                         let days := JsString.parseInt digits 10 in
                         if outside days 1 365
                         then AnalyticsParams.invalid
                                ("Invalid timeframe (must be 1-365 days or "
                                 ++ String (ascii_of_nat 34) "all"
                                 ++ String (ascii_of_nat 34) ")")
                         else {| AnalyticsParams.valid := true;
                                 AnalyticsParams.error := None;
                                 AnalyticsParams.limit := checked;
                                 AnalyticsParams.timeframeDays := Some (Days days) |}
                     end
               | None =>
                   {| AnalyticsParams.valid := true; AnalyticsParams.error := None;
                      AnalyticsParams.limit := checked;
                      AnalyticsParams.timeframeDays := None |}
               end in
             (AnalyticsParams.valid r = true ->
              match AnalyticsParams.limit r with
              | None => limit = None
              | Some parsed =>
                  is_Some limit /\ exists n, parsed = Some n /\ 1 <= n <= 100
              end
              /\ match AnalyticsParams.timeframeDays r with
                 | None => timeframe = None
                 | Some AllTime => timeframe = Some "all"
                 | Some (Days days) =>
                     is_Some timeframe /\ timeframe <> Some "all"
                     /\ exists n, days = Some n /\ 1 <= n <= 365
                 end)
             /\ (AnalyticsParams.valid r = false ->
                 is_Some (AnalyticsParams.error r)
                 /\ AnalyticsParams.limit r = None
                 /\ AnalyticsParams.timeframeDays r = None)) as Htimeframe.
  { intros checked Hchecked. cbv zeta.
    destruct timeframe as [text |]; cbn [AnalyticsParams.valid AnalyticsParams.limit
      AnalyticsParams.timeframeDays AnalyticsParams.error].
    - destruct (String.eqb_spec text "all") as [-> | Hall].
      + cbn. split; [auto | discriminate].
      + unfold matchDays.
        destruct (JsString.endsWith text "d"
                  && negb (String.eqb (String.substring 0 (String.length text - 1) text)
                             EmptyString)
                  && JsString.forallb_string JsString.is_digit
                       (String.substring 0 (String.length text - 1) text)) eqn:Hmatch.
        * apply andb_true_iff in Hmatch as [Hmatch Hdigits].
          apply andb_true_iff in Hmatch as [_ Hne]. apply negb_true_iff in Hne.
          apply String.eqb_neq in Hne.
          destruct (parseInt_digits _ Hne Hdigits) as (k & Hk & ->).
          cbn [outside].
          destruct (Z.ltb_spec k 1) as [? | ?]; cbn [orb].
          -- cbn. split; [discriminate | eauto].
          -- destruct (Z.ltb_spec 365 k) as [? | ?]; cbn.
             ++ split; [discriminate | eauto].
             ++ split; [| discriminate]. intros _. split; [exact Hchecked |].
                split; [eauto |]. split; [congruence |]. exists k. split; [reflexivity | lia].
        * cbn. split; [discriminate | eauto].
    - split; [auto | discriminate]. }
  destruct limit as [text |].
  - destruct (JsString.parseInt text 10) as [n |] eqn:Hparsed.
    + rewrite bool_decide_eq_false_2 by discriminate. cbn [orb outside].
      destruct (Z.ltb_spec n 1) as [? | ?]; cbn [orb].
      * cbn. split; [discriminate | eauto].
      * destruct (Z.ltb_spec 100 n) as [? | ?].
        -- cbn. split; [discriminate | eauto].
        -- apply (Htimeframe (Some (Some n))). split; [eauto |].
           exists n. split; [reflexivity | lia].
    + rewrite bool_decide_eq_true_2 by reflexivity. cbn.
      split; [discriminate | eauto].
  - apply (Htimeframe None). reflexivity.
Qed.

Lemma analytics_params_within_bounds_witness :
  exists n days,
    AnalyticsParams.limit (validateAnalyticsParams (Some "25") (Some "030d"))
    = Some (Some n)
    /\ 1 <= n <= 100
    /\ AnalyticsParams.timeframeDays (validateAnalyticsParams (Some "25") (Some "030d"))
       = Some (Days (Some days))
    /\ 1 <= days <= 365.
Proof.
  destruct (proj1 (analytics_params_within_bounds (Some "25") (Some "030d") _ eq_refl)
              eq_refl) as [Hlimit Hdays].
  change (AnalyticsParams.limit (validateAnalyticsParams (Some "25") (Some "030d")))
    with (Some (Some 25)) in Hlimit |- *.
  change (AnalyticsParams.timeframeDays
            (validateAnalyticsParams (Some "25") (Some "030d")))
    with (Some (Days (Some 30))) in Hdays |- *.
  destruct Hlimit as (_ & n & [= <-] & Hn).
  destruct Hdays as (_ & _ & days & [= <-] & Hd).
  exists 25, 30. split; [reflexivity |]. split; [exact Hn |].
  split; [reflexivity | exact Hd].
Defined.

(** ** General feedback *)

Section Feedback.
Context `{JsRuntime}.

Lemma sanitizeField_bounds (v : jsval) (maxLength : Z) (t : string) :
  0 <= maxLength ->
  sanitizeField v maxLength = Some t ->
  Z.of_nat (String.length t) <= maxLength
  /\ JsString.forallb_string (fun c => negb (isControl c)) t = true.
Proof.
  intros Hmax. destruct v as [| | b | q | s | l | fields]; try discriminate.
  unfold sanitizeField, sanitizeText.
  destruct (configured (Some s)) as [text |]; [| discriminate].
  intros [= <-]. split.
  - pose proof (removeControl_length
                  (String.substring 0 (Z.to_nat maxLength) (JsString.trim text))).
    pose proof (substring_length_le (Z.to_nat maxLength) (JsString.trim text)). lia.
  - apply removeControl_clean.
Qed.

Lemma isValidRating_cases (rating : jsval) :
  isValidRating rating = true ->
  rating = JUndefined
  \/ exists q n, rating = JNum q /\ (q == inject_Z n)%Q /\ 1 <= n <= 5.
Proof.
  destruct rating as [| | b | q | s | l | fields]; try discriminate; [now left |].
  cbn [isValidRating]. intros Hvalid.
  apply andb_true_iff in Hvalid as [Hvalid Hhigh].
  apply andb_true_iff in Hvalid as [Hinteger Hlow].
  apply Qeq_bool_iff in Hinteger. apply Qle_bool_iff in Hlow, Hhigh.
  right. exists q, (Qfloor q). split; [reflexivity |]. split; [exact Hinteger |].
  rewrite Hinteger in Hlow, Hhigh.
  change 1%Q with (inject_Z 1) in Hlow. change 5%Q with (inject_Z 5) in Hhigh.
  rewrite <- Zle_Qle in Hlow, Hhigh. lia.
Qed.

End Feedback.

(** X25: accepted general feedback is well formed.  When
    [validateGeneralFeedbackRequest] accepts a body, the data it hands on
    has a wallet address of the form [0x] and 40 hexadecimal digits, one of
    the five categories, a feedback text of at most 5000 characters, a title
    of at most 200 and a page URL of at most 500 when present, all free of
    control characters, a rating that is absent or a whole number from 1 to
    5, and metadata that is not an array.  When it rejects, the result
    carries an error message and no data. *)
Theorem accepted_general_feedback_is_well_formed `{JsRuntime} (data : jsval)
    (r : RequestValidation.t) :
  validateGeneralFeedbackRequest data = r ->
  (forall k s, Js.opt_prop data k = JStr s -> asciiText s = true) ->
  (RequestValidation.valid r = true ->
   exists d category feedback,
     RequestValidation.data r = Some d
     /\ feedback_walletAddress d = Js.opt_prop data "walletAddress"
     /\ walletPattern_test (ToString (feedback_walletAddress d)) = true
     /\ feedback_category d = JStr category
     /\ category ∈ GENERAL_FEEDBACK_CATEGORIES
     /\ feedback_text d = Some feedback
     /\ Z.of_nat (String.length feedback) <= 5000
     /\ JsString.forallb_string (fun c => negb (isControl c)) feedback = true
     /\ (forall title, feedback_title d = Some title ->
           Z.of_nat (String.length title) <= 200
           /\ JsString.forallb_string (fun c => negb (isControl c)) title = true)
     /\ (forall pageUrl, feedback_pageUrl d = Some pageUrl ->
           Z.of_nat (String.length pageUrl) <= 500
           /\ JsString.forallb_string (fun c => negb (isControl c)) pageUrl = true)
     /\ (feedback_rating d = JUndefined
         \/ exists q n, feedback_rating d = JNum q /\ (q == inject_Z n)%Q /\ 1 <= n <= 5)
     /\ isArray (feedback_metadata d) = false)
  /\ (RequestValidation.valid r = false ->
      is_Some (RequestValidation.error r) /\ RequestValidation.data r = None).
Proof.
  intros <- _. unfold validateGeneralFeedbackRequest. cbv zeta.
  repeat lazymatch goal with
         | |- context [if ?c then RequestValidation.rejected _ _ else _] =>
             let Hc := fresh "Hcheck" in
             destruct c eqn:Hc;
             [cbn [RequestValidation.rejected RequestValidation.valid
                   RequestValidation.error RequestValidation.data];
              split; [discriminate | intros _; split; [eexists; reflexivity | reflexivity]] |]
         end.
  cbn [RequestValidation.valid RequestValidation.error RequestValidation.data].
  split; [intros _ | discriminate].
  apply orb_false_iff in Hcheck0 as [_ Hwallet]. apply negb_false_iff in Hwallet.
  unfold isValidWalletAddress in Hwallet.
  destruct (negb (Js.truthy (Js.opt_prop data "walletAddress"))); [discriminate |].
  apply orb_false_iff in Hcheck1 as [_ Hcategory]. apply negb_false_iff in Hcategory.
  destruct (Js.opt_prop data "category") as [| | b | q | category | l | fields] eqn:Hc;
    try discriminate.
  cbn [isCategory] in Hcategory. apply bool_decide_eq_true in Hcategory.
  apply orb_false_iff in Hcheck2 as [_ Hfeedback].
  destruct (Js.opt_prop data "feedback") as [| | b | q | feedback | l | fields] eqn:Hf;
    try discriminate.
  cbn [sanitizeField]. unfold sanitizeText at 1.
  destruct (configured (Some feedback)) as [text |] eqn:Hconfigured.
  2: { unfold configured in Hconfigured.
       destruct (String.eqb_spec feedback EmptyString) as [-> | _]; discriminate. }
  eexists _, category, _. split; [reflexivity |].
  cbn [feedback_walletAddress feedback_category feedback_text feedback_title
       feedback_rating feedback_pageUrl feedback_metadata].
  split; [reflexivity |]. split; [exact Hwallet |]. split; [reflexivity |].
  split; [exact Hcategory |]. split; [reflexivity |].
  assert (sanitizeField (JStr feedback) 5000
          = Some (removeControl
                    (String.substring 0 (Z.to_nat 5000) (JsString.trim text)))) as Hs.
  { cbn [sanitizeField]. unfold sanitizeText. now rewrite Hconfigured. }
  apply sanitizeField_bounds in Hs as [Hlength Hclean]; [| lia].
  split; [exact Hlength |]. split; [exact Hclean |].
  split.
  { intros title. destruct (Js.truthy (Js.opt_prop data "title")); [| discriminate].
    apply sanitizeField_bounds. lia. }
  split.
  { intros pageUrl. destruct (Js.truthy (Js.opt_prop data "pageUrl")); [| discriminate].
    apply sanitizeField_bounds. lia. }
  split.
  { apply andb_false_iff in Hcheck5 as [Hundefined | Hrating].
    - apply negb_false_iff in Hundefined. left.
      destruct (Js.opt_prop data "rating"); try discriminate. reflexivity.
    - apply negb_false_iff in Hrating. now apply isValidRating_cases. }
  apply andb_false_iff in Hcheck7 as [Hundefined | Hmetadata].
  - apply negb_false_iff in Hundefined.
    destruct (Js.opt_prop data "metadata"); try discriminate. reflexivity.
  - apply orb_false_iff in Hmetadata as [_ Harray]. exact Harray.
Qed.

Lemma accepted_general_feedback_is_well_formed_witness :
  exists d feedback,
    RequestValidation.data (validateGeneralFeedbackRequest sampleFeedback) = Some d
    /\ feedback_text d = Some feedback
    /\ Z.of_nat (String.length feedback) <= 5000
    /\ feedback_title d = None.
Proof.
  assert (forall k s, Js.opt_prop sampleFeedback k = JStr s -> asciiText s = true)
    as Hascii.
  { intros k s. unfold sampleFeedback, Js.opt_prop, Js.prop. cbn [Js.assoc].
    repeat match goal with
           | |- context [if String.eqb k ?x then _ else _] => destruct (String.eqb k x)
           end; cbn [default]; intros Heq; inversion Heq; subst; reflexivity. }
  destruct (proj1 (accepted_general_feedback_is_well_formed
                     (H := reference_runtime) sampleFeedback _ eq_refl Hascii)
              ltac:(vm_compute; reflexivity))
    as (d & category & feedback & Hd & _ & _ & _ & _ & Htext & Hlength & _).
  exists d, feedback. split; [exact Hd |]. split; [exact Htext |].
  split; [exact Hlength |].
  assert (RequestValidation.data (validateGeneralFeedbackRequest sampleFeedback)
          = Some {| feedback_walletAddress := JStr ("0x" ++ JsString.repeat_char "b" 40);
                    feedback_category := JStr "bug";
                    feedback_text := Some "The treasure map is upside down.";
                    feedback_title := None;
                    feedback_rating := JNum 4;
                    feedback_pageUrl := None;
                    feedback_metadata := JUndefined |}) as Hvalue
    by (vm_compute; reflexivity).
  rewrite Hvalue in Hd. injection Hd as <-. reflexivity.
Defined.

(** ** The badge contract *)

Lemma fold_left_invariant {S X : Type} (P : S -> Prop) (f : S -> X -> S) (l : list X) :
  (forall s x, P s -> P (f s x)) -> forall s, P s -> P (fold_left f l s).
Proof.
  intros Hstep. induction l as [| x l IH]; intros s Hs; [exact Hs |].
  cbn [fold_left]. apply IH, Hstep, Hs.
Qed.

(** Removing by swapping with the last element keeps a list free of
    duplicates and removes exactly the token. *)
Lemma removeWalletTokenId_spec (tokenIds : list Z) (tokenId : Z) :
  NoDup tokenIds ->
  NoDup (Registry._removeWalletTokenId tokenIds tokenId)
  /\ forall x, x ∈ Registry._removeWalletTokenId tokenIds tokenId
               <-> x ∈ tokenIds /\ x <> tokenId.
Proof.
  intros Hnodup. unfold Registry._removeWalletTokenId.
  destruct (list_find (fun x => x = tokenId) tokenIds) as [[i y] |] eqn:Hfind.
  - apply list_find_Some in Hfind as (Hi & -> & _).
    pose proof (take_drop_middle _ _ _ Hi) as Hsplit.
    pose proof (lookup_lt_Some _ _ _ Hi) as Hlt.
    rewrite insert_take_drop by exact Hlt.
    set (before := take i tokenIds) in *. set (after := drop (S i) tokenIds) in *.
    rewrite <- Hsplit in Hnodup |- *. clear Hsplit Hi Hlt.
    apply NoDup_app in Hnodup as (Hbefore & Hdisjoint & Hafter).
    apply NoDup_cons in Hafter as [Hfresh Hafter].
    destruct after as [| z rest _] using rev_ind.
    + replace (List.last (before ++ [tokenId])%list 0) with tokenId
        by now rewrite last_last.
      rewrite removelast_last. split; [exact Hbefore |].
      intros x. rewrite elem_of_app, list_elem_of_singleton. split.
      * intros Hx. split; [now left |]. intros ->. apply (Hdisjoint tokenId Hx). set_solver.
      * intros [[Hx | ->] Hne]; [exact Hx | contradiction].
    + replace (List.last (before ++ tokenId :: rest ++ [z])%list 0) with z
        by (change (before ++ tokenId :: rest ++ [z])%list
              with (before ++ (tokenId :: rest) ++ [z])%list;
            now rewrite app_assoc, last_last).
      change (before ++ z :: rest ++ [z])%list with (before ++ (z :: rest) ++ [z])%list.
      rewrite app_assoc, removelast_last.
      apply NoDup_app in Hafter as (Hrest & Hz & _).
      assert (z ∉ rest) as Hzrest by (intros Hin; apply (Hz z Hin); set_solver).
      assert (z <> tokenId) as Hzid by (intros ->; apply Hfresh; set_solver).
      split.
      * apply NoDup_app. split; [exact Hbefore |]. split.
        -- intros x Hx Hin. apply (Hdisjoint x Hx).
           apply elem_of_cons in Hin as [-> | Hin]; set_solver.
        -- apply NoDup_cons. split; assumption.
      * intros x. rewrite !elem_of_app, !elem_of_cons, elem_of_app,
          list_elem_of_singleton. split.
        -- intros [Hx | [-> | Hx]].
           ++ split; [now left |]. intros ->. apply (Hdisjoint tokenId Hx). set_solver.
           ++ split; [auto | exact Hzid].
           ++ split; [auto |]. intros ->. apply Hfresh. set_solver.
        -- intros [[Hx | [-> | [Hx | ->]]] Hne]; auto. contradiction.
  - apply list_find_None in Hfind. split; [exact Hnodup |].
    intros x. split; [| now intros [Hx _]].
    intros Hx. split; [exact Hx |]. intros ->.
    rewrite Forall_forall in Hfind. now apply (Hfind tokenId).
Qed.

Section RegistryFacts.
Context `{Registry.OpenZeppelin}.

Lemma write_same {V : Type} (m : Registry.address -> Z -> V) (a : Registry.address)
    (k : Z) (v : V) :
  Registry.write m a k v a k = v.
Proof. unfold Registry.write. now rewrite !Z.eqb_refl. Qed.

Lemma write_other {V : Type} (m : Registry.address -> Z -> V) (a a' : Registry.address)
    (k k' : Z) (v : V) :
  (a', k') <> (a, k) -> Registry.write m a k v a' k' = m a' k'.
Proof.
  intros Hne. unfold Registry.write.
  destruct (Z.eqb_spec a' a) as [-> | _]; [| reflexivity].
  destruct (Z.eqb_spec k' k) as [-> | _]; [congruence | reflexivity].
Qed.

Lemma set_index_consistent (s : Registry.state) (wallet : Registry.address)
    (tokenId : Z) (flag : bool) (ids : list Z) :
  Registry.indexConsistent s ->
  NoDup ids ->
  (forall x, x ∈ ids <->
             (if decide (x = tokenId) then flag = true
              else x ∈ Registry._walletTokenIds s wallet)) ->
  Registry.indexConsistent (Registry.set_index wallet tokenId flag ids s).
Proof.
  intros Hs Hnodup Hids other. cbn [Registry.set_index Registry._walletTokenIds
    Registry._hasTokenId].
  destruct (Z.eqb_spec other wallet) as [-> | Hother].
  - split; [exact Hnodup |]. intros x. rewrite Hids.
    destruct (decide (x = tokenId)) as [-> | Hx].
    + now rewrite write_same.
    + rewrite write_other by congruence. apply Hs.
  - destruct (Hs other) as [Hn Hflags]. split; [exact Hn |].
    intros x. rewrite write_other by congruence. apply Hflags.
Qed.

Lemma indexGained_consistent (to : Registry.address) (s : Registry.state) (tokenId : Z) :
  Registry.indexConsistent s -> Registry.indexConsistent (Registry.indexGained to s tokenId).
Proof.
  intros Hs. unfold Registry.indexGained.
  destruct (negb (Registry._hasTokenId s to tokenId)
            && (0 <? Registry.balanceOf (Registry.inherited s) to tokenId)) eqn:Hgain;
    [| exact Hs].
  apply andb_true_iff in Hgain as [Hflag _]. apply negb_true_iff in Hflag.
  destruct (Hs to) as [Hnodup Hflags].
  assert (tokenId ∉ Registry._walletTokenIds s to) as Hfresh.
  { intros Hin. apply Hflags in Hin. congruence. }
  apply set_index_consistent; [exact Hs | |].
  - apply NoDup_app. split; [exact Hnodup |]. split; [| apply NoDup_singleton].
    intros x Hx Hin. apply list_elem_of_singleton in Hin as ->. contradiction.
  - intros x. rewrite elem_of_app, list_elem_of_singleton.
    destruct (decide (x = tokenId)) as [-> | Hx]; [tauto |]. tauto.
Qed.

Lemma indexLost_consistent (from : Registry.address) (s : Registry.state) (tokenId : Z) :
  Registry.indexConsistent s -> Registry.indexConsistent (Registry.indexLost from s tokenId).
Proof.
  intros Hs. unfold Registry.indexLost.
  destruct (Registry._hasTokenId s from tokenId
            && (Registry.balanceOf (Registry.inherited s) from tokenId =? 0));
    [| exact Hs].
  destruct (Hs from) as [Hnodup _].
  destruct (removeWalletTokenId_spec _ tokenId Hnodup) as [Hn Hmembers].
  apply set_index_consistent; [exact Hs | exact Hn |].
  intros x. rewrite Hmembers.
  destruct (decide (x = tokenId)) as [-> | Hx]; [| tauto].
  split; [intros [_ Hne]; contradiction | discriminate].
Qed.

Lemma update_consistent (s s' : Registry.state) (from to : Registry.address)
    (ids amounts : list Z) :
  Registry.indexConsistent s ->
  Registry._update s from to ids amounts = inr s' ->
  Registry.indexConsistent s'.
Proof.
  intros Hs. unfold Registry._update.
  destruct (negb ((from =? 0) || (to =? 0))); [discriminate |].
  destruct (Registry.super_update _ _ _ _ _) as [e | b]; [discriminate |].
  intros [= <-].
  assert (Registry.indexConsistent (Registry.set_inherited b s)) as H1 by exact Hs.
  destruct (negb (from =? 0)), (negb (to =? 0));
    repeat (apply fold_left_invariant;
            [first [apply indexLost_consistent | apply indexGained_consistent] |]);
    exact H1.
Qed.

(** What a successful update with the call to the receiver has done. *)
Lemma updateWithAcceptanceCheck_inv (s s' : Registry.state)
    (from to : Registry.address) (ids amounts : list Z)
    (received : Registry.state -> Registry.state * option Registry.reason) :
  Registry._updateWithAcceptanceCheck s from to ids amounts received = inr s' ->
  exists updated,
    Registry._update s from to ids amounts = inr updated
    /\ (to = 0 /\ s' = updated \/ to <> 0 /\ received updated = (s', None)).
Proof.
  unfold Registry._updateWithAcceptanceCheck.
  destruct (Registry._update s from to ids amounts) as [e | updated]; [discriminate |].
  destruct (Z.eqb_spec to 0) as [Hto | Hto].
  - intros [= <-]. exists updated. split; [reflexivity | left; split; auto].
  - destruct (received updated) as [s1 [e |]] eqn:Hreceived; [discriminate |].
    intros [= <-]. exists updated. split; [reflexivity | right; split; auto].
Qed.

(** The hook of the contract refuses a transfer between two accounts before
    the receiver is called. *)
Lemma transfer_refused (s : Registry.state) (from to : Registry.address)
    (ids amounts : list Z)
    (received : Registry.state -> Registry.state * option Registry.reason) :
  from <> 0 -> to <> 0 ->
  Registry._updateWithAcceptanceCheck s from to ids amounts received
  = inl "SBT: non-transferable".
Proof.
  intros Hfrom Hto. unfold Registry._updateWithAcceptanceCheck, Registry._update.
  destruct (Z.eqb_spec from 0) as [? | _]; [contradiction |].
  destruct (Z.eqb_spec to 0) as [? | _]; [contradiction |]. reflexivity.
Qed.

Lemma safeTransferFrom_reverts (s : Registry.state) (msgSender from to : Registry.address)
    (id value : Z) (received : Registry.state -> Registry.state * option Registry.reason) :
  exists e, Registry.safeTransferFrom s msgSender from to id value received = inl e.
Proof.
  unfold Registry.safeTransferFrom.
  destruct (negb _); [eauto |].
  destruct (Z.eqb_spec to 0) as [? | Hto]; [eauto |].
  destruct (Z.eqb_spec from 0) as [? | Hfrom]; [eauto |].
  rewrite transfer_refused by assumption. eauto.
Qed.

Lemma safeBatchTransferFrom_reverts (s : Registry.state)
    (msgSender from to : Registry.address) (ids values : list Z)
    (received : Registry.state -> Registry.state * option Registry.reason) :
  exists e, Registry.safeBatchTransferFrom s msgSender from to ids values received = inl e.
Proof.
  unfold Registry.safeBatchTransferFrom.
  destruct (negb _); [eauto |].
  destruct (Z.eqb_spec to 0) as [? | Hto]; [eauto |].
  destruct (Z.eqb_spec from 0) as [? | Hfrom]; [eauto |].
  rewrite transfer_refused by assumption. eauto.
Qed.

(** What a successful [submitVoucher] has checked and written: [minted] is
    the state in which the receiver is called. *)
Lemma submitVoucher_inv (s s' : Registry.state) (wallet : Registry.address)
    (taskCode : Z) (signature : string)
    (received : Registry.state -> Registry.state * option Registry.reason) :
  Registry.submitVoucher s wallet taskCode signature received = inr s' ->
  Registry.paused (Registry.inherited s) = false
  /\ Registry.completed s wallet taskCode = false
  /\ wallet <> 0
  /\ (exists signer,
         Registry.recover (Registry.voucherDigest (Registry.inherited s) taskCode wallet)
           signature = inr signer
         /\ Registry.isIssuer s signer = true)
  /\ exists minted,
       Registry._update (Registry.set_completed wallet taskCode s) 0 wallet
         [taskCode] [1] = inr minted
       /\ received minted = (s', None).
Proof.
  unfold Registry.submitVoucher.
  destruct (Registry.paused (Registry.inherited s)); [discriminate |].
  destruct (Registry.completed s wallet taskCode); [discriminate |].
  destruct (Registry.recover _ signature) as [e | signer] eqn:Hrecover; [discriminate |].
  destruct (Registry.isIssuer s signer) eqn:Hissuer; [| discriminate].
  cbn [negb]. unfold Registry._mint.
  destruct (Z.eqb_spec wallet 0) as [? | Hwallet]; [discriminate |].
  intros Hmint.
  apply updateWithAcceptanceCheck_inv in Hmint
    as (minted & Hupdate & [[? _] | [_ Hreceived]]); [contradiction |].
  repeat split; eauto.
Qed.

(** A property that every write keeps holds after every call that returns,
    and after the calls that reach the registry from a receiver. *)
Lemma execute_keeps (P : Registry.state -> Prop) :
  Registry.kept P ->
  (forall c s msgSender s',
      P s -> Registry.execute s msgSender c = inr s' -> P s')
  /\ (forall calls s, P s -> P (Registry.reenter s calls)).
Proof.
  intros (Hcompleted & Hmint & Hinherited & Hissuers & Hbase & Hpad).
  assert (forall c s msgSender s',
             P s -> Registry.execute s msgSender c = inr s' -> P s') as Hcalls.
  { apply (@Registry.call_reentry _
             (fun c => forall s msgSender s',
                  P s -> Registry.execute s msgSender c = inr s' -> P s')
             (fun calls => forall s, P s -> P (Registry.reenter s calls)));
      cbn [Registry.execute Registry.reenter].
    - intros taskCode signature calls IH refusal s msgSender s' Hs Hsubmit.
      apply submitVoucher_inv in Hsubmit
        as (_ & _ & _ & _ & minted & Hupdate & [= <- _]).
      apply IH. eapply Hmint; [| exact Hupdate]. apply Hcompleted, Hs.
    - intros issuer allowed s msgSender s' Hs.
      unfold Registry.setIssuer, Registry.onlyOwner.
      destruct (negb _); [discriminate |]. intros [= <-]. apply Hissuers, Hs.
    - intros newBaseURI s msgSender s' Hs.
      unfold Registry.setBaseURI, Registry.onlyOwner.
      destruct (negb _); [discriminate |]. intros [= <-].
      apply Hbase, Hinherited, Hs.
    - intros newPad s msgSender s' Hs.
      unfold Registry.setUriPadDigits, Registry.onlyOwner.
      destruct (negb _); [discriminate |]. intros [= <-]. apply Hpad, Hs.
    - intros s msgSender s' Hs. unfold Registry.pause, Registry.onlyOwner.
      destruct (negb _); [discriminate |].
      destruct (Registry._pause _); [discriminate |]. intros [= <-].
      apply Hinherited, Hs.
    - intros s msgSender s' Hs. unfold Registry.unpause, Registry.onlyOwner.
      destruct (negb _); [discriminate |].
      destruct (Registry._unpause _); [discriminate |]. intros [= <-].
      apply Hinherited, Hs.
    - intros from to id value calls _ refusal s msgSender s' _ Htransfer.
      destruct (safeTransferFrom_reverts s msgSender from to id value
                  (fun s0 => (Registry.reenter s0 calls, refusal))) as [e He].
      congruence.
    - intros from to ids values calls _ refusal s msgSender s' _ Htransfer.
      destruct (safeBatchTransferFrom_reverts s msgSender from to ids values
                  (fun s0 => (Registry.reenter s0 calls, refusal))) as [e He].
      congruence.
    - intros f s msgSender s' Hs.
      destruct (f _); [discriminate |]. intros [= <-]. apply Hinherited, Hs.
    - intros s Hs. exact Hs.
    - intros msgSender c IHc rest IHrest s Hs. apply IHrest.
      destruct (Registry.execute s msgSender c) as [e | s1] eqn:Hexecute;
        [exact Hs | exact (IHc _ _ _ Hs Hexecute)]. }
  split; [exact Hcalls |].
  induction calls as [| msgSender c rest IH]; intros s Hs; cbn [Registry.reenter];
    [exact Hs |].
  apply IH. destruct (Registry.execute s msgSender c) as [e | s1] eqn:Hexecute;
    [exact Hs | exact (Hcalls _ _ _ _ Hs Hexecute)].
Qed.

Lemma transactAll_keeps (P : Registry.state -> Prop)
    (txs : list (Registry.address * Registry.call)) (s : Registry.state) :
  Registry.kept P -> P s -> P (Registry.transactAll s txs).
Proof.
  intros Hkept. apply fold_left_invariant. intros s0 [msgSender c] Hs0.
  unfold Registry.transact. cbn [fst snd].
  destruct (Registry.execute s0 msgSender c) as [e | s1] eqn:Hexecute; [exact Hs0 |].
  exact (proj1 (execute_keeps P Hkept) _ _ _ _ Hs0 Hexecute).
Qed.

Lemma indexConsistent_kept : Registry.kept Registry.indexConsistent.
Proof.
  unfold Registry.kept. repeat apply conj; try (intros; assumption).
  intros s s' to ids amounts Hs Hupdate.
  exact (update_consistent _ _ _ _ _ _ Hs Hupdate).
Qed.

End RegistryFacts.

Section RegistryFlow.
Context `{Registry.OpenZeppelin}.

Lemma fold_indexGained_completed (to : Registry.address) (ids : list Z)
    (s : Registry.state) :
  Registry.completed (fold_left (Registry.indexGained to) ids s) = Registry.completed s
  /\ Registry.isIssuer (fold_left (Registry.indexGained to) ids s) = Registry.isIssuer s
  /\ Registry.inherited (fold_left (Registry.indexGained to) ids s)
     = Registry.inherited s.
Proof.
  revert s. induction ids as [| id ids IH]; intros s; [auto |].
  cbn [fold_left]. destruct (IH (Registry.indexGained to s id)) as (-> & -> & ->).
  unfold Registry.indexGained. destruct (_ && _); auto.
Qed.

Lemma fold_indexLost_completed (from : Registry.address) (ids : list Z)
    (s : Registry.state) :
  Registry.completed (fold_left (Registry.indexLost from) ids s) = Registry.completed s
  /\ Registry.isIssuer (fold_left (Registry.indexLost from) ids s) = Registry.isIssuer s
  /\ Registry.inherited (fold_left (Registry.indexLost from) ids s)
     = Registry.inherited s.
Proof.
  revert s. induction ids as [| id ids IH]; intros s; [auto |].
  cbn [fold_left]. destruct (IH (Registry.indexLost from s id)) as (-> & -> & ->).
  unfold Registry.indexLost. destruct (_ && _); auto.
Qed.

Lemma update_completed (s s' : Registry.state) (from to : Registry.address)
    (ids amounts : list Z) :
  Registry._update s from to ids amounts = inr s' ->
  Registry.completed s' = Registry.completed s
  /\ Registry.isIssuer s' = Registry.isIssuer s.
Proof.
  unfold Registry._update.
  destruct (negb ((from =? 0) || (to =? 0))); [discriminate |].
  destruct (Registry.super_update _ _ _ _ _) as [e | b]; [discriminate |].
  intros [= <-].
  destruct (negb (from =? 0)), (negb (to =? 0));
    repeat match goal with
           | |- context [fold_left (Registry.indexLost ?a) ?l ?s] =>
               destruct (fold_indexLost_completed a l s) as (-> & -> & _)
           | |- context [fold_left (Registry.indexGained ?a) ?l ?s] =>
               destruct (fold_indexGained_completed a l s) as (-> & -> & _)
           end; auto.
Qed.

Lemma completed_kept (wallet : Registry.address) (taskCode : Z) :
  Registry.kept (fun s => Registry.completed s wallet taskCode = true).
Proof.
  unfold Registry.kept. repeat apply conj; try (intros; assumption).
  - intros s other task Hs. cbn [Registry.set_completed Registry.completed].
    unfold Registry.write. destruct (_ && _); [reflexivity | exact Hs].
  - intros s s' to ids amounts Hs Hupdate.
    apply update_completed in Hupdate as [-> _]. exact Hs.
Qed.

Lemma fold_indexGained_flag (to : Registry.address) (ids : list Z) (s : Registry.state)
    (wallet : Registry.address) (tokenId : Z) :
  Registry._hasTokenId s wallet tokenId = true ->
  Registry._hasTokenId (fold_left (Registry.indexGained to) ids s) wallet tokenId = true.
Proof.
  revert s. induction ids as [| id ids IH]; intros s Hs; [exact Hs |].
  cbn [fold_left]. apply IH. unfold Registry.indexGained.
  destruct (_ && _); [| exact Hs].
  cbn [Registry.set_index Registry._hasTokenId]. unfold Registry.write.
  destruct (_ && _); [reflexivity | exact Hs].
Qed.

(** No call that returns takes a badge out of the index: the index loses a
    token only in an update from an account, and those revert. *)
Lemma hasTokenId_kept (wallet : Registry.address) (tokenId : Z) :
  Registry.kept (fun s => Registry._hasTokenId s wallet tokenId = true).
Proof.
  unfold Registry.kept. repeat apply conj; try (intros; assumption).
  intros s s' to ids amounts Hs. unfold Registry._update. cbn [Z.eqb orb negb].
  destruct (Registry.super_update _ _ _ _ _) as [e | b]; [discriminate |].
  intros [= <-]. destruct (negb (to =? 0)); [| exact Hs].
  apply fold_indexGained_flag. exact Hs.
Qed.

(** The update of a mint of one badge credits it and lists it. *)
Lemma mint_lists_badge (s minted : Registry.state) (wallet : Registry.address)
    (taskCode : Z) :
  wallet <> 0 ->
  Registry._update s 0 wallet [taskCode] [1] = inr minted ->
  0 < Registry.balanceOf (Registry.inherited minted) wallet taskCode
  /\ Registry.hasAchievement minted wallet taskCode = true.
Proof.
  intros Hwallet. unfold Registry._update. cbn [Z.eqb orb negb].
  destruct (Registry.super_update _ 0 wallet [taskCode] [1]) as [e | b] eqn:Hsuper;
    [discriminate |].
  pose proof (Registry.mint_credits _ _ _ _ Hwallet Hsuper) as Hbalance.
  destruct (Z.eqb_spec wallet 0) as [? | _]; [contradiction |].
  cbn [negb fold_left]. intros [= <-].
  unfold Registry.indexGained, Registry.hasAchievement.
  cbn [Registry.set_inherited Registry.inherited Registry._hasTokenId].
  destruct (Registry._hasTokenId s wallet taskCode) eqn:Hflag; cbn [negb andb].
  - cbn [Registry.inherited Registry._hasTokenId Registry.set_inherited].
    rewrite Hflag. auto.
  - destruct (Z.ltb_spec 0 (Registry.balanceOf b wallet taskCode)) as [_ | ?]; [| lia].
    cbn [Registry.set_index Registry.inherited Registry._hasTokenId
         Registry.set_inherited].
    rewrite write_same. auto.
Qed.

End RegistryFlow.

(** The receiver of a badge can redeem another voucher before it answers:
    the contract wallet 5, asked to accept the badge of task 1, redeems its
    voucher for task 2, and the one call of [submitVoucher] for task 1
    returns with both tasks completed and both badges listed. *)
Example receiver_redeems_another_voucher :
  exists s',
    Registry.execute Registry.deployed 5
      (Registry.SubmitVoucher 1 "7" Registry.redeemsAnother None) = inr s'
    /\ Registry.completed s' 5 2 = true
    /\ Registry.getWalletAchievements s' 5 = [1; 2].
Proof.
  eexists. split; [| split].
  - let r := eval hnf in
        (Registry.execute Registry.deployed 5
           (Registry.SubmitVoucher 1 "7" Registry.redeemsAnother None)) in
    change (Registry.execute Registry.deployed 5
              (Registry.SubmitVoucher 1 "7" Registry.redeemsAnother None)) with r.
    reflexivity.
  - vm_compute. reflexivity.
  - vm_compute. reflexivity.
Qed.

(** X26: a voucher is redeemed at most once.  After [submitVoucher] returned
    for a wallet and a task, whatever the receiver of the badge called in
    between, every later [submitVoucher] of that wallet for that task
    reverts, whatever the signature, whatever its receiver would do, and
    whatever transactions (of any sender: further vouchers, changes of the
    issuers, pausing, transfers, with calls from their receivers) the
    contract has executed in between. *)
Theorem voucher_is_redeemed_at_most_once `{Registry.OpenZeppelin}
    (s s' : Registry.state) (wallet : Registry.address) (taskCode : Z)
    (signature signature' : string) (calls : Registry.reentry)
    (refusal : option Registry.reason)
    (received' : Registry.state -> Registry.state * option Registry.reason)
    (txs : list (Registry.address * Registry.call)) :
  Registry.execute s wallet (Registry.SubmitVoucher taskCode signature calls refusal)
  = inr s' ->
  exists e,
    Registry.submitVoucher (Registry.transactAll s' txs) wallet taskCode signature'
      received' = inl e
    /\ (Registry.paused (Registry.inherited (Registry.transactAll s' txs)) = false ->
        e = "already completed").
Proof.
  intros Hsubmit. cbn [Registry.execute] in Hsubmit.
  apply submitVoucher_inv in Hsubmit as (_ & _ & _ & _ & minted & Hupdate & [= <- _]).
  apply update_completed in Hupdate as [Hcompleted _].
  assert (Registry.completed minted wallet taskCode = true) as Hdone.
  { rewrite Hcompleted. cbn [Registry.set_completed Registry.completed].
    apply write_same. }
  apply (proj2 (execute_keeps _ (completed_kept wallet taskCode)) calls) in Hdone.
  pose proof (transactAll_keeps _ txs _ (completed_kept wallet taskCode) Hdone) as Hlater.
  cbv beta in Hlater.
  unfold Registry.submitVoucher.
  destruct (Registry.paused _).
  - eexists. split; [reflexivity | discriminate].
  - rewrite Hlater. eexists. split; reflexivity.
Qed.

Lemma voucher_is_redeemed_at_most_once_witness :
  exists s',
    Registry.execute Registry.deployed 5
      (Registry.SubmitVoucher 1 "7" Registry.redeemsAnother None) = inr s'
    /\ Registry.submitVoucher
         (Registry.transactAll s' [(5, Registry.SubmitVoucher 3 "7" Registry.Returns None);
                                   (1, Registry.SetIssuer 7 false)])
         5 1 "7" (fun s0 => (s0, None))
       = inl "already completed".
Proof.
  eassert (Registry.execute Registry.deployed 5
             (Registry.SubmitVoucher 1 "7" Registry.redeemsAnother None) = inr _)
    as Hsubmit.
  { let r := eval hnf in
        (Registry.execute Registry.deployed 5
           (Registry.SubmitVoucher 1 "7" Registry.redeemsAnother None)) in
    change (Registry.execute Registry.deployed 5
              (Registry.SubmitVoucher 1 "7" Registry.redeemsAnother None)) with r.
    reflexivity. }
  eexists. split; [exact Hsubmit |].
  destruct (voucher_is_redeemed_at_most_once _ _ _ _ _ "7" _ _ (fun s0 => (s0, None))
              [(5, Registry.SubmitVoucher 3 "7" Registry.Returns None);
               (1, Registry.SetIssuer 7 false)]
              Hsubmit) as (e & -> & He).
  rewrite He; reflexivity.
Defined.

(** X27: a redeemed voucher was signed by an approved issuer for the sender.
    When a call of [submitVoucher] returns, the contract was not paused,
    the task was not yet completed by the sender, the signature recovers,
    on the digest of the task code and the address of the sender, to an
    address that is an issuer at that moment, and the receiver did not
    refuse.  The receiver was called in a state [minted] in which the task
    is completed for the sender and for nobody else in addition, the sender
    holds the badge ([balanceOf] is positive, [hasAchievement] is true) and
    the issuers are as before; the call returns the state that the calls of
    the receiver made of [minted].  Whatever those calls were, in the
    returned state the task is completed for the sender, [hasAchievement]
    is true for the badge, and every task completed before is still
    completed.  When the receiver made no call (an externally owned
    account), the returned state is [minted]. *)
Theorem redeemed_voucher_was_issued_to_the_sender `{Registry.OpenZeppelin}
    (s s' : Registry.state) (wallet : Registry.address) (taskCode : Z)
    (signature : string) (calls : Registry.reentry) (refusal : option Registry.reason) :
  Registry.execute s wallet (Registry.SubmitVoucher taskCode signature calls refusal)
  = inr s' ->
  Registry.paused (Registry.inherited s) = false
  /\ Registry.completed s wallet taskCode = false
  /\ (exists signer,
         Registry.recover (Registry.voucherDigest (Registry.inherited s) taskCode wallet)
           signature = inr signer
         /\ Registry.isIssuer s signer = true)
  /\ refusal = None
  /\ (exists minted,
         s' = Registry.reenter minted calls
         /\ Registry.completed minted wallet taskCode = true
         /\ (forall other task, (other, task) <> (wallet, taskCode) ->
               Registry.completed minted other task = Registry.completed s other task)
         /\ 0 < Registry.balanceOf (Registry.inherited minted) wallet taskCode
         /\ Registry.hasAchievement minted wallet taskCode = true
         /\ Registry.isIssuer minted = Registry.isIssuer s)
  /\ Registry.completed s' wallet taskCode = true
  /\ Registry.hasAchievement s' wallet taskCode = true
  /\ (forall other task,
        Registry.completed s other task = true -> Registry.completed s' other task = true)
  /\ (calls = Registry.Returns ->
        (forall other task, (other, task) <> (wallet, taskCode) ->
           Registry.completed s' other task = Registry.completed s other task)
        /\ 0 < Registry.balanceOf (Registry.inherited s') wallet taskCode
        /\ Registry.isIssuer s' = Registry.isIssuer s).
Proof.
  intros Hsubmit. cbn [Registry.execute] in Hsubmit.
  apply submitVoucher_inv in Hsubmit
    as (Hpaused & Hnew & Hwallet & Hsigner & minted & Hupdate & [= <- <-]).
  split; [exact Hpaused |]. split; [exact Hnew |]. split; [exact Hsigner |].
  split; [reflexivity |].
  destruct (mint_lists_badge _ _ _ _ Hwallet Hupdate) as [Hbalance Hflag].
  destruct (update_completed _ _ _ _ _ _ Hupdate) as [Hcompleted Hissuers].
  cbn [Registry.set_completed Registry.completed Registry.isIssuer] in Hcompleted, Hissuers.
  assert (Registry.completed minted wallet taskCode = true) as Hdone
    by (rewrite Hcompleted; apply write_same).
  assert (forall other task, (other, task) <> (wallet, taskCode) ->
             Registry.completed minted other task = Registry.completed s other task)
    as Hothers by (intros other task Hne; rewrite Hcompleted; now apply write_other).
  split; [exists minted; repeat apply conj; auto |].
  split; [exact (proj2 (execute_keeps _ (completed_kept wallet taskCode)) calls _ Hdone) |].
  split; [exact (proj2 (execute_keeps _ (hasTokenId_kept wallet taskCode)) calls _ Hflag) |].
  split.
  - intros other task Hbefore.
    apply (proj2 (execute_keeps _ (completed_kept other task)) calls).
    rewrite Hcompleted. unfold Registry.write.
    destruct (_ && _); [reflexivity | exact Hbefore].
  - intros ->. cbn [Registry.reenter]. auto.
Qed.

Lemma redeemed_voucher_was_issued_to_the_sender_witness :
  exists s',
    Registry.execute Registry.deployed 5
      (Registry.SubmitVoucher 1 "7" Registry.redeemsAnother None) = inr s'
    /\ Registry.hasAchievement s' 5 1 = true
    /\ Registry.completed s' 5 1 = true.
Proof.
  eassert (Registry.execute Registry.deployed 5
             (Registry.SubmitVoucher 1 "7" Registry.redeemsAnother None) = inr _)
    as Hsubmit.
  { let r := eval hnf in
        (Registry.execute Registry.deployed 5
           (Registry.SubmitVoucher 1 "7" Registry.redeemsAnother None)) in
    change (Registry.execute Registry.deployed 5
              (Registry.SubmitVoucher 1 "7" Registry.redeemsAnother None)) with r.
    reflexivity. }
  eexists. split; [exact Hsubmit |].
  destruct (redeemed_voucher_was_issued_to_the_sender _ _ _ _ _ _ _ Hsubmit)
    as (_ & _ & _ & _ & _ & Hdone & Hbadge & _).
  split; [exact Hbadge | exact Hdone].
Defined.

(** X28: the index of a wallet lists each badge once.  In every state that the
    contract reaches from its initialization, whatever the transactions and
    whatever the inherited token does, [getWalletAchievements] lists no
    token twice, and it lists a token exactly when [hasAchievement] is true
    for it. *)
Theorem achievement_index_lists_each_badge_once `{Registry.OpenZeppelin}
    (b : Registry.Inherited) (baseURI : string)
    (txs : list (Registry.address * Registry.call)) (wallet : Registry.address) :
  NoDup (Registry.getWalletAchievements
           (Registry.transactAll (Registry.initialized b baseURI) txs) wallet)
  /\ forall tokenId,
       Registry.hasAchievement
         (Registry.transactAll (Registry.initialized b baseURI) txs) wallet tokenId = true
       <-> tokenId ∈ Registry.getWalletAchievements
                        (Registry.transactAll (Registry.initialized b baseURI) txs) wallet.
Proof.
  apply (transactAll_keeps Registry.indexConsistent txs (Registry.initialized b baseURI)
           indexConsistent_kept).
  intros other. cbn [Registry.initialized Registry._walletTokenIds Registry._hasTokenId].
  split; [apply NoDup_nil_2 |]. intros tokenId. split; [discriminate |].
  intros Hin. now apply elem_of_nil in Hin.
Qed.

(** X29: badges cannot be transferred.  [safeTransferFrom] and
    [safeBatchTransferFrom] revert for every sender, holder, receiver,
    token and amount, in every state, and before the receiver is called:
    the inherited functions refuse the zero address on either side, and the
    hook of the contract refuses two addresses that are not zero. *)
Theorem badges_cannot_be_transferred `{Registry.OpenZeppelin}
    (s : Registry.state) (msgSender from to : Registry.address) (id value : Z)
    (ids values : list Z)
    (received : Registry.state -> Registry.state * option Registry.reason)
    (calls : Registry.reentry) (refusal : option Registry.reason) :
  (exists e, Registry.safeTransferFrom s msgSender from to id value received = inl e)
  /\ (exists e,
        Registry.safeBatchTransferFrom s msgSender from to ids values received = inl e)
  /\ Registry.transact s
       (msgSender, Registry.SafeTransferFrom from to id value calls refusal) = s
  /\ Registry.transact s
       (msgSender, Registry.SafeBatchTransferFrom from to ids values calls refusal) = s.
Proof.
  split; [apply safeTransferFrom_reverts |].
  split; [apply safeBatchTransferFrom_reverts |].
  unfold Registry.transact. cbn [fst snd Registry.execute].
  destruct (safeTransferFrom_reverts s msgSender from to id value
              (fun s0 => (Registry.reenter s0 calls, refusal))) as [e1 ->].
  destruct (safeBatchTransferFrom_reverts s msgSender from to ids values
              (fun s0 => (Registry.reenter s0 calls, refusal))) as [e2 ->].
  split; reflexivity.
Qed.

(** X30: the metadata file of a badge is named by its achievement number.  For
    a token id that a JavaScript number holds exactly, [_paddedDecimal] is
    the achievement number that the API writes for the task code
    ([taskCodeToAchievementNumber], with the padding of the contract), so
    [uri] is the base URI, the achievement number and [.json]; and the API
    reads the task code back from it. *)
Theorem badge_uri_names_the_achievement_number `{Registry.OpenZeppelin}
    (s : Registry.state) (tokenId : Z) :
  0 <= tokenId <= MAX_SAFE_INTEGER ->
  0 <= Registry.uriPadDigits s ->
  Registry.uri s tokenId
  = Registry._baseDirectoryURI s
    ++ taskCodeToAchievementNumber (Some tokenId) (Z.to_nat (Registry.uriPadDigits s))
    ++ ".json"
  /\ achievementNumberToTaskCode
       (Registry._paddedDecimal tokenId (Registry.uriPadDigits s)) = Some tokenId.
Proof.
  intros Hid Hpad.
  assert (Registry._paddedDecimal tokenId (Registry.uriPadDigits s)
          = taskCodeToAchievementNumber (Some tokenId)
              (Z.to_nat (Registry.uriPadDigits s))) as Hsame.
  { unfold Registry._paddedDecimal, taskCodeToAchievementNumber, taskCode_toString,
      JsString.padStart.
    destruct (Z.leb_spec (Registry.uriPadDigits s)
                (Z.of_nat (String.length (JsString.Z_toString tokenId)))) as [Hle | Hgt].
    - replace (Z.to_nat (Registry.uriPadDigits s)
               - String.length (JsString.Z_toString tokenId))%nat with 0%nat by lia.
      reflexivity.
    - f_equal. f_equal. lia. }
  split.
  - unfold Registry.uri. now rewrite Hsame.
  - rewrite Hsame. unfold achievementNumberToTaskCode, taskCodeToAchievementNumber,
      taskCode_toString. apply parseInt_padStart. lia.
Qed.

Lemma badge_uri_names_the_achievement_number_witness :
  Registry.uri Registry.deployed 1 = "https://static.example/training/0001.json".
Proof.
  rewrite (proj1 (badge_uri_names_the_achievement_number Registry.deployed 1
                    ltac:(unfold MAX_SAFE_INTEGER; lia) ltac:(vm_compute; discriminate))).
  reflexivity.
Defined.
